(** * Pathway frontend: logical plan operators and scope lowering state

    A shallow embedding of two modules of the Python frontend:

    - [python/pathway/internals/graph_runner/state.py], the class
      [ScopeState] that resolves logical universes and columns to engine
      handles, caching every resolution;
    - [python/pathway/internals/table.py], the class [Table] and its
      relational operators.

    Python exceptions are values of [PyError]; a method is a function in the
    state-and-exception monad [Py], in which the state reached before an
    exception is raised is kept, as it is for a Python object mutated before
    a [raise]. *)

From Stdlib Require Import ZArith Lia String List.
From stdpp Require Import base option list gmap strings.

Set Default Proof Using "Type".
Set Warnings "-register-all".
Open Scope string_scope.
Open Scope list_scope.

(** ** Exceptions and the method monad *)

Inductive PyError :=
| OutOfScopeError (msg : string)
| AssertionError (msg : string)
| KeyError (key : string)
| AttributeError (msg : string)
| ValueError (msg : string)
| TypeError (msg : string)
| IndexError (msg : string).

Inductive Outcome (A : Type) :=
| Returned (a : A)
| Raised (e : PyError).
Arguments Returned {A} a.
Arguments Raised {A} e.

Definition Py (St A : Type) : Type := St -> Outcome A * St.

Definition ret {St A} (a : A) : Py St A := fun s => (Returned a, s).

Definition raise {St A} (e : PyError) : Py St A := fun s => (Raised e, s).

Definition bind {St A B} (m : Py St A) (k : A -> Py St B) : Py St B :=
  fun s =>
    match m s with
    | (Returned a, s') => k a s'
    | (Raised e, s') => (Raised e, s')
    end.

Definition gets {St A} (f : St -> A) : Py St A := fun s => (Returned (f s), s).

Definition modify {St} (f : St -> St) : Py St unit := fun s => (Returned tt, f s).

Notation "x <- m ;; k" := (bind m (fun x => k))
  (at level 62, m at next level, right associativity, only parsing).
Notation "m ;;; k" := (bind m (fun _ => k))
  (at level 62, right associativity, only parsing).

(** [for x in xs: body(x)], collecting the values of the body. *)
Fixpoint for_each {St A B} (body : A -> Py St B) (xs : list A) : Py St (list B) :=
  match xs with
  | [] => ret []
  | x :: rest =>
      y <- body x ;;
      ys <- for_each body rest ;;
      ret (y :: ys)
  end.

(** Computations that touch no state: sequencing of outcomes, and the list
    comprehension [[f(x) for x in xs]] whose body may raise. *)
Definition and_then {A B} (o : Outcome A) (k : A -> Outcome B) : Outcome B :=
  match o with
  | Returned a => k a
  | Raised e => Raised e
  end.

Fixpoint comprehension {A B} (f : A -> Outcome B) (xs : list A) : Outcome (list B) :=
  match xs with
  | [] => Returned []
  | x :: rest =>
      and_then (f x) (fun y =>
      and_then (comprehension f rest) (fun ys =>
      Returned (y :: ys)))
  end.

(** [l[i]] of a list: a negative index counts from the end, and [None]
    stands for the [IndexError] of an index out of range. *)
Definition list_getitem {A} (l : list A) (i : Z) : option A :=
  let index := if (i <? 0)%Z then (i + Z.of_nat (length l))%Z else i in
  if (index <? 0)%Z then None else l !! Z.to_nat index.

(** A logical universe is an identity token: Python compares [Universe]
    objects with [==] by identity. *)
Definition Universe := positive.

(** Modelled from the spec: a column path addresses a column inside one
    physical table (module [column_path] is not part of the sources). *)
Definition ColumnPath := list nat.

(** ** Engine handles ([pathway.internals.api]) *)

Module api.
Definition Universe := N.
Definition Table := N.
Record Column := mkColumn { handle : N; universe : Universe }.
Definition Callable := N.

(** The engine scope consumed by the lowering: the three calls of the
    external interface, over an engine state [E] the calls may change. *)
Class Scope (E : Type) := {
  table_universe : E -> Table -> Universe * E;
  table_column : E -> Universe -> Table -> ColumnPath -> Column * E;
  columns_to_table : E -> Universe -> list (Column * ColumnPath) -> Table * E
}.
End api.

(** ** [graph_runner/state.py] *)

Module state.
Section ScopeState.
(** Logical columns are dictionary keys compared by identity; the lowering
    reads their [universe] attribute and tests them for
    [ExternalMaterializedColumn]. *)
Context {Column : Type} `{Countable Column}.
Context (column_universe : Column -> Universe).
Context (is_external_materialized : Column -> bool).
Context {E : Type} `{api.Scope E}.

(** Modelled from the spec: [Storage] (module [path_storage]) is the
    per-universe mapping from columns to column paths within one physical
    table. *)
Record Storage := mkStorage {
  _universe : Universe;
  _column_paths : list (Column * ColumnPath)
}.

Definition storage_get_columns (st : Storage) : list Column :=
  (_column_paths st).*1.

Definition storage_has_column (st : Storage) (c : Column) : bool :=
  bool_decide (c ∈ storage_get_columns st).

Fixpoint assoc_find (c : Column) (l : list (Column * ColumnPath)) : option ColumnPath :=
  match l with
  | [] => None
  | (c', p) :: rest => if decide (c' = c) then Some p else assoc_find c rest
  end.

Record ScopeState := mkScopeState {
  scope : E;
  columns : gmap Column api.Column;
  universes : gmap Universe api.Universe;
  computers : list api.Callable;
  tables : gmap Universe api.Table;
  storages : gmap Universe Storage
}.

Definition __init__ (sc : E) : ScopeState :=
  {| scope := sc; columns := ∅; universes := ∅; computers := [];
     tables := ∅; storages := ∅ |}.

Definition with_scope (e : E) (s : ScopeState) : ScopeState :=
  {| scope := e; columns := columns s; universes := universes s;
     computers := computers s; tables := tables s; storages := storages s |}.

Definition with_columns (m : gmap Column api.Column) (s : ScopeState) : ScopeState :=
  {| scope := scope s; columns := m; universes := universes s;
     computers := computers s; tables := tables s; storages := storages s |}.

Definition with_universes (m : gmap Universe api.Universe) (s : ScopeState) : ScopeState :=
  {| scope := scope s; columns := columns s; universes := m;
     computers := computers s; tables := tables s; storages := storages s |}.

Definition with_computers (l : list api.Callable) (s : ScopeState) : ScopeState :=
  {| scope := scope s; columns := columns s; universes := universes s;
     computers := l; tables := tables s; storages := storages s |}.

Definition with_tables_storages (t : gmap Universe api.Table)
    (st : gmap Universe Storage) (s : ScopeState) : ScopeState :=
  {| scope := scope s; columns := columns s; universes := universes s;
     computers := computers s; tables := t; storages := st |}.

#[local] Abbreviation M := (Py ScopeState).

(** The three engine calls, threading the engine state kept in [scope]. *)
Definition scope_table_universe (t : api.Table) : M api.Universe :=
  fun s => let '(u, e) := api.table_universe (scope s) t in
           (Returned u, with_scope e s).

Definition scope_table_column (u : api.Universe) (t : api.Table) (p : ColumnPath)
    : M api.Column :=
  fun s => let '(c, e) := api.table_column (scope s) u t p in
           (Returned c, with_scope e s).

Definition scope_columns_to_table (u : api.Universe)
    (cols : list (api.Column * ColumnPath)) : M api.Table :=
  fun s => let '(t, e) := api.columns_to_table (scope s) u cols in
           (Returned t, with_scope e s).

Definition storage_get_path (st : Storage) (c : Column) : M ColumnPath :=
  match assoc_find c (_column_paths st) with
  | Some p => ret p
  | None => raise (KeyError "column")
  end.

Definition get_storage (key : Universe) : M Storage :=
  fun s =>
    match storages s !! key with
    | None => (Raised (OutOfScopeError "path storage out of scope"), s)
    | Some st => (Returned st, s)
    end.

Definition get_table (key : Storage) : M api.Table :=
  fun s =>
    match tables s !! _universe key with
    | None => (Raised (KeyError "universe"), s)
    | Some t => (Returned t, s)
    end.

Definition set_table (storage : Storage) (table : api.Table) : M unit :=
  modify (fun s =>
    with_tables_storages (<[_universe storage := table]> (tables s))
                         (<[_universe storage := storage]> (storages s)) s).

Definition set_universe (key : Universe) (value : api.Universe) : M unit :=
  fun s =>
    match universes s !! key with
    | Some cached =>
        if decide (cached = value) then (Returned tt, s)
        else (Raised (AssertionError "overriding already computed universe"), s)
    | None => (Returned tt, with_universes (<[key := value]> (universes s)) s)
    end.

Definition has_universe (key : Universe) : M bool :=
  gets (fun s => bool_decide (is_Some (universes s !! key))).

Definition extract_universe (univ : Universe) : M api.Universe :=
  storage <- get_storage univ ;;
  engine_table <- get_table storage ;;
  engine_universe <- scope_table_universe engine_table ;;
  set_universe univ engine_universe ;;;
  ret engine_universe.

Definition get_universe (key : Universe) : M api.Universe :=
  fun s =>
    match universes s !! key with
    | None => extract_universe key s
    | Some u => (Returned u, s)
    end.

Definition set_column (key : Column) (value : api.Column) : M unit :=
  modify (fun s => with_columns (<[key := value]> (columns s)) s) ;;;
  set_universe (column_universe key) (api.universe value).

Definition extract_column (column : Column) : M api.Column :=
  let univ := column_universe column in
  storage <- get_storage univ ;;
  if negb (storage_has_column storage column)
  then raise (OutOfScopeError "column out of scope")
  else
    engine_table <- get_table storage ;;
    known <- has_universe univ ;;
    engine_universe <- (if negb known then extract_universe univ
                        else get_universe univ) ;;
    column_path <- storage_get_path storage column ;;
    engine_column <- scope_table_column engine_universe engine_table column_path ;;
    set_column column engine_column ;;;
    ret engine_column.

Definition get_column (key : Column) : M api.Column :=
  fun s =>
    match columns s !! key with
    | None => extract_column key s
    | Some column => (Returned column, s)
    end.

(** [try: self.get_column(key); return True
     except OutOfScopeError: return False] *)
Definition has_column (key : Column) : M bool :=
  fun s =>
    match get_column key s with
    | (Returned _, s') => (Returned true, s')
    | (Raised (OutOfScopeError _), s') => (Returned false, s')
    | (Raised e, s') => (Raised e, s')
    end.

Definition get_columns (cols : list Column) : M (list api.Column) :=
  for_each get_column cols.

Definition create_table (universe : Universe) (storage : Storage) : M unit :=
  columns_with_paths <-
    for_each (fun col =>
                engine_column <- get_column col ;;
                path <- storage_get_path storage col ;;
                ret (engine_column, path))
             (filter (fun col => is_external_materialized col = false)
                     (storage_get_columns storage)) ;;
  engine_universe <- get_universe universe ;;
  engine_table <- scope_columns_to_table engine_universe columns_with_paths ;;
  set_table storage engine_table.

Definition add_computer_logic (computer_callback : api.Callable) : M Z :=
  fun s => (Returned (Z.of_nat (length (computers s))),
            with_computers (computers s ++ [computer_callback]) s).

(** [self.computers[id]], for any integer [id]. *)
Definition get_computer_logic (id : Z) : M api.Callable :=
  fun s =>
    match list_getitem (computers s) id with
    | Some c => (Returned c, s)
    | None => (Raised (IndexError "list index out of range"), s)
    end.
(** *** Which calls can raise [OutOfScopeError] *)

(** The call [m] does not raise [OutOfScopeError] from scope [s]. *)
Definition oos_free {A} (m : M A) (s : ScopeState) : Prop :=
  forall msg s', m s <> (Raised (OutOfScopeError msg), s').


(** The column [c] cannot be extracted in scope [s]: no storage is
    registered for its universe, or the registered storage does not
    contain it. *)
Definition out_of_scope (s : ScopeState) (c : Column) : Prop :=
  storages s !! column_universe c = None \/
  exists st, storages s !! column_universe c = Some st /\
             storage_has_column st c = false.
End ScopeState.

(** *** Calls and invariants of a scope *)

Section Calls.
Context {Column : Type} `{Countable Column}.
Context (column_universe : Column -> Universe).
Context (is_external_materialized : Column -> bool).
Context {E : Type} `{api.Scope E}.

#[local] Abbreviation ScopeSt := (@ScopeState Column _ _ E).

(** Every cached column has its universe cached, under the universe of
    its engine handle. *)
Definition cache_consistent (s : ScopeSt) : Prop :=
  forall c h, columns s !! c = Some h ->
    universes s !! column_universe c = Some (api.universe h).

(** Every storage is registered under its own universe, together with an
    engine table. *)
Definition storages_registered (s : ScopeSt) : Prop :=
  forall u st, storages s !! u = Some st ->
    _universe st = u /\ is_Some (tables s !! u).

(** An outcome a caller goes on from: a value, or the [OutOfScopeError]
    that [has_column] catches. *)
Definition goes_on {A} (o : Outcome A) : Prop :=
  match o with
  | Returned _ | Raised (OutOfScopeError _) => True
  | Raised _ => False
  end.

(** The calls of the methods of a scope, and the scopes reached from the
    initial one by calls that return or raise [OutOfScopeError]. *)
Inductive Call :=
| call_set_column (key : Column) (value : api.Column)
| call_get_column (key : Column)
| call_has_column (key : Column)
| call_get_columns (columns : list Column)
| call_set_universe (key : Universe) (value : api.Universe)
| call_get_universe (key : Universe)
| call_has_universe (key : Universe)
| call_extract_universe (univ : Universe)
| call_extract_column (column : Column)
| call_create_table (universe : Universe) (storage : @Storage Column)
| call_set_table (storage : @Storage Column) (table : api.Table)
| call_add_computer_logic (computer_callback : api.Callable)
| call_get_computer_logic (id : Z)
| call_get_table (key : @Storage Column)
| call_get_storage (key : Universe).

Definition perform (c : Call) : Py ScopeSt unit :=
  match c with
  | call_set_column key value => set_column column_universe key value
  | call_get_column key => get_column column_universe key ;;; ret tt
  | call_has_column key => has_column column_universe key ;;; ret tt
  | call_get_columns columns => get_columns column_universe columns ;;; ret tt
  | call_set_universe key value => set_universe key value
  | call_get_universe key => get_universe key ;;; ret tt
  | call_has_universe key => has_universe key ;;; ret tt
  | call_extract_universe univ => extract_universe univ ;;; ret tt
  | call_extract_column column => extract_column column_universe column ;;; ret tt
  | call_create_table universe storage =>
      create_table column_universe is_external_materialized universe storage
  | call_set_table storage table => set_table storage table
  | call_add_computer_logic computer_callback =>
      add_computer_logic computer_callback ;;; ret tt
  | call_get_computer_logic id => get_computer_logic id ;;; ret tt
  | call_get_table key => get_table key ;;; ret tt
  | call_get_storage key => get_storage key ;;; ret tt
  end.

Inductive reachable (sc : E) : ScopeSt -> Prop :=
| reachable_init : reachable sc (__init__ sc)
| reachable_call s c o s' :
    reachable sc s -> perform c s = (o, s') -> goes_on o -> reachable sc s'.

(** No cached universe and no cached column is rebound or dropped. *)
Definition extends_caches (s s' : ScopeSt) : Prop :=
  universes s ⊆ universes s' /\ columns s ⊆ columns s'.

(** What the calls keep, and what they may change.  [keeps I m]: a run of
    [m] from a scope in [I] that the caller goes on from ends in [I];
    [post P m]: every run of [m], whatever its outcome, relates the scope
    before to the scope after by [P]. *)
Definition keeps (I : ScopeSt -> Prop) {A} (m : Py ScopeSt A) : Prop :=
  forall s o s', I s -> m s = (o, s') -> goes_on o -> I s'.

Definition invariant (s : ScopeSt) : Prop :=
  cache_consistent s /\ storages_registered s.

Definition post {A} (P : ScopeSt -> ScopeSt -> Prop) (m : Py ScopeSt A) : Prop :=
  forall s o s', m s = (o, s') -> P s s'.

(** The universe cache grew and the column cache is the same. *)
Definition same_columns (s s' : ScopeSt) : Prop :=
  universes s ⊆ universes s' /\ columns s' = columns s.

(** [set_column] grows the universe cache, and binds [key] in the column
    cache. *)
Definition binds (key : Column) (s s' : ScopeSt) : Prop :=
  universes s ⊆ universes s' /\
  exists value, columns s' = <[key := value]> (columns s).

(** [extract_column] either leaves the column cache as it is, or binds
    the column. *)
Definition same_or_binds (key : Column) (s s' : ScopeSt) : Prop :=
  same_columns s s' \/ binds key s s'.
End Calls.

(** *** Legacy tables, context tables and evaluators

    The remaining fields of a scope, [legacy_tables] and [evaluators],
    kept beside the fields above, and the methods that use them.  Tables
    and contexts are dictionary keys compared by identity; the lowering
    reads the universe, the columns and the identity column of a table. *)

Section LegacyTables.
Context {Column : Type} `{Countable Column}.
Context (column_universe : Column -> Universe).
Context (is_external_materialized : Column -> bool).
Context {E : Type} `{api.Scope E}.
Context {Table : Type} `{Countable Table}.
Context (table_universe : Table -> Universe).
Context (table_columns : Table -> list (string * Column)).
Context (table_id_column : Table -> Column).
Context {Context_ : Type} `{Countable Context_}.
Context {Evaluator : Type}.

(** [api.Universe.id_column] *)
Context (universe_id_column : api.Universe -> api.Column).

(** [api.LegacyTable] *)
Record LegacyTable := mkLegacyTable {
  legacy_universe : api.Universe;
  legacy_columns : list api.Column
}.

(** [column.ContextTable] *)
Record ContextTable := mkContextTable {
  context_universe : Universe;
  context_columns : list Column
}.

Record LegacyScopeState := mkLegacyScopeState {
  base : @ScopeState Column _ _ E;
  legacy_tables : gmap Table LegacyTable;
  evaluators : gmap Context_ Evaluator
}.

#[local] Abbreviation L := (Py LegacyScopeState).

(** A method of the fields above, run on the whole scope. *)
Definition on_base {A} (m : Py (@ScopeState Column _ _ E) A) : L A :=
  fun s =>
    let '(o, b) := m (base s) in
    (o, {| base := b; legacy_tables := legacy_tables s;
           evaluators := evaluators s |}).

Definition set_legacy_table (key : Table) (value : LegacyTable) : L unit :=
  modify (fun s =>
    {| base := base s; legacy_tables := <[key := value]> (legacy_tables s);
       evaluators := evaluators s |}) ;;;
  on_base (set_column column_universe (table_id_column key)
             (universe_id_column (legacy_universe value))) ;;;
  for_each (fun ce =>
      on_base (set_column column_universe ce.1.2 ce.2))
    (zip (table_columns key) (legacy_columns value)) ;;;
  ret tt.

Definition set_legacy_tables (keys : list Table) (values : list LegacyTable)
    : L unit :=
  for_each (fun kv => set_legacy_table kv.1 kv.2) (zip keys values) ;;;
  ret tt.

Definition get_legacy_table (key : Table) : L LegacyTable :=
  fun s =>
    match legacy_tables s !! key with
    | Some table => (Returned table, s)
    | None =>
        (universe <- on_base (get_universe (table_universe key)) ;;
         columns <- on_base (get_columns column_universe
                               (map snd (table_columns key))) ;;
         let table := mkLegacyTable universe columns in
         modify (fun s =>
           {| base := base s; legacy_tables := <[key := table]> (legacy_tables s);
              evaluators := evaluators s |}) ;;;
         ret table) s
    end.

(** [try: self.get_legacy_table(key); return True
     except OutOfScopeError: return False] *)
Definition has_legacy_table (key : Table) : L bool :=
  fun s =>
    match get_legacy_table key s with
    | (Returned _, s') => (Returned true, s')
    | (Raised (OutOfScopeError _), s') => (Returned false, s')
    | (Raised e, s') => (Raised e, s')
    end.

Definition get_legacy_tables (tables : list Table) : L (list LegacyTable) :=
  for_each get_legacy_table tables.

Definition get_context_table (key : ContextTable) : L LegacyTable :=
  universe <- on_base (get_universe (context_universe key)) ;;
  columns <- on_base (for_each (get_column column_universe) (context_columns key)) ;;
  ret (mkLegacyTable universe columns).

(** [evaluator_factory] is a callback; it may use the scope. *)
Definition get_or_create_evaluator (context : Context_)
    (evaluator_factory : Context_ -> L Evaluator) : L Evaluator :=
  fun s =>
    match evaluators s !! context with
    | Some evaluator => (Returned evaluator, s)
    | None =>
        (evaluator <- evaluator_factory context ;;
         modify (fun s =>
           {| base := base s; legacy_tables := legacy_tables s;
              evaluators := <[context := evaluator]> (evaluators s) |}) ;;;
         fun s =>
           match evaluators s !! context with
           | Some evaluator => (Returned evaluator, s)
           | None => (Raised (KeyError "context"), s)
           end) s
    end.

(** The calls of all the methods of [ScopeState]: the calls of [Call], run
    on the whole scope, and the calls of the methods of this section. *)
Inductive MethodCall :=
| method_call (c : @Call Column)
| method_set_legacy_tables (keys : list Table) (values : list LegacyTable)
| method_set_legacy_table (key : Table) (value : LegacyTable)
| method_get_legacy_table (key : Table)
| method_has_legacy_table (key : Table)
| method_get_legacy_tables (tables : list Table)
| method_get_context_table (key : ContextTable)
| method_get_or_create_evaluator (context : Context_)
    (evaluator_factory : Context_ -> L Evaluator).

Definition perform_method (c : MethodCall) : L unit :=
  match c with
  | method_call c => on_base (perform column_universe is_external_materialized c)
  | method_set_legacy_tables keys values => set_legacy_tables keys values
  | method_set_legacy_table key value => set_legacy_table key value
  | method_get_legacy_table key => get_legacy_table key ;;; ret tt
  | method_has_legacy_table key => has_legacy_table key ;;; ret tt
  | method_get_legacy_tables tables => get_legacy_tables tables ;;; ret tt
  | method_get_context_table key => get_context_table key ;;; ret tt
  | method_get_or_create_evaluator context evaluator_factory =>
      get_or_create_evaluator context evaluator_factory ;;; ret tt
  end.

(** [universes_grow s s']: no cached universe of [s] is rebound or dropped
    in [s']; [caches_grow s s']: no cached universe and no cached column
    is. *)
Definition universes_grow (s s' : LegacyScopeState) : Prop :=
  universes (base s) ⊆ universes (base s').

Definition caches_grow (s s' : LegacyScopeState) : Prop :=
  universes (base s) ⊆ universes (base s') /\ columns (base s) ⊆ columns (base s').

(** [after P m]: every run of [m], whatever its outcome, relates the scope
    before to the scope after by [P]. *)
Definition after {A} (P : LegacyScopeState -> LegacyScopeState -> Prop) (m : L A)
    : Prop :=
  forall s o s', m s = (o, s') -> P s s'.

(** The dictionary after the assignments [d[key] = value] of a list of
    pairs, in order, as the loops of [set_legacy_table] and
    [set_legacy_tables] make them. *)
Definition assigned {K V : Type} `{Countable K} (l : list (K * V))
    (m : gmap K V) : gmap K V :=
  foldl (fun m kv => <[kv.1 := kv.2]> m) m l.
End LegacyTables.
End state.

(** ** Python dictionaries with string keys

    A [dict] keeps insertion order and has one entry per key: assigning an
    existing key replaces the value in place, a new key goes last. *)

Module pydict.
Section Dict.
Context {V : Type}.

Definition dict := list (string * V).

Definition keys (d : dict) : list string := map fst d.

Definition values (d : dict) : list V := map snd d.

Fixpoint get (k : string) (d : dict) : option V :=
  match d with
  | [] => None
  | (k', v) :: rest => if decide (k' = k) then Some v else get k rest
  end.

Definition contains (k : string) (d : dict) : bool :=
  bool_decide (k ∈ keys d).

(** [d[k] = v] *)
Fixpoint set (k : string) (v : V) (d : dict) : dict :=
  match d with
  | [] => [(k, v)]
  | (k', v') :: rest =>
      if decide (k' = k) then (k', v) :: rest else (k', v') :: set k v rest
  end.

(** [dict(items)] and the dictionary comprehension over [items]. *)
Definition of_items (items : list (string * V)) : dict :=
  fold_left (fun d kv => set kv.1 kv.2 d) items [].

(** [d.update(other)] *)
Definition update (d other : dict) : dict :=
  fold_left (fun d kv => set kv.1 kv.2 d) other d.

(** [d.pop(k)]: the dictionary without [k], [None] for a [KeyError]. *)
Fixpoint pop (k : string) (d : dict) : option dict :=
  match d with
  | [] => None
  | (k', v) :: rest =>
      if decide (k' = k) then Some rest
      else rest' ← pop k rest; Some ((k', v) :: rest')
  end.
End Dict.
Arguments dict V : clear implicits.

(** [a.keys() == b.keys()]: key views compare as sets. *)
Definition keys_equal (a b : list string) : bool :=
forallb (fun k => bool_decide (k ∈ b)) a && forallb (fun k => bool_decide (k ∈ a)) b.
End pydict.

(** ** Data types

    Modelled from the spec: module [dtype] is not part of the sources.  The
    types are the lattice of section 4.A: integers, floats, booleans,
    strings, timestamps, pointers, optionals, arrays and tuples, and [NONE],
    the type of the constant [None].
    [unoptionalize] strips one level of optionality, [dtype_issubclass] accepts
    [a] below [Optional b] when [a] is [b] or [Optional b], and [types_lca] is
    the least common supertype, a [TypeError] when there is none. *)

Module dt.
Inductive DType :=
| NONE | INT | FLOAT | BOOL | STR | DATE_TIME | POINTER | ARRAY
| Optional (wrapped : DType)
| Tuple (args : list DType).

Definition DType_eq_dec : forall a b : DType, {a = b} + {a <> b}.
Proof.
  fix IH 1. intros a b. decide equality. apply (List.list_eq_dec IH).
Defined.

#[global] Instance DType_eq_decision : EqDecision DType := DType_eq_dec.

(** [isinstance(t, dt.Pointer)] *)
Definition is_Pointer (t : DType) : bool :=
  match t with POINTER => true | _ => false end.

(** [isinstance(t, dt.Optional)] *)
Definition is_Optional (t : DType) : bool :=
  match t with Optional _ => true | _ => false end.

Definition unoptionalize (t : DType) : DType :=
  match t with Optional w => w | _ => t end.

Fixpoint dtype_issubclass (left right : DType) : bool :=
  match right with
  | Optional r =>
      match left with
      | Optional l => dtype_issubclass l r
      | _ => dtype_issubclass left r
      end
  | FLOAT => bool_decide (left = FLOAT) || bool_decide (left = INT)
  | _ => bool_decide (left = right)
  end.

Definition base_lca (a b : DType) : option DType :=
  if decide (a = b) then Some a
  else match a, b with
       | INT, FLOAT | FLOAT, INT => Some FLOAT
       | _, _ => None
       end.

Definition types_lca (a b : DType) : Outcome DType :=
  if decide (a = b) then Returned a
  else match base_lca (unoptionalize a) (unoptionalize b) with
       | Some c => Returned (if is_Optional a || is_Optional b then Optional c else c)
       | None => Raised (TypeError "no common supertype")
       end.

(** [functools.reduce(types_lca, dtypes, initial)] *)
Fixpoint reduce_types_lca (dtypes : list DType) (initial : DType) : Outcome DType :=
  match dtypes with
  | [] => Returned initial
  | ty :: rest =>
      match types_lca initial ty with
      | Returned acc => reduce_types_lca rest acc
      | Raised e => Raised e
      end
  end.
End dt.

(** ** The universe solver

    The solver (module [universe_solver]) is reached through the global
    parse graph [G]; the operators only use the calls below.  [S] is the
    solver's state: queries read it, the [get_*] calls and the promises may
    extend it.  [new_universe] is the constructor call [Universe()], which
    hands out a token no earlier call returned. *)

Class UniverseSolver (S : Type) := {
  new_universe : S -> Universe * S;
  query_are_equal : S -> Universe -> Universe -> bool;
  query_is_subset : S -> Universe -> Universe -> bool;
  query_are_disjoint : S -> list Universe -> bool;
  get_subset : S -> Universe -> Universe * S;
  get_union : S -> list Universe -> Universe * S;
  get_intersection : S -> list Universe -> Universe * S;
  get_difference : S -> Universe -> Universe -> Universe * S;
  register_as_empty : S -> Universe -> S;
  promise_are_equal : S -> Universe -> Universe -> Outcome unit * S;
  promise_are_pairwise_disjoint : S -> list Universe -> Outcome unit * S
}.

(** ** [table.py]: the logical plan *)

Module table.

(** *** Columns, contexts, expressions and tables

  The four classes refer to each other: a column with expression holds its
  context and its expression, a column reference holds the table and the
  column it names, a context holds the columns it consumes.  Modelled from
  the spec (modules [column] and [expression] are not part of the
  sources): the variants and fields are those of section 3, the constructor
  arguments are in the order [table.py] passes them.  A reducer is an
  expression that names the reducer, the type it returns and its
  arguments; the grouped context, under which a reducer is valid, holds
  the universe of the grouped table, the grouping columns and whether the
  identity is set from them. *)

Record ColumnProperties := mkColumnProperties {
dtype : dt.DType;
append_only : bool
}.

Definition Schema := pydict.dict ColumnProperties.

Inductive Value :=
| VNone
| VBool (b : bool)
| VInt (z : Z)
| VStr (s : string).

Inductive BinOp := OpEq | OpNe | OpLt | OpLe | OpGt | OpGe | OpAnd | OpOr.

Inductive Column :=
| MaterializedColumn (universe : Universe) (properties : ColumnProperties)
| ColumnWithExpression (context : Context) (universe : Universe)
  (expression : ColumnExpression)
| IdColumn (context : Context)
with Context :=
| RowwiseContext (universe : Universe)
| FilterContext (universe : Universe) (filtering_column : Column)
  (universe_to_filter : Universe)
| ForgetContext (universe orig_universe : Universe)
  (threshold_column time_column : Column) (mark_forgetting_records : bool)
| FilterOutForgettingContext (universe orig_universe : Universe)
| FreezeContext (universe orig_universe : Universe)
  (threshold_column time_column : Column)
| BufferContext (universe orig_universe : Universe)
  (threshold_column time_column : Column)
| DifferenceContext (universe left right : Universe)
| RestrictContext (universe orig_universe : Universe)
| IntersectContext (universe : Universe) (intersecting_universes : list Universe)
| ReindexContext (universe : Universe) (reindex_column : Column)
| IxContext (universe orig_universe : Universe) (key_column : Column)
  (optional : bool)
| ConcatUnsafeContext (universe : Universe) (union_universes : list Universe)
  (updates : list (list (string * Column)))
| UpdateCellsContext (universe : Universe) (union_universes : list Universe)
  (updates : list (string * Column))
| UpdateRowsContext (universe : Universe) (union_universes : list Universe)
  (updates : list (string * Column))
| HavingContext (universe orig_universe : Universe) (key_column : Column)
| PromiseSameUniverseContext (universe orig_universe : Universe)
| FlattenContext (universe orig_universe : Universe)
  (flatten_column flatten_result_column : Column)
| SortingContext (universe : Universe)
  (key_column instance_column prev_column next_column : Column)
| GroupedContext (universe orig_universe : Universe)
  (grouping_columns : list Column) (set_id : bool)
with ColumnExpression :=
| ColumnReference (table : Table) (column : Column) (name : string)
| ColumnConstExpression (val : Value)
| PointerExpression (table : Table) (args : list ColumnExpression) (optional : bool)
| IsNotNoneExpression (e : ColumnExpression)
| IsNoneExpression (e : ColumnExpression)
| DeclareTypeExpression (return_type : dt.DType) (e : ColumnExpression)
| CastExpression (return_type : dt.DType) (e : ColumnExpression)
| ColumnBinaryOpExpression (op : BinOp) (left right : ColumnExpression)
| ReducerExpression (reducer : string) (return_type : dt.DType)
  (args : list ColumnExpression)
with Table :=
| mkTable (obj : positive)
  (columns : list (string * Column)) (universe : Universe)
  (pk_columns : list (string * Column)) (schema : Schema)
  (id_column : Column).

(** The identity of a table object: Python compares tables with [is] and
  [==] by identity, and every call of the constructor makes a new object. *)
Definition obj (t : Table) : positive :=
match t with mkTable o _ _ _ _ _ => o end.

Definition _columns (t : Table) : pydict.dict Column :=
match t with mkTable _ c _ _ _ _ => c end.

Definition _universe (t : Table) : Universe :=
match t with mkTable _ _ u _ _ _ => u end.

Definition _pk_columns (t : Table) : pydict.dict Column :=
match t with mkTable _ _ _ pk _ _ => pk end.

Definition _schema (t : Table) : Schema :=
match t with mkTable _ _ _ _ s _ => s end.

Definition _id_column (t : Table) : Column :=
match t with mkTable _ _ _ _ _ i => i end.

(** [self._context = clmn.RowwiseContext(self._universe)] *)
Definition _context (t : Table) : Context := RowwiseContext (_universe t).

Definition keys (t : Table) : list string := pydict.keys (_columns t).

(** [context.universe] *)
Definition context_universe (c : Context) : Universe :=
match c with
| RowwiseContext u | FilterContext u _ _ | ForgetContext u _ _ _ _
| FilterOutForgettingContext u _ | FreezeContext u _ _ _
| BufferContext u _ _ _ | DifferenceContext u _ _ | RestrictContext u _
| IntersectContext u _ | ReindexContext u _ | IxContext u _ _ _
| ConcatUnsafeContext u _ _ | UpdateCellsContext u _ _
| UpdateRowsContext u _ _ | HavingContext u _ _
| PromiseSameUniverseContext u _ | FlattenContext u _ _ _
| SortingContext u _ _ _ _ | GroupedContext u _ _ _ => u
end.

(** [column.universe]; an [IdColumn] is bound to the universe of its
  context. *)
Definition column_universe (c : Column) : Universe :=
match c with
| MaterializedColumn u _ => u
| ColumnWithExpression _ u _ => u
| IdColumn ctx => context_universe ctx
end.

(** *** The type interpreter

  Modelled from the spec (module [type_interpreter] is not part of the
  sources): typing is by structural evaluation.  A column reference has
  the type of its column, a pointer constructor a pointer type, a test
  for [None], a comparison and a logical connective are booleans, a
  declared or cast expression has the type it names, and a reducer the
  type it returns. *)

Definition value_dtype (v : Value) : dt.DType :=
match v with
| VNone => dt.NONE
| VBool _ => dt.BOOL
| VInt _ => dt.INT
| VStr _ => dt.STR
end.

Fixpoint column_dtype (c : Column) : dt.DType :=
match c with
| MaterializedColumn _ p => dtype p
| ColumnWithExpression _ _ e => expression_dtype e
| IdColumn _ => dt.POINTER
end
with expression_dtype (e : ColumnExpression) : dt.DType :=
match e with
| ColumnReference _ c _ => column_dtype c
| ColumnConstExpression v => value_dtype v
| PointerExpression _ _ optional =>
    if optional then dt.Optional dt.POINTER else dt.POINTER
| IsNotNoneExpression _ | IsNoneExpression _ => dt.BOOL
| DeclareTypeExpression t _ | CastExpression t _ => t
| ColumnBinaryOpExpression _ _ _ => dt.BOOL
| ReducerExpression _ t _ => t
end.

(** [column.properties]: expression and id columns are not append-only. *)
Definition column_properties (c : Column) : ColumnProperties :=
match c with
| MaterializedColumn _ p => p
| _ => {| dtype := column_dtype c; append_only := false |}
end.

(** Modelled from the spec: [schema_from_columns] (module [schema]) gives
  the ordered mapping from the names of the columns to their types. *)
Definition schema_from_columns (columns : pydict.dict Column) : Schema :=
map (fun nc => (nc.1, column_properties nc.2)) columns.

(** [schema.column_names()] *)
Definition column_names (s : Schema) : list string := pydict.keys s.

(** [schema._dtypes()[key]], [schema.__dtypes__[key]] and
  [schema.typehints()[key]] *)
Definition schema_dtype (s : Schema) (key : string) : option dt.DType :=
dtype <$> pydict.get key s.

(** [expression._dependencies_above_reducer()]: the columns referred to
  outside the arguments of a reducer. *)
Fixpoint _dependencies (e : ColumnExpression) : list Column :=
match e with
| ColumnReference _ c _ => [c]
| ColumnConstExpression _ => []
| PointerExpression _ args _ => flat_map _dependencies args
| IsNotNoneExpression e | IsNoneExpression e
| DeclareTypeExpression _ e | CastExpression _ e => _dependencies e
| ColumnBinaryOpExpression _ l r => _dependencies l ++ _dependencies r
| ReducerExpression _ _ _ => []
end.

(** The column references outside the arguments of a reducer, as
  [(table, column, name)]. *)
Fixpoint references_above_reducer (e : ColumnExpression)
  : list (Table * Column * string) :=
match e with
| ColumnReference t c n => [(t, c, n)]
| ColumnConstExpression _ => []
| PointerExpression _ args _ => flat_map references_above_reducer args
| IsNotNoneExpression e | IsNoneExpression e
| DeclareTypeExpression _ e | CastExpression _ e => references_above_reducer e
| ColumnBinaryOpExpression _ l r =>
    references_above_reducer l ++ references_above_reducer r
| ReducerExpression _ _ _ => []
end.

(** Modelled from the spec: [collect_tables] returns the tables of the
  column references of a subtree. *)
Fixpoint collect_tables (e : ColumnExpression) : list Table :=
match e with
| ColumnReference t _ _ => [t]
| ColumnConstExpression _ => []
| PointerExpression _ args _ => flat_map collect_tables args
| IsNotNoneExpression e | IsNoneExpression e
| DeclareTypeExpression _ e | CastExpression _ e => collect_tables e
| ColumnBinaryOpExpression _ l r => collect_tables l ++ collect_tables r
| ReducerExpression _ _ args => flat_map collect_tables args
end.

(** Modelled from the spec: [get_column_filtered_by_is_none] recognizes the
  syntactic pattern [col is not None] and returns the column reference
  [(table, column, name)]. *)
Definition get_column_filtered_by_is_none (e : ColumnExpression)
  : option (Table * Column * string) :=
match e with
| IsNotNoneExpression (ColumnReference t c n) => Some (t, c, n)
| _ => None
end.

(** *** Table invariants

  [columns_in_universe t]: every column of [t] is bound to the universe of
  [t].  [schema_matches t]: the schema lists the names of the columns in
  the order of the column mapping.  [is_dict]: one entry per key. *)
Definition columns_in_universe (t : Table) : Prop :=
Forall (fun c => column_universe c = _universe t) (pydict.values (_columns t)).

Definition schema_matches (t : Table) : Prop :=
column_names (_schema t) = keys t.

Definition is_dict (t : Table) : Prop := NoDup (keys t).

(** A table as the constructor is meant to receive it: the column mapping is
  a dictionary that does not use the reserved name [id], and the
  invariants above hold, for the identity column as well. *)
Record well_formed (t : Table) : Prop := mkWellFormed {
wf_dict : is_dict t;
wf_no_id : "id" ∉ keys t;
wf_columns : columns_in_universe t;
wf_id_column : column_universe (_id_column t) = _universe t;
wf_schema : schema_matches t
}.


(** [built t columns universe pk_columns id_column]: the table [t] is what
    the constructor makes of these arguments when no schema is given. *)
Definition built (t : Table) (columns : pydict.dict Column) (universe : Universe)
    (pk_columns : pydict.dict Column) (id_column : Column) : Prop :=
  _columns t = columns /\ _universe t = universe /\ _pk_columns t = pk_columns /\
  _schema t = schema_from_columns columns /\ _id_column t = id_column.

(** The type of the column [name] of a table, when it has one. *)
Definition dtype_of (t : Table) (name : string) : option dt.DType :=
  column_dtype <$> pydict.get name (_columns t).

(** What [update_types] and [cast_to_types] establish: a well-formed table
    over the same universe with the same column names, in which a column
    named by [kwargs] has the type given there and every other column the
    type it had. *)
Definition retyped (self : Table) (kwargs : pydict.dict dt.DType) (t : Table) : Prop :=
  well_formed t /\ keys t = keys self /\ _universe t = _universe self /\
  _pk_columns t = _pk_columns self /\
  _schema t = schema_from_columns (_columns t) /\
  forall n, dtype_of t n =
            (fun c => default (column_dtype c) (pydict.get n kwargs))
              <$> pydict.get n (_columns self).

(** A column reference [(table, column, name)] handed to an operator that
  takes references only. *)
Definition ColRef : Type := Table * Column * string.

Definition colref_expr (r : ColRef) : ColumnExpression :=
ColumnReference r.1.1 r.1.2 r.2.

(** [self.id] *)
Definition id (self : Table) : ColRef := (self, _id_column self, "id").

(** [self.eval_type(expression)] *)
Definition eval_type (self : Table) (expression : ColumnExpression) : dt.DType :=
expression_dtype expression.

(** [self._wrap_column_in_context(context, column, name)] *)
Definition _wrap_column_in_context (self : Table) (context : Context)
  (column : Column) (name : string) : Column :=
ColumnWithExpression context (context_universe context)
  (ColumnReference self column name).

(** [self._eval(expression, context)] *)
Definition _eval (self : Table) (expression : ColumnExpression)
  (context : option Context) : Column :=
let context := default (_context self) context in
ColumnWithExpression context (context_universe context) expression.

(** [{name: self._wrap_column_in_context(context, column, name)
    for name, column in columns.items()}] *)
Definition wrap_columns (self : Table) (context : Context)
  (columns : pydict.dict Column) : pydict.dict Column :=
pydict.of_items
  (map (fun nc => (nc.1, _wrap_column_in_context self context nc.2 nc.1)) columns).

(** [combine_args_kwargs] (module [desugaring]) is not part of the sources.
  What [table.py] makes of it is taken from its uses there: it turns the
  positional arguments, which are column references, and the keyword
  arguments of an operator into one dictionary of named expressions, a
  reference under its own name, as [__getitem__] needs for a list of
  names, and a keyword argument under its keyword, as [with_columns]
  needs for the dictionary of its columns, the references first, as in
  the example of [from_columns].  What it makes of a positional argument
  that is not a column reference, of a name that is given twice, or of the
  reserved name [id], is left open: [irregular_arguments] is any function
  to an outcome. *)
Class Desugaring := {
irregular_arguments :
  list ColumnExpression -> pydict.dict ColumnExpression ->
  Outcome (pydict.dict ColumnExpression)
}.

(** The name of a positional argument that is a column reference. *)
Definition smart_name (e : ColumnExpression) : option (string * ColumnExpression) :=
match e with
| ColumnReference _ _ n => Some (n, e)
| _ => None
end.

Definition smart_names (args : list ColumnExpression)
  : option (list (string * ColumnExpression)) :=
mapM smart_name args.

Definition regular_names (items : list (string * ColumnExpression)) : bool :=
bool_decide (NoDup (pydict.keys items) /\ "id" ∉ pydict.keys items).

Definition combine_args_kwargs `{Desugaring} (args : list ColumnExpression)
  (kwargs : pydict.dict ColumnExpression) : Outcome (pydict.dict ColumnExpression) :=
match smart_names args with
| Some named =>
    if regular_names (named ++ kwargs)
    then Returned (named ++ kwargs)
    else and_then (irregular_arguments args kwargs)
           (fun d => Returned (pydict.of_items d))
| None =>
    and_then (irregular_arguments args kwargs)
      (fun d => Returned (pydict.of_items d))
end.

(** Modelled from the spec: [declare_type] and [cast] (module [common])
  build the type declaration and the cast of an expression. *)
Definition declare_type (target_type : dt.DType) (col : ColumnExpression)
  : ColumnExpression := DeclareTypeExpression target_type col.

Definition cast (target_type : dt.DType) (col : ColumnExpression)
  : ColumnExpression := CastExpression target_type col.

(** An argument that is a column name or a column reference. *)
Inductive NameOrRef :=
| ByName (name : string)
| ByRef (ref : ColRef).

(** The argument [context] of [ix]: a table, [pathway.this], or a grouped
  table; and what [ix] returns: a table, or a delayed operation on
  [pathway.this]. *)
Inductive IxContextArg :=
| CtxTable (t : Table)
| CtxThis
| CtxGrouped.

Inductive IxResult :=
| IxTable (t : Table)
| IxDelayedOp.

(** The argument [context] of [ix] stands for the table [context]: it is
    that table, or it is omitted and every column reference of the key
    expression is to that table. *)
Definition in_context (expression : ColumnExpression) (arg : option IxContextArg)
    (context : Table) : Prop :=
  arg = Some (CtxTable context) \/
  (arg = None /\
   exists rest, collect_tables expression = context :: rest /\
                forallb (fun tab => Pos.eqb (obj tab) (obj context)) rest = true).

(** The error of [ix] for a key that is not a pointer, and the warning of
    [update_rows] when it returns its argument. *)
Definition ix_type_error : PyError :=
  TypeError "Pathway supports indexing with Pointer type only.".

Definition update_rows_warning : string :=
  "Universe of self is a subset of universe of other in update_rows. Returning other.".

(** The table [t] has the column names of [self], in the same order, and
    every column has the type it has in [self]. *)
Definition same_columns (self t : Table) : Prop :=
  keys t = keys self /\ forall n, dtype_of t n = dtype_of self n.

(** The column of the name [n], the identity column when there is none. *)
Definition column_of (self : Table) (n : string) : Column :=
  default (_id_column self) (pydict.get n (_columns self)).

Section Operators.
Context {S : Type} `{UniverseSolver S}.
Context `{Desugaring}.

(** The global state of plan construction: the parse graph [G] with its
    universe solver and operator nodes, the allocator of table objects,
    and the warnings issued through [warnings.warn]. *)
Record ParseGraph := mkParseGraph {
  universe_solver : S;
  node_id_sequence : nat;
  nodes : list (nat * string);
  objects : positive;
  warnings : list string
}.

#[local] Abbreviation M := (Py ParseGraph).

Definition with_solver (s : S) (g : ParseGraph) : ParseGraph :=
  {| universe_solver := s; node_id_sequence := node_id_sequence g;
     nodes := nodes g; objects := objects g; warnings := warnings g |}.

Definition lift {A} (o : Outcome A) : M A := fun g => (o, g).

(** [assert cond] *)
Definition assert (cond : bool) : M unit :=
  if cond then ret tt else raise (AssertionError "").

Definition solver_query {A} (q : S -> A) : M A :=
  gets (fun g => q (universe_solver g)).

Definition solver_call {A} (c : S -> A * S) : M A :=
  fun g => let '(a, s) := c (universe_solver g) in (Returned a, with_solver s g).

Definition solver_promise (c : S -> Outcome unit * S) : M unit :=
  fun g => let '(o, s) := c (universe_solver g) in (o, with_solver s g).

(** Modelled from the spec: the methods of [Universe] (module [universe])
    delegate to the solver of the global parse graph. *)
Definition subset (u : Universe) : M Universe :=
  solver_call (fun s => get_subset s u).

Definition is_subset_of (u v : Universe) : M bool :=
  solver_query (fun s => query_is_subset s u v).

Definition is_equal_to (u v : Universe) : M bool :=
  solver_query (fun s => query_are_equal s u v).

(** [Universe()] *)
Definition Universe_ : M Universe := solver_call new_universe.

(** [warnings.warn(msg)] *)
Definition warn (msg : string) : M unit :=
  modify (fun g =>
    {| universe_solver := universe_solver g;
       node_id_sequence := node_id_sequence g; nodes := nodes g;
       objects := objects g; warnings := warnings g ++ [msg] |}).

(** Modelled from the spec: the decorator [contextualized_operator]
    (module [decorators]) records the call as an operator node of the parse
    graph: it allocates the node id, runs the operator, and adds the
    node. *)
Definition contextualized_operator {A} (name : string) (body : M A) : M A :=
  node_id <- (fun g =>
    (Returned (node_id_sequence g),
     {| universe_solver := universe_solver g;
        node_id_sequence := Datatypes.S (node_id_sequence g);
        nodes := nodes g; objects := objects g; warnings := warnings g |})) ;;
  result <- body ;;
  modify (fun g =>
    {| universe_solver := universe_solver g;
       node_id_sequence := node_id_sequence g;
       nodes := nodes g ++ [(node_id, name)];
       objects := objects g; warnings := warnings g |}) ;;;
  ret result.

(** [Table.__init__]: a new table object. *)
Definition __init__ (columns : pydict.dict Column) (universe : Universe)
    (pk_columns : pydict.dict Column) (schema : option Schema)
    (id_column : option Column) : M Table :=
  fun g =>
    let schema := match schema with
                  | None => schema_from_columns columns
                  | Some schema => schema
                  end in
    (Returned (mkTable (objects g) columns universe pk_columns schema
                 (default (IdColumn (RowwiseContext universe)) id_column)),
     {| universe_solver := universe_solver g;
        node_id_sequence := node_id_sequence g; nodes := nodes g;
        objects := Pos.succ (objects g); warnings := warnings g |}).

Definition _get_colref_by_name (self : Table) (name : string)
    (exception_type : string -> PyError) : M ColRef :=
  if decide (name = "id") then ret (id self)
  else if negb (pydict.contains name (_columns self))
  then raise (exception_type "Table has no column with name.")
  else match pydict.get name (_columns self) with
       | Some column => ret (self, column, name)
       | None => raise (KeyError name)
       end.

(** [self[name]] and [self[colref]] *)
Definition __getitem__ (self : Table) (args : NameOrRef) : M ColRef :=
  match args with
  | ByRef r =>
      if negb (Pos.eqb (obj r.1.1) (obj self))
      then raise (ValueError
        "Table.__getitem__ argument has to be a ColumnReference to the same table or pw.this, or a string (or a list of those).")
      else _get_colref_by_name self r.2 KeyError
  | ByName name => _get_colref_by_name self name KeyError
  end.

(** Modelled from the spec: iterating a table yields the references to
    its columns, [self[name] for name in self.keys()]. *)
Definition __iter__ (self : Table) : M (list ColRef) :=
  for_each (fun name => __getitem__ self (ByName name)) (keys self).

(** [dict(self)] *)
Definition as_dict (self : Table) : M (pydict.dict ColumnExpression) :=
  items <- for_each (fun name =>
             r <- __getitem__ self (ByName name) ;; ret (name, colref_expr r))
           (keys self) ;;
  ret (pydict.of_items items).

Definition _validate_expression (self : Table) (expression : ColumnExpression)
    : M unit :=
  for_each (fun dep =>
      if negb (Pos.eqb (_universe self) (column_universe dep))
      then raise (ValueError
        "You cannot use this reference in this context. Its universe is different than the universe of the table the method was called on.")
      else ret tt)
    (_dependencies expression) ;;;
  ret tt.

Definition _table_with_context (self : Table) (context : Context) : M Table :=
  let columns := wrap_columns self context (_columns self) in
  __init__ columns (context_universe context) (_pk_columns self) None
    (Some (IdColumn context)).

Definition _with_same_universe (self : Table)
    (columns : list (string * Column)) (schema : option Schema) : M Table :=
  __init__ (pydict.of_items columns) (_universe self) (_pk_columns self) schema
    (Some (IdColumn (_context self))).

(** A call [self.method(..., **kwargs)] of a method that is declared as
    [def method(self, ..., **kwargs)]: the keyword [self] is the parameter
    [self] given twice, and Python raises [TypeError] for it.  The
    decorators of the methods are not part of the sources; the error is
    raised before the body of the method runs, and is modelled as raised
    before anything else happens. *)
Definition keywords {V A} (kwargs : pydict.dict V) (call : M A) : M A :=
  if bool_decide ("self" ∈ pydict.keys kwargs)
  then raise (TypeError "got multiple values for argument 'self'")
  else call.

Definition select (self : Table) (args : list ColumnExpression)
    (kwargs : pydict.dict ColumnExpression) : M Table :=
  keywords kwargs (
    contextualized_operator "select" (
      all_args <- lift (combine_args_kwargs args kwargs) ;;
      new_columns <- for_each (fun ne =>
          _validate_expression self ne.2 ;;;
          ret (ne.1, _eval self ne.2 None))
        all_args ;;
      _with_same_universe self new_columns None)).

(** [arg.table] of an argument that is a column reference. *)
Definition table_of (e : ColumnExpression) : M Table :=
  match e with
  | ColumnReference t _ _ => ret t
  | _ => raise (TypeError "ColumnReference expected")
  end.

Definition from_columns (args : list ColRef) (kwargs : pydict.dict ColRef)
    : M Table :=
  let args_e := map colref_expr args in
  let kwargs_e := map (fun nr => (nr.1, colref_expr nr.2)) kwargs in
  all_args <- lift (combine_args_kwargs args_e kwargs_e) ;;
  match pydict.values all_args with
  | [] => raise (ValueError "Table.from_columns() cannot have empty arguments list")
  | arg :: _ =>
      table <- table_of arg ;;
      for_each (fun arg' =>
          table' <- table_of arg' ;;
          eq <- solver_query (fun s =>
                  query_are_equal s (_universe table) (_universe table')) ;;
          if negb eq
          then raise (ValueError
            "Universes of all arguments of Table.from_columns() have to be equal.")
          else ret tt)
        (pydict.values all_args) ;;;
      select table args_e kwargs_e
  end.

Definition with_columns (self : Table) (args : list ColumnExpression)
    (kwargs : pydict.dict ColumnExpression) : M Table :=
  keywords kwargs (
    other <- select self args kwargs ;;
    columns <- as_dict self ;;
    other_items <- as_dict other ;;
    select self [] (pydict.update columns other_items)).

Definition update_types (self : Table) (kwargs : pydict.dict dt.DType) : M Table :=
  keywords kwargs (
    for_each (fun name =>
        if negb (pydict.contains name (_columns self))
        then raise (ValueError
          "Table.update_types() argument name has to be an existing table column name.")
        else ret tt)
      (pydict.keys kwargs) ;;;
    assignments <- for_each (fun kv =>
        r <- __getitem__ self (ByName kv.1) ;;
        ret (kv.1, declare_type kv.2 (colref_expr r)))
      kwargs ;;
    with_columns self [] (pydict.of_items assignments)).

Definition cast_to_types (self : Table) (kwargs : pydict.dict dt.DType) : M Table :=
  keywords kwargs (
    for_each (fun name =>
        if negb (pydict.contains name (_columns self))
        then raise (ValueError
          "Table.cast_to_types() argument name has to be an existing table column name.")
        else ret tt)
      (pydict.keys kwargs) ;;;
    assignments <- for_each (fun kv =>
        r <- __getitem__ self (ByName kv.1) ;;
        ret (kv.1, cast kv.2 (colref_expr r)))
      kwargs ;;
    with_columns self [] (pydict.of_items assignments)).

Definition __add__ (self other : Table) : M Table :=
  eq <- solver_query (fun s => query_are_equal s (_universe self) (_universe other)) ;;
  if negb eq
  then raise (ValueError
    "Universes of all arguments of Table.__add__() have to be equal.")
  else
    self_refs <- __iter__ self ;;
    other_refs <- __iter__ other ;;
    select self (map colref_expr (self_refs ++ other_refs)) [].

Definition _filter (self : Table) (filter_expression : ColumnExpression) : M Table :=
  contextualized_operator "_filter" (
    _validate_expression self filter_expression ;;;
    let filtering_column := _eval self filter_expression None in
    assert (Pos.eqb (_universe self) (column_universe filtering_column)) ;;;
    universe <- subset (_universe self) ;;
    let context := FilterContext universe filtering_column (_universe self) in
    _table_with_context self context).

Definition filter (self : Table) (filter_expression : ColumnExpression) : M Table :=
  let filter_type := eval_type self filter_expression in
  if negb (bool_decide (filter_type = dt.BOOL))
  then raise (TypeError "Filter argument of Table.filter() has to be bool.")
  else
    ret_ <- _filter self filter_expression ;;
    match get_column_filtered_by_is_none filter_expression with
    | Some filter_col =>
        if Pos.eqb (obj filter_col.1.1) (obj self)
        then
          let name := filter_col.2 in
          match pydict.get name (_columns self) with
          | None => raise (KeyError name)
          | Some column =>
              let dtype := column_dtype column in
              update_types ret_ [(name, dt.unoptionalize dtype)]
          end
        else ret ret_
    | None => ret ret_
    end.

(** [{name: d[name] for name in names}], a [KeyError] for a missing name. *)
Definition lookup_all (names : list string) (d : pydict.dict Column)
    : M (pydict.dict Column) :=
  items <- for_each (fun name =>
      match pydict.get name d with
      | Some column => ret (name, column)
      | None => raise (KeyError name)
      end) names ;;
  ret (pydict.of_items items).

(** [{new_name: d[old_name] for new_name, old_name in mapping.items()}] *)
Definition lookup_renamed (mapping : pydict.dict string) (d : pydict.dict Column)
    : M (pydict.dict Column) :=
  items <- for_each (fun kv =>
      match pydict.get kv.2 d with
      | Some column => ret (kv.1, column)
      | None => raise (KeyError kv.2)
      end) mapping ;;
  ret (pydict.of_items items).

Definition _forget (self : Table) (threshold_column time_column : ColumnExpression)
    (mark_forgetting_records : bool) : M Table :=
  contextualized_operator "_forget" (
    universe <- subset (_universe self) ;;
    let context := ForgetContext universe (_universe self)
                     (_eval self threshold_column None)
                     (_eval self time_column None) mark_forgetting_records in
    _table_with_context self context).

Definition _filter_out_results_of_forgetting (self : Table) : M Table :=
  contextualized_operator "_filter_out_results_of_forgetting" (
    universe <- subset (_universe self) ;;
    let context := FilterOutForgettingContext universe (_universe self) in
    _table_with_context self context).

Definition _freeze (self : Table) (threshold_column time_column : ColumnExpression)
    : M Table :=
  contextualized_operator "_freeze" (
    universe <- subset (_universe self) ;;
    let context := FreezeContext universe (_universe self)
                     (_eval self threshold_column None)
                     (_eval self time_column None) in
    _table_with_context self context).

Definition _buffer (self : Table) (threshold_column time_column : ColumnExpression)
    : M Table :=
  contextualized_operator "_buffer" (
    universe <- subset (_universe self) ;;
    let context := BufferContext universe (_universe self)
                     (_eval self threshold_column None)
                     (_eval self time_column None) in
    _table_with_context self context).

Definition difference (self other : Table) : M Table :=
  contextualized_operator "difference" (
    universe <- solver_call (fun s =>
                  get_difference s (_universe self) (_universe other)) ;;
    let context := DifferenceContext universe (_universe self) (_universe other) in
    _table_with_context self context).

Definition intersect (self : Table) (tables : list Table) : M Table :=
  contextualized_operator "intersect" (
    let intersecting_universes := _universe self :: map _universe tables in
    universe <- solver_call (fun s => get_intersection s intersecting_universes) ;;
    let context :=
      if bool_decide (universe ∈ intersecting_universes)
      then RestrictContext universe (_universe self)
      else IntersectContext universe intersecting_universes in
    _table_with_context self context).

Definition restrict (self other : Table) : M Table :=
  contextualized_operator "restrict" (
    is_subset <- solver_query (fun s =>
                   query_is_subset s (_universe other) (_universe self)) ;;
    if negb is_subset
    then raise (ValueError
      "Table.restrict(): other universe has to be a subset of self universe.")
    else
      let context := RestrictContext (_universe other) (_universe self) in
      let columns := wrap_columns self context (_columns self) in
      __init__ columns (_universe other) (_pk_columns self) None
        (Some (IdColumn context))).

Definition copy (self : Table) : M Table :=
  contextualized_operator "copy" (
    let columns := wrap_columns self (_context self) (_columns self) in
    __init__ columns (_universe self) (_pk_columns self) None None).

Definition _concat (self : Table) (others : list Table) : M Table :=
  contextualized_operator "_concat" (
    let union_universes := _universe self :: map _universe others in
    disjoint <- solver_query (fun s => query_are_disjoint s union_universes) ;;
    if negb disjoint
    then raise (ValueError
      "Universes of the arguments of Table.concat() have to be disjoint.")
    else
      universe <- solver_call (fun s => get_union s union_universes) ;;
      updates <- for_each (fun other => lookup_all (keys self) (_columns other))
                   others ;;
      let context := ConcatUnsafeContext universe union_universes updates in
      let columns := wrap_columns self context (_columns self) in
      __init__ columns universe (_pk_columns self) None (Some (IdColumn context))).

(** [t.schema._dtypes()[key]] *)
Definition schema_dtype_of (t : Table) (key : string) : Outcome dt.DType :=
  match schema_dtype (_schema t) key with
  | Some ty => Returned ty
  | None => Raised (KeyError key)
  end.

(** [{key: functools.reduce(dt.types_lca,
             [other.schema._dtypes()[key] for other in others],
             self.schema._dtypes()[key])
      for key in self.keys()}] *)
Definition concat_schema (self : Table) (others : list Table)
    : Outcome (pydict.dict dt.DType) :=
  and_then
    (comprehension (fun key =>
       and_then (comprehension (fun other => schema_dtype_of other key) others)
         (fun dtypes =>
       and_then (schema_dtype_of self key) (fun initial =>
       and_then (dt.reduce_types_lca dtypes initial) (fun ty =>
       Returned (key, ty)))))
     (keys self))
    (fun items => Returned (pydict.of_items items)).

Definition concat (self : Table) (others : list Table) : M Table :=
  for_each (fun other =>
      if negb (pydict.keys_equal (keys other) (keys self))
      then raise (ValueError "columns do not match in the argument of Table.concat()")
      else ret tt)
    others ;;;
  schema <- lift (concat_schema self others) ;;
  self' <- cast_to_types self schema ;;
  others' <- for_each (fun other => cast_to_types other schema) others ;;
  _concat self' others'.

Definition _update_cells (self other : Table) : M Table :=
  contextualized_operator "_update_cells" (
    is_subset <- is_subset_of (_universe other) (_universe self) ;;
    if negb is_subset
    then raise (ValueError
      "Universe of the argument of Table.update_cells() needs to be a subset of the universe of the updated table.")
    else
      let union_universes :=
        _universe self ::
        (if negb (Pos.eqb (_universe other) (_universe self))
         then [_universe other] else []) in
      updates <- lookup_all (keys other) (_columns other) ;;
      let context := UpdateCellsContext (_universe self) union_universes updates in
      let columns := wrap_columns self context (_columns self) in
      __init__ columns (_universe self) (_pk_columns self) None
        (Some (IdColumn context))).

(** [{key: dt.types_lca(self.schema.__dtypes__[key], other.schema.__dtypes__[key])
      for key in names}] *)
Definition lca_schema (self other : Table) (names : list string)
    : Outcome (pydict.dict dt.DType) :=
  and_then
    (comprehension (fun key =>
       and_then (schema_dtype_of self key) (fun a =>
       and_then (schema_dtype_of other key) (fun b =>
       and_then (dt.types_lca a b) (fun ty =>
       Returned (key, ty)))))
     names)
    (fun items => Returned (pydict.of_items items)).

Definition update_cells (self other : Table) : M Table :=
  if negb (forallb (fun k => pydict.contains k (_columns self)) (keys other))
  then raise (ValueError
    "Columns of the argument in Table.update_cells() not present in the updated table.")
  else if Pos.eqb (_universe self) (_universe other)
  then
    warn "Key sets of self and other in update_cells are the same. Using with_columns instead of update_cells." ;;;
    refs <- __iter__ other ;;
    args <- for_each (fun r => __getitem__ other (ByRef r)) refs ;;
    with_columns self (map colref_expr args) []
  else
    schema <- lift (lca_schema self other (keys other)) ;;
    self' <- cast_to_types self schema ;;
    other' <- cast_to_types other schema ;;
    _update_cells self' other'.

Definition _update_rows (self other : Table) : M Table :=
  contextualized_operator "_update_rows" (
    let union_universes := [_universe self; _universe other] in
    universe <- solver_call (fun s => get_union s union_universes) ;;
    updates <- lookup_all (keys self) (_columns other) ;;
    let context :=
      if Pos.eqb universe (_universe self)
      then UpdateCellsContext universe union_universes updates
      else UpdateRowsContext universe union_universes updates in
    let columns := wrap_columns self context (_columns self) in
    __init__ columns universe (_pk_columns self) None (Some (IdColumn context))).

Definition update_rows (self other : Table) : M Table :=
  if negb (pydict.keys_equal (keys other) (keys self))
  then raise (ValueError
    "Columns do not match between argument of Table.update_rows() and the updated table.")
  else
    is_subset <- is_subset_of (_universe self) (_universe other) ;;
    if is_subset
    then
      warn "Universe of self is a subset of universe of other in update_rows. Returning other." ;;;
      ret other
    else
      schema <- lift (lca_schema self other (keys self)) ;;
      self' <- cast_to_types self schema ;;
      other' <- cast_to_types other schema ;;
      _update_rows self' other'.

(** Two collaborators of [table.py] that are neither in the sources nor
    described by the spec are left open: the desugaring
    [RestrictUniverseDesugaring(context).eval_expression], which rewrites
    the key expression of [ix], and
    [FlattenContext.get_flatten_column_dtype], the element type of the
    column that [flatten] expands.  So is the comparison [==] of two
    column objects, which [groupby] makes: columns are modelled as values,
    which do not carry the identity of the object. *)
Context (restrict_universe_eval_expression :
           Table -> ColumnExpression -> M ColumnExpression).
Context (get_flatten_column_dtype : Column -> Outcome dt.DType).
Context (same_column : Column -> Column -> bool).

(** Modelled from the spec: [GroupedTable] (module [groupby]) is not part
    of the sources.  [GroupedTable.create] keeps the arguments that
    [groupby] hands it.  Of [reduce] section 4.F says: the result is over
    a universe of its own, a fresh identity; the identity of a row is made
    from the grouping columns unless [id] is set; and reducers are the
    only expressions of [reduce] that are not grouping.  So [reduce]
    evaluates its expressions in a grouped context over a new universe,
    and rejects an expression that refers, outside the arguments of a
    reducer, to a column that is not a grouping column; a reference is to
    a grouping column when it names the same column of the same table. *)
Record GroupedTable := mkGroupedTable {
  grouped_table : Table;
  grouping_columns : list ColRef;
  set_id : bool;
  sort_by : option ColRef;
  filter_out_results_of_forgetting : bool
}.

Definition GroupedTable_create (table : Table) (grouping_columns : list ColRef)
    (set_id : bool) (sort_by : option ColRef)
    (_filter_out_results_of_forgetting : bool) : M GroupedTable :=
  ret (mkGroupedTable table grouping_columns set_id sort_by
         _filter_out_results_of_forgetting).

Definition is_grouping_column (self : GroupedTable) (r : ColRef) : bool :=
  existsb (fun c : ColRef => Pos.eqb (obj c.1.1) (obj r.1.1) && String.eqb c.2 r.2)
    (grouping_columns self).

Definition GroupedTable_reduce (self : GroupedTable) (args : list ColumnExpression)
    (kwargs : pydict.dict ColumnExpression) : M Table :=
  keywords kwargs (
    contextualized_operator "reduce" (
      all_args <- lift (combine_args_kwargs args kwargs) ;;
      universe <- Universe_ ;;
      let context :=
        GroupedContext universe (_universe (grouped_table self))
          (map (fun c : ColRef => c.1.2) (grouping_columns self)) (set_id self) in
      reduced_columns <- for_each (fun ne =>
          if negb (forallb (is_grouping_column self) (references_above_reducer ne.2))
          then raise (ValueError
            "An expression of reduce() that is not a reducer has to be a grouping column.")
          else ret (ne.1, ColumnWithExpression context universe ne.2))
        all_args ;;
      __init__ (pydict.of_items reduced_columns) universe [] None
        (Some (IdColumn context)))).

(** [arg._column] of an argument of [groupby] *)
Definition _column_of (arg : ColumnExpression) : M Column :=
  match arg with
  | ColumnReference _ column _ => ret column
  | _ => raise (AttributeError "_column")
  end.

Definition groupby (self : Table) (args : list ColumnExpression)
    (id : option ColRef) (sort_by : option ColRef)
    (_filter_out_results_of_forgetting : bool) : M GroupedTable :=
  args <- match id with
          | Some id =>
              match args with
              | [] => ret [colref_expr id]
              | [arg] =>
                  column <- _column_of arg ;;
                  if negb (same_column column id.1.2)
                  then raise (ValueError
                    "Table.groupby() received id argument and is grouped by a single column, but the arguments are not equal.")
                  else ret args
              | _ :: _ :: _ =>
                  raise (ValueError
                    "Table.groupby() cannot have id argument when grouping by multiple columns.")
              end
          | None => ret args
          end ;;
  grouping_columns <- for_each (fun arg =>
      match arg with
      | ColumnReference table column name => ret (table, column, name)
      | _ => raise (ValueError
               "All Table.groupby() arguments have to be a ColumnReference.")
      end) args ;;
  GroupedTable_create self grouping_columns
    (match id with Some _ => true | None => false end) sort_by
    _filter_out_results_of_forgetting.

Definition reduce (self : Table) (args : list ColumnExpression)
    (kwargs : pydict.dict ColumnExpression) : M Table :=
  keywords kwargs (
    grouped <- groupby self [] None None false ;;
    GroupedTable_reduce grouped args kwargs).

(** [self << other] *)
Definition __lshift__ (self other : Table) : M Table := update_cells self other.

(** [self.debug(name)]: [G.add_operator] records a node of the parse graph,
    as the decorator [contextualized_operator] does. *)
Definition debug (self : Table) (name : string) : M Table :=
  contextualized_operator "debug" (ret self).

Definition _ix (self : Table) (key_expression : ColRef) (optional : bool)
    : M Table :=
  contextualized_operator "_ix" (
    let key_universe_table := key_expression.1.1 in
    let universe := _universe key_universe_table in
    let key_column := key_expression.1.2 in
    let context := IxContext universe (_universe self) key_column optional in
    _table_with_context self context).

(** [{name: dt.Optional(self.typehints()[name]) for name in self.keys()}] *)
Definition optional_typehints (self : Table) : Outcome (pydict.dict dt.DType) :=
  and_then
    (comprehension (fun name =>
       and_then (schema_dtype_of self name) (fun ty =>
       Returned (name, dt.Optional ty)))
     (keys self))
    (fun items => Returned (pydict.of_items items)).

Definition ix (self : Table) (expression : ColumnExpression) (optional : bool)
    (context : option IxContextArg) : M IxResult :=
  let all_tables := collect_tables expression in
  let context :=
    match context with
    | Some c => Some c
    | None =>
        match all_tables with
        | [] => Some CtxThis
        | first :: _ =>
            if forallb (fun tab => Pos.eqb (obj tab) (obj first)) all_tables
            then Some (CtxTable first)
            else None
        end
    end in
  context <- match context with
             | Some c => ret c
             | None =>
                 match all_tables with
                 | [] => raise (ValueError "Const value provided.")
                 | first :: _ =>
                     for_each (fun tab =>
                         eq <- is_equal_to (_universe first) (_universe tab) ;;
                         assert eq)
                       all_tables ;;;
                     ret (CtxTable first)
                 end
             end ;;
  match context with
  | CtxGrouped | CtxThis => ret IxDelayedOp
  | CtxTable context =>
      expression <- restrict_universe_eval_expression context expression ;;
      tmp_table <- select context [] [("tmp", expression)] ;;
      key_col <- _get_colref_by_name tmp_table "tmp" AttributeError ;;
      let key_dtype := eval_type self (colref_expr key_col) in
      if (optional && negb (dt.dtype_issubclass key_dtype (dt.Optional dt.POINTER)))
         || (negb optional && negb (dt.is_Pointer key_dtype))
      then raise (TypeError "Pathway supports indexing with Pointer type only.")
      else
        self_ <- (if optional && dt.is_Optional key_dtype
                  then hints <- lift (optional_typehints self) ;; update_types self hints
                  else ret self) ;;
        result <- _ix self_ key_col optional ;;
        ret (IxTable result)
  end.

(** [self.pointer_from] applied to [args] and [optional] *)
Definition pointer_from (self : Table) (args : list ColumnExpression)
    (optional : bool) : ColumnExpression :=
  PointerExpression self args optional.

Definition ix_ref (self : Table) (args : list ColumnExpression) (optional : bool)
    (context : option IxContextArg) : M IxResult :=
  ix self (pointer_from self args optional) optional context.

Definition _with_new_index (self : Table) (new_index : ColumnExpression)
    (pk_columns : pydict.dict Column) : M Table :=
  contextualized_operator "_with_new_index" (
    _validate_expression self new_index ;;;
    let index_type := eval_type self new_index in
    if negb (dt.is_Pointer index_type)
    then raise (TypeError
      "Pathway supports reindexing Tables with Pointer type only.")
    else
      let reindex_column := _eval self new_index None in
      assert (Pos.eqb (_universe self) (column_universe reindex_column)) ;;;
      universe <- Universe_ ;;
      let context := ReindexContext universe reindex_column in
      let columns := wrap_columns self context (_columns self) in
      __init__ columns universe pk_columns None (Some (IdColumn context))).

Definition with_id (self : Table) (new_index : ColRef) : M Table :=
  _with_new_index self (colref_expr new_index) [].

(** [isinstance(arg, expr.ColumnReference)] *)
Definition is_ColumnReference (e : ColumnExpression) : bool :=
  match e with ColumnReference _ _ _ => true | _ => false end.

Definition with_id_from (self : Table) (args : list ColumnExpression) : M Table :=
  tmp_table <- select self [] [("ref_column", pointer_from self args false)] ;;
  new_index <- _get_colref_by_name tmp_table "ref_column" AttributeError ;;
  let pk_columns :=
    if forallb is_ColumnReference args
    then pydict.of_items
           (omap (fun arg => match arg with
                             | ColumnReference _ _ n => Some (n, _eval self arg None)
                             | _ => None
                             end) args)
    else [] in
  _with_new_index self (colref_expr new_index) pk_columns.

(** [old_name_col.name] of a reference, [old_name_col] of a string. *)
Definition name_of (a : NameOrRef) : string :=
  match a with
  | ByName n => n
  | ByRef r => r.2
  end.

(** [for new_name, old_name in mapping.items(): renamed_columns.pop(old_name)] *)
Fixpoint pop_all (names : list string) (d : pydict.dict Column)
    : M (pydict.dict Column) :=
  match names with
  | [] => ret d
  | n :: rest =>
      match pydict.pop n d with
      | Some d' => pop_all rest d'
      | None => raise (KeyError n)
      end
  end.

Definition rename_columns (self : Table) (kwargs : pydict.dict NameOrRef) : M Table :=
  keywords kwargs (
    contextualized_operator "rename_columns" (
      mapping <- for_each (fun kv =>
          let old_name := name_of kv.2 in
          if negb (pydict.contains old_name (_columns self))
          then raise (ValueError "Column does not exist in a given table.")
          else ret (kv.1, old_name))
        kwargs ;;
      let mapping := pydict.of_items mapping in
      renamed_columns <- pop_all (pydict.values mapping) (_columns self) ;;
      added <- lookup_renamed mapping (_columns self) ;;
      let renamed_columns := pydict.update renamed_columns added in
      let columns_wrapped :=
        pydict.of_items
          (map (fun nc =>
                  (nc.1, _wrap_column_in_context self (_context self) nc.2
                           (default nc.1 (pydict.get nc.1 mapping))))
               renamed_columns) in
      _with_same_universe self columns_wrapped None)).

Definition rename_by_dict (self : Table) (names_mapping : list (NameOrRef * string))
    : M Table :=
  kwargs <- for_each (fun on =>
      r <- __getitem__ self on.1 ;;
      ret (on.2, ByRef r))
    names_mapping ;;
  rename_columns self (pydict.of_items kwargs).

Definition with_prefix (self : Table) (prefix : string) : M Table :=
  rename_by_dict self
    (map (fun name => (ByName name, String.append prefix name)) (keys self)).

Definition with_suffix (self : Table) (suffix : string) : M Table :=
  rename_by_dict self
    (map (fun name => (ByName name, String.append name suffix)) (keys self)).

Definition rename (self : Table) (names_mapping : option (list (NameOrRef * string)))
    (kwargs : pydict.dict NameOrRef) : M Table :=
  keywords kwargs (
    match names_mapping with
    | Some names_mapping => rename_by_dict self names_mapping
    | None => rename_columns self kwargs
    end).

Definition without (self : Table) (columns : list NameOrRef) : M Table :=
  contextualized_operator "without" (
    new_columns <- pop_all (map name_of columns) (_columns self) ;;
    let columns_wrapped := wrap_columns self (_context self) new_columns in
    _with_same_universe self columns_wrapped None).

Definition _having (self : Table) (indexer : ColRef) : M Table :=
  contextualized_operator "_having" (
    universe <- subset (_universe indexer.1.1) ;;
    let context := HavingContext universe (_universe self) indexer.1.2 in
    _table_with_context self context).

Definition having (self : Table) (indexers : list ColRef) : M Table :=
  rets <- for_each (fun indexer => _having self indexer) indexers ;;
  match rets with
  | [] => ret self
  | [ret_] => ret ret_
  | first :: rest => intersect first rest
  end.

Definition _unsafe_promise_universe (self other : Table) : M Table :=
  contextualized_operator "_unsafe_promise_universe" (
    let context := PromiseSameUniverseContext (_universe other) (_universe self) in
    let columns := wrap_columns self context (_columns self) in
    __init__ columns (context_universe context) (_pk_columns self) None
      (Some (IdColumn context))).

(** Modelled from the spec: [universes.promise_are_equal] and
    [universes.promise_are_pairwise_disjoint] (module [universes]) insert
    the assertion into the solver, which raises [ValueError] when it
    contradicts what it knows. *)
Definition universes_promise_are_equal (self other : Table) : M unit :=
  solver_promise (fun s => promise_are_equal s (_universe self) (_universe other)).

Definition universes_promise_are_pairwise_disjoint (tables : list Table) : M unit :=
  solver_promise (fun s => promise_are_pairwise_disjoint s (map _universe tables)).

Definition with_universe_of (self other : Table) : M Table :=
  if Pos.eqb (_universe self) (_universe other)
  then copy self
  else
    universes_promise_are_equal self other ;;;
    _unsafe_promise_universe self other.

Definition _flatten (self : Table) (flatten_name : string) : M Table :=
  contextualized_operator "_flatten" (
    match pydict.get flatten_name (_columns self) with
    | None => raise (KeyError flatten_name)
    | Some flatten_column =>
        assert (match flatten_column with
                | ColumnWithExpression _ _ _ => true
                | _ => false
                end) ;;;
        universe <- Universe_ ;;
        ty <- lift (get_flatten_column_dtype flatten_column) ;;
        let flatten_result_column :=
          MaterializedColumn universe {| dtype := ty; append_only := false |} in
        let context := FlattenContext universe (_universe self) flatten_column
                         flatten_result_column in
        let columns :=
          wrap_columns self context
            (base.filter (fun nc => nc.1 <> flatten_name) (_columns self)) in
        __init__ (pydict.of_items ((flatten_name, flatten_result_column) :: columns))
          universe [] None (Some (IdColumn context))
    end).

Definition flatten (self : Table) (args : list ColumnExpression)
    (kwargs : pydict.dict ColumnExpression) : M Table :=
  keywords kwargs (
    intermediate_table <- select self args kwargs ;;
    all_args <- lift (combine_args_kwargs args kwargs) ;;
    match pydict.keys all_args with
    | [] => raise (ValueError "Table.flatten() cannot have empty arguments list.")
    | flatten_name :: _ => _flatten intermediate_table flatten_name
    end).

Definition _sort_experimental (self : Table) (key : ColumnExpression)
    (instance : option ColumnExpression) : M Table :=
  contextualized_operator "_sort_experimental" (
    let instance := default (ColumnConstExpression VNone) instance in
    let prev_column :=
      MaterializedColumn (_universe self)
        {| dtype := dt.Optional dt.POINTER; append_only := false |} in
    let next_column :=
      MaterializedColumn (_universe self)
        {| dtype := dt.Optional dt.POINTER; append_only := false |} in
    let context := SortingContext (_universe self) (_eval self key None)
                     (_eval self instance None) prev_column next_column in
    __init__ (pydict.of_items [("prev", prev_column); ("next", next_column)])
      (_universe self) [] None (Some (IdColumn context))).

Definition _from_schema (schema : Schema) : M Table :=
  universe <- Universe_ ;;
  columns <- for_each (fun name =>
      match pydict.get name schema with
      | Some properties => ret (name, MaterializedColumn universe properties)
      | None => raise (KeyError name)
      end)
    (column_names schema) ;;
  __init__ (pydict.of_items columns) universe [] (Some schema) None.

Definition _materialize (self : Table) (universe : Universe) : M Table :=
  let columns :=
    pydict.of_items
      (map (fun nc => (nc.1, MaterializedColumn universe (column_properties nc.2)))
           (_columns self)) in
  __init__ columns universe (_pk_columns self) (Some (_schema self)) None.

(** Modelled from the spec: [schema_from_types] (module [schema]) and
    [empty_from_schema] (module [decorators]) build the schema named by
    the keyword arguments and the operator that yields a table of it. *)
Definition schema_from_types (kwargs : pydict.dict dt.DType) : Schema :=
  map (fun nt => (nt.1, {| dtype := nt.2; append_only := false |})) kwargs.

Definition empty_from_schema (schema : Schema) : M Table :=
  contextualized_operator "empty" (_from_schema schema).

Definition empty (kwargs : pydict.dict dt.DType) : M Table :=
  ret_ <- empty_from_schema (schema_from_types kwargs) ;;
  solver_call (fun s => (tt, register_as_empty s (_universe ret_))) ;;;
  ret ret_.

(** [enumerate(tables)] from [i] *)
Fixpoint enumerate_from (i : Z) (tables : list Table) : list (Z * Table) :=
  match tables with
  | [] => []
  | t :: rest => (i, t) :: enumerate_from (i + 1) rest
  end.

Definition concat_reindex (self : Table) (tables : list Table) : M Table :=
  reindexed <- for_each (fun it =>
      with_id_from it.2 [colref_expr (id it.2); ColumnConstExpression (VInt it.1)])
    (enumerate_from 0 (self :: tables)) ;;
  universes_promise_are_pairwise_disjoint reindexed ;;;
  match reindexed with
  | [] => raise (TypeError "concat() missing 1 required positional argument")
  | first :: rest => concat first rest
  end.

(** [self[[name, ...]]] *)
Definition getitem_list (self : Table) (args : list NameOrRef) : M Table :=
  refs <- for_each (fun a => __getitem__ self a) args ;;
  select self (map colref_expr refs) [].

(** *** Specifications of operator calls

    [returns m Q]: whenever the call [m] returns, its value satisfies [Q].
    [wp m g Q]: from the state [g] the call [m] returns, with a value and a
    final state that satisfy [Q].  [frame g g']: the solver and the warnings
    of [g'] are those of [g].  [framed m g Q]: the call [m] from [g], whether
    it returns or raises, leaves the solver and the warnings alone, and a
    value it returns satisfies [Q]. *)
Definition returns {A} (m : M A) (Q : A -> Prop) : Prop :=
  forall g a g', m g = (Returned a, g') -> Q a.

Definition wp {A} (m : M A) (g : ParseGraph) (Q : A -> ParseGraph -> Prop) : Prop :=
  match m g with
  | (Returned a, g') => Q a g'
  | (Raised _, _) => False
  end.

Definition frame (g g' : ParseGraph) : Prop :=
  universe_solver g' = universe_solver g /\ warnings g' = warnings g.

Definition framed {A} (m : M A) (g : ParseGraph) (Q : A -> Prop) : Prop :=
  match m g with
  | (Returned a, g') => frame g g' /\ Q a
  | (Raised _, g') => frame g g'
  end.

(** [runs m g Q]: from [g] the call [m] returns a value that satisfies [Q]
    and leaves the solver and the warnings alone.  [quiet m]: whatever its
    outcome, [m] leaves the solver and the warnings alone.  [raises m g E]:
    from [g] the call [m] raises, leaving a state that satisfies [E]. *)
Definition runs {A} (m : M A) (g : ParseGraph) (Q : A -> Prop) : Prop :=
  wp m g (fun a g' => frame g g' /\ Q a).

Definition quiet {A} (m : M A) : Prop :=
  forall g o g', m g = (o, g') -> frame g g'.

Definition raises {A} (m : M A) (g : ParseGraph) (E : ParseGraph -> Prop) : Prop :=
  match m g with
  | (Returned _, _) => False
  | (Raised _, g') => E g'
  end.

(** [rejects m g]: from [g] the call [m] raises [TypeError]. *)
Definition rejects {A} (m : M A) (g : ParseGraph) : Prop :=
  exists msg g', m g = (Raised (TypeError msg), g').

(** The invariant of the tables the operators build. *)
Definition invariant (t : Table) : Prop :=
  is_dict t /\ schema_matches t /\ columns_in_universe t.

Definition ix_invariant (r : IxResult) : Prop :=
  match r with
  | IxTable t => invariant t
  | IxDelayedOp => True
  end.

(** *** The tables the operators produce

    [produced t]: the table [t] is the value of a chain of operator calls
    that starts from tables built from a schema.  Every call may run in
    any state of the parse graph.  The operators are the methods of
    [Table] in [table.py] that return a table, [reduce] and
    [groupby(...).reduce(...)] among them, and the operators of the file
    that these methods call. *)
Inductive produced : Table -> Prop :=
| produced_from_schema schema g t g' :
    NoDup (column_names schema) ->
    _from_schema schema g = (Returned t, g') -> produced t
| produced_empty kwargs g t g' :
    NoDup (pydict.keys kwargs) ->
    empty kwargs g = (Returned t, g') -> produced t
| produced_materialize self universe g t g' :
    produced self ->
    _materialize self universe g = (Returned t, g') -> produced t
| produced_select self args kwargs g t g' :
    produced self ->
    select self args kwargs g = (Returned t, g') -> produced t
| produced_getitem self args g t g' :
    produced self ->
    getitem_list self args g = (Returned t, g') -> produced t
| produced_from_columns args kwargs g t g' :
    (forall r, r ∈ args ++ pydict.values kwargs -> produced r.1.1) ->
    from_columns args kwargs g = (Returned t, g') -> produced t
| produced_concat_reindex self tables g t g' :
    produced self -> (forall o, o ∈ tables -> produced o) ->
    concat_reindex self tables g = (Returned t, g') -> produced t
| produced_add self other g t g' :
    produced self -> produced other ->
    __add__ self other g = (Returned t, g') -> produced t
| produced_filter self e g t g' :
    produced self ->
    filter self e g = (Returned t, g') -> produced t
| produced_forget self threshold time mark g t g' :
    produced self ->
    _forget self threshold time mark g = (Returned t, g') -> produced t
| produced_filter_out_results_of_forgetting self g t g' :
    produced self ->
    _filter_out_results_of_forgetting self g = (Returned t, g') -> produced t
| produced_freeze self threshold time g t g' :
    produced self ->
    _freeze self threshold time g = (Returned t, g') -> produced t
| produced_buffer self threshold time g t g' :
    produced self ->
    _buffer self threshold time g = (Returned t, g') -> produced t
| produced_difference self other g t g' :
    produced self -> produced other ->
    difference self other g = (Returned t, g') -> produced t
| produced_intersect self tables g t g' :
    produced self -> (forall o, o ∈ tables -> produced o) ->
    intersect self tables g = (Returned t, g') -> produced t
| produced_restrict self other g t g' :
    produced self -> produced other ->
    restrict self other g = (Returned t, g') -> produced t
| produced_copy self g t g' :
    produced self ->
    copy self g = (Returned t, g') -> produced t
| produced_ix self e optional context g t g' :
    produced self ->
    ix self e optional context g = (Returned (IxTable t), g') -> produced t
| produced_ix_ref self args optional context g t g' :
    produced self ->
    ix_ref self args optional context g = (Returned (IxTable t), g') -> produced t
| produced_concat self others g t g' :
    produced self -> (forall o, o ∈ others -> produced o) ->
    concat self others g = (Returned t, g') -> produced t
| produced_update_cells self other g t g' :
    produced self -> produced other ->
    update_cells self other g = (Returned t, g') -> produced t
| produced_update_rows self other g t g' :
    produced self -> produced other ->
    update_rows self other g = (Returned t, g') -> produced t
| produced_with_columns self args kwargs g t g' :
    produced self ->
    with_columns self args kwargs g = (Returned t, g') -> produced t
| produced_with_id self new_index g t g' :
    produced self ->
    with_id self new_index g = (Returned t, g') -> produced t
| produced_with_id_from self args g t g' :
    produced self ->
    with_id_from self args g = (Returned t, g') -> produced t
| produced_rename_columns self kwargs g t g' :
    produced self ->
    rename_columns self kwargs g = (Returned t, g') -> produced t
| produced_rename_by_dict self names_mapping g t g' :
    produced self ->
    rename_by_dict self names_mapping g = (Returned t, g') -> produced t
| produced_with_prefix self prefix g t g' :
    produced self ->
    with_prefix self prefix g = (Returned t, g') -> produced t
| produced_with_suffix self suffix g t g' :
    produced self ->
    with_suffix self suffix g = (Returned t, g') -> produced t
| produced_rename self names_mapping kwargs g t g' :
    produced self ->
    rename self names_mapping kwargs g = (Returned t, g') -> produced t
| produced_without self columns g t g' :
    produced self ->
    without self columns g = (Returned t, g') -> produced t
| produced_having self indexers g t g' :
    produced self ->
    having self indexers g = (Returned t, g') -> produced t
| produced_update_types self kwargs g t g' :
    produced self ->
    update_types self kwargs g = (Returned t, g') -> produced t
| produced_cast_to_types self kwargs g t g' :
    produced self ->
    cast_to_types self kwargs g = (Returned t, g') -> produced t
| produced_with_universe_of self other g t g' :
    produced self -> produced other ->
    with_universe_of self other g = (Returned t, g') -> produced t
| produced_flatten self args kwargs g t g' :
    produced self ->
    flatten self args kwargs g = (Returned t, g') -> produced t
| produced_sort_experimental self key instance g t g' :
    produced self ->
    _sort_experimental self key instance g = (Returned t, g') -> produced t
| produced_lshift self other g t g' :
    produced self -> produced other ->
    __lshift__ self other g = (Returned t, g') -> produced t
| produced_debug self name g t g' :
    produced self ->
    debug self name g = (Returned t, g') -> produced t
| produced_filter_ self e g t g' :
    produced self ->
    _filter self e g = (Returned t, g') -> produced t
| produced_ix_ self key_expression optional g t g' :
    produced self ->
    _ix self key_expression optional g = (Returned t, g') -> produced t
| produced_concat_ self others g t g' :
    produced self -> (forall o, o ∈ others -> produced o) ->
    _concat self others g = (Returned t, g') -> produced t
| produced_update_cells_ self other g t g' :
    produced self -> produced other ->
    _update_cells self other g = (Returned t, g') -> produced t
| produced_update_rows_ self other g t g' :
    produced self -> produced other ->
    _update_rows self other g = (Returned t, g') -> produced t
| produced_with_new_index self new_index pk_columns g t g' :
    produced self ->
    _with_new_index self new_index pk_columns g = (Returned t, g') -> produced t
| produced_having_ self indexer g t g' :
    produced self ->
    _having self indexer g = (Returned t, g') -> produced t
| produced_unsafe_promise_universe self other g t g' :
    produced self -> produced other ->
    _unsafe_promise_universe self other g = (Returned t, g') -> produced t
| produced_flatten_ self flatten_name g t g' :
    produced self ->
    _flatten self flatten_name g = (Returned t, g') -> produced t
| produced_table_with_context self context g t g' :
    produced self ->
    _table_with_context self context g = (Returned t, g') -> produced t
| produced_reduce self args kwargs g t g' :
    produced self ->
    reduce self args kwargs g = (Returned t, g') -> produced t
| produced_groupby_reduce self by_ id sort_by forgetting g grouped g1
    args kwargs g2 t g' :
    produced self ->
    groupby self by_ id sort_by forgetting g = (Returned grouped, g1) ->
    GroupedTable_reduce grouped args kwargs g2 = (Returned t, g') -> produced t.
End Operators.
End table.

(** ** A universe solver

    Modelled from the spec: module [universe_solver] is not part of the
    sources.  The state of section 4.B: a union-find over universe ids (kept
    flat, every universe mapped to its representative), the pairs known
    disjoint, the subset assertions, and the universes registered as empty.
    Answers are conservative: [true] only for what follows from the
    assertions made. *)

Module solver.
Record State := mkState {
  next : Universe;
  representative : list (Universe * Universe);
  disjoint : list (Universe * Universe);
  subsets : list (Universe * Universe);
  empties : list Universe
}.

Definition initial : State :=
  {| next := 1%positive; representative := []; disjoint := [];
     subsets := []; empties := [] |}.

Fixpoint lookup (u : Universe) (l : list (Universe * Universe)) : option Universe :=
  match l with
  | [] => None
  | (a, r) :: rest => if Pos.eqb a u then Some r else lookup u rest
  end.

Definition find (s : State) (u : Universe) : Universe :=
  default u (lookup u (representative s)).

Definition is_empty (s : State) (u : Universe) : bool :=
  existsb (fun e => Pos.eqb (find s e) (find s u)) (empties s).

Definition are_equal (s : State) (u v : Universe) : bool :=
  Pos.eqb (find s u) (find s v).

Definition pair_disjoint (s : State) (u v : Universe) : bool :=
  is_empty s u || is_empty s v ||
  existsb (fun ab =>
      (Pos.eqb (find s ab.1) (find s u) && Pos.eqb (find s ab.2) (find s v)) ||
      (Pos.eqb (find s ab.1) (find s v) && Pos.eqb (find s ab.2) (find s u)))
    (disjoint s).

Fixpoint all_pairs (p : Universe -> Universe -> bool) (us : list Universe) : bool :=
  match us with
  | [] => true
  | u :: rest => forallb (p u) rest && all_pairs p rest
  end.

Definition are_disjoint (s : State) (us : list Universe) : bool :=
  all_pairs (pair_disjoint s) us.

(** Reachability along the subset assertions, at most [fuel] steps. *)
Fixpoint reaches (s : State) (fuel : nat) (u v : Universe) : bool :=
  are_equal s u v ||
  match fuel with
  | O => false
  | Datatypes.S fuel =>
      existsb (fun ab => are_equal s ab.1 u && reaches s fuel ab.2 v) (subsets s)
  end.

Definition is_subset (s : State) (u v : Universe) : bool :=
  is_empty s u || reaches s (length (subsets s)) u v.

Definition fresh (s : State) : Universe * State :=
  (next s,
   {| next := Pos.succ (next s); representative := representative s;
      disjoint := disjoint s; subsets := subsets s; empties := empties s |}).

Definition add_subsets (new : list (Universe * Universe)) (s : State) : State :=
  {| next := next s; representative := representative s;
     disjoint := disjoint s; subsets := new ++ subsets s; empties := empties s |}.

Definition add_disjoint (new : list (Universe * Universe)) (s : State) : State :=
  {| next := next s; representative := representative s;
     disjoint := new ++ disjoint s; subsets := subsets s; empties := empties s |}.

Definition subset_of (s : State) (u : Universe) : Universe * State :=
  let '(w, s) := fresh s in (w, add_subsets [(w, u)] s).

Definition union (s : State) (us : list Universe) : Universe * State :=
  match us with
  | [] => fresh s
  | first :: rest =>
      if forallb (are_equal s first) rest then (find s first, s)
      else let '(w, s) := fresh s in
           (w, add_subsets (map (fun u => (u, w)) us) s)
  end.

Definition intersection (s : State) (us : list Universe) : Universe * State :=
  match List.find (fun u => forallb (is_subset s u) us) us with
  | Some u => (u, s)
  | None => let '(w, s) := fresh s in
            (w, add_subsets (map (fun u => (w, u)) us) s)
  end.

Definition difference (s : State) (u v : Universe) : Universe * State :=
  let '(w, s) := fresh s in
  (w, add_disjoint [(w, v)] (add_subsets [(w, u)] s)).

Definition as_empty (s : State) (u : Universe) : State :=
  {| next := next s; representative := representative s;
     disjoint := disjoint s; subsets := subsets s; empties := u :: empties s |}.

Definition merge (s : State) (u v : Universe) : State :=
  let ru := find s u in
  let rv := find s v in
  if Pos.eqb ru rv then s
  else {| next := next s;
          representative :=
            (ru, rv) :: map (fun ar => (ar.1, if Pos.eqb ar.2 ru then rv else ar.2))
                            (representative s);
          disjoint := disjoint s; subsets := subsets s; empties := empties s |}.

Definition promise_equal (s : State) (u v : Universe) : Outcome unit * State :=
  if pair_disjoint s u v && negb (is_empty s u && is_empty s v)
  then (Raised (ValueError "universes known to be disjoint cannot be equal"), s)
  else (Returned tt, merge s u v).

Fixpoint pairs (us : list Universe) : list (Universe * Universe) :=
  match us with
  | [] => []
  | u :: rest => map (fun v => (u, v)) rest ++ pairs rest
  end.

Definition promise_pairwise_disjoint (s : State) (us : list Universe)
    : Outcome unit * State :=
  if existsb (fun uv => are_equal s uv.1 uv.2 && negb (is_empty s uv.1)) (pairs us)
  then (Raised (ValueError "equal universes cannot be disjoint"), s)
  else (Returned tt, add_disjoint (pairs us) s).

#[global] Instance universe_solver : UniverseSolver State := {|
  new_universe := fresh;
  query_are_equal := are_equal;
  query_is_subset := is_subset;
  query_are_disjoint := are_disjoint;
  get_subset := subset_of;
  get_union := union;
  get_intersection := intersection;
  get_difference := difference;
  register_as_empty := as_empty;
  promise_are_equal := promise_equal;
  promise_are_pairwise_disjoint := promise_pairwise_disjoint
|}.
End solver.

(** ** [tests/utils.py]: the stream checkers

    The callbacks that the tests subscribe to a table.  They raise
    [AssertionError]; [next] on an exhausted iterator raises
    [StopIteration].  The messages, which print the state, are left out. *)

Module utils.
Inductive Exception := AssertionError | StopIteration.

Inductive Result (A : Type) :=
| Ok (a : A)
| Err (e : Exception).
Arguments Ok {A} a.
Arguments Err {A} e.

Module CheckKeyConsistent.
Section KeyEntries.
(** Keys are engine pointers, hashable; a row is a [dict] from column
    names to values, compared with [==]. *)
Context {Pointer : Type} `{Countable Pointer}.
Context {Row : Type} `{EqDecision Row}.

Record DiffEntry := mkDiffEntry {
  key : Pointer;
  order : Z;
  insertion : bool;
  row : Row
}.

Definition final_cleanup_entry (self : DiffEntry) : DiffEntry :=
  mkDiffEntry (key self) (order self + 1) false (row self).

(** [sorted(state_list)], the builtin sort by the order of the dataclass:
    by key, then order, then insertion, then row.  It is left open, and is
    taken to return: rows are dictionaries, which Python does not order, so
    that the builtin raises [TypeError] for two entries that differ in
    their rows only. *)
Context (sorted : list DiffEntry -> list DiffEntry).

(** [self.state]: a [defaultdict] from keys to deques of entries. *)
#[local] Abbreviation State := (gmap Pointer (list DiffEntry)).

(** [CheckKeyEntriesInStreamCallback.__init__] *)
Definition __init__ (state_list : list DiffEntry) : State :=
  let state_list := sorted state_list in
  fold_left
    (fun state entry =>
       <[key entry := default [] (state !! key entry) ++ [entry]]> state)
    state_list ∅.

(** [(entry.insertion, entry.row)], which a change [(is_addition, row)]
    is compared with. *)
Definition entry_update (entry : DiffEntry) : bool * Row :=
  (insertion entry, row entry).

(** The loop of [CheckKeyConsistentInStreamCallback.__call__], entered
    with a deque that is not empty: [entry = q.popleft()] has left [q] in
    the deque of [key]. *)
Fixpoint consume (key : Pointer) (row : Row) (is_addition : bool)
    (entry : DiffEntry) (q : list DiffEntry) (state : State)
    : Result unit * State :=
  let state := <[key := q]> state in
  if bool_decide ((is_addition, row) = entry_update entry)
  then
    match q with
    | [] => (Ok tt, delete key state)
    | _ :: _ => (Ok tt, state)
    end
  else
    match q with
    | [] => (Err AssertionError, state)
    | entry' :: q' => consume key row is_addition entry' q' state
    end.

(** [CheckKeyConsistentInStreamCallback.__call__] *)
Definition __call__ (key : Pointer) (row : Row) (time : Z) (is_addition : bool)
    (state : State) : Result unit * State :=
  match state !! key with
  | Some (entry :: q) => consume key row is_addition entry q state
  | Some [] | None => (Err AssertionError, state)
  end.

(** [CheckKeyConsistentInStreamCallback.on_end] *)
Definition on_end (state : State) : Result unit * State :=
  if bool_decide (size state = 0) then (Ok tt, state)
  else (Err AssertionError, state).

(** A change of the stream, as the engine hands it to a callback sink. *)
Record Change := mkChange {
  change_key : Pointer;
  change_row : Row;
  change_time : Z;
  change_is_addition : bool
}.

(** The callback driven over a stream: [on_change] is called for every
    change, in order, and [on_end] when the stream ends; the first
    exception ends the run.  Modelled from the spec: [pw.io.subscribe] and
    the engine that calls the callback sink are not part of the sources. *)
Fixpoint subscribe (changes : list Change) (state : State)
    : Result unit * State :=
  match changes with
  | [] => on_end state
  | c :: rest =>
      match __call__ (change_key c) (change_row c) (change_time c)
              (change_is_addition c) state with
      | (Ok _, state') => subscribe rest state'
      | (Err e, state') => (Err e, state')
      end
  end.

(** [assert_key_entries_in_stream_consistent(expected, table)], for a table
    whose stream is [changes]. *)
Definition assert_key_entries_in_stream_consistent (expected : list DiffEntry)
    (changes : list Change) : Result unit * State :=
  subscribe changes (__init__ expected).

Definition change_update (c : Change) : bool * Row :=
  (change_is_addition c, change_row c).

(** The changes of one key, and the expected entries of one key. *)
Definition changes_of (k : Pointer) (changes : list Change) : list Change :=
  filter (fun c => change_key c = k) changes.

Definition entries_of (k : Pointer) (entries : list DiffEntry) : list DiffEntry :=
  filter (fun e => key e = k) entries.

(** The deque of [k], empty when [k] has none. *)
Definition deque (k : Pointer) (state : State) : list DiffEntry :=
  default [] (state !! k).

(** No deque of the state is empty. *)
Definition no_empty_deque (state : State) : Prop :=
  forall k q, state !! k = Some q -> q <> [].
End KeyEntries.
End CheckKeyConsistent.


Module CheckValuesConsistent.
Section Values.
(** Keys are engine pointers; a row is the tuple of its values; a value is
    made hashable by [make_value_hashable], which replaces an array by a
    tuple of its type, element type, shape and text.  It is left open, as
    the values are; [==] on hashable values is taken to be equality. *)
Context {Pointer : Type} `{Countable Pointer}.
Context {Value : Type}.
Context {Hashable : Type} `{Countable Hashable}.
Context (make_value_hashable : Value -> Hashable).

Definition make_row_hashable (row : list Value) : list Hashable :=
  map make_value_hashable row.

(** [collections.Counter] over hashable rows: [c[x]] is [0] for a missing
    [x], [Counter(iterable)] counts the elements, and two counters are equal
    when all their counts agree, a missing count being zero. *)
#[local] Abbreviation Counter := (gmap (list Hashable) Z).

Definition count (c : Counter) (x : list Hashable) : Z := default 0%Z (c !! x).

Definition Counter_of (iterable : list (list Hashable)) : Counter :=
  fold_left (fun c x => <[x := (count c x + 1)%Z]> c) iterable ∅.

Definition Counter_eq (a b : Counter) : bool :=
  bool_decide (set_Forall (fun x => count a x = count b x) (dom a ∪ dom b)).

(** A captured table: the rows by key. *)
#[local] Abbreviation CapturedTable := (gmap Pointer (list Value)).

(** [t.values()] *)
Definition table_values (t : CapturedTable) : list (list Value) :=
  (map_to_list t).*2.

Definition assert_equal_tables_wo_index (t0 t1 : CapturedTable) : Result unit :=
  if Counter_eq (Counter_of (map make_row_hashable (table_values t0)))
                (Counter_of (map make_row_hashable (table_values t1)))
  then Ok tt else Err AssertionError.

(** [Entry]: what a key held when it was last touched. *)
Record Entry := mkEntry {
  last_modified : Z;
  values : Counter
}.

Definition validate (self : Entry) : Result unit :=
  match map_to_list (values self) with
  | [] => Ok tt
  | [(value, count)] =>
      if bool_decide (count = 1%Z) then Ok tt else Err AssertionError
  | _ :: _ :: _ => Err AssertionError
  end.

Definition empty (self : Entry) : bool :=
  bool_decide (size (values self) = 0).

Definition get_element (self : Entry) : Result (list Hashable) :=
  match validate self with
  | Err e => Err e
  | Ok _ =>
      match map_to_list (values self) with
      | [] => Err StopIteration
      | (value, _) :: _ => Ok value
      end
  end.

(** [self.data]: a [defaultdict(Entry)]. *)
#[local] Abbreviation Data := (gmap Pointer Entry).

(** [CheckValuesConsistentInStreamCallback.__call__]; [row] is
    [tuple(row.values())].  Reading [self.data[key]] puts a new entry
    there when the key has none. *)
Definition __call__ (key : Pointer) (row : list Value) (time : Z)
    (is_addition : bool) (data : Data) : Result unit * Data :=
  let hashable_row := make_row_hashable row in
  let entry := default (mkEntry 0 ∅) (data !! key) in
  let data := <[key := entry]> data in
  match (if bool_decide (last_modified entry < time)%Z
         then validate entry else Ok tt) with
  | Err e => (Err e, data)
  | Ok _ =>
      let last_modified :=
        if bool_decide (last_modified entry < time)%Z
        then time else last_modified entry in
      let values :=
        if is_addition
        then <[hashable_row := (count (values entry) hashable_row + 1)%Z]>
               (values entry)
        else
          let values :=
            <[hashable_row := (count (values entry) hashable_row - 1)%Z]>
              (values entry) in
          if bool_decide (count values hashable_row = 0%Z)
          then delete hashable_row values else values in
      (Ok tt, <[key := mkEntry last_modified values]> data)
  end.

(** The generator of [on_end]:
    [entry.get_element(key) for key, entry in items if not entry.empty()]. *)
Fixpoint elements (items : list (Pointer * Entry))
    : Result (list (list Hashable)) :=
  match items with
  | [] => Ok []
  | (key, entry) :: rest =>
      if empty entry then elements rest
      else
        match get_element entry with
        | Err e => Err e
        | Ok element =>
            match elements rest with
            | Err e => Err e
            | Ok others => Ok (element :: others)
            end
        end
  end.

(** [CheckValuesConsistentInStreamCallback.on_end] *)
Definition on_end (expected : list (list Value)) (data : Data) : Result unit :=
  match elements (map_to_list data) with
  | Err e => Err e
  | Ok result =>
      if Counter_eq (Counter_of result)
                    (Counter_of (map make_row_hashable expected))
      then Ok tt else Err AssertionError
  end.

(** The number of occurrences of [x] in [l]. *)
Definition occurrences (l : list (list Hashable)) (x : list Hashable) : nat :=
  count_occ (decide_rel (=)) l x.

(** The entries that hold something. *)
Definition live (items : list (Pointer * Entry))
    : list (Pointer * Entry) :=
  filter (fun ke => empty ke.2 = false) items.
End Values.
End CheckValuesConsistent.
End utils.

(** ** Concrete collaborators used by the examples *)

Module example.
(** An engine scope that counts the calls it served and numbers the column
    handles it creates by that count, so that asking twice for the same
    column would give two different handles. *)
#[global] Instance counting_scope : api.Scope N := {|
  api.table_universe := fun e t => ((2 * t)%N, (e + 1)%N);
  api.table_column := fun e u t p =>
    ({| api.handle := e; api.universe := u |}, (e + 1)%N);
  api.columns_to_table := fun e u cols => (e, (e + 1)%N)
|}.

(** Logical columns as seen by the lowering: an identity and a universe. *)
Record LogicalColumn := mkLogicalColumn {
  column_id : positive;
  universe : Universe;
  external : bool
}.

#[global] Instance LogicalColumn_eq_dec : EqDecision LogicalColumn.
Proof. solve_decision. Defined.

#[global] Instance LogicalColumn_countable : Countable LogicalColumn.
Proof.
  refine (inj_countable'
            (fun c => (column_id c, universe c, external c))
            (fun t => mkLogicalColumn t.1.1 t.1.2 t.2) _).
  intros []; reflexivity.
Defined.

Definition ScopeState := @state.ScopeState LogicalColumn _ _ N.

Definition col_a : LogicalColumn := mkLogicalColumn 1%positive 1%positive false.
Definition col_b : LogicalColumn := mkLogicalColumn 2%positive 1%positive false.

Definition storage_1 : state.Storage :=
  state.mkStorage 1%positive [(col_a, [0%nat])].

(** The scope after [set_table(storage_1, 7)]: the storage of universe 1
    is registered, nothing is resolved yet. *)
Definition registered : ScopeState :=
  (state.set_table storage_1 7%N (state.__init__ 0%N)).2.

(** The scope after [set_column(col_a, column 5 of engine universe 9)]:
    the column is cached, no storage is registered. *)
Definition cached : ScopeState :=
  (state.set_column universe col_a (api.mkColumn 5%N 9%N) (state.__init__ 0%N)).2.
(** The parse graph before any operator ran, with the solver above. *)
Definition graph0 : table.ParseGraph :=
  table.mkParseGraph solver.initial 0 [] 1%positive [].

(** The collaborators that [table.py] leaves open: a desugaring that
    keeps the key expression of [ix] as it is, an element type for the
    columns [flatten] can expand (strings, whose elements are strings), and
    a comparison of columns, by their universes and types. *)
Definition keep_expression (context : table.Table) (e : table.ColumnExpression)
    : Py (@table.ParseGraph solver.State) table.ColumnExpression :=
  ret e.

Definition same_column (a b : table.Column) : bool :=
  Pos.eqb (table.column_universe a) (table.column_universe b)
  && bool_decide (table.column_dtype a = table.column_dtype b).

Definition element_dtype (c : table.Column) : Outcome dt.DType :=
  match table.column_dtype c with
  | dt.STR => Returned dt.STR
  | _ => Raised (TypeError "Cannot flatten column of this type.")
  end.

(** An instance of the part of [combine_args_kwargs] that is left open:
    a positional argument that is not a column reference, a name that is
    given twice and the name [id] are errors. *)
#[global] Instance desugaring : table.Desugaring := {|
  table.irregular_arguments := fun _ _ =>
    Raised (ValueError "Not a column reference, or a duplicate or reserved name.")
|}.

Definition pets_schema : table.Schema :=
  [("owner", table.mkColumnProperties dt.STR false);
   ("pet", table.mkColumnProperties (dt.Optional dt.STR) false)].

(** Two tables of that schema, as [_from_schema] builds them one after the
    other: [pets] over universe 1, [more_pets] over universe 2. *)
Definition pets : table.Table :=
  table.mkTable 1%positive
    [("owner", table.MaterializedColumn 1%positive
                 (table.mkColumnProperties dt.STR false));
     ("pet", table.MaterializedColumn 1%positive
               (table.mkColumnProperties (dt.Optional dt.STR) false))]
    1%positive [] pets_schema (table.IdColumn (table.RowwiseContext 1%positive)).

Definition graph1 : table.ParseGraph := (table._from_schema pets_schema graph0).2.

Definition more_pets : table.Table :=
  table.mkTable 2%positive
    [("owner", table.MaterializedColumn 2%positive
                 (table.mkColumnProperties dt.STR false));
     ("pet", table.MaterializedColumn 2%positive
               (table.mkColumnProperties (dt.Optional dt.STR) false))]
    2%positive [] pets_schema (table.IdColumn (table.RowwiseContext 2%positive)).

Definition graph2 : table.ParseGraph := (table._from_schema pets_schema graph1).2.

(** The graph after [more_pets.with_universe_of(pets)]: the solver has been
    promised that universes 2 and 1 are equal. *)
Definition graph_equal : table.ParseGraph :=
  (table.with_universe_of more_pets pets graph2).2.

(** The graph after [promise_are_pairwise_disjoint(pets, more_pets)]. *)
Definition graph_disjoint : table.ParseGraph :=
  (table.universes_promise_are_pairwise_disjoint [pets; more_pets] graph2).2.

(** The key expression [more_pets.id] and the filter [pets.pet is not None]. *)
Definition more_pets_id : table.ColumnExpression :=
  table.colref_expr (table.id more_pets).

Definition pet_column : table.Column :=
  table.MaterializedColumn 1%positive
    (table.mkColumnProperties (dt.Optional dt.STR) false).

Definition pet_is_not_none : table.ColumnExpression :=
  table.IsNotNoneExpression (table.ColumnReference pets pet_column "pet").

(** The grouping [pets.groupby(pets.owner)] and the reducer [count()]. *)
Definition owner_column : table.Column :=
  table.MaterializedColumn 1%positive (table.mkColumnProperties dt.STR false).

Definition pets_owner : table.ColumnExpression :=
  table.ColumnReference pets owner_column "owner".

Definition pets_by_owner : table.GroupedTable :=
  table.mkGroupedTable pets [(pets, owner_column, "owner")] false None false.

Definition count : table.ColumnExpression :=
  table.ReducerExpression "count" dt.INT [].

(** A table with a column named [self], as [_from_schema] builds it in
    the graph [graph0] from the schema of a source with that column, and
    the filter [notes.note is not None]. *)
Definition notes_schema : table.Schema :=
  [("self", table.mkColumnProperties dt.STR false);
   ("note", table.mkColumnProperties (dt.Optional dt.STR) false)].

Definition note_column : table.Column :=
  table.MaterializedColumn 1%positive
    (table.mkColumnProperties (dt.Optional dt.STR) false).

Definition notes : table.Table :=
  table.mkTable 1%positive
    [("self", table.MaterializedColumn 1%positive
                (table.mkColumnProperties dt.STR false));
     ("note", note_column)]
    1%positive [] notes_schema (table.IdColumn (table.RowwiseContext 1%positive)).

Definition graph_notes : table.ParseGraph :=
  (table._from_schema notes_schema graph0).2.

Definition note_is_not_none : table.ColumnExpression :=
  table.IsNotNoneExpression (table.ColumnReference notes note_column "note").

(** A logical table as seen by the lowering: its universe, its columns by
    name and its identity column. *)
Record LogicalTable := mkLogicalTable {
  table_universe : Universe;
  table_columns : list (string * LogicalColumn);
  table_id_column : LogicalColumn
}.

#[global] Instance LogicalTable_eq_dec : EqDecision LogicalTable.
Proof. solve_decision. Defined.

#[global] Instance LogicalTable_countable : Countable LogicalTable.
Proof.
  refine (inj_countable'
            (fun t => (table_universe t, table_columns t, table_id_column t))
            (fun t => mkLogicalTable t.1.1 t.1.2 t.2) _).
  intros []; reflexivity.
Defined.

(** The table over universe 1 with the column [col_a], and the scope with
    legacy tables and evaluators around a scope of the lowering.  Contexts
    are numbered and evaluators are named. *)
Definition col_id : LogicalColumn := mkLogicalColumn 3%positive 1%positive false.

Definition table_1 : LogicalTable := mkLogicalTable 1%positive [("a", col_a)] col_id.

Definition id_column (u : api.Universe) : api.Column := api.mkColumn 0%N u.

Definition LegacyScopeState :=
  @state.LegacyScopeState LogicalColumn _ _ N LogicalTable _ _ positive _ _ string.

Definition legacy (b : ScopeState) : LegacyScopeState :=
  state.mkLegacyScopeState b ∅ ∅.

(** The expected entries of a stream check: keys are numbered and rows are
    named.  [sorted] is an insertion sort, stable as the builtin, by key,
    then order, then insertion ([False] before [True]). *)
Definition DiffEntry := @utils.CheckKeyConsistent.DiffEntry positive string.

Definition entry_le (a b : DiffEntry) : bool :=
  let key := @utils.CheckKeyConsistent.key positive string in
  let order := @utils.CheckKeyConsistent.order positive string in
  let insertion := @utils.CheckKeyConsistent.insertion positive string in
  if bool_decide (key a = key b)
  then
    if bool_decide (order a = order b)
    then implb (insertion a) (insertion b)
    else bool_decide (order a < order b)%Z
  else bool_decide (key a < key b)%positive.

Fixpoint insert_entry (e : DiffEntry) (l : list DiffEntry) : list DiffEntry :=
  match l with
  | [] => [e]
  | x :: rest => if entry_le e x then e :: l else x :: insert_entry e rest
  end.

Definition sorted (l : list DiffEntry) : list DiffEntry :=
  foldr insert_entry [] l.

(** Key 1 is expected to get the row [a] and then, instead of it, the row
    [b]; the stream brings the insertion of [a] and its replacement by
    [b], and a shorter stream brings only the insertion of [b]. *)
Definition expected_entries : list DiffEntry :=
  [utils.CheckKeyConsistent.mkDiffEntry 1%positive 2%Z true "b";
   utils.CheckKeyConsistent.mkDiffEntry 1%positive 2%Z false "a";
   utils.CheckKeyConsistent.mkDiffEntry 1%positive 1%Z true "a"].

Definition stream : list (@utils.CheckKeyConsistent.Change positive string) :=
  [utils.CheckKeyConsistent.mkChange 1%positive "a" 10%Z true;
   utils.CheckKeyConsistent.mkChange 1%positive "a" 12%Z false;
   utils.CheckKeyConsistent.mkChange 1%positive "b" 12%Z true].
End example.

(** * Properties *)

(** ** The scope lowering state *)

Module StateFacts.
Section ScopeState.
Context {Column : Type} `{Countable Column}.
Context (column_universe : Column -> Universe).
Context {E : Type} `{api.Scope E}.

#[local] Abbreviation ScopeState := (@state.ScopeState Column _ _ E).
#[local] Abbreviation get_column := (state.get_column column_universe).
#[local] Abbreviation has_column := (state.has_column column_universe).
#[local] Abbreviation extract_column := (state.extract_column column_universe).
#[local] Abbreviation set_column := (state.set_column column_universe).
#[local] Abbreviation oos_free := state.oos_free.
#[local] Abbreviation out_of_scope := (state.out_of_scope column_universe).

(** C7.  [set_universe] never replaces an entry of the universe cache.
    When the logical universe [key] is already cached with handle
    [cached], the call with the same handle returns and leaves the scope
    as it was, the call with another handle fails the assertion, and in
    both cases [key] is still bound to [cached]; whatever the arguments,
    every binding of the cache survives the call. *)
Theorem set_universe_never_replaces (s : ScopeState) key value cached :
  state.universes s !! key = Some cached ->
  (value = cached -> state.set_universe key value s = (Returned tt, s)) /\
  (value <> cached ->
     state.set_universe key value s =
       (Raised (AssertionError "overriding already computed universe"), s)) /\
  state.universes (state.set_universe key value s).2 !! key = Some cached /\
  (forall key' value' k v,
     state.universes s !! k = Some v ->
     state.universes (state.set_universe key' value' s).2 !! k = Some v).
Proof.
  intros Hc. repeat split.
  - intros ->. unfold state.set_universe. rewrite Hc. by rewrite decide_True.
  - intros Hne. unfold state.set_universe. rewrite Hc. by rewrite decide_False.
  - unfold state.set_universe. rewrite Hc. by destruct (decide _).
  - intros key' value' k v Hk. unfold state.set_universe.
    destruct (state.universes s !! key') as [c|] eqn:Hk'.
    + by destruct (decide _).
    + simpl. destruct (decide (key' = k)) as [->|Hne]; [congruence|].
      by rewrite lookup_insert_ne.
Qed.

(** *** Stepping through a method *)

Lemma bind_returned {St A B} (m : Py St A) (k : A -> Py St B) s b s' :
  bind m k s = (Returned b, s') ->
  exists a s1, m s = (Returned a, s1) /\ k a s1 = (Returned b, s').
Proof.
  unfold bind. destruct (m s) as [[a|e] s1]; [eauto|discriminate].
Qed.

Lemma set_universe_columns (s s' : ScopeState) key value o :
  state.set_universe key value s = (o, s') -> state.columns s' = state.columns s.
Proof.
  unfold state.set_universe. repeat case_match; intros; simplify_eq; done.
Qed.

Lemma set_column_returned (s s' : ScopeState) key value :
  set_column key value s = (Returned tt, s') ->
  state.columns s' = <[key := value]> (state.columns s).
Proof.
  intros (? & s1 & Hm & Hs)%bind_returned.
  apply set_universe_columns in Hs. unfold modify in Hm. by simplify_eq.
Qed.

Lemma extract_column_caches (s s' : ScopeState) c h :
  extract_column c s = (Returned h, s') -> state.columns s' !! c = Some h.
Proof.
  unfold state.extract_column.
  intros (st & s1 & _ & Hk)%bind_returned.
  destruct (negb _); [discriminate|].
  apply bind_returned in Hk as (t & s2 & _ & Hk).
  apply bind_returned in Hk as (known & s3 & _ & Hk).
  apply bind_returned in Hk as (eu & s4 & _ & Hk).
  apply bind_returned in Hk as (p & s5 & _ & Hk).
  apply bind_returned in Hk as (ec & s6 & _ & Hk).
  apply bind_returned in Hk as ([] & s7 & Hset & Hk).
  unfold ret in Hk. simplify_eq.
  apply set_column_returned in Hset. rewrite Hset. apply lookup_insert_eq.
Qed.

(** C8.  Resolution is idempotent.  When [get_column c] returns the engine
    handle [h], leaving the scope in state [s'], the column is cached
    under [h] (by the extraction, if it was not cached before), and a
    second call returns the same handle and leaves [s'] as it is, the
    engine state inside it included: the engine is not consulted again. *)
Theorem get_column_idempotent (s s' : ScopeState) c h :
  get_column c s = (Returned h, s') ->
  (state.columns s !! c = None -> extract_column c s = (Returned h, s')) /\
  state.columns s' !! c = Some h /\
  get_column c s' = (Returned h, s').
Proof.
  intros Hget.
  assert (Hc : state.columns s' !! c = Some h).
  { unfold state.get_column in Hget.
    destruct (state.columns s !! c) as [h0|] eqn:Hc0.
    - by simplify_eq.
    - by eapply extract_column_caches. }
  split; [|split; [done|]].
  - intros Hnone. unfold state.get_column in Hget. by rewrite Hnone in Hget.
  - unfold state.get_column. by rewrite Hc.
Qed.

(** *** Which calls can raise [OutOfScopeError] *)

Lemma oos_free_bind {A B} (m : Py ScopeState A) (k : A -> Py ScopeState B) s :
  oos_free m s ->
  (forall a s1, m s = (Returned a, s1) -> oos_free (k a) s1) ->
  oos_free (bind m k) s.
Proof.
  intros Hm Hk msg s'. unfold bind.
  destruct (m s) as [[a|e] s1] eqn:Hms.
  - by apply Hk.
  - intros ?; simplify_eq. by eapply Hm.
Qed.

Lemma oos_free_set_universe key value (s : ScopeState) : oos_free (state.set_universe key value) s.
Proof.
  intros msg s'. unfold state.set_universe.
  repeat case_match; congruence.
Qed.

Lemma oos_free_get_table st (s : ScopeState) : oos_free (state.get_table st) s.
Proof. intros msg s'. unfold state.get_table. case_match; congruence. Qed.

Lemma oos_free_get_path st c (s : ScopeState) : oos_free (state.storage_get_path st c) s.
Proof.
  intros msg s'. unfold state.storage_get_path, ret, raise.
  case_match; congruence.
Qed.

Lemma oos_free_set_column key value (s : ScopeState) : oos_free (set_column key value) s.
Proof.
  apply oos_free_bind; [intros ??; unfold modify; congruence|].
  intros; apply oos_free_set_universe.
Qed.

Lemma get_storage_returned (s s1 : ScopeState) u st :
  state.get_storage u s = (Returned st, s1) ->
  s1 = s /\ state.storages s !! u = Some st.
Proof. unfold state.get_storage. case_match; intros; by simplify_eq. Qed.

Lemma get_table_returned (s s1 : ScopeState) st t :
  state.get_table st s = (Returned t, s1) -> s1 = s.
Proof. unfold state.get_table. case_match; intros; by simplify_eq. Qed.

Lemma oos_free_extract_universe u (s : ScopeState) :
  is_Some (state.storages s !! u) -> oos_free (state.extract_universe u) s.
Proof.
  intros [st Hst]. unfold state.extract_universe.
  apply oos_free_bind.
  { intros msg s'. unfold state.get_storage. rewrite Hst. congruence. }
  intros st' s1 _. apply oos_free_bind; [apply oos_free_get_table|].
  intros t s2 _. apply oos_free_bind.
  { intros msg s'. unfold state.scope_table_universe. case_match. congruence. }
  intros eu s3 _. apply oos_free_bind; [apply oos_free_set_universe|].
  intros. intros ??. unfold ret. congruence.
Qed.

Lemma oos_free_get_universe u (s : ScopeState) :
  is_Some (state.storages s !! u) -> oos_free (state.get_universe u) s.
Proof.
  intros Hst msg s'. unfold state.get_universe. case_match; [congruence|].
  by apply oos_free_extract_universe.
Qed.

Lemma extract_column_out_of_scope (s : ScopeState) c :
  out_of_scope s c ->
  exists msg, extract_column c s = (Raised (OutOfScopeError msg), s).
Proof.
  unfold state.extract_column, bind, state.get_storage.
  intros [Hst|(st & Hst & Hhas)]; rewrite Hst; [eauto|].
  rewrite Hhas. simpl. eauto.
Qed.

Lemma extract_column_in_scope (s : ScopeState) c :
  ~ out_of_scope s c -> oos_free (extract_column c) s.
Proof.
  intros Hin. unfold out_of_scope in Hin.
  destruct (state.storages s !! column_universe c) as [st|] eqn:Hst; [|tauto].
  destruct (state.storage_has_column st c) eqn:Hhas; [|exfalso; eauto].
  unfold state.extract_column. apply oos_free_bind.
  { intros ??. unfold state.get_storage. rewrite Hst. congruence. }
  intros st' s1 [-> Hst']%get_storage_returned. simplify_eq.
  rewrite Hhas. simpl. apply oos_free_bind; [apply oos_free_get_table|].
  intros t s2 ->%get_table_returned. apply oos_free_bind.
  { intros ??. unfold state.has_universe, gets. congruence. }
  intros known s3 Hk. unfold state.has_universe, gets in Hk. simplify_eq.
  apply oos_free_bind.
  { destruct (negb _);
      [apply oos_free_extract_universe|apply oos_free_get_universe]; eauto. }
  intros eu s4 _. apply oos_free_bind; [apply oos_free_get_path|].
  intros p s5 _. apply oos_free_bind.
  { intros ??. unfold state.scope_table_column. case_match. congruence. }
  intros ec s6 _. apply oos_free_bind; [apply oos_free_set_column|].
  intros ??? ??. unfold ret. congruence.
Qed.

Lemma out_of_scope_dec (s : ScopeState) c : out_of_scope s c \/ ~ out_of_scope s c.
Proof.
  unfold out_of_scope.
  destruct (state.storages s !! column_universe c) as [st|]; [|by left; left].
  destruct (state.storage_has_column st c) eqn:Hhas.
  - right. intros [?|(st' & ? & ?)]; simplify_eq; congruence.
  - left. right. eauto.
Qed.

Lemma get_column_raises_out_of_scope (s s' : ScopeState) c msg :
  get_column c s = (Raised (OutOfScopeError msg), s') <->
  s' = s /\ state.columns s !! c = None /\ out_of_scope s c /\
  extract_column c s = (Raised (OutOfScopeError msg), s).
Proof.
  unfold state.get_column.
  destruct (state.columns s !! c) as [h|] eqn:Hc.
  { split; [discriminate|]. by intros (_ & ? & _). }
  split.
  - intros Hr. destruct (out_of_scope_dec s c) as [Hout|Hin].
    + destruct (extract_column_out_of_scope s c Hout) as [msg' Hr'].
      rewrite Hr' in Hr. by simplify_eq.
    + exfalso. by eapply extract_column_in_scope.
  - by intros (-> & _ & _ & ->).
Qed.

(** C9, as the code has it.  [get_column c] raises [OutOfScopeError]
    exactly when [c] is not cached and, moreover, its universe has no
    registered storage or the registered storage does not contain [c]; the
    scope is then left as it was.  [has_column c] returns [False] exactly
    in that case, and returns [True] exactly when [get_column c] returns a
    handle (with the scope [get_column] leaves); an [OutOfScopeError]
    never leaves [has_column]. *)
Theorem get_column_out_of_scope_iff (s : ScopeState) c :
  ((exists msg s', get_column c s = (Raised (OutOfScopeError msg), s')) <->
     state.columns s !! c = None /\ out_of_scope s c) /\
  (forall s', has_column c s = (Returned false, s') <->
     s' = s /\ state.columns s !! c = None /\ out_of_scope s c) /\
  (forall s', has_column c s = (Returned true, s') <->
     exists h, get_column c s = (Returned h, s')) /\
  (forall msg s', has_column c s <> (Raised (OutOfScopeError msg), s')).
Proof.
  split; [|split; [|split]].
  - split.
    + intros (msg & s' & Hr). apply get_column_raises_out_of_scope in Hr. tauto.
    + intros [Hc Hout].
      destruct (extract_column_out_of_scope s c Hout) as [msg Hr].
      exists msg, s. apply get_column_raises_out_of_scope. eauto.
  - intros s'. unfold state.has_column.
    destruct (get_column c s) as [[h|e] s1] eqn:Hget.
    + split; [discriminate|]. intros (-> & Hc & Hout).
      destruct (extract_column_out_of_scope s c Hout) as [msg Hr].
      unfold state.get_column in Hget. rewrite Hc in Hget. congruence.
    + destruct e as [msg| | | | | |];
        try (split; [discriminate|]; intros (-> & Hc & Hout);
             destruct (extract_column_out_of_scope s c Hout) as [msg' Hr];
             unfold state.get_column in Hget; rewrite Hc in Hget; congruence).
      apply get_column_raises_out_of_scope in Hget as (-> & Hc & Hout & _).
      split; [intros ?; by simplify_eq|]. by intros (-> & _).
  - intros s'. unfold state.has_column.
    destruct (get_column c s) as [[h|e] s1] eqn:Hget.
    + split; [intros ?; simplify_eq; eauto|]. intros (h' & ?). by simplify_eq.
    + destruct e; (split; [discriminate|]); intros (h' & ?); discriminate.
  - intros msg s'. unfold state.has_column.
    destruct (get_column c s) as [[h|e] s1]; [discriminate|].
    destruct e; discriminate.
Qed.

(** [has_universe] is the membership test of the universe cache and
    leaves the scope as it is. *)
Lemma has_universe_tests_cache (s : ScopeState) key :
  state.has_universe key s =
    (Returned (bool_decide (is_Some (state.universes s !! key))), s).
Proof. reflexivity. Qed.
End ScopeState.

(** The witness: universe 1 is cached with engine handle 9. *)
Lemma set_universe_never_replaces_witness :
state.universes example.cached !! 1%positive = Some 9%N /\
state.set_universe 1%positive 9%N example.cached = (Returned tt, example.cached).
Proof.
assert (Hc : state.universes example.cached !! 1%positive = Some 9%N)
  by reflexivity.
split; [exact Hc|].
exact (proj1 (set_universe_never_replaces example.cached 1%positive 9%N 9%N Hc)
             eq_refl).
Defined.

(** The witness: in the scope where only the storage of universe 1 is
  registered, the first [get_column col_a] asks the engine (two calls) and
  returns the column handle numbered 1; the second call returns it again
  from the scope the first one left. *)
Lemma get_column_idempotent_witness :
let first := state.get_column example.universe example.col_a example.registered in
first.1 = Returned (api.mkColumn 1%N 14%N) /\
state.get_column example.universe example.col_a first.2 = first.
Proof.
set (first := state.get_column example.universe example.col_a example.registered).
assert (Hfirst : first = (Returned (api.mkColumn 1%N 14%N), first.2))
  by reflexivity.
split; [reflexivity|].
rewrite Hfirst at 2.
exact (proj2 (proj2 (get_column_idempotent example.universe
                       example.registered first.2 example.col_a
                       (api.mkColumn 1%N 14%N) Hfirst))).
Defined.

(** C9, counterexample to the claim as stated.  In the scope reached by
  [set_column(col_a, ...)] from the initial one, the universe of [col_a]
  has no registered storage, and yet [get_column col_a] raises nothing:
  it returns the cached handle. *)
Lemma get_column_cached_without_storage :
~ ((exists msg s',
      state.get_column example.universe example.col_a example.cached =
        (Raised (OutOfScopeError msg), s')) <->
   state.out_of_scope example.universe example.cached example.col_a).
Proof.
intros [_ Hraise].
destruct Hraise as (msg & s' & Hr); [by left|].
discriminate Hr.
Qed.

(** C10.  [has_universe] only reads the universe cache and leaves the scope
  untouched, whatever the storages hold.  So there is a scope (the
  storage of a universe registered, the universe not yet resolved) in
  which [has_universe] answers [False] although [get_universe] succeeds,
  and answers [True] once [get_universe] has run.  [has_column] differs:
  in that same scope, for a column that is not cached, it answers [True]
  after resolving the column and its universe, which it leaves cached. *)
Theorem has_universe_does_not_extract :
(forall (s : example.ScopeState) key,
   state.has_universe key s =
     (Returned (bool_decide (is_Some (state.universes s !! key))), s)) /\
(exists (s s' : example.ScopeState) key handle,
   state.has_universe key s = (Returned false, s) /\
   state.get_universe key s = (Returned handle, s') /\
   state.has_universe key s' = (Returned true, s')) /\
(exists (s s' : example.ScopeState) c,
   state.columns s !! c = None /\
   state.universes s !! example.universe c = None /\
   state.has_column example.universe c s = (Returned true, s') /\
   is_Some (state.columns s' !! c) /\
   is_Some (state.universes s' !! example.universe c)).
Proof.
split; [|split].
- intros s key. apply has_universe_tests_cache.
- exists example.registered,
    (state.get_universe 1%positive example.registered).2, 1%positive, 14%N.
  repeat split.
- exists example.registered,
    (state.has_column example.universe example.col_a example.registered).2,
    example.col_a.
  repeat split; by eexists.
Qed.

(** *** Calls, caches and invariants *)

Section Lowering.
Context {Column : Type} `{Countable Column}.
Context (column_universe : Column -> Universe).
Context (is_external_materialized : Column -> bool).
Context {E : Type} `{api.Scope E}.

#[local] Abbreviation ScopeState := (@state.ScopeState Column _ _ E).
#[local] Abbreviation Storage := (@state.Storage Column).
#[local] Abbreviation M := (Py ScopeState).
#[local] Abbreviation get_column := (state.get_column column_universe).
#[local] Abbreviation has_column := (state.has_column column_universe).
#[local] Abbreviation get_columns := (state.get_columns column_universe).
#[local] Abbreviation extract_column := (state.extract_column column_universe).
#[local] Abbreviation set_column := (state.set_column column_universe).
#[local] Abbreviation create_table :=
  (state.create_table column_universe is_external_materialized).
#[local] Abbreviation cache_consistent := (state.cache_consistent column_universe).
#[local] Abbreviation perform :=
  (state.perform column_universe is_external_materialized).
#[local] Abbreviation reachable :=
  (state.reachable column_universe is_external_materialized).
#[local] Abbreviation goes_on := state.goes_on.
#[local] Abbreviation extends_caches := (@state.extends_caches Column _ _ E).
#[local] Abbreviation keeps := (@state.keeps Column _ _ E).
#[local] Abbreviation invariant := (state.invariant column_universe).
#[local] Abbreviation post := (@state.post Column _ _ E).
#[local] Abbreviation same_columns := (@state.same_columns Column _ _ E).
#[local] Abbreviation binds := (@state.binds Column _ _ E).
#[local] Abbreviation same_or_binds := (@state.same_or_binds Column _ _ E).

Lemma keeps_bind I {A B} (m : M A) (k : A -> M B) :
  keeps I m -> (forall a, keeps I (k a)) -> keeps I (bind m k).
Proof.
  intros Hm Hk s o s' HI. unfold bind.
  destruct (m s) as [[a|e] s1] eqn:Hms.
  - intros Hr Ho. eapply Hk; [|exact Hr|exact Ho]. by eapply (Hm s (Returned a)).
  - intros ? Ho. simplify_eq. by eapply (Hm s (Raised e)).
Qed.

Lemma keeps_ret I {A} (a : A) : keeps I (ret a : M A).
Proof. intros s o s' HI ? _. unfold ret in *. by simplify_eq. Qed.

Lemma keeps_raise I {A} e : keeps I (raise e : M A).
Proof. intros s o s' HI ? _. unfold raise in *. by simplify_eq. Qed.

Lemma keeps_for_each I {A B} (body : A -> M B) xs :
  (forall x, keeps I (body x)) -> keeps I (for_each body xs).
Proof.
  intros Hb. induction xs as [|x xs IH]; simpl.
  - apply keeps_ret.
  - apply keeps_bind; [apply Hb|]. intros y.
    apply keeps_bind; [apply IH|]. intros ys. apply keeps_ret.
Qed.

Lemma keeps_set_universe key value : keeps invariant (state.set_universe key value).
Proof.
  intros s o s' [Hc Hr]. unfold state.set_universe.
  destruct (state.universes s !! key) as [cached|] eqn:Hk.
  - destruct (decide _); intros ? Ho; by simplify_eq.
  - intros ? _. simplify_eq. split; [|exact Hr].
    intros c h Hch. simpl in *.
    specialize (Hc c h Hch).
    destruct (decide (key = column_universe c)) as [->|Hne]; [congruence|].
    by rewrite lookup_insert_ne.
Qed.

Lemma set_universe_returned (s s' : ScopeState) key value :
  state.set_universe key value s = (Returned tt, s') ->
  state.universes s' !! key = Some value /\
  state.columns s' = state.columns s /\ state.storages s' = state.storages s /\
  state.tables s' = state.tables s /\ state.scope s' = state.scope s /\
  (forall k v, state.universes s !! k = Some v -> state.universes s' !! k = Some v).
Proof.
  unfold state.set_universe.
  destruct (state.universes s !! key) as [cached|] eqn:Hk.
  - destruct (decide _); intros; simplify_eq. by repeat split.
  - intros; simplify_eq. simpl. rewrite lookup_insert_eq. repeat split; try done.
    intros k v Hkv. destruct (decide (key = k)) as [->|Hne]; [congruence|].
    by rewrite lookup_insert_ne.
Qed.

Lemma keeps_set_column key value : keeps invariant (set_column key value).
Proof.
  intros s o s' [Hc Hr]. unfold state.set_column, bind, modify.
  destruct (state.set_universe _ _ _) as [[[]|e] s1] eqn:Hset.
  2:{ intros ? Ho. simplify_eq.
      unfold state.set_universe in Hset. simpl in Hset.
      repeat case_match; simplify_eq; done. }
  intros ? _. simplify_eq.
  apply set_universe_returned in Hset as (Hu & Hcols & Hst & Htb & _ & Hmono).
  simpl in *. split.
  - intros c h. rewrite Hcols. destruct (decide (key = c)) as [->|Hne].
    + rewrite lookup_insert_eq. intros; by simplify_eq.
    + rewrite lookup_insert_ne by done. intros Hch. apply Hmono. by apply Hc.
  - intros u st. rewrite Hst, Htb. apply Hr.
Qed.

Lemma keeps_pure I {A} (m : M A) :
  (forall s, exists o, m s = (o, s)) -> keeps I m.
Proof. intros Hm s o s' HI Hr _. destruct (Hm s) as [o' Ho']. congruence. Qed.

Lemma keeps_get_storage I u : keeps I (state.get_storage u : M _).
Proof. apply keeps_pure. intros s. unfold state.get_storage. case_match; eauto. Qed.

Lemma keeps_get_table I st : keeps I (state.get_table st : M _).
Proof. apply keeps_pure. intros s. unfold state.get_table. case_match; eauto. Qed.

Lemma keeps_get_path I st c : keeps I (state.storage_get_path st c : M _).
Proof.
  apply keeps_pure. intros s. unfold state.storage_get_path, ret, raise.
  case_match; eauto.
Qed.

Lemma keeps_has_universe I u : keeps I (state.has_universe u : M _).
Proof. apply keeps_pure. intros s. unfold state.has_universe, gets. eauto. Qed.

Lemma invariant_with_scope e (s : ScopeState) :
  invariant s -> invariant (state.with_scope e s).
Proof. by intros [??]. Qed.

Lemma keeps_table_universe t : keeps invariant (state.scope_table_universe t).
Proof.
  intros s o s' HI. unfold state.scope_table_universe. case_match.
  intros ? _. simplify_eq. by apply invariant_with_scope.
Qed.

Lemma keeps_table_column u t p : keeps invariant (state.scope_table_column u t p).
Proof.
  intros s o s' HI. unfold state.scope_table_column. case_match.
  intros ? _. simplify_eq. by apply invariant_with_scope.
Qed.

Lemma keeps_columns_to_table u cols :
  keeps invariant (state.scope_columns_to_table u cols).
Proof.
  intros s o s' HI. unfold state.scope_columns_to_table. case_match.
  intros ? _. simplify_eq. by apply invariant_with_scope.
Qed.

Lemma keeps_extract_universe u : keeps invariant (state.extract_universe u).
Proof.
  unfold state.extract_universe.
  apply keeps_bind; [apply keeps_get_storage|]. intros st.
  apply keeps_bind; [apply keeps_get_table|]. intros t.
  apply keeps_bind; [apply keeps_table_universe|]. intros eu.
  apply keeps_bind; [apply keeps_set_universe|]. intros _. apply keeps_ret.
Qed.

Lemma keeps_get_universe u : keeps invariant (state.get_universe u).
Proof.
  intros s o s' HI. unfold state.get_universe. case_match.
  - intros ? _. by simplify_eq.
  - by apply keeps_extract_universe.
Qed.

Lemma keeps_extract_column c : keeps invariant (extract_column c).
Proof.
  unfold state.extract_column. cbv zeta.
  apply keeps_bind; [apply keeps_get_storage|]. intros st.
  destruct (negb _); [apply keeps_raise|].
  apply keeps_bind; [apply keeps_get_table|]. intros t.
  apply keeps_bind; [apply keeps_has_universe|]. intros known.
  apply keeps_bind.
  { destruct (negb known); [apply keeps_extract_universe|apply keeps_get_universe]. }
  intros eu. apply keeps_bind; [apply keeps_get_path|]. intros p.
  apply keeps_bind; [apply keeps_table_column|]. intros ec.
  apply keeps_bind; [apply keeps_set_column|]. intros _. apply keeps_ret.
Qed.

Lemma keeps_get_column c : keeps invariant (get_column c).
Proof.
  intros s o s' HI. unfold state.get_column. case_match.
  - intros ? _. by simplify_eq.
  - by apply keeps_extract_column.
Qed.

Lemma keeps_has_column c : keeps invariant (has_column c).
Proof.
  intros s o s' HI. unfold state.has_column.
  destruct (get_column c s) as [[h|e] s1] eqn:Hget.
  - intros ? _. simplify_eq. by eapply (keeps_get_column c s (Returned h)).
  - destruct e; intros ? Ho; simplify_eq; try done.
    by eapply (keeps_get_column c s (Raised (OutOfScopeError _))).
Qed.

Lemma keeps_set_table st t : keeps invariant (state.set_table st t).
Proof.
  intros s o s' [Hc Hr]. unfold state.set_table, modify. intros ? _. simplify_eq.
  split; [exact Hc|]. intros u st'. simpl.
  destruct (decide (state._universe st = u)) as [<-|Hne].
  - rewrite !lookup_insert_eq. intros; simplify_eq. eauto.
  - rewrite !lookup_insert_ne by done. apply Hr.
Qed.

Lemma keeps_create_table u st : keeps invariant (create_table u st).
Proof.
  unfold state.create_table.
  apply keeps_bind.
  { apply keeps_for_each. intros col.
    apply keeps_bind; [apply keeps_get_column|]. intros ec.
    apply keeps_bind; [apply keeps_get_path|]. intros p. apply keeps_ret. }
  intros cols. apply keeps_bind; [apply keeps_get_universe|]. intros eu.
  apply keeps_bind; [apply keeps_columns_to_table|]. intros t.
  apply keeps_set_table.
Qed.

Lemma keeps_perform c : keeps invariant (perform c).
Proof.
  destruct c; simpl;
    try (apply keeps_bind; [|intros ?; apply keeps_ret]).
  - apply keeps_set_column.
  - apply keeps_get_column.
  - apply keeps_has_column.
  - apply keeps_for_each. intros. apply keeps_get_column.
  - apply keeps_set_universe.
  - apply keeps_get_universe.
  - apply keeps_has_universe.
  - apply keeps_extract_universe.
  - apply keeps_extract_column.
  - apply keeps_create_table.
  - apply keeps_set_table.
  - intros s o s' HI. unfold state.add_computer_logic. intros ? _. by simplify_eq.
  - apply keeps_pure. intros s. unfold state.get_computer_logic. case_match; eauto.
  - apply keeps_get_table.
  - apply keeps_get_storage.
Qed.

(** X1.  Two invariants of a scope.  In every scope reached from the
    initial one by calls of its methods that return or raise
    [OutOfScopeError], every cached column has its universe cached, under
    the universe of its engine handle, and every storage is registered
    under its own universe, together with an engine table. *)
Theorem reachable_scopes_are_consistent sc (s : ScopeState) :
  reachable sc s ->
  cache_consistent s /\ state.storages_registered s.
Proof.
  induction 1 as [|s c o s' _ IH Hc Ho].
  - split; intros ??; simpl; by rewrite lookup_empty.
  - by eapply (keeps_perform c s o).
Qed.
(** *** Postconditions that hold whatever the outcome *)

Lemma post_bind {A B} (P Q T : ScopeState -> ScopeState -> Prop)
    (m : M A) (k : A -> M B) :
  post P m -> (forall a, post Q (k a)) ->
  (forall s s', P s s' -> T s s') ->
  (forall s1 s2 s3, P s1 s2 -> Q s2 s3 -> T s1 s3) ->
  post T (bind m k).
Proof.
  intros Hm Hk HPT HPQ s o s'. unfold bind.
  destruct (m s) as [[a|e] s1] eqn:Hms.
  - intros Hr. eapply HPQ; [by eapply Hm|by eapply Hk].
  - intros ?. simplify_eq. apply HPT. by eapply Hm.
Qed.

Lemma post_pure {A} (P : ScopeState -> ScopeState -> Prop) (m : M A) :
  (forall s, P s s) -> (forall s, exists o, m s = (o, s)) -> post P m.
Proof.
  intros HP Hm s o s' Hr. destruct (Hm s) as [o' Ho'].
  rewrite Ho' in Hr. simplify_eq. apply HP.
Qed.

Lemma same_columns_refl s : same_columns s s.
Proof. done. Qed.

Lemma same_columns_trans s1 s2 s3 :
  same_columns s1 s2 -> same_columns s2 s3 -> same_columns s1 s3.
Proof. intros [??] [??]. split; [by etrans|congruence]. Qed.

Lemma same_columns_extends s s' : same_columns s s' -> extends_caches s s'.
Proof. intros [? Hc]. split; [done|by rewrite Hc]. Qed.

Lemma extends_caches_refl s : extends_caches s s.
Proof. done. Qed.

Lemma extends_caches_trans s1 s2 s3 :
  extends_caches s1 s2 -> extends_caches s2 s3 -> extends_caches s1 s3.
Proof. intros [??] [??]. split; by etrans. Qed.

Lemma post_same_bind {A B} (m : M A) (k : A -> M B) :
  post same_columns m -> (forall a, post same_columns (k a)) ->
  post same_columns (bind m k).
Proof.
  intros Hm Hk. eapply post_bind; eauto using same_columns_trans.
Qed.

Lemma post_extends_bind {A B} (m : M A) (k : A -> M B) :
  post extends_caches m -> (forall a, post extends_caches (k a)) ->
  post extends_caches (bind m k).
Proof.
  intros Hm Hk. eapply post_bind; eauto using extends_caches_trans.
Qed.

Lemma post_weaken {A} (P Q : ScopeState -> ScopeState -> Prop) (m : M A) :
  (forall s s', P s s' -> Q s s') -> post P m -> post Q m.
Proof. intros HPQ Hm s o s' Hr. apply HPQ. by eapply Hm. Qed.

Lemma post_set_universe key value : post same_columns (state.set_universe key value).
Proof.
  intros s o s'. unfold state.set_universe.
  destruct (state.universes s !! key) as [cached|] eqn:Hk.
  - destruct (decide _); intros; by simplify_eq.
  - intros; simplify_eq. split; [|done]. simpl. by apply insert_subseteq.
Qed.

Lemma post_get_storage u : post same_columns (state.get_storage u).
Proof.
  apply post_pure; [done|]. intros s. unfold state.get_storage. case_match; eauto.
Qed.

Lemma post_get_table st : post same_columns (state.get_table st).
Proof.
  apply post_pure; [done|]. intros s. unfold state.get_table. case_match; eauto.
Qed.

Lemma post_get_path st c : post same_columns (state.storage_get_path st c).
Proof.
  apply post_pure; [done|]. intros s. unfold state.storage_get_path, ret, raise.
  case_match; eauto.
Qed.

Lemma post_ret {A} (a : A) : post same_columns (ret a).
Proof. apply post_pure; [done|]. intros s. by eexists. Qed.

Lemma post_raise {A} e : post same_columns (raise e : M A).
Proof. apply post_pure; [done|]. intros s. by eexists. Qed.

Lemma post_has_universe u : post same_columns (state.has_universe u).
Proof. apply post_pure; [done|]. intros s. by eexists. Qed.

Lemma post_table_universe t : post same_columns (state.scope_table_universe t).
Proof.
  intros s o s'. unfold state.scope_table_universe. case_match.
  intros; by simplify_eq.
Qed.

Lemma post_table_column u t p : post same_columns (state.scope_table_column u t p).
Proof.
  intros s o s'. unfold state.scope_table_column. case_match.
  intros; by simplify_eq.
Qed.

Lemma post_columns_to_table u cols :
  post same_columns (state.scope_columns_to_table u cols).
Proof.
  intros s o s'. unfold state.scope_columns_to_table. case_match.
  intros; by simplify_eq.
Qed.

Lemma post_set_table st t : post same_columns (state.set_table st t).
Proof. intros s o s'. unfold state.set_table, modify. intros; by simplify_eq. Qed.

Lemma post_extract_universe u : post same_columns (state.extract_universe u).
Proof.
  unfold state.extract_universe.
  apply post_same_bind; [apply post_get_storage|]. intros st.
  apply post_same_bind; [apply post_get_table|]. intros t.
  apply post_same_bind; [apply post_table_universe|]. intros eu.
  apply post_same_bind; [apply post_set_universe|]. intros _. apply post_ret.
Qed.

Lemma post_get_universe u : post same_columns (state.get_universe u).
Proof.
  intros s o s'. unfold state.get_universe. case_match.
  - intros; by simplify_eq.
  - apply post_extract_universe.
Qed.

Lemma post_set_column key value : post (binds key) (set_column key value).
Proof.
  intros s o s'. unfold state.set_column, bind, modify.
  destruct (state.set_universe _ _ _) as [[[]|e] s1] eqn:Hset;
    intros ?; simplify_eq; apply post_set_universe in Hset as [Hu Hc];
    (split; [exact Hu|]); exists value; by rewrite Hc.
Qed.

Lemma same_then_binds key s1 s2 s3 :
  same_columns s1 s2 -> same_or_binds key s2 s3 -> same_or_binds key s1 s3.
Proof.
  intros [Hu Hc] [[Hu' Hc']|[Hu' [v Hc']]].
  - left. split; [by etrans|congruence].
  - right. split; [by etrans|]. exists v. by rewrite Hc', Hc.
Qed.

Lemma post_same_then {A B} key (m : M A) (k : A -> M B) :
  post same_columns m -> (forall a, post (same_or_binds key) (k a)) ->
  post (same_or_binds key) (bind m k).
Proof.
  intros Hm Hk. eapply post_bind; eauto using same_then_binds.
  intros; by left.
Qed.

Lemma post_extract_column c : post (same_or_binds c) (extract_column c).
Proof.
  unfold state.extract_column. cbv zeta.
  apply post_same_then; [apply post_get_storage|]. intros st.
  destruct (negb _).
  { eapply post_weaken; [|apply post_raise]. intros; by left. }
  apply post_same_then; [apply post_get_table|]. intros t.
  apply post_same_then; [apply post_has_universe|]. intros known.
  apply post_same_then.
  { destruct (negb known); [apply post_extract_universe|apply post_get_universe]. }
  intros eu. apply post_same_then; [apply post_get_path|]. intros p.
  apply post_same_then; [apply post_table_column|]. intros ec.
  eapply post_bind; [apply post_set_column|intros; apply post_ret|..].
  - intros; by right.
  - intros s1 s2 s3 [Hu [v Hc]] [Hu' Hc']. right.
    split; [by etrans|]. exists v. by rewrite Hc', Hc.
Qed.

Lemma post_get_column c : post extends_caches (get_column c).
Proof.
  intros s o s'. unfold state.get_column.
  destruct (state.columns s !! c) as [h|] eqn:Hc.
  - intros; by simplify_eq.
  - intros [Hs|[Hu [v Hv]]]%post_extract_column.
    + by apply same_columns_extends.
    + split; [done|]. rewrite Hv. by apply insert_subseteq.
Qed.

Lemma post_has_column c : post extends_caches (has_column c).
Proof.
  intros s o s'. unfold state.has_column.
  destruct (get_column c s) as [[h|e] s1] eqn:Hget;
    apply post_get_column in Hget.
  - intros; by simplify_eq.
  - destruct e; intros; by simplify_eq.
Qed.

Lemma post_for_each {A B} (body : A -> M B) xs :
  (forall x, post extends_caches (body x)) ->
  post extends_caches (for_each body xs).
Proof.
  intros Hb. induction xs as [|x xs IH]; simpl.
  - eapply post_weaken; [apply same_columns_extends|apply post_ret].
  - apply post_extends_bind; [apply Hb|]. intros y.
    apply post_extends_bind; [apply IH|]. intros ys.
    eapply post_weaken; [apply same_columns_extends|apply post_ret].
Qed.

Lemma post_create_table u st : post extends_caches (create_table u st).
Proof.
  unfold state.create_table.
  apply post_extends_bind.
  { apply post_for_each. intros col.
    apply post_extends_bind; [apply post_get_column|]. intros ec.
    eapply post_weaken; [apply same_columns_extends|].
    apply post_same_bind; [apply post_get_path|]. intros p. apply post_ret. }
  intros cols. eapply post_weaken; [apply same_columns_extends|].
  apply post_same_bind; [apply post_get_universe|]. intros eu.
  apply post_same_bind; [apply post_columns_to_table|]. intros t.
  apply post_set_table.
Qed.

(** No call of [Call] rebinds or drops a cached universe, whatever its
    outcome, and only [set_column] and a direct [extract_column] can rebind
    a cached column. *)
Lemma perform_extends_caches (s s' : ScopeState) c o :
  perform c s = (o, s') ->
  state.universes s ⊆ state.universes s' /\
  match c with
  | state.call_set_column _ _ | state.call_extract_column _ => True
  | _ => state.columns s ⊆ state.columns s'
  end.
Proof.
  assert (Hunit : forall {A} (m : M A),
            post extends_caches m -> post extends_caches (m ;;; ret tt)).
  { intros A m Hm. apply post_extends_bind; [done|]. intros _.
    eapply post_weaken; [apply same_columns_extends|apply post_ret]. }
  assert (Hsame : forall {A} (m : M A),
            post same_columns m -> post extends_caches m).
  { intros A m. apply post_weaken, same_columns_extends. }
  destruct c; simpl; intros Hr.
  - apply post_set_column in Hr as [? _]. done.
  - by apply (Hunit _ _ (post_get_column _)) in Hr.
  - by apply (Hunit _ _ (post_has_column _)) in Hr.
  - eapply (Hunit _ _) in Hr; [done|].
    apply post_for_each. intros. apply post_get_column.
  - by apply (Hsame _ _ (post_set_universe _ _)) in Hr.
  - by apply (Hunit _ _ (Hsame _ _ (post_get_universe _))) in Hr.
  - by apply (Hunit _ _ (Hsame _ _ (post_has_universe _))) in Hr.
  - by apply (Hunit _ _ (Hsame _ _ (post_extract_universe _))) in Hr.
  - unfold bind in Hr.
    destruct (extract_column column s) as [[h|e] s1] eqn:Hex;
      unfold ret in Hr; simplify_eq;
      apply post_extract_column in Hex as [[? _]|[? _]]; done.
  - by apply post_create_table in Hr.
  - by apply (Hsame _ _ (post_set_table _ _)) in Hr.
  - unfold bind, state.add_computer_logic, ret in Hr. by simplify_eq.
  - unfold bind, state.get_computer_logic, ret in Hr.
    repeat case_match; by simplify_eq.
  - by apply (Hunit _ _ (Hsame _ _ (post_get_table _))) in Hr.
  - by apply (Hunit _ _ (Hsame _ _ (post_get_storage _))) in Hr.
Qed.
(** X3.  [set_column] followed by [get_column].  When the universe of
    [key] is not cached, or is cached under the universe of [value],
    [set_column(key, value)] returns; afterwards [get_column(key)] returns
    [value] without asking the engine, the universe of [key] is cached
    under the universe of [value], and the engine state, the tables and the
    storages are as before. *)
Theorem set_column_then_get_column (s : ScopeState) key value :
  (forall u, state.universes s !! column_universe key = Some u ->
             u = api.universe value) ->
  exists s',
    set_column key value s = (Returned tt, s') /\
    get_column key s' = (Returned value, s') /\
    state.universes s' !! column_universe key = Some (api.universe value) /\
    state.scope s' = state.scope s /\
    state.tables s' = state.tables s /\ state.storages s' = state.storages s.
Proof.
  intros Hu. unfold state.set_column, bind, modify, state.set_universe. simpl.
  destruct (state.universes s !! column_universe key) as [u|] eqn:Hk.
  - rewrite decide_True by by apply Hu.
    eexists. split; [done|]. unfold state.get_column. simpl.
    rewrite lookup_insert_eq. repeat split; try done.
    rewrite Hk. f_equal. by apply Hu.
  - eexists. split; [done|]. unfold state.get_column. simpl.
    rewrite !lookup_insert_eq. by repeat split.
Qed.

(** X4.  [set_column] writes the column before it checks the universe.
    When the universe of [key] is cached under another engine universe
    than that of [value], [set_column(key, value)] raises
    [AssertionError], and yet the column cache holds [value] for [key]
    afterwards: [get_column(key)] returns it.  The universe cache is as
    before. *)
Theorem set_column_conflict_keeps_column (s : ScopeState) key value u :
  state.universes s !! column_universe key = Some u ->
  u <> api.universe value ->
  exists s',
    set_column key value s =
      (Raised (AssertionError "overriding already computed universe"), s') /\
    state.columns s' = <[key := value]> (state.columns s) /\
    state.universes s' = state.universes s /\
    get_column key s' = (Returned value, s').
Proof.
  intros Hk Hne. unfold state.set_column, bind, modify, state.set_universe. simpl.
  rewrite Hk, decide_False by done.
  eexists. split; [done|]. unfold state.get_column. simpl.
  by rewrite lookup_insert_eq.
Qed.

(** X5.  [get_universe] in a scope whose storages are registered under
    their own universes.  A cached universe is returned and the scope is
    left as it is; a universe that is neither cached nor has a storage
    raises [OutOfScopeError] and the scope is left as it is; a universe
    that is not cached and has a storage is asked from the engine, once:
    the answer is cached, the columns are left alone, and a second call
    returns the same answer from the cache. *)
Theorem get_universe_resolves (s : ScopeState) key :
  state.storages_registered s ->
  (forall u, state.universes s !! key = Some u ->
     state.get_universe key s = (Returned u, s)) /\
  (state.universes s !! key = None -> state.storages s !! key = None ->
     state.get_universe key s =
       (Raised (OutOfScopeError "path storage out of scope"), s)) /\
  (state.universes s !! key = None -> is_Some (state.storages s !! key) ->
     exists t s',
       state.tables s !! key = Some t /\
       state.get_universe key s =
         (Returned (api.table_universe (state.scope s) t).1, s') /\
       state.universes s' =
         <[key := (api.table_universe (state.scope s) t).1]> (state.universes s) /\
       state.scope s' = (api.table_universe (state.scope s) t).2 /\
       state.columns s' = state.columns s /\
       state.get_universe key s' =
         (Returned (api.table_universe (state.scope s) t).1, s')).
Proof.
  intros Hreg. split; [|split].
  - intros u Hu. unfold state.get_universe. by rewrite Hu.
  - intros Hu Hst. unfold state.get_universe, state.extract_universe, bind,
      state.get_storage. by rewrite Hu, Hst.
  - intros Hu [st Hst]. destruct (Hreg key st Hst) as [Hkey [t Ht]].
    exists t.
    exists (state.with_universes
              (<[key := (api.table_universe (state.scope s) t).1]> (state.universes s))
              (state.with_scope (api.table_universe (state.scope s) t).2 s)).
    split; [done|].
    unfold state.get_universe at 1. rewrite Hu.
    unfold state.extract_universe, bind, state.get_storage, state.get_table.
    rewrite Hst, Hkey, Ht. unfold state.scope_table_universe.
    destruct (api.table_universe (state.scope s) t) as [eu e] eqn:Heu.
    unfold state.set_universe. simpl. rewrite Hu. unfold ret.
    split; [reflexivity|]. simpl. repeat split.
    unfold state.get_universe. simpl. by rewrite lookup_insert_eq.
Qed.

Lemma assoc_find_is_Some (col : Column) (l : list (Column * ColumnPath)) :
  col ∈ l.*1 -> is_Some (state.assoc_find col l).
Proof.
  induction l as [|[c p] l IH]; simpl.
  - by intros ?%elem_of_nil.
  - intros Hin. destruct (decide (c = col)); [by eexists|].
    apply IH. apply elem_of_cons in Hin as [?|?]; [congruence|done].
Qed.

(** A loop whose body leaves the state as it is. *)
Lemma for_each_stateless {St A B} (body : A -> Py St B) xs ys (s : St) :
  Forall2 (fun x y => body x s = (Returned y, s)) xs ys ->
  for_each body xs s = (Returned ys, s).
Proof.
  induction 1 as [|x y xs ys Hx _ IH]; simpl; [done|].
  unfold bind. rewrite Hx, IH. done.
Qed.

(** The list comprehension of [create_table] over cached columns. *)
Lemma for_each_cached (st : Storage) (s : ScopeState) cols :
  Forall (fun col => is_Some (state.columns s !! col) /\
                     col ∈ state.storage_get_columns st) cols ->
  exists cwp,
    for_each (fun col =>
                engine_column <- get_column col ;;
                path <- state.storage_get_path st col ;;
                ret (engine_column, path)) cols s = (Returned cwp, s) /\
    Forall2 (fun col hp => state.columns s !! col = Some hp.1 /\
                           state.assoc_find col (state._column_paths st) = Some hp.2)
            cols cwp.
Proof.
  intros Hcols.
  assert (Hex : exists cwp,
            Forall2 (fun col hp =>
                       state.columns s !! col = Some hp.1 /\
                       state.assoc_find col (state._column_paths st) = Some hp.2)
                    cols cwp).
  { induction Hcols as [|col cols [[h Hh] Hin] _ [cwp Hall]].
    - by exists [].
    - destruct (assoc_find_is_Some col _ Hin) as [p Hp].
      exists ((h, p) :: cwp). by constructor. }
  destruct Hex as [cwp Hall]. exists cwp. split; [|exact Hall].
  apply for_each_stateless. eapply Forall2_impl; [exact Hall|].
  intros col [h p] [Hh Hp]. simpl in *.
  unfold bind, state.get_column. rewrite Hh.
  unfold state.storage_get_path. by rewrite Hp.
Qed.

(** X6.  [create_table].  When the universe is cached and every column of
    the storage that is not externally materialized is cached,
    [create_table] returns: it hands the engine the cached handles of these
    columns, in the order of the storage, each with its path, registers
    the engine table and the storage under the universe of the storage, so
    that [get_storage] and [get_table] return them, and leaves the column
    and universe caches as they are. *)
Theorem create_table_registers_storage (s : ScopeState) universe storage eu :
  state.universes s !! universe = Some eu ->
  (forall col, col ∈ state.storage_get_columns storage ->
               is_external_materialized col = false ->
               is_Some (state.columns s !! col)) ->
  exists cwp s',
    Forall2 (fun col hp =>
               state.columns s !! col = Some hp.1 /\
               state.assoc_find col (state._column_paths storage) = Some hp.2)
      (filter (fun col => is_external_materialized col = false)
              (state.storage_get_columns storage)) cwp /\
    create_table universe storage s = (Returned tt, s') /\
    state.tables s' !! state._universe storage =
      Some (api.columns_to_table (state.scope s) eu cwp).1 /\
    state.storages s' !! state._universe storage = Some storage /\
    state.get_storage (state._universe storage) s' = (Returned storage, s') /\
    state.get_table storage s' =
      (Returned (api.columns_to_table (state.scope s) eu cwp).1, s') /\
    state.columns s' = state.columns s /\ state.universes s' = state.universes s.
Proof.
  intros Hu Hcols.
  destruct (for_each_cached storage s
              (filter (fun col => is_external_materialized col = false)
                      (state.storage_get_columns storage))) as (cwp & Hrun & Hall).
  { apply Forall_forall. intros col [Hext Hin]%list_elem_of_filter. eauto. }
  destruct (api.columns_to_table (state.scope s) eu cwp) as [t e] eqn:Ht.
  assert (Hct : create_table universe storage s =
                  (Returned tt,
                   state.with_tables_storages
                     (<[state._universe storage := t]> (state.tables s))
                     (<[state._universe storage := storage]> (state.storages s))
                     (state.with_scope e s))).
  { unfold state.create_table. unfold bind at 1. rewrite Hrun.
    unfold bind at 1. unfold state.get_universe. rewrite Hu.
    unfold bind, state.scope_columns_to_table. by rewrite Ht. }
  exists cwp. eexists. split; [exact Hall|]. split; [exact Hct|].
  rewrite Ht. unfold state.get_storage, state.get_table. simpl.
  rewrite !lookup_insert_eq. by repeat split.
Qed.

Lemma list_getitem_nonneg {A} (l : list A) (i : Z) :
  (0 <= i)%Z -> list_getitem l i = l !! Z.to_nat i.
Proof.
  intros Hi. unfold list_getitem.
  destruct (Z.ltb_spec i 0) as [?|_]; [lia|].
  destruct (Z.ltb_spec i 0) as [?|_]; [lia|done].
Qed.

Lemma list_getitem_neg {A} (l : list A) (i : Z) :
  (i < 0)%Z ->
  list_getitem l i =
    if (i + Z.of_nat (length l) <? 0)%Z then None
    else l !! Z.to_nat (i + Z.of_nat (length l)).
Proof.
  intros Hi. unfold list_getitem. by destruct (Z.ltb_spec i 0) as [_|?]; [|lia].
Qed.

Lemma list_getitem_Some {A} (l : list A) (i : Z) (a : A) :
  list_getitem l i = Some a ->
  (- Z.of_nat (length l) <= i < Z.of_nat (length l))%Z.
Proof.
  destruct (Z.ltb_spec i 0) as [Hi|Hi].
  - rewrite list_getitem_neg by done.
    destruct (Z.ltb_spec (i + Z.of_nat (length l)) 0) as [?|?]; [done|].
    intros Hl%lookup_lt_Some. lia.
  - rewrite list_getitem_nonneg by done. intros Hl%lookup_lt_Some. lia.
Qed.

(** X7.  [add_computer_logic] returns the number of callbacks registered
    before.  Afterwards [get_computer_logic] returns the new callback under
    that id and under [-1]; an id from zero on that returned a callback
    before returns the same one; a negative id, which counts from the end
    of the list, returns under [id - 1] what it returned under [id] before;
    and no id outside [-(n + 1) .. n], where [n] callbacks were registered
    before, returns a callback. *)
Theorem computer_logic_ids_are_stable (s : ScopeState) computer_callback :
  exists s',
    state.add_computer_logic computer_callback s =
      (Returned (Z.of_nat (length (state.computers s))), s') /\
    state.get_computer_logic (Z.of_nat (length (state.computers s))) s' =
      (Returned computer_callback, s') /\
    state.get_computer_logic (-1) s' = (Returned computer_callback, s') /\
    (forall id c, (0 <= id)%Z ->
       state.get_computer_logic id s = (Returned c, s) ->
       state.get_computer_logic id s' = (Returned c, s')) /\
    (forall id c, (id < 0)%Z ->
       state.get_computer_logic id s = (Returned c, s) ->
       state.get_computer_logic (id - 1) s' = (Returned c, s')) /\
    (forall id c,
       state.get_computer_logic id s' = (Returned c, s') ->
       (- Z.of_nat (length (state.computers s)) - 1 <= id
        <= Z.of_nat (length (state.computers s)))%Z).
Proof.
  eexists. split; [done|]. unfold state.get_computer_logic. simpl.
  set (l := state.computers s).
  assert (Hlen : length (l ++ [computer_callback]) = Datatypes.S (length l)).
  { rewrite length_app. simpl. lia. }
  repeat apply conj.
  - rewrite list_getitem_nonneg by lia. rewrite Nat2Z.id.
    rewrite lookup_app_r by done. by rewrite Nat.sub_diag.
  - rewrite list_getitem_neg by lia. rewrite Hlen.
    destruct (Z.ltb_spec (-1 + Z.of_nat (Datatypes.S (length l))) 0) as [?|_]; [lia|].
    replace (Z.to_nat (-1 + Z.of_nat (Datatypes.S (length l)))) with (length l) by lia.
    rewrite lookup_app_r by done. by rewrite Nat.sub_diag.
  - intros id c Hid. rewrite !list_getitem_nonneg by done.
    destruct (l !! Z.to_nat id) as [c'|] eqn:Hl; [|done].
    intros ?. simplify_eq. by rewrite (lookup_app_l_Some _ _ _ _ Hl).
  - intros id c Hid. rewrite !list_getitem_neg by lia. rewrite Hlen.
    destruct (Z.ltb_spec (id + Z.of_nat (length l)) 0) as [?|Hge]; [done|].
    destruct (Z.ltb_spec (id - 1 + Z.of_nat (Datatypes.S (length l))) 0) as [?|_];
      [lia|].
    replace (Z.to_nat (id - 1 + Z.of_nat (Datatypes.S (length l))))
      with (Z.to_nat (id + Z.of_nat (length l))) by lia.
    destruct (l !! Z.to_nat (id + Z.of_nat (length l))) as [c'|] eqn:Hl; [|done].
    intros ?. simplify_eq. by rewrite (lookup_app_l_Some _ _ _ _ Hl).
  - intros id c.
    destruct (list_getitem (l ++ [computer_callback]) id) as [c'|] eqn:Hl; [|done].
    intros _. apply list_getitem_Some in Hl. rewrite Hlen in Hl. lia.
Qed.

Lemma get_universe_returned (s s' : ScopeState) key u :
  state.get_universe key s = (Returned u, s') ->
  state.universes s' !! key = Some u.
Proof.
  unfold state.get_universe.
  destruct (state.universes s !! key) as [u0|] eqn:Hk; [intros; by simplify_eq|].
  unfold state.extract_universe.
  intros (st & s1 & _ & Hk1)%bind_returned.
  apply bind_returned in Hk1 as (t & s2 & _ & Hk1).
  apply bind_returned in Hk1 as (eu & s3 & _ & Hk1).
  apply bind_returned in Hk1 as ([] & s4 & Hset & Hk1).
  unfold ret in Hk1. simplify_eq.
  by apply set_universe_returned in Hset as [? _].
Qed.

(** What [get_columns] returns is cached when it returns, and the caches
    have only grown. *)
Lemma get_columns_returned (s s' : ScopeState) columns hs :
  get_columns columns s = (Returned hs, s') ->
  Forall2 (fun c h => state.columns s' !! c = Some h) columns hs /\
  extends_caches s s'.
Proof.
  intros Hget. split.
  - revert s hs Hget. unfold state.get_columns.
    induction columns as [|c cols IH]; intros s hs; simpl.
    + unfold ret. intros ?. by simplify_eq.
    + intros (h & s1 & Hget & Hk)%bind_returned.
      apply bind_returned in Hk as (hs' & s2 & Hrest & Hk).
      unfold ret in Hk. simplify_eq.
      constructor; [|by eapply IH].
      assert (Hc : state.columns s1 !! c = Some h).
      { unfold state.get_column in Hget.
        destruct (state.columns s !! c) as [h0|] eqn:Hc0; [by simplify_eq|].
        by eapply extract_column_caches. }
      assert (Hext : state.extends_caches s1 s').
      { eapply post_for_each; [|exact Hrest]. intros x. apply post_get_column. }
      destruct Hext as [_ Hsub]. by eapply lookup_weaken.
  - eapply post_for_each; [|exact Hget]. intros x. apply post_get_column.
Qed.

(** X8.  When [get_columns] returns, it returns the handles of the
    columns, in their order, as the scope it leaves has them cached; when
    all the columns were cached already, it leaves the scope as it is. *)
Theorem get_columns_returns_cached_handles (s s' : ScopeState) columns hs :
  get_columns columns s = (Returned hs, s') ->
  Forall2 (fun c h => state.columns s' !! c = Some h) columns hs /\
  (Forall (fun c => is_Some (state.columns s !! c)) columns -> s' = s).
Proof.
  intros Hget. split; [by eapply get_columns_returned|].
  revert s hs Hget. unfold state.get_columns.
  induction columns as [|c cols IH]; intros s hs; simpl.
  - unfold ret. intros ? _. by simplify_eq.
  - intros (h & s1 & Hget & Hk)%bind_returned.
    apply bind_returned in Hk as (hs' & s2 & Hrest & Hk).
    unfold ret in Hk. simplify_eq.
    intros [[h' Hh'] Hcached]%Forall_cons.
    unfold state.get_column in Hget. rewrite Hh' in Hget. simplify_eq.
    by eapply IH.
Qed.
End Lowering.

(** *** Legacy tables and evaluators *)

Section LegacyTables.
Context {Column : Type} `{Countable Column}.
Context (column_universe : Column -> Universe).
Context (is_external_materialized : Column -> bool).
Context {E : Type} `{api.Scope E}.
Context {Table : Type} `{Countable Table}.
Context (table_universe : Table -> Universe).
Context (table_columns : Table -> list (string * Column)).
Context (table_id_column : Table -> Column).
Context {Context_ : Type} `{Countable Context_}.
Context {Evaluator : Type}.
Context (universe_id_column : api.Universe -> api.Column).

#[local] Abbreviation LegacyScopeState :=
  (@state.LegacyScopeState Column _ _ E Table _ _ Context_ _ _ Evaluator).
#[local] Abbreviation L := (Py LegacyScopeState).
#[local] Abbreviation get_legacy_table :=
  (@state.get_legacy_table Column _ _ column_universe E _ Table _ _
     table_universe table_columns Context_ _ _ Evaluator).
#[local] Abbreviation set_legacy_table :=
  (@state.set_legacy_table Column _ _ column_universe E Table _ _
     table_columns table_id_column Context_ _ _ Evaluator universe_id_column).
#[local] Abbreviation get_or_create_evaluator :=
  (@state.get_or_create_evaluator Column _ _ E Table _ _ Context_ _ _ Evaluator).
#[local] Abbreviation set_legacy_tables :=
  (@state.set_legacy_tables Column _ _ column_universe E Table _ _
     table_columns table_id_column Context_ _ _ Evaluator universe_id_column).
#[local] Abbreviation get_context_table :=
  (@state.get_context_table Column _ _ column_universe E _ Table _ _
     Context_ _ _ Evaluator).
#[local] Abbreviation perform_method :=
  (state.perform_method column_universe is_external_materialized table_universe
     table_columns table_id_column universe_id_column
     (Context_ := Context_) (Evaluator := Evaluator)).
#[local] Abbreviation universes_grow :=
  (@state.universes_grow Column _ _ E Table _ _ Context_ _ _ Evaluator).
#[local] Abbreviation caches_grow :=
  (@state.caches_grow Column _ _ E Table _ _ Context_ _ _ Evaluator).
#[local] Abbreviation after :=
  (@state.after Column _ _ E Table _ _ Context_ _ _ Evaluator).

(** A method of the lowering run on the whole scope touches neither the
    legacy tables nor the evaluators. *)
Lemma on_base_run {A} (m : Py (@state.ScopeState Column _ _ E) A)
    (s s' : LegacyScopeState) o :
  state.on_base m s = (o, s') ->
  m (state.base s) = (o, state.base s') /\
  state.legacy_tables s' = state.legacy_tables s /\
  state.evaluators s' = state.evaluators s.
Proof.
  unfold state.on_base. destruct (m (state.base s)) as [o' b].
  intros ?. by simplify_eq.
Qed.

(** X9.  Resolution of a legacy table.  A cached table is returned and the
    scope is left as it is.  A table that is not cached is built, when the
    call returns, from the engine universe and the engine columns that the
    scope then has cached for the universe and the columns of the table,
    in their order.  Either way the table is cached afterwards, and a
    second call returns it again and leaves the scope, the engine state
    inside it included, as it is. *)
Theorem get_legacy_table_idempotent (s s' : LegacyScopeState) key t :
  get_legacy_table key s = (Returned t, s') ->
  state.legacy_tables s' !! key = Some t /\
  get_legacy_table key s' = (Returned t, s') /\
  (forall cached, state.legacy_tables s !! key = Some cached ->
     t = cached /\ s' = s) /\
  (state.legacy_tables s !! key = None ->
   state.universes (state.base s') !! table_universe key =
     Some (state.legacy_universe t) /\
   Forall2 (fun c h => state.columns (state.base s') !! c = Some h)
     (map snd (table_columns key)) (state.legacy_columns t)).
Proof.
  intros Hget. unfold state.get_legacy_table in Hget.
  destruct (state.legacy_tables s !! key) as [t0|] eqn:Hk.
  - simplify_eq. split; [done|].
    split; [unfold state.get_legacy_table; by rewrite Hk|].
    split; [|done]. intros cached ?. by simplify_eq.
  - apply bind_returned in Hget as (u & s1 & Hu & Hget).
    apply bind_returned in Hget as (cols & s2 & Hcols & Hget).
    apply bind_returned in Hget as ([] & s3 & Hmod & Hget).
    unfold modify in Hmod. unfold ret in Hget. simplify_eq.
    apply on_base_run in Hu as (Hu & _ & _).
    apply on_base_run in Hcols as (Hcols & _ & _).
    apply get_universe_returned in Hu.
    apply get_columns_returned in Hcols as [Hall [Hsub _]].
    split; [apply lookup_insert_eq|].
    split; [unfold state.get_legacy_table; simpl; by rewrite lookup_insert_eq|].
    split; [done|]. intros _. simpl.
    split; [by eapply lookup_weaken|done].
Qed.

(** X10.  An evaluator is made once for a context: a call that returns
    leaves the evaluator cached, and every later call for that context
    returns it without running its factory. *)
Theorem get_or_create_evaluator_caches (s s' : LegacyScopeState)
    context evaluator_factory evaluator :
  get_or_create_evaluator context evaluator_factory s = (Returned evaluator, s') ->
  state.evaluators s' !! context = Some evaluator /\
  forall other_factory,
    get_or_create_evaluator context other_factory s' = (Returned evaluator, s').
Proof.
  intros Hget.
  assert (Hc : state.evaluators s' !! context = Some evaluator).
  { unfold state.get_or_create_evaluator in Hget.
    destruct (state.evaluators s !! context) as [e0|] eqn:Hk; [by simplify_eq|].
    apply bind_returned in Hget as (ev & s1 & _ & Hget).
    apply bind_returned in Hget as ([] & s2 & Hmod & Hget).
    unfold modify in Hmod. simplify_eq. simpl in Hget.
    rewrite lookup_insert_eq in Hget. simplify_eq. simpl.
    apply lookup_insert_eq. }
  split; [done|]. intros other_factory.
  unfold state.get_or_create_evaluator. by rewrite Hc.
Qed.

Lemma assigned_other {K V} `{Countable K} (l : list (K * V)) (m : gmap K V) k :
  k ∉ l.*1 -> state.assigned l m !! k = m !! k.
Proof.
  revert m. induction l as [|[k' v] l IH]; intros m Hn; simpl; [done|].
  apply not_elem_of_cons in Hn as [Hne Hn].
  rewrite IH by done. by rewrite lookup_insert_ne.
Qed.

Lemma assigned_lookup {K V} `{Countable K} (l : list (K * V)) (m : gmap K V) i k v :
  NoDup l.*1 -> l !! i = Some (k, v) -> state.assigned l m !! k = Some v.
Proof.
  revert m i. induction l as [|[k' v'] l IH]; intros m i Hnd Hi; [done|].
  apply NoDup_cons in Hnd as [Hk Hnd]. destruct i as [|i]; simpl in *.
  - simplify_eq. rewrite assigned_other by done. apply lookup_insert_eq.
  - by eapply IH.
Qed.

Lemma set_column_on_base (s s' : LegacyScopeState) key value :
  state.on_base (state.set_column column_universe key value) s = (Returned tt, s') ->
  state.columns (state.base s') = <[key := value]> (state.columns (state.base s)) /\
  state.legacy_tables s' = state.legacy_tables s.
Proof.
  unfold state.on_base.
  destruct (state.set_column column_universe key value (state.base s))
    as [[[]|e] b] eqn:Hset; intros ?; simplify_eq.
  apply set_column_returned in Hset. by split.
Qed.

Lemma set_columns_on_base (l : list (string * Column * api.Column))
    (s s' : LegacyScopeState) us :
  for_each (fun ce => state.on_base (state.set_column column_universe ce.1.2 ce.2))
    l s = (Returned us, s') ->
  state.columns (state.base s') =
    state.assigned (map (fun ce => (ce.1.2, ce.2)) l)
      (state.columns (state.base s)) /\
  state.legacy_tables s' = state.legacy_tables s.
Proof.
  revert s us. induction l as [|ce l IH]; intros s us; simpl.
  - unfold ret. intros ?. by simplify_eq.
  - intros ([] & s1 & Hset & Hk)%bind_returned.
    apply bind_returned in Hk as (us' & s2 & Hrest & Hk).
    unfold ret in Hk. simplify_eq.
    apply set_column_on_base in Hset as [Hc Hl].
    apply IH in Hrest as [Hc' Hl']. rewrite Hc', Hc, Hl', Hl. done.
Qed.

Lemma zipped_columns (cols : list (string * Column)) (hs : list api.Column) :
  (map (fun ce : string * Column * api.Column => (ce.1.2, ce.2)) (zip cols hs)).*1 =
  (take (length hs) cols).*2.
Proof.
  revert hs. induction cols as [|nc cols IH]; intros [|h hs]; simpl; try done.
  f_equal. apply IH.
Qed.

(** X11.  [set_legacy_table], when it returns, leaves the table cached, so
    that [get_legacy_table] returns it without asking the engine.  When
    the identity column and the columns of the table are pairwise
    distinct, it caches the identity column of the engine universe for the
    identity column, and the engine columns for the columns of the table,
    by position.  The columns beyond the number of engine columns, as every
    other column, are left as they were. *)
Theorem set_legacy_table_caches (s s' : LegacyScopeState) key value :
  set_legacy_table key value s = (Returned tt, s') ->
  state.legacy_tables s' = <[key := value]> (state.legacy_tables s) /\
  get_legacy_table key s' = (Returned value, s') /\
  (NoDup (table_id_column key :: (table_columns key).*2) ->
   state.columns (state.base s') !! table_id_column key =
     Some (universe_id_column (state.legacy_universe value)) /\
   forall i nc h,
     table_columns key !! i = Some nc ->
     state.legacy_columns value !! i = Some h ->
     state.columns (state.base s') !! nc.2 = Some h) /\
  (forall col,
     col <> table_id_column key ->
     col ∉ (take (length (state.legacy_columns value)) (table_columns key)).*2 ->
     state.columns (state.base s') !! col = state.columns (state.base s) !! col).
Proof.
  unfold state.set_legacy_table.
  intros ([] & s1 & Hmod & Hk)%bind_returned.
  apply bind_returned in Hk as ([] & s2 & Hid & Hk).
  apply bind_returned in Hk as (us & s3 & Hcols & Hk).
  unfold modify in Hmod. unfold ret in Hk. simplify_eq.
  apply set_column_on_base in Hid as [Hc2 Hl2]. simpl in Hc2, Hl2.
  apply set_columns_on_base in Hcols as [Hc3 Hl3].
  set (l := map (fun ce : string * Column * api.Column => (ce.1.2, ce.2))
                (zip (table_columns key) (state.legacy_columns value))) in *.
  assert (Hl1 : l.*1 = (take (length (state.legacy_columns value))
                          (table_columns key)).*2).
  { apply zipped_columns. }
  assert (Hlt : state.legacy_tables s' = <[key := value]> (state.legacy_tables s)).
  { by rewrite Hl3, Hl2. }
  split; [done|]. split; [|split].
  - unfold state.get_legacy_table. by rewrite Hlt, lookup_insert_eq.
  - intros [Hidn Hnd]%NoDup_cons. split.
    + rewrite Hc3, assigned_other, Hc2; [apply lookup_insert_eq|].
      rewrite Hl1. intros Hin. apply Hidn.
      apply list_elem_of_fmap in Hin as (nc & -> & Hin).
      apply list_elem_of_fmap. exists nc. split; [done|].
      apply elem_of_take in Hin as (i & Hi & _).
      by eapply list_elem_of_lookup_2.
    + intros i nc h Hi Hh. rewrite Hc3.
      apply (assigned_lookup _ _ i).
      * rewrite Hl1. eapply sublist_NoDup; [exact Hnd|].
        apply fmap_sublist, sublist_take.
      * unfold l. rewrite list_lookup_fmap, lookup_zip_with, Hi. simpl.
        by rewrite Hh.
  - intros col Hne Hout. rewrite Hc3, assigned_other by (by rewrite Hl1).
    rewrite Hc2. by rewrite lookup_insert_ne.
Qed.

(** X26.  [get_context_table] builds the table at every call and stores
    nothing: whatever its outcome, it leaves the legacy tables and the
    evaluators as they are.  The table it returns holds the engine
    universe and the engine columns that the scope it leaves has cached
    for the universe and the columns of the context table, in their
    order. *)
Theorem get_context_table_stores_nothing (s s' : LegacyScopeState) key o :
  get_context_table key s = (o, s') ->
  state.legacy_tables s' = state.legacy_tables s /\
  state.evaluators s' = state.evaluators s /\
  forall t, o = Returned t ->
    state.universes (state.base s') !! state.context_universe key =
      Some (state.legacy_universe t) /\
    Forall2 (fun c h => state.columns (state.base s') !! c = Some h)
      (state.context_columns key) (state.legacy_columns t).
Proof.
  unfold state.get_context_table, bind.
  destruct (state.on_base (state.get_universe _) s) as [[u|e] s1] eqn:Hu.
  - apply on_base_run in Hu as (Hu & Hl1 & He1).
    destruct (state.on_base (for_each _ _) s1) as [[cols|e] s2] eqn:Hcols.
    + apply on_base_run in Hcols as (Hcols & Hl2 & He2).
      unfold ret. intros ?. simplify_eq.
      split; [congruence|]. split; [congruence|].
      intros t ?. simplify_eq. simpl.
      apply get_universe_returned in Hu.
      apply (get_columns_returned column_universe) in Hcols as [Hall [Hsub _]].
      split; [by eapply lookup_weaken|done].
    + apply on_base_run in Hcols as (_ & Hl2 & He2).
      intros ?. simplify_eq. split; [congruence|]. split; [congruence|done].
  - apply on_base_run in Hu as (_ & Hl1 & He1).
    intros ?. simplify_eq. done.
Qed.

Lemma set_legacy_table_returned (s s' : LegacyScopeState) key value :
  set_legacy_table key value s = (Returned tt, s') ->
  state.legacy_tables s' = <[key := value]> (state.legacy_tables s).
Proof.
  unfold state.set_legacy_table.
  intros ([] & s1 & Hmod & Hk)%bind_returned.
  apply bind_returned in Hk as ([] & s2 & Hid & Hk).
  apply bind_returned in Hk as (us & s3 & Hcols & Hk).
  unfold modify in Hmod. unfold ret in Hk. simplify_eq.
  apply set_column_on_base in Hid as [_ Hl2]. simpl in Hl2.
  apply set_columns_on_base in Hcols as [_ Hl3].
  by rewrite Hl3, Hl2.
Qed.

Lemma set_legacy_tables_returned (l : list (Table * state.LegacyTable))
    (s s' : LegacyScopeState) us :
  for_each (fun kv => set_legacy_table kv.1 kv.2) l s = (Returned us, s') ->
  state.legacy_tables s' = state.assigned l (state.legacy_tables s).
Proof.
  revert s us. induction l as [|kv l IH]; intros s us; simpl.
  - unfold ret. intros ?. by simplify_eq.
  - intros ([] & s1 & Hset & Hk)%bind_returned.
    apply bind_returned in Hk as (us' & s2 & Hrest & Hk).
    unfold ret in Hk. simplify_eq.
    apply set_legacy_table_returned in Hset.
    apply IH in Hrest. by rewrite Hrest, Hset.
Qed.

Lemma zipped_keys {A B} (l : list A) (k : list B) :
  (zip l k).*1 = take (length k) l.
Proof.
  revert k. induction l as [|x l IH]; intros [|y k]; simpl; try done.
  f_equal. apply IH.
Qed.

(** X27.  [set_legacy_tables] pairs the tables with the engine tables by
    position.  When it returns and the paired tables are pairwise
    distinct, the i-th table is cached as the i-th engine table; the
    tables beyond the number of engine tables, as every other table, are
    cached as they were, or not at all. *)
Theorem set_legacy_tables_pairs_by_position (s s' : LegacyScopeState)
    (keys : list Table) (values : list state.LegacyTable) :
  set_legacy_tables keys values s = (Returned tt, s') ->
  (NoDup (take (length values) keys) ->
   forall i key value,
     keys !! i = Some key -> values !! i = Some value ->
     state.legacy_tables s' !! key = Some value) /\
  (forall key,
     key ∉ take (length values) keys ->
     state.legacy_tables s' !! key = state.legacy_tables s !! key).
Proof.
  unfold state.set_legacy_tables.
  intros (us & s1 & Hrun & Hk)%bind_returned.
  unfold ret in Hk. simplify_eq.
  apply set_legacy_tables_returned in Hrun. rewrite Hrun. split.
  - intros Hnd i key value Hi Hv. apply (assigned_lookup _ _ i).
    + by rewrite zipped_keys.
    + apply lookup_zip_with_Some. by exists key, value.
  - intros key Hout. apply assigned_other. by rewrite zipped_keys.
Qed.

(** *** What the calls of all the methods do to the caches *)

Lemma universes_grow_refl (s : LegacyScopeState) : universes_grow s s.
Proof. by unfold state.universes_grow. Qed.

Lemma universes_grow_trans (s1 s2 s3 : LegacyScopeState) :
  universes_grow s1 s2 -> universes_grow s2 s3 -> universes_grow s1 s3.
Proof. unfold state.universes_grow. intros ??. by etrans. Qed.

Lemma caches_grow_refl (s : LegacyScopeState) : caches_grow s s.
Proof. by split. Qed.

Lemma caches_grow_trans (s1 s2 s3 : LegacyScopeState) :
  caches_grow s1 s2 -> caches_grow s2 s3 -> caches_grow s1 s3.
Proof. intros [??] [??]. split; by etrans. Qed.

Lemma after_bind {A B} (P : LegacyScopeState -> LegacyScopeState -> Prop)
    (m : L A) (k : A -> L B) :
  (forall s1 s2 s3, P s1 s2 -> P s2 s3 -> P s1 s3) ->
  after P m -> (forall a, after P (k a)) -> after P (bind m k).
Proof.
  intros Htrans Hm Hk s o s'. unfold bind.
  destruct (m s) as [[a|e] s1] eqn:Hms.
  - intros Hr. eapply Htrans; [by eapply Hm|by eapply Hk].
  - intros ?. simplify_eq. by eapply Hm.
Qed.

Lemma after_ret {A} (P : LegacyScopeState -> LegacyScopeState -> Prop) (a : A) :
  (forall s, P s s) -> after P (ret a : L A).
Proof. intros HP s o s' ?. unfold ret in *. simplify_eq. apply HP. Qed.

Lemma after_for_each {A B} (P : LegacyScopeState -> LegacyScopeState -> Prop)
    (body : A -> L B) xs :
  (forall s, P s s) -> (forall s1 s2 s3, P s1 s2 -> P s2 s3 -> P s1 s3) ->
  (forall x, after P (body x)) -> after P (for_each body xs).
Proof.
  intros Hrefl Htrans Hb. induction xs as [|x xs IH]; simpl.
  - by apply after_ret.
  - apply after_bind; [done..|]. intros y.
    apply after_bind; [done..|]. intros ys. by apply after_ret.
Qed.

Lemma after_on_base {A} (P : _ -> _ -> Prop)
    (Q : LegacyScopeState -> LegacyScopeState -> Prop)
    (m : Py (@state.ScopeState Column _ _ E) A) :
  state.post P m ->
  (forall s s' : LegacyScopeState, P (state.base s) (state.base s') -> Q s s') ->
  after Q (state.on_base m).
Proof.
  intros Hm HPQ s o s' Hr. apply on_base_run in Hr as (Hr & _).
  apply HPQ. by eapply Hm.
Qed.

Lemma after_weaken {A} (P Q : LegacyScopeState -> LegacyScopeState -> Prop)
    (m : L A) :
  (forall s s', P s s' -> Q s s') -> after P m -> after Q m.
Proof. intros HPQ Hm s o s' Hr. apply HPQ. by eapply Hm. Qed.

Lemma after_set_column key value :
  after universes_grow (state.on_base (state.set_column column_universe key value)).
Proof.
  eapply after_on_base; [apply (post_set_column column_universe)|].
  by intros s s' [? _].
Qed.

Lemma after_get_universe key :
  after caches_grow (state.on_base (state.get_universe key)).
Proof.
  eapply after_on_base; [apply post_get_universe|].
  intros s s' [? Hc]. split; [done|by rewrite Hc].
Qed.

Lemma after_get_columns columns :
  after caches_grow
    (state.on_base (for_each (state.get_column column_universe) columns)).
Proof.
  eapply after_on_base;
    [apply post_for_each; intros c; apply (post_get_column column_universe)|].
  by intros s s' [? ?].
Qed.

Lemma after_set_legacy_table key value :
  after universes_grow (set_legacy_table key value).
Proof.
  unfold state.set_legacy_table.
  apply after_bind; [apply universes_grow_trans| |intros _].
  { intros s o s' Hr. unfold modify in Hr. simplify_eq.
    by unfold state.universes_grow. }
  apply after_bind; [apply universes_grow_trans|apply after_set_column|intros _].
  apply after_bind; [apply universes_grow_trans| |intros _].
  - apply after_for_each;
      [apply universes_grow_refl|apply universes_grow_trans|].
    intros ce. apply after_set_column.
  - apply after_ret, universes_grow_refl.
Qed.

Lemma after_get_legacy_table key : after caches_grow (get_legacy_table key).
Proof.
  intros s o s'. unfold state.get_legacy_table.
  destruct (state.legacy_tables s !! key) as [table|];
    [intros ?; simplify_eq; by split|].
  revert s o s'.
  apply after_bind; [apply caches_grow_trans|apply after_get_universe|intros u].
  apply after_bind; [apply caches_grow_trans|apply after_get_columns|intros cols].
  apply after_bind; [apply caches_grow_trans| |intros _].
  - intros s o s' Hr. unfold modify in Hr. simplify_eq. by split.
  - apply after_ret, caches_grow_refl.
Qed.

Lemma after_unit {A} (P : LegacyScopeState -> LegacyScopeState -> Prop) (m : L A) :
  (forall s, P s s) -> (forall s1 s2 s3, P s1 s2 -> P s2 s3 -> P s1 s3) ->
  after P m -> after P (m ;;; ret tt).
Proof. intros Hrefl Htrans Hm. apply after_bind; [done..|]. intros _. by apply after_ret. Qed.

(** X2.  No call of a method of [ScopeState] rebinds or drops a cached
    universe, whatever its outcome, and only [set_column], a direct
    [extract_column], [set_legacy_table] and [set_legacy_tables] can rebind
    a cached column.  For [get_or_create_evaluator] this holds when the
    factory it calls, which may use the scope, rebinds and drops
    nothing. *)
Theorem calls_only_extend_caches (s s' : LegacyScopeState) c o :
  perform_method c s = (o, s') ->
  match c with
  | state.method_call (state.call_set_column _ _)
  | state.method_call (state.call_extract_column _)
  | state.method_set_legacy_table _ _
  | state.method_set_legacy_tables _ _ =>
      state.universes (state.base s) ⊆ state.universes (state.base s')
  | state.method_get_or_create_evaluator context evaluator_factory =>
      (forall o1 s1, evaluator_factory context s = (o1, s1) ->
         state.universes (state.base s) ⊆ state.universes (state.base s1) /\
         state.columns (state.base s) ⊆ state.columns (state.base s1)) ->
      state.universes (state.base s) ⊆ state.universes (state.base s') /\
      state.columns (state.base s) ⊆ state.columns (state.base s')
  | _ =>
      state.universes (state.base s) ⊆ state.universes (state.base s') /\
      state.columns (state.base s) ⊆ state.columns (state.base s')
  end.
Proof.
  assert (Hunit : forall {A} (m : L A) s o s',
            after caches_grow m -> (m ;;; ret tt) s = (o, s') -> caches_grow s s').
  { intros A m s1 o1 s2 Hm Hr.
    by apply (after_unit _ _ caches_grow_refl caches_grow_trans Hm) in Hr. }
  destruct c as [c| | | | | | |context evaluator_factory]; simpl; intros Hr.
  - apply on_base_run in Hr as (Hr & _).
    apply (perform_extends_caches column_universe is_external_materialized) in Hr.
    destruct c; tauto.
  - clear Hunit. revert s o s' Hr. unfold state.set_legacy_tables.
    apply (after_unit universes_grow);
      [apply universes_grow_refl|apply universes_grow_trans|].
    apply after_for_each; [apply universes_grow_refl|apply universes_grow_trans|].
    intros kv. apply after_set_legacy_table.
  - by apply after_set_legacy_table in Hr.
  - by apply (Hunit _ _ _ _ _ (after_get_legacy_table _)) in Hr.
  - eapply Hunit; [|exact Hr]. intros s1 o1 s2. unfold state.has_legacy_table.
    destruct (state.get_legacy_table _ _ _ _ s1) as [[t|e] s3] eqn:Hget;
      apply after_get_legacy_table in Hget;
      [|destruct e]; intros ?; by simplify_eq.
  - eapply Hunit; [|exact Hr]. unfold state.get_legacy_tables.
    apply after_for_each; [apply caches_grow_refl|apply caches_grow_trans|].
    intros t. apply after_get_legacy_table.
  - eapply Hunit; [|exact Hr]. unfold state.get_context_table.
    apply after_bind; [apply caches_grow_trans|apply after_get_universe|intros u].
    apply after_bind; [apply caches_grow_trans|apply after_get_columns|intros cols].
    apply after_ret, caches_grow_refl.
  - intros Hfactory. unfold bind, state.get_or_create_evaluator in Hr.
    destruct (state.evaluators s !! context) as [evaluator|];
      [unfold ret in Hr; by simplify_eq|].
    unfold bind in Hr.
    destruct (evaluator_factory context s) as [[evaluator|e] s1] eqn:Hf;
      [|simplify_eq; by apply (Hfactory _ _ eq_refl)].
    specialize (Hfactory _ _ eq_refl). unfold modify, ret in Hr. simpl in Hr.
    rewrite lookup_insert_eq in Hr. by simplify_eq.
Qed.
End LegacyTables.

(** *** Witnesses *)

(** The witness: the scope reached from the initial one by
    [set_table(storage_1, 7)] and [get_column(col_a)]. *)
Lemma reachable_scopes_are_consistent_witness :
  let s := (state.get_column example.universe example.col_a example.registered).2 in
  state.cache_consistent example.universe s /\ state.storages_registered s.
Proof.
  apply (reachable_scopes_are_consistent example.universe example.external 0%N).
  eapply (state.reachable_call _ _ _ example.registered
            (state.call_get_column example.col_a)
            (Returned tt)); [|reflexivity|exact I].
  eapply (state.reachable_call _ _ _ (state.__init__ 0%N)
            (state.call_set_table example.storage_1 7%N)
            (Returned tt)); [|reflexivity|exact I].
  apply state.reachable_init.
Defined.

(** The witness: [get_legacy_table(table_1)] in the scope where only the
    storage of universe 1 is registered. *)
Lemma calls_only_extend_caches_witness :
  let s' :=
    (state.get_legacy_table example.universe example.table_universe
       example.table_columns example.table_1
       (example.legacy example.registered)).2 in
  state.universes example.registered ⊆ state.universes (state.base s') /\
  state.columns example.registered ⊆ state.columns (state.base s').
Proof.
  exact (calls_only_extend_caches example.universe example.external
           example.table_universe example.table_columns example.table_id_column
           example.id_column (example.legacy example.registered) _
           (state.method_get_legacy_table example.table_1) (Returned tt) eq_refl).
Defined.

(** The witness: [set_column(col_a, column 5 of engine universe 9)] in a
    scope where the universe of [col_a] is not cached. *)
Lemma set_column_then_get_column_witness :
  exists s',
    state.set_column example.universe example.col_a (api.mkColumn 5%N 9%N)
      example.registered = (Returned tt, s') /\
    state.get_column example.universe example.col_a s' =
      (Returned (api.mkColumn 5%N 9%N), s') /\
    state.universes s' !! 1%positive = Some 9%N /\
    state.scope s' = state.scope example.registered /\
    state.tables s' = state.tables example.registered /\
    state.storages s' = state.storages example.registered.
Proof.
  apply (set_column_then_get_column example.universe example.registered
           example.col_a (api.mkColumn 5%N 9%N)).
  intros u Hu. discriminate Hu.
Defined.

(** The witness: universe 1 is cached with engine handle 9, and [col_b],
    of universe 1, is set to a column of engine universe 8. *)
Lemma set_column_conflict_keeps_column_witness :
  exists s',
    state.set_column example.universe example.col_b (api.mkColumn 6%N 8%N)
      example.cached =
      (Raised (AssertionError "overriding already computed universe"), s') /\
    state.columns s' =
      <[example.col_b := api.mkColumn 6%N 8%N]> (state.columns example.cached) /\
    state.universes s' = state.universes example.cached /\
    state.get_column example.universe example.col_b s' =
      (Returned (api.mkColumn 6%N 8%N), s').
Proof.
  apply (set_column_conflict_keeps_column example.universe example.cached
           example.col_b (api.mkColumn 6%N 8%N) 9%N); [reflexivity|discriminate].
Defined.

Lemma registered_storages : state.storages_registered example.registered.
Proof.
  intros u st Hu.
  change (state.storages example.registered)
    with (<[1%positive := example.storage_1]>
            (∅ : gmap Universe (@state.Storage example.LogicalColumn))) in Hu.
  apply lookup_insert_Some in Hu as [[<- <-]|[_ Hu]]; [|discriminate Hu].
  split; [reflexivity|]. by exists 7%N.
Qed.

(** The witness: in the scope where only the storage of universe 1 is
    registered, universe 2 is out of scope and universe 1 is resolved from
    the engine table 7, once. *)
Lemma get_universe_resolves_witness :
  state.get_universe 2%positive example.registered =
    (Raised (OutOfScopeError "path storage out of scope"), example.registered) /\
  exists s',
    state.get_universe 1%positive example.registered = (Returned 14%N, s') /\
    state.universes s' = {[1%positive := 14%N]} /\
    state.scope s' = 1%N /\
    state.get_universe 1%positive s' = (Returned 14%N, s').
Proof.
  destruct (get_universe_resolves example.registered 2%positive
              registered_storages) as (_ & Hout & _).
  destruct (get_universe_resolves example.registered 1%positive
              registered_storages) as (_ & _ & Hin).
  split; [exact (Hout eq_refl eq_refl)|].
  destruct (Hin eq_refl (ex_intro _ example.storage_1 eq_refl))
    as (t & s' & Ht & Hget & Hu & Hsc & _ & Hagain).
  assert (t = 7%N) as -> by (by injection Ht).
  exists s'. split; [exact Hget|]. split; [exact Hu|]. split; [exact Hsc|].
  exact Hagain.
Defined.

(** The witness: [create_table(1, storage_1)] in the scope where [col_a]
    and its universe are cached. *)
Lemma create_table_registers_storage_witness :
  exists s',
    state.create_table example.universe example.external 1%positive
      example.storage_1 example.cached = (Returned tt, s') /\
    state.tables s' !! 1%positive = Some 0%N /\
    state.storages s' !! 1%positive = Some example.storage_1 /\
    state.columns s' = state.columns example.cached.
Proof.
  destruct (create_table_registers_storage example.universe example.external
              example.cached 1%positive example.storage_1 9%N eq_refl)
    as (cwp & s' & Hcwp & Hrun & Ht & Hst & _ & _ & Hc & _).
  - intros col Hin _. apply list_elem_of_singleton in Hin as ->.
    by exists (api.mkColumn 5%N 9%N).
  - exists s'. split; [exact Hrun|]. split; [exact Ht|].
    split; [exact Hst|exact Hc].
Defined.

(** The witness: [get_columns([col_a])] in the scope where only the storage
    of universe 1 is registered. *)
Lemma get_columns_returns_cached_handles_witness :
  let run := state.get_columns example.universe [example.col_a] example.registered in
  run.1 = Returned [api.mkColumn 1%N 14%N] /\
  Forall2 (fun c h => state.columns run.2 !! c = Some h)
    [example.col_a] [api.mkColumn 1%N 14%N].
Proof.
  split; [reflexivity|].
  exact (proj1 (get_columns_returns_cached_handles example.universe
                  example.registered _ [example.col_a] [api.mkColumn 1%N 14%N]
                  eq_refl)).
Defined.

(** The witness: [get_legacy_table(table_1)] in the scope where only the
    storage of universe 1 is registered resolves the universe and the
    column from the engine; the second call returns the same table. *)
Lemma get_legacy_table_idempotent_witness :
  let table := state.mkLegacyTable 14%N [api.mkColumn 1%N 14%N] in
  let run :=
    state.get_legacy_table example.universe example.table_universe
      example.table_columns example.table_1 (example.legacy example.registered) in
  run.1 = Returned table /\
  state.legacy_tables run.2 !! example.table_1 = Some table /\
  state.get_legacy_table example.universe example.table_universe
    example.table_columns example.table_1 run.2 = (Returned table, run.2) /\
  state.universes (state.base run.2) !! 1%positive = Some 14%N.
Proof.
  intros table run.
  assert (Hrun : run = (Returned table, run.2)) by reflexivity.
  destruct (get_legacy_table_idempotent example.universe example.table_universe
              example.table_columns (example.legacy example.registered) run.2
              example.table_1 table Hrun) as (Hc & Hagain & _ & Hnew).
  split; [reflexivity|]. split; [exact Hc|]. split; [exact Hagain|].
  exact (proj1 (Hnew eq_refl)).
Defined.

(** The witness: the evaluator of context 1 is made by a factory that
    names it [first]; a later call with a factory that would name it
    [second] returns [first]. *)
Lemma get_or_create_evaluator_caches_witness :
  let run :=
    state.get_or_create_evaluator 1%positive (fun _ => ret "first")
      (example.legacy example.registered) in
  run.1 = Returned "first" /\
  state.get_or_create_evaluator 1%positive (fun _ => ret "second") run.2 =
    (Returned "first", run.2).
Proof.
  split; [reflexivity|].
  exact (proj2 (get_or_create_evaluator_caches
                  (example.legacy example.registered) _ 1%positive
                  (fun _ => ret "first") "first" eq_refl)
               (fun _ => ret "second")).
Defined.

(** The witness: [set_legacy_table(table_1, ...)] with the engine universe
    9 and one engine column, in the initial scope. *)
Lemma set_legacy_table_caches_witness :
  let value := state.mkLegacyTable 9%N [api.mkColumn 5%N 9%N] in
  let s' :=
    (state.set_legacy_table example.universe example.table_columns
       example.table_id_column example.id_column example.table_1 value
       (example.legacy (state.__init__ 0%N))).2 in
  state.legacy_tables s' = {[example.table_1 := value]} /\
  state.columns (state.base s') !! example.col_id = Some (api.mkColumn 0%N 9%N) /\
  state.columns (state.base s') !! example.col_a = Some (api.mkColumn 5%N 9%N).
Proof.
  intros value s'.
  destruct (set_legacy_table_caches example.universe example.table_universe
              example.table_columns example.table_id_column example.id_column
              (example.legacy (state.__init__ 0%N)) s' example.table_1 value
              eq_refl) as (Hl & _ & Hc & _).
  split; [exact Hl|].
  destruct Hc as [Hid Hcols]; [compute_done|].
  split; [exact Hid|].
  exact (Hcols 0%nat ("a", example.col_a) (api.mkColumn 5%N 9%N) eq_refl eq_refl).
Defined.

(** The witness: the context table over universe 1 with the column
    [col_a], in the scope where only the storage of universe 1 is
    registered. *)
Lemma get_context_table_stores_nothing_witness :
  let table := state.mkLegacyTable 14%N [api.mkColumn 1%N 14%N] in
  let run :=
    state.get_context_table example.universe
      (state.mkContextTable 1%positive [example.col_a])
      (example.legacy example.registered) in
  run.1 = Returned table /\
  state.legacy_tables run.2 = ∅ /\
  state.columns (state.base run.2) !! example.col_a = Some (api.mkColumn 1%N 14%N).
Proof.
  intros table run.
  assert (Hrun : run = (Returned table, run.2)) by reflexivity.
  destruct (get_context_table_stores_nothing example.universe
              (example.legacy example.registered) run.2
              (state.mkContextTable 1%positive [example.col_a])
              (Returned table) Hrun) as (Hl & _ & Hret).
  split; [reflexivity|]. split; [exact Hl|].
  destruct (Hret table eq_refl) as [_ Hall].
  exact (Forall2_lookup_lr _ _ _ 0%nat _ _ Hall eq_refl eq_refl).
Defined.

(** The witness: two tables and one engine table, in the initial scope;
    the second table is not cached. *)
Lemma set_legacy_tables_pairs_by_position_witness :
  let value := state.mkLegacyTable 9%N [api.mkColumn 5%N 9%N] in
  let table_2 := example.mkLogicalTable 2%positive [] example.col_b in
  let run :=
    state.set_legacy_tables example.universe example.table_columns
      example.table_id_column example.id_column [example.table_1; table_2] [value]
      (example.legacy (state.__init__ 0%N)) in
  run.1 = Returned tt /\
  state.legacy_tables run.2 !! example.table_1 = Some value /\
  state.legacy_tables run.2 !! table_2 = None.
Proof.
  intros value table_2 run.
  assert (Hrun : run = (Returned tt, run.2)) by reflexivity.
  destruct (set_legacy_tables_pairs_by_position example.universe
              example.table_columns example.table_id_column example.id_column
              (example.legacy (state.__init__ 0%N)) run.2
              [example.table_1; table_2] [value] Hrun) as [Hin Hout].
  split; [reflexivity|]. split.
  - apply (Hin ltac:(compute_done) 0%nat); reflexivity.
  - rewrite Hout; [reflexivity|compute_done].
Defined.
End StateFacts.

(** ** Dictionaries *)

Module DictFacts.
Section Dict.
Context {V : Type}.
Implicit Types (d : pydict.dict V) (k : string) (v : V).

Lemma keys_set k v d :
  pydict.keys (pydict.set k v d) =
    if bool_decide (k ∈ pydict.keys d) then pydict.keys d else pydict.keys d ++ [k].
Proof.
  induction d as [|[k' v'] d IH]; simpl; [done|].
  unfold pydict.keys in *. simpl.
  destruct (decide (k' = k)) as [->|Hne]; simpl.
  - rewrite bool_decide_true; [done|]. apply list_elem_of_here.
  - rewrite IH. destruct (bool_decide (k ∈ map (fst : string * V -> string) d)) eqn:Hin.
    + rewrite bool_decide_true; [done|].
      apply list_elem_of_further. by apply bool_decide_eq_true in Hin.
    + rewrite bool_decide_false; [done|].
      apply bool_decide_eq_false in Hin. rewrite elem_of_cons.
      intros [?|?]; [congruence|done].
Qed.

Lemma set_NoDup k v d : NoDup (pydict.keys d) -> NoDup (pydict.keys (pydict.set k v d)).
Proof.
  intros Hd. rewrite keys_set. case_bool_decide as Hin; [done|].
  apply NoDup_app. split; [done|]. split; [|apply NoDup_singleton].
  intros x Hx ->%list_elem_of_singleton. done.
Qed.

Lemma set_values (P : V -> Prop) k v d :
  P v -> Forall P (pydict.values d) -> Forall P (pydict.values (pydict.set k v d)).
Proof.
  intros Hv. induction d as [|[k' v'] d IH]; simpl.
  - intros _. by constructor.
  - unfold pydict.values in *. simpl. intros [Hv' Hd]%Forall_cons.
    destruct (decide (k' = k)); simpl; constructor; auto.
Qed.

Lemma fold_set_NoDup (items : list (string * V)) d :
  NoDup (pydict.keys d) ->
  NoDup (pydict.keys (fold_left (fun d kv => pydict.set kv.1 kv.2 d) items d)).
Proof.
  revert d. induction items as [|[k v] items IH]; simpl; [done|].
  intros d Hd. apply IH. by apply set_NoDup.
Qed.

Lemma fold_set_values (P : V -> Prop) (items : list (string * V)) d :
  Forall P (map snd items) -> Forall P (pydict.values d) ->
  Forall P (pydict.values (fold_left (fun d kv => pydict.set kv.1 kv.2 d) items d)).
Proof.
  revert d. induction items as [|[k v] items IH]; simpl; [done|].
  intros d [Hv Hitems]%Forall_cons Hd. apply IH; [done|]. by apply set_values.
Qed.

Lemma of_items_NoDup (items : list (string * V)) : NoDup (pydict.keys (pydict.of_items items)).
Proof. apply fold_set_NoDup. constructor. Qed.

Lemma of_items_values (P : V -> Prop) (items : list (string * V)) :
  Forall P (map snd items) -> Forall P (pydict.values (pydict.of_items items)).
Proof. intros. apply fold_set_values; [done|constructor]. Qed.

Lemma set_fresh k v d : k ∉ pydict.keys d -> pydict.set k v d = d ++ [(k, v)].
Proof.
  induction d as [|[k' v'] d IH]; simpl; [done|].
  unfold pydict.keys in *. simpl. rewrite not_elem_of_cons. intros [Hne Hd].
  rewrite decide_False by done. by rewrite IH.
Qed.

Lemma fold_set_fresh (items : list (string * V)) d :
  NoDup (pydict.keys d ++ pydict.keys items) ->
  fold_left (fun d kv => pydict.set kv.1 kv.2 d) items d = d ++ items.
Proof.
  revert d. induction items as [|[k v] items IH]; simpl; intros d Hnd.
  - by rewrite app_nil_r.
  - unfold pydict.keys in *. simpl in *.
    apply NoDup_app in Hnd as (Hd & Hdisj & Hitems).
    apply NoDup_cons in Hitems as [Hk Hitems].
    rewrite set_fresh; [|intros Hin; apply (Hdisj _ Hin); apply list_elem_of_here].
    rewrite IH; [by rewrite <- app_assoc|].
    rewrite map_app. simpl. rewrite <- app_assoc. simpl.
    apply NoDup_app. split; [done|]. split; [|by constructor].
    intros x Hx. apply Hdisj. done.
Qed.

Lemma of_items_id (items : list (string * V)) :
  NoDup (pydict.keys items) -> pydict.of_items items = items.
Proof. intros Hnd. unfold pydict.of_items. by rewrite fold_set_fresh. Qed.

Lemma get_entry d k v : NoDup (pydict.keys d) -> (k, v) ∈ d -> pydict.get k d = Some v.
Proof.
  induction d as [|[k' v'] d IH]; simpl.
  - intros _ Hin. by apply elem_of_nil in Hin.
  - intros [Hk Hd]%NoDup_cons [Heq|Hin]%elem_of_cons.
    + simplify_eq. by rewrite decide_True.
    + destruct (decide (k' = k)) as [->|Hne]; [|by apply IH].
      exfalso. apply Hk. unfold pydict.keys.
      apply list_elem_of_In, in_map_iff. exists (k, v).
      split; [done|]. by apply list_elem_of_In.
Qed.

Lemma get_None d k : k ∉ pydict.keys d -> pydict.get k d = None.
Proof.
  induction d as [|[k' v'] d IH]; simpl; [done|].
  intros [Hne Hd]%not_elem_of_cons. by rewrite decide_False; [apply IH|].
Qed.

Lemma get_app d1 d2 k :
  pydict.get k (d1 ++ d2) =
    match pydict.get k d1 with
    | Some v => Some v
    | None => pydict.get k d2
    end.
Proof.
  induction d1 as [|[k' v'] d1 IH]; simpl; [done|].
  by destruct (decide (k' = k)).
Qed.

Lemma get_Some_key d k v : pydict.get k d = Some v -> k ∈ pydict.keys d.
Proof.
  induction d as [|[k' v'] d IH]; simpl; [done|].
  destruct (decide (k' = k)) as [->|Hne]; intros Hg.
  - apply list_elem_of_here.
  - apply list_elem_of_further. by apply IH.
Qed.

Lemma get_is_Some d k : k ∈ pydict.keys d -> is_Some (pydict.get k d).
Proof.
  induction d as [|[k' v'] d IH]; simpl.
  - intros Hin. by apply elem_of_nil in Hin.
  - intros [->|Hin]%elem_of_cons.
    + rewrite decide_True by done. eauto.
    + destruct (decide (k' = k)); eauto.
Qed.

Lemma get_map {W} (f : string -> V -> W) d k :
  pydict.get k (map (fun kv => (kv.1, f kv.1 kv.2)) d) = f k <$> pydict.get k d.
Proof.
  induction d as [|[k' v'] d IH]; simpl; [done|].
  destruct (decide (k' = k)) as [->|Hne]; [done|apply IH].
Qed.

Lemma keys_map {W} (f : string * V -> W) d :
  pydict.keys (map (fun kv => (kv.1, f kv)) d) = pydict.keys d.
Proof. unfold pydict.keys. rewrite map_map. done. Qed.

Lemma set_present k v d :
  NoDup (pydict.keys d) -> k ∈ pydict.keys d ->
  pydict.set k v d = map (fun kv => (kv.1, if decide (kv.1 = k) then v else kv.2)) d.
Proof.
  induction d as [|[k' v'] d IH]; simpl.
  - intros _ Hin. by apply elem_of_nil in Hin.
  - intros [Hk Hd]%NoDup_cons Hin.
    destruct (decide (k' = k)) as [->|Hne].
    + f_equal. clear IH Hin Hd. induction d as [|[k2 v2] d IH]; simpl; [done|].
      apply not_elem_of_cons in Hk as [Hne Hk]. simpl in *.
      rewrite decide_False by done. f_equal. by apply IH.
    + f_equal. apply IH; [done|].
      apply elem_of_cons in Hin as [?|?]; [congruence|done].
Qed.

Lemma update_present d (other : pydict.dict V) :
  NoDup (pydict.keys d) -> NoDup (pydict.keys other) ->
  (forall k, k ∈ pydict.keys other -> k ∈ pydict.keys d) ->
  pydict.update d other =
    map (fun kv => (kv.1, default kv.2 (pydict.get kv.1 other))) d.
Proof.
  unfold pydict.update. revert d.
  induction other as [|[k v] other IH]; simpl; intros d Hd Ho Hsub.
  - induction d as [|[] d IHd]; simpl; [done|]. f_equal.
    apply IHd; [by apply NoDup_cons in Hd as [_ ?]|].
    intros k Hk. by apply elem_of_nil in Hk.
  - apply NoDup_cons in Ho as [Hk Ho].
    rewrite set_present; [|done|apply Hsub, list_elem_of_here].
    rewrite IH; [| |done|].
    + rewrite map_map. apply map_ext. intros [k' v']. simpl. f_equal.
      destruct (decide (k = k')) as [->|Hne].
      * rewrite decide_True by done. by rewrite get_None.
      * rewrite decide_False by done. done.
    + by rewrite (keys_map (fun kv => if decide (kv.1 = k) then v else kv.2)).
    + intros k' Hk'.
      rewrite (keys_map (fun kv => if decide (kv.1 = k) then v else kv.2)).
      apply Hsub. by apply list_elem_of_further.
Qed.

Lemma contains_true k d : k ∈ pydict.keys d -> pydict.contains k d = true.
Proof. intros. unfold pydict.contains. by apply bool_decide_eq_true. Qed.

(** [pop], [update] and lookups after them *)

Lemma pop_present k d :
  NoDup (pydict.keys d) -> k ∈ pydict.keys d ->
  pydict.pop k d = Some (base.filter (fun kv => kv.1 <> k) d).
Proof.
  induction d as [|[k' v'] d IH]; simpl.
  - intros _ Hin. by apply elem_of_nil in Hin.
  - intros [Hk Hd]%NoDup_cons Hin. destruct (decide (k' = k)) as [->|Hne].
    + rewrite (filter_cons_False _ (k, v')) by (simpl; by intros ?). f_equal.
      clear IH Hin Hd. induction d as [|[k2 v2] d IH]; [done|].
      change (pydict.keys ((k2, v2) :: d)) with (k2 :: pydict.keys d) in Hk.
      apply not_elem_of_cons in Hk as [Hne Hk].
      rewrite (filter_cons_True _ (k2, v2)) by (simpl; congruence).
      f_equal. by apply IH.
    + rewrite IH; [|done|by apply elem_of_cons in Hin as [?|?]; [congruence|]].
      simpl. by rewrite (filter_cons_True _ (k', v')) by done.
Qed.

Lemma pop_absent k d : k ∉ pydict.keys d -> pydict.pop k d = None.
Proof.
  induction d as [|[k' v'] d IH]; simpl; [done|].
  intros [Hne Hd]%not_elem_of_cons. rewrite decide_False by done.
  by rewrite IH.
Qed.

Lemma keys_filter (P : string -> Prop) `{!forall k, Decision (P k)} d :
  pydict.keys (base.filter (fun kv => P kv.1) d) = base.filter P (pydict.keys d).
Proof.
  induction d as [|[k v] d IH]; [done|].
  change (pydict.keys ((k, v) :: d)) with (k :: pydict.keys d).
  destruct (decide (P k)).
  - rewrite (filter_cons_True _ (k, v)), (filter_cons_True P k) by done.
    change (pydict.keys ((k, v) :: ?l)) with (k :: pydict.keys l).
    by rewrite <- IH.
  - by rewrite (filter_cons_False _ (k, v)), (filter_cons_False P k) by done.
Qed.

Lemma get_filter (P : string -> Prop) `{!forall k, Decision (P k)} d k :
  pydict.get k (base.filter (fun kv => P kv.1) d) =
    if decide (P k) then pydict.get k d else None.
Proof.
  induction d as [|[k' v'] d IH]; [by destruct (decide _)|].
  destruct (decide (P k')) as [HP|HP].
  - rewrite (filter_cons_True _ (k', v')) by done. simpl.
    destruct (decide (k' = k)) as [->|Hne]; [|done].
    by destruct (decide (P k)).
  - rewrite (filter_cons_False _ (k', v')) by done.
    trans (if decide (P k) then pydict.get k d else None); [exact IH|]. simpl.
    destruct (decide (k' = k)) as [->|Hne]; [|done].
    by destruct (decide (P k)).
Qed.

Lemma get_set k k' v d :
  pydict.get k (pydict.set k' v d) = if decide (k' = k) then Some v else pydict.get k d.
Proof.
  induction d as [|[k2 v2] d IH]; simpl.
  - by destruct (decide (k' = k)).
  - destruct (decide (k2 = k')) as [->|Hne]; simpl.
    + by destruct (decide (k' = k)).
    + destruct (decide (k2 = k)) as [->|Hne2]; [by rewrite decide_False|done].
Qed.

Lemma get_update d (other : pydict.dict V) k :
  NoDup (pydict.keys other) ->
  pydict.get k (pydict.update d other) =
    match pydict.get k other with
    | Some v => Some v
    | None => pydict.get k d
    end.
Proof.
  unfold pydict.update. revert d.
  induction other as [|[k' v'] other IH]; simpl; intros d Hnd; [done|].
  apply NoDup_cons in Hnd as [Hk Hnd]. rewrite IH by done.
  destruct (decide (k' = k)) as [->|Hne].
  - rewrite get_None by done. rewrite get_set. by rewrite decide_True.
  - destruct (pydict.get k other); [done|]. rewrite get_set.
    by rewrite decide_False.
Qed.

Lemma filter_iff_in {A} (P1 P2 : A -> Prop)
    `{!forall x, Decision (P1 x), !forall x, Decision (P2 x)} (l : list A) :
  (forall x, x ∈ l -> P1 x <-> P2 x) -> base.filter P1 l = base.filter P2 l.
Proof.
  induction l as [|x l IH]; intros Hiff; [done|].
  assert (Hl : base.filter P1 l = base.filter P2 l).
  { apply IH. intros y Hy. apply Hiff. by apply list_elem_of_further. }
  destruct (decide (P1 x)) as [HP|HP].
  - rewrite (filter_cons_True P1 x), (filter_cons_True P2 x), Hl; [done|..|done].
    by apply Hiff; [apply list_elem_of_here|].
  - rewrite (filter_cons_False P1 x), (filter_cons_False P2 x), Hl; [done|..|done].
    intros HP2. apply HP. by apply Hiff; [apply list_elem_of_here|].
Qed.

Lemma filter_all {A} (P : A -> Prop) `{!forall x, Decision (P x)} (l : list A) :
  (forall x, x ∈ l -> P x) -> base.filter P l = l.
Proof.
  induction l as [|x l IH]; intros Hall; [done|].
  rewrite (filter_cons_True P x) by apply Hall, list_elem_of_here.
  f_equal. apply IH. intros y Hy. by apply Hall, list_elem_of_further.
Qed.

Lemma filter_filter_in {A} (P1 P2 P3 : A -> Prop)
    `{!forall x, Decision (P1 x), !forall x, Decision (P2 x),
      !forall x, Decision (P3 x)} (l : list A) :
  (forall x, x ∈ l -> P3 x <-> P1 x /\ P2 x) ->
  base.filter P1 (base.filter P2 l) = base.filter P3 l.
Proof.
  induction l as [|x l IH]; intros Hiff; [done|].
  assert (Hl : base.filter P1 (base.filter P2 l) = base.filter P3 l).
  { apply IH. intros y Hy. apply Hiff. by apply list_elem_of_further. }
  specialize (Hiff x (list_elem_of_here _ _)).
  destruct (decide (P2 x)) as [HP2|HP2].
  - rewrite (filter_cons_True P2 x) by done. destruct (decide (P1 x)) as [HP1|HP1].
    + rewrite (filter_cons_True P1 x), (filter_cons_True P3 x), Hl; tauto.
    + rewrite (filter_cons_False P1 x), (filter_cons_False P3 x), Hl; tauto.
  - rewrite (filter_cons_False P2 x), (filter_cons_False P3 x), Hl; tauto.
Qed.

Lemma keys_update d (other : pydict.dict V) :
  NoDup (pydict.keys other) ->
  pydict.keys (pydict.update d other) =
    pydict.keys d ++ base.filter (fun k => k ∉ pydict.keys d) (pydict.keys other).
Proof.
  unfold pydict.update. revert d.
  induction other as [|[k v] other IH]; simpl; intros d Hnd.
  - by rewrite app_nil_r.
  - apply NoDup_cons in Hnd as [Hk Hnd]. rewrite IH by done.
    rewrite keys_set. case_bool_decide as Hin.
    + by rewrite (filter_cons_False _ k) by (by intros ?).
    + rewrite (filter_cons_True _ k) by done. rewrite <- app_assoc. simpl.
      do 2 f_equal.
      apply filter_iff_in. intros k' Hk'.
      rewrite elem_of_app, list_elem_of_singleton.
      split; [tauto|]. intros Hn [?|Heq]; [done|]. subst k'. by apply Hk.
Qed.

Lemma append_inj (prefix a b : string) :
  String.append prefix a = String.append prefix b -> a = b.
Proof. induction prefix as [|c prefix IH]; simpl; [done|]. intros ?; simplify_eq. auto. Qed.

Lemma NoDup_prefixed (prefix : string) (l : list string) :
  NoDup l -> NoDup (map (String.append prefix) l).
Proof.
  induction 1 as [|k l Hk _ IH]; simpl; constructor; [|done].
  intros Hin. apply list_elem_of_In, in_map_iff in Hin as (k' & Heq & Hin).
  apply append_inj in Heq as ->. by apply Hk, list_elem_of_In.
Qed.

Lemma get_prefixed {W} (prefix : string) (f : string * V -> W) d k :
  pydict.get (String.append prefix k)
    (map (fun kv => (String.append prefix kv.1, f kv)) d) =
  (fun v => f (k, v)) <$> pydict.get k d.
Proof.
  induction d as [|[k' v'] d IH]; simpl; [done|].
  destruct (decide (k' = k)) as [->|Hne].
  - by rewrite decide_True by done.
  - rewrite decide_False; [done|]. by intros ?%append_inj.
Qed.

Lemma keys_prefixed {W} (prefix : string) (f : string * V -> W) d :
  pydict.keys (map (fun kv => (String.append prefix kv.1, f kv)) d) =
  map (String.append prefix) (pydict.keys d).
Proof. unfold pydict.keys. by rewrite !map_map. Qed.

Lemma values_map_keys {W} (h : string * V -> string) (f : string * V -> W) d :
  pydict.values (map (fun kv => (h kv, f kv)) d) = map f d.
Proof. unfold pydict.values. by rewrite map_map. Qed.
End Dict.
End DictFacts.

(** ** The table operators *)

Module TableFacts.
Import table.

Section Operators.
Context {S : Type} `{UniverseSolver S}.
Context `{Desugaring}.
Context (restrict_universe_eval_expression :
           Table -> ColumnExpression -> Py (@ParseGraph S) ColumnExpression).
Context (get_flatten_column_dtype : Column -> Outcome dt.DType).
Context (same_column : Column -> Column -> bool).

#[local] Abbreviation M := (Py (@ParseGraph S)).
#[local] Abbreviation returns := (@table.returns S).
#[local] Abbreviation wp := (@table.wp S).
#[local] Abbreviation frame := (@table.frame S).
#[local] Abbreviation framed := (@table.framed S).
#[local] Abbreviation runs := (@table.runs S).
#[local] Abbreviation quiet := (@table.quiet S).
#[local] Abbreviation raises := (@table.raises S).
#[local] Abbreviation rejects := (@table.rejects S).
#[local] Abbreviation ix := (table.ix restrict_universe_eval_expression).

(** *** What the operators return: the invariants *)

Lemma returns_ret {A} (a : A) (Q : A -> Prop) : Q a -> returns (ret a : M A) Q.
Proof. intros HQ g a' g' Hr. unfold ret in Hr. by simplify_eq. Qed.

Lemma returns_raise {A} e (Q : A -> Prop) : returns (raise e : M A) Q.
Proof. intros g a' g' Hr. discriminate. Qed.

Lemma returns_bind {A B} (m : M A) (k : A -> M B) (P : A -> Prop) (Q : B -> Prop) :
  returns m P -> (forall a, P a -> returns (k a) Q) -> returns (bind m k) Q.
Proof.
  intros Hm Hk g b g'. unfold bind.
  destruct (m g) as [[a|e] g1] eqn:Hmg; [|discriminate].
  intros Hr. eapply Hk; [|done]. by eapply Hm.
Qed.

Lemma returns_bind_any {A B} (m : M A) (k : A -> M B) (Q : B -> Prop) :
  (forall a, returns (k a) Q) -> returns (bind m k) Q.
Proof.
  intros Hk. apply (returns_bind m k (fun _ => True)); [done|]. intros a _. apply Hk.
Qed.

Lemma returns_for_each {A B} (f : A -> M B) (Q : B -> Prop) xs :
  (forall x, x ∈ xs -> returns (f x) Q) -> returns (for_each f xs) (Forall Q).
Proof.
  induction xs as [|x xs IH]; simpl; intros Hf.
  - by apply returns_ret.
  - eapply returns_bind; [apply Hf; apply list_elem_of_here|].
    intros y Hy. eapply returns_bind.
    + apply IH. intros x' Hx'. apply Hf. by apply list_elem_of_further.
    + intros ys Hys. apply returns_ret. by constructor.
Qed.

Lemma returns_contextualized {A} name (body : M A) (Q : A -> Prop) :
  returns body Q -> returns (contextualized_operator name body) Q.
Proof.
  intros Hb. unfold contextualized_operator.
  apply returns_bind_any. intros node_id.
  eapply returns_bind; [exact Hb|]. intros a Ha.
  apply returns_bind_any. intros _. by apply returns_ret.
Qed.

Lemma returns_init columns universe pk_columns id_column :
  NoDup (pydict.keys columns) ->
  Forall (fun c => column_universe c = universe) (pydict.values columns) ->
  returns (__init__ columns universe pk_columns None id_column) invariant.
Proof.
  intros Hnd Hu g t g' Hr. unfold __init__ in Hr. simplify_eq.
  split; [done|]. split; [|done].
  unfold schema_matches, column_names, keys, schema_from_columns, pydict.keys. simpl.
  rewrite map_map. done.
Qed.

Lemma wrap_columns_universe self context columns :
  Forall (fun c => column_universe c = context_universe context)
    (pydict.values (wrap_columns self context columns)).
Proof.
  unfold wrap_columns. apply DictFacts.of_items_values.
  rewrite map_map. simpl. apply Forall_forall. intros c Hc.
  apply list_elem_of_In, in_map_iff in Hc as (nc & <- & _). done.
Qed.

Lemma wrap_columns_NoDup self context columns :
  NoDup (pydict.keys (wrap_columns self context columns)).
Proof. apply DictFacts.of_items_NoDup. Qed.

Lemma returns_table_with_context self context :
  returns (_table_with_context self context) invariant.
Proof.
  apply returns_init; [apply wrap_columns_NoDup|apply wrap_columns_universe].
Qed.

Lemma returns_with_same_universe self columns :
  Forall (fun c => column_universe c = _universe self) (map snd columns) ->
  returns (_with_same_universe self columns None) invariant.
Proof.
  intros Hu. apply returns_init; [apply DictFacts.of_items_NoDup|].
  by apply DictFacts.of_items_values.
Qed.

Lemma returns_keywords {V A} (kwargs : pydict.dict V) (call : M A) (Q : A -> Prop) :
  returns call Q -> returns (keywords kwargs call) Q.
Proof.
  intros Hc. unfold keywords. case_bool_decide; [apply returns_raise|done].
Qed.

Lemma returns_select self args kwargs : returns (select self args kwargs) invariant.
Proof.
  apply returns_keywords.
  apply returns_contextualized. apply returns_bind_any. intros all_args.
  eapply returns_bind.
  - apply (returns_for_each _ (fun nc => column_universe nc.2 = _universe self)).
    intros ne _. apply returns_bind_any. intros _. by apply returns_ret.
  - intros new_columns Hnew. apply returns_with_same_universe.
    by apply Forall_map.
Qed.

Lemma returns_for_each_rel {A B} (f : A -> M B) (R : A -> B -> Prop) xs :
  (forall x, x ∈ xs -> returns (f x) (R x)) ->
  returns (for_each f xs) (Forall2 R xs).
Proof.
  induction xs as [|x xs IH]; simpl; intros Hf.
  - by apply returns_ret.
  - eapply returns_bind; [apply Hf; apply list_elem_of_here|].
    intros y Hy. eapply returns_bind.
    + apply IH. intros x' Hx'. apply Hf. by apply list_elem_of_further.
    + intros ys Hys. apply returns_ret. by constructor.
Qed.

Lemma returns_weaken {A} (m : M A) (P Q : A -> Prop) :
  returns m P -> (forall a, P a -> Q a) -> returns m Q.
Proof. intros Hm HPQ g a g' Hr. apply HPQ. by eapply Hm. Qed.

Ltac step :=
  lazymatch goal with
  | |- returns (keywords _ _) _ => apply returns_keywords
  | |- returns (contextualized_operator _ _) _ => apply returns_contextualized
  | |- returns (raise _) _ => apply returns_raise
  | |- returns (bind _ _) _ => apply returns_bind_any; intros ?
  | |- returns (let _ := _ in _) _ => cbv zeta
  | |- returns (if ?b then _ else _) _ => destruct b
  | |- returns (match ?x with _ => _ end) _ => destruct x
  end.

Lemma returns_with_columns self args kwargs :
  returns (with_columns self args kwargs) invariant.
Proof. unfold with_columns. repeat step. apply returns_select. Qed.

Lemma returns_update_types self kwargs : returns (update_types self kwargs) invariant.
Proof. unfold update_types. repeat step. apply returns_with_columns. Qed.

Lemma returns_cast_to_types self kwargs : returns (cast_to_types self kwargs) invariant.
Proof. unfold cast_to_types. repeat step. apply returns_with_columns. Qed.

Lemma returns_getitem_list self args : returns (getitem_list self args) invariant.
Proof. unfold getitem_list. repeat step. apply returns_select. Qed.

Lemma returns_from_columns args kwargs : returns (from_columns args kwargs) invariant.
Proof. unfold from_columns. repeat step. apply returns_select. Qed.

Lemma returns_add self other : returns (__add__ self other) invariant.
Proof. unfold __add__. repeat step. apply returns_select. Qed.

Lemma returns_filter self e : returns (filter self e) invariant.
Proof.
  unfold filter. step; [step|].
  eapply returns_bind.
  { unfold _filter. repeat step. apply returns_table_with_context. }
  intros ret_ Hret. repeat step; try by apply returns_ret.
  apply returns_update_types.
Qed.

Lemma returns_forget self threshold time mark :
  returns (_forget self threshold time mark) invariant.
Proof. unfold _forget. repeat step. apply returns_table_with_context. Qed.

Lemma returns_filter_out self :
  returns (_filter_out_results_of_forgetting self) invariant.
Proof.
  unfold _filter_out_results_of_forgetting. repeat step.
  apply returns_table_with_context.
Qed.

Lemma returns_freeze self threshold time :
  returns (_freeze self threshold time) invariant.
Proof. unfold _freeze. repeat step. apply returns_table_with_context. Qed.

Lemma returns_buffer self threshold time :
  returns (_buffer self threshold time) invariant.
Proof. unfold _buffer. repeat step. apply returns_table_with_context. Qed.

Lemma returns_difference self other : returns (difference self other) invariant.
Proof. unfold difference. repeat step. apply returns_table_with_context. Qed.

Lemma returns_intersect self tables : returns (intersect self tables) invariant.
Proof.
  unfold intersect. step. step. apply returns_table_with_context.
Qed.

Lemma returns_wrapped self context universe pk_columns id_column :
  context_universe context = universe ->
  returns (__init__ (wrap_columns self context (_columns self)) universe
             pk_columns None id_column) invariant.
Proof.
  intros <-. apply returns_init; [apply wrap_columns_NoDup|apply wrap_columns_universe].
Qed.

Lemma returns_restrict self other : returns (restrict self other) invariant.
Proof. unfold restrict. repeat step. by apply returns_wrapped. Qed.

Lemma returns_copy self : returns (copy self) invariant.
Proof. unfold copy. repeat step. by apply returns_wrapped. Qed.

Lemma returns_concat_ self others : returns (_concat self others) invariant.
Proof. unfold _concat. repeat step. by apply returns_wrapped. Qed.

Lemma returns_concat self others : returns (concat self others) invariant.
Proof. unfold concat. repeat step. apply returns_concat_. Qed.

Lemma returns_update_cells_ self other : returns (_update_cells self other) invariant.
Proof. unfold _update_cells. repeat step. by apply returns_wrapped. Qed.

Lemma returns_update_cells self other : returns (update_cells self other) invariant.
Proof.
  unfold update_cells. repeat step.
  - apply returns_with_columns.
  - apply returns_update_cells_.
Qed.

Lemma returns_update_rows_ self other : returns (_update_rows self other) invariant.
Proof.
  unfold _update_rows. step. step. step.
  destruct (Pos.eqb a (_universe self)); by apply returns_wrapped.
Qed.

Lemma returns_update_rows self other :
  invariant other -> returns (update_rows self other) invariant.
Proof.
  intros Hother. unfold update_rows. repeat step.
  - by apply returns_ret.
  - apply returns_update_rows_.
Qed.

Lemma returns_ix_ self key_expression optional :
  returns (_ix self key_expression optional) invariant.
Proof. unfold _ix. repeat step. apply returns_table_with_context. Qed.

Lemma returns_ix self e optional context :
  returns (ix self e optional context) ix_invariant.
Proof.
  unfold ix.
  repeat lazymatch goal with
    | |- returns (bind (_ix _ _ _) _) _ =>
        eapply returns_bind;
          [apply returns_ix_|intros ? ?; apply returns_ret; assumption]
    | |- returns (ret _) _ => by apply returns_ret
    | _ => step
    end.
Qed.

Lemma returns_ix_ref self args optional context :
  returns (ix_ref restrict_universe_eval_expression self args optional context)
    ix_invariant.
Proof. apply returns_ix. Qed.

Lemma returns_with_new_index self new_index pk_columns :
  returns (_with_new_index self new_index pk_columns) invariant.
Proof. unfold _with_new_index. repeat step. by apply returns_wrapped. Qed.

Lemma returns_with_id self new_index : returns (with_id self new_index) invariant.
Proof. apply returns_with_new_index. Qed.

Lemma returns_with_id_from self args : returns (with_id_from self args) invariant.
Proof. unfold with_id_from. repeat step; apply returns_with_new_index. Qed.

Lemma returns_rename_columns self kwargs : returns (rename_columns self kwargs) invariant.
Proof.
  unfold rename_columns. repeat step.
  apply returns_init; [repeat apply DictFacts.of_items_NoDup|].
  repeat apply DictFacts.of_items_values.
  rewrite map_map. simpl. apply Forall_forall. intros c Hc.
  apply list_elem_of_In, in_map_iff in Hc as (nc & <- & _). done.
Qed.

Lemma returns_rename_by_dict self names_mapping :
  returns (rename_by_dict self names_mapping) invariant.
Proof. unfold rename_by_dict. repeat step. apply returns_rename_columns. Qed.

Lemma returns_with_prefix self prefix : returns (with_prefix self prefix) invariant.
Proof. apply returns_rename_by_dict. Qed.

Lemma returns_with_suffix self suffix : returns (with_suffix self suffix) invariant.
Proof. apply returns_rename_by_dict. Qed.

Lemma returns_rename self names_mapping kwargs :
  returns (rename self names_mapping kwargs) invariant.
Proof.
  unfold rename. apply returns_keywords.
  destruct names_mapping; [apply returns_rename_by_dict|apply returns_rename_columns].
Qed.

Lemma returns_without self columns : returns (without self columns) invariant.
Proof.
  unfold without. repeat step.
  apply returns_init; [apply DictFacts.of_items_NoDup|].
  apply DictFacts.of_items_values.
  apply (wrap_columns_universe self (_context self)).
Qed.

Lemma returns_having_ self indexer : returns (_having self indexer) invariant.
Proof. unfold _having. repeat step. apply returns_table_with_context. Qed.

Lemma returns_having self indexers :
  invariant self -> returns (having self indexers) invariant.
Proof.
  intros Hself. unfold having.
  eapply returns_bind.
  { apply (returns_for_each _ invariant). intros. apply returns_having_. }
  intros rets Hrets. destruct rets as [|first [|second rest]].
  - by apply returns_ret.
  - apply returns_ret. by apply Forall_inv in Hrets.
  - apply returns_intersect.
Qed.

Lemma returns_unsafe_promise_universe self other :
  returns (_unsafe_promise_universe self other) invariant.
Proof. unfold _unsafe_promise_universe. repeat step. by apply returns_wrapped. Qed.

Lemma returns_with_universe_of self other :
  returns (with_universe_of self other) invariant.
Proof.
  unfold with_universe_of. repeat step;
    [apply returns_copy|apply returns_unsafe_promise_universe].
Qed.

Lemma returns_flatten_ self flatten_name :
  returns (_flatten get_flatten_column_dtype self flatten_name) invariant.
Proof.
  unfold _flatten. repeat step.
  apply returns_init; [apply DictFacts.of_items_NoDup|].
  apply DictFacts.of_items_values. simpl. constructor; [done|].
  match goal with
  | |- context [wrap_columns ?t ?ctx ?cols] =>
      apply (wrap_columns_universe t ctx cols)
  end.
Qed.

Lemma returns_flatten self args kwargs :
  returns (flatten get_flatten_column_dtype self args kwargs) invariant.
Proof. unfold flatten. repeat step. apply returns_flatten_. Qed.

Lemma returns_sort_experimental self key instance :
  returns (_sort_experimental self key instance) invariant.
Proof.
  unfold _sort_experimental. repeat step.
  apply returns_init; [apply DictFacts.of_items_NoDup|].
  apply DictFacts.of_items_values. simpl. by repeat constructor.
Qed.

Lemma returns_from_schema schema :
  NoDup (column_names schema) -> returns (_from_schema schema) invariant.
Proof.
  intros Hnd. unfold _from_schema. step.
  eapply returns_bind.
  { apply (returns_for_each_rel _
             (fun name nc => nc.1 = name /\ column_universe nc.2 = a)).
    intros name _. destruct (pydict.get name schema); [|apply returns_raise].
    by apply returns_ret. }
  intros columns Hcols.
  assert (Hkeys : pydict.keys columns = column_names schema).
  { clear Hnd. induction Hcols as [|? ? ? ? [Hn _]]; simpl; [done|].
    unfold pydict.keys in *. simpl. by f_equal. }
  assert (Hu : Forall (fun c => column_universe c = a) (pydict.values columns)).
  { clear Hnd Hkeys. induction Hcols as [|? ? ? ? [_ Hu]]; simpl; constructor; auto. }
  intros g t g' Hr. unfold __init__ in Hr. simplify_eq.
  rewrite DictFacts.of_items_id by (by rewrite Hkeys).
  split; [|split]; unfold is_dict, schema_matches, columns_in_universe, keys; simpl.
  - by rewrite Hkeys.
  - done.
  - done.
Qed.

Lemma returns_empty kwargs :
  NoDup (pydict.keys kwargs) -> returns (empty kwargs) invariant.
Proof.
  intros Hnd. unfold empty, empty_from_schema.
  eapply returns_bind.
  { apply returns_contextualized. apply returns_from_schema.
    unfold column_names, schema_from_types, pydict.keys in *.
    by rewrite map_map. }
  intros t Ht. step. by apply returns_ret.
Qed.

Lemma returns_materialize self universe :
  invariant self -> returns (_materialize self universe) invariant.
Proof.
  intros (Hd & Hs & Hu) g t g' Hr. unfold _materialize, __init__ in Hr. simplify_eq.
  assert (Hk : pydict.keys (map (fun nc : string * Column =>
                (nc.1, MaterializedColumn universe (column_properties nc.2)))
                (_columns self)) = keys self).
  { unfold keys, pydict.keys. by rewrite map_map. }
  rewrite DictFacts.of_items_id by (by rewrite Hk).
  split; [|split]; unfold is_dict, schema_matches, columns_in_universe, keys; simpl.
  - by rewrite Hk.
  - by rewrite Hk.
  - unfold pydict.values. rewrite map_map. simpl.
    apply Forall_forall. intros c Hc.
    apply list_elem_of_In, in_map_iff in Hc as (nc & <- & _). done.
Qed.

Lemma returns_concat_reindex self tables :
  returns (concat_reindex self tables) invariant.
Proof. unfold concat_reindex. repeat step. apply returns_concat. Qed.

Lemma returns_grouped_reduce (self : GroupedTable) args kwargs :
  returns (GroupedTable_reduce self args kwargs) invariant.
Proof.
  unfold GroupedTable_reduce. step. step. step. step. cbv zeta.
  eapply returns_bind.
  - apply (returns_for_each _ (fun nc => column_universe nc.2 = a0)).
    intros ne _. step; [step|by apply returns_ret].
  - intros reduced_columns Hcolumns.
    apply returns_init; [apply DictFacts.of_items_NoDup|].
    apply DictFacts.of_items_values. by apply Forall_map.
Qed.

Lemma returns_reduce self args kwargs :
  returns (reduce same_column self args kwargs) invariant.
Proof. unfold reduce. step. step. apply returns_grouped_reduce. Qed.

Lemma returns_lshift self other : returns (__lshift__ self other) invariant.
Proof. apply returns_update_cells. Qed.

Lemma returns_debug self name :
  invariant self -> returns (debug self name) invariant.
Proof. intros Hself. unfold debug. step. by apply returns_ret. Qed.

Lemma returns_filter_ self e : returns (_filter self e) invariant.
Proof. unfold _filter. repeat step. apply returns_table_with_context. Qed.

Lemma produced_invariant t :
  produced restrict_universe_eval_expression get_flatten_column_dtype same_column t ->
  invariant t.
Proof.
  induction 1;
    match goal with
    | Hr : _ = (Returned (IxTable _), _) |- _ =>
        first [ exact (returns_ix _ _ _ _ _ _ _ Hr)
              | exact (returns_ix_ref _ _ _ _ _ _ _ Hr) ]
    | Hr : _ = (Returned _, _) |- _ =>
        revert Hr;
        first
          [ by apply returns_from_schema
          | by apply returns_empty
          | by apply returns_materialize
          | apply returns_select
          | apply returns_getitem_list
          | apply returns_from_columns
          | apply returns_concat_reindex
          | apply returns_add
          | apply returns_filter
          | apply returns_forget
          | apply returns_filter_out
          | apply returns_freeze
          | apply returns_buffer
          | apply returns_difference
          | apply returns_intersect
          | apply returns_restrict
          | apply returns_copy
          | apply returns_concat
          | apply returns_update_cells
          | by apply returns_update_rows
          | apply returns_with_columns
          | apply returns_with_id
          | apply returns_with_id_from
          | apply returns_rename_columns
          | apply returns_rename_by_dict
          | apply returns_with_prefix
          | apply returns_with_suffix
          | apply returns_rename
          | apply returns_without
          | by apply returns_having
          | apply returns_update_types
          | apply returns_cast_to_types
          | apply returns_with_universe_of
          | apply returns_flatten
          | apply returns_sort_experimental
          | apply returns_lshift
          | apply returns_reduce
          | apply returns_grouped_reduce
          | by apply returns_debug
          | apply returns_filter_
          | apply returns_ix_
          | apply returns_concat_
          | apply returns_update_cells_
          | apply returns_update_rows_
          | apply returns_with_new_index
          | apply returns_having_
          | apply returns_unsafe_promise_universe
          | apply returns_flatten_
          | apply returns_table_with_context ]
    end.
Qed.

(** C6.  Every table produced by the operators of [table.py], from tables
    built from a schema, keeps the two invariants: the names of its schema
    are the names of its column mapping, in the same order, and every
    column of the mapping is bound to the universe of the table. *)
Theorem produced_tables_keep_invariants t :
  produced restrict_universe_eval_expression get_flatten_column_dtype same_column t ->
  column_names (_schema t) = keys t /\
  Forall (fun c => column_universe c = _universe t) (pydict.values (_columns t)).
Proof. intros Hp. apply produced_invariant in Hp as (_ & ? & ?). done. Qed.

(** X28.  The operators whose code is in [table.py] build consistent
    tables whatever they are given: whenever one of them returns a table,
    the table has one column per name, its schema lists the names of its
    columns in their order, and its columns are bound to its universe.
    [update_rows], [having] and [debug] may return a table they were
    given, and then return a consistent table when that table is. *)
Theorem operators_return_consistent_tables self :
  (forall args kwargs, returns (select self args kwargs) invariant) /\
  (forall args, returns (getitem_list self args) invariant) /\
  (forall args kwargs, returns (from_columns args kwargs) invariant) /\
  (forall tables, returns (concat_reindex self tables) invariant) /\
  (forall other, returns (__add__ self other) invariant) /\
  (forall e, returns (filter self e) invariant) /\
  (forall other, returns (difference self other) invariant) /\
  (forall tables, returns (intersect self tables) invariant) /\
  (forall other, returns (restrict self other) invariant) /\
  returns (copy self) invariant /\
  (forall e optional context, returns (ix self e optional context) ix_invariant) /\
  (forall others, returns (concat self others) invariant) /\
  (forall other, returns (update_cells self other) invariant) /\
  (forall other, invariant other -> returns (update_rows self other) invariant) /\
  (forall args kwargs, returns (with_columns self args kwargs) invariant) /\
  (forall new_index, returns (with_id self new_index) invariant) /\
  (forall args, returns (with_id_from self args) invariant) /\
  (forall names_mapping kwargs,
     returns (rename self names_mapping kwargs) invariant) /\
  (forall prefix, returns (with_prefix self prefix) invariant) /\
  (forall suffix, returns (with_suffix self suffix) invariant) /\
  (forall columns, returns (without self columns) invariant) /\
  (forall indexers, invariant self -> returns (having self indexers) invariant) /\
  (forall kwargs, returns (update_types self kwargs) invariant) /\
  (forall kwargs, returns (cast_to_types self kwargs) invariant) /\
  (forall other, returns (with_universe_of self other) invariant) /\
  (forall args kwargs,
     returns (flatten get_flatten_column_dtype self args kwargs) invariant) /\
  (forall name, invariant self -> returns (debug self name) invariant).
Proof.
  repeat apply conj; intros;
    first [ apply returns_select | apply returns_getitem_list
          | apply returns_from_columns | apply returns_concat_reindex
          | apply returns_add | apply returns_filter | apply returns_difference
          | apply returns_intersect | apply returns_restrict | apply returns_copy
          | apply returns_ix | apply returns_concat | apply returns_update_cells
          | by apply returns_update_rows | apply returns_with_columns
          | apply returns_with_id | apply returns_with_id_from
          | apply returns_rename | apply returns_with_prefix
          | apply returns_with_suffix | apply returns_without
          | by apply returns_having | apply returns_update_types
          | apply returns_cast_to_types | apply returns_with_universe_of
          | apply returns_flatten | by apply returns_debug ].
Qed.

(** *** Calls that return: [select], [with_columns] and the retyping calls *)

Lemma frame_refl g : frame g g.
Proof. by split. Qed.

Lemma frame_trans g1 g2 g3 : frame g1 g2 -> frame g2 g3 -> frame g1 g3.
Proof. intros [? ?] [? ?]. split; congruence. Qed.

Lemma runs_pure {A} (m : M A) g a (Q : A -> Prop) :
  m g = (Returned a, g) -> Q a -> runs m g Q.
Proof. intros Hm HQ. unfold runs, table.wp. rewrite Hm. split; [apply frame_refl|done]. Qed.

Lemma runs_ret {A} (a : A) g (Q : A -> Prop) : Q a -> runs (ret a) g Q.
Proof. by apply runs_pure. Qed.

Lemma runs_bind {A B} (m : M A) (k : A -> M B) g (P : A -> Prop) (Q : B -> Prop) :
  runs m g P ->
  (forall a g1, frame g g1 -> P a -> runs (k a) g1 Q) ->
  runs (bind m k) g Q.
Proof.
  unfold runs, table.wp, bind. destruct (m g) as [[a|e] g1]; [|done].
  intros [Hf HP] Hk. specialize (Hk a g1 Hf HP).
  destruct (k a g1) as [[b|e] g2]; [|done].
  destruct Hk as [Hf2 HQ]. split; [by eapply frame_trans|done].
Qed.

Lemma runs_bind_pure {A B} (m : M A) (k : A -> M B) g a (Q : B -> Prop) :
  m g = (Returned a, g) -> runs (k a) g Q -> runs (bind m k) g Q.
Proof. intros Hm Hk. unfold runs, table.wp, bind in *. by rewrite Hm. Qed.

Lemma runs_mono {A} (m : M A) g (P Q : A -> Prop) :
  runs m g P -> (forall a, P a -> Q a) -> runs m g Q.
Proof.
  unfold runs, table.wp. destruct (m g) as [[a|e] g1]; [|done].
  intros [? ?] HPQ. auto.
Qed.

Lemma runs_returned {A} (m : M A) g (Q : A -> Prop) :
  runs m g Q -> exists a g', m g = (Returned a, g') /\ frame g g' /\ Q a.
Proof.
  unfold runs, table.wp. destruct (m g) as [[a|e] g1]; [|done]. eauto.
Qed.

Lemma runs_contextualized {A} name (body : M A) g (Q : A -> Prop) :
  (forall g0, frame g g0 -> runs body g0 Q) ->
  runs (contextualized_operator name body) g Q.
Proof.
  intros Hb. unfold contextualized_operator.
  eapply runs_bind with (P := fun _ => True).
  { unfold runs, table.wp. simpl. split; [by split|done]. }
  intros node_id g1 Hf1 _. eapply runs_bind; [by apply Hb|].
  intros a g2 Hf2 Ha. eapply runs_bind with (P := fun _ => True).
  { unfold runs, table.wp, modify. simpl. split; [by split|done]. }
  intros _ g3 _ _. by apply runs_ret.
Qed.

Lemma for_each_pure {A B C} (body : A -> M B) (h : C -> A) (f : C -> B) l g :
  (forall c, c ∈ l -> body (h c) g = (Returned (f c), g)) ->
  for_each body (map h l) g = (Returned (map f l), g).
Proof.
  induction l as [|c l IH]; simpl; intros Hb; [done|].
  unfold bind in *. rewrite Hb by apply list_elem_of_here.
  rewrite IH; [done|]. intros c' Hc'. apply Hb. by apply list_elem_of_further.
Qed.

Lemma for_each_pure_id {A B} (body : A -> M B) (f : A -> B) l g :
  (forall c, c ∈ l -> body c g = (Returned (f c), g)) ->
  for_each body l g = (Returned (map f l), g).
Proof.
  intros Hb. rewrite <- (map_id l) at 1. by apply for_each_pure.
Qed.

Lemma validate_expression_pure self e (g : @ParseGraph S) :
  Forall (fun d => column_universe d = _universe self) (_dependencies e) ->
  _validate_expression self e g = (Returned tt, g).
Proof.
  intros Hd. unfold _validate_expression, bind.
  rewrite (for_each_pure_id _ (fun _ => tt)); [done|].
  intros d Hin. rewrite Forall_forall in Hd. rewrite (Hd d Hin).
  by rewrite Pos.eqb_refl.
Qed.

Lemma runs_init columns universe pk_columns id_column g :
  runs (__init__ columns universe pk_columns None id_column) g
    (fun t => built t columns universe pk_columns
                (default (IdColumn (RowwiseContext universe)) id_column)).
Proof. unfold runs, table.wp. simpl. split; [by split|]. by repeat split. Qed.

(** The keyword [self]: the call goes through without it, and is rejected
    with it. *)
Lemma keywords_pass {V A} (kwargs : pydict.dict V) (call : M A) :
  "self" ∉ pydict.keys kwargs -> keywords kwargs call = call.
Proof. intros Hk. unfold keywords. by rewrite bool_decide_false. Qed.

Lemma keywords_rejects {V A} (kwargs : pydict.dict V) (call : M A) g :
  "self" ∈ pydict.keys kwargs -> rejects (keywords kwargs call) g.
Proof.
  intros Hk. unfold keywords. rewrite bool_decide_true by done. by eexists _, _.
Qed.

Lemma rejects_bind_runs {A B} (m : M A) (k : A -> M B) g (P : A -> Prop) :
  runs m g P ->
  (forall a g1, frame g g1 -> P a -> rejects (k a) g1) ->
  rejects (bind m k) g.
Proof.
  unfold runs, table.wp, table.rejects, bind.
  destruct (m g) as [[a|e] g1]; [|done]. intros [Hf HP] Hk. by apply Hk.
Qed.

Lemma rejects_bind_pure {A B} (m : M A) (k : A -> M B) g a :
  m g = (Returned a, g) -> rejects (k a) g -> rejects (bind m k) g.
Proof. intros Hm Hk. unfold table.rejects, bind in *. by rewrite Hm. Qed.

(** Names that are distinct and not [id] are combined as they are given. *)
Lemma combine_regular args kwargs named :
  smart_names args = Some named ->
  NoDup (pydict.keys (named ++ kwargs)) -> "id" ∉ pydict.keys (named ++ kwargs) ->
  combine_args_kwargs args kwargs = Returned (named ++ kwargs).
Proof.
  intros Hn Hnd Hid. unfold combine_args_kwargs, regular_names. rewrite Hn.
  by rewrite bool_decide_true by done.
Qed.

Lemma select_runs_named self args kwargs named g :
  smart_names args = Some named ->
  "self" ∉ pydict.keys kwargs ->
  NoDup (pydict.keys (named ++ kwargs)) -> "id" ∉ pydict.keys (named ++ kwargs) ->
  Forall (fun ne => Forall (fun d => column_universe d = _universe self)
                      (_dependencies ne.2)) (named ++ kwargs) ->
  runs (select self args kwargs) g
    (fun t => built t (map (fun ne => (ne.1, _eval self ne.2 None)) (named ++ kwargs))
                (_universe self) (_pk_columns self) (IdColumn (_context self))).
Proof.
  intros Hn Hself Hnd Hid Hdeps. unfold select. rewrite keywords_pass by done.
  apply runs_contextualized. intros g0 _.
  rewrite (combine_regular _ _ named) by done.
  eapply runs_bind_pure; [reflexivity|].
  eapply runs_bind_pure.
  { apply (for_each_pure_id _ (fun ne => (ne.1, _eval self ne.2 None))).
    intros ne Hin. unfold bind. rewrite validate_expression_pure; [done|].
    rewrite Forall_forall in Hdeps. by apply Hdeps. }
  unfold _with_same_universe.
  rewrite DictFacts.of_items_id
    by (by rewrite (DictFacts.keys_map (fun ne => _eval self ne.2 None))).
  apply runs_init.
Qed.

Lemma select_runs self kwargs g :
  "self" ∉ pydict.keys kwargs -> "id" ∉ pydict.keys kwargs ->
  NoDup (pydict.keys kwargs) ->
  Forall (fun ne => Forall (fun d => column_universe d = _universe self)
                      (_dependencies ne.2)) kwargs ->
  runs (select self [] kwargs) g
    (fun t => built t (map (fun ne => (ne.1, _eval self ne.2 None)) kwargs)
                (_universe self) (_pk_columns self) (IdColumn (_context self))).
Proof. intros. by apply (select_runs_named self [] kwargs []). Qed.

Lemma getitem_name_pure self n c (g : @ParseGraph S) :
  is_dict self -> "id" ∉ keys self -> (n, c) ∈ _columns self ->
  __getitem__ self (ByName n) g = (Returned (self, c, n), g).
Proof.
  intros Hd Hid Hin. simpl. unfold _get_colref_by_name.
  assert (Hk : n ∈ keys self).
  { unfold keys, pydict.keys. apply list_elem_of_In, in_map_iff.
    exists (n, c). split; [done|]. by apply list_elem_of_In. }
  rewrite decide_False by (intros ->; done).
  rewrite DictFacts.contains_true by done. simpl.
  by rewrite (DictFacts.get_entry _ _ c).
Qed.

Lemma as_dict_pure self (g : @ParseGraph S) :
  is_dict self -> "id" ∉ keys self ->
  as_dict self g =
    (Returned (map (fun nc => (nc.1, ColumnReference self nc.2 nc.1)) (_columns self)), g).
Proof.
  intros Hd Hid. unfold as_dict, bind, keys, pydict.keys.
  rewrite (for_each_pure _ fst (fun nc => (nc.1, ColumnReference self nc.2 nc.1))).
  - unfold ret. rewrite DictFacts.of_items_id; [done|].
    by rewrite (DictFacts.keys_map (fun nc => ColumnReference self nc.2 nc.1)).
  - intros [n c] Hin. cbv beta. change ((n, c).1) with n. unfold bind.
    by rewrite (getitem_name_pure self n c).
Qed.

Lemma built_well_formed t columns universe pk_columns context :
  built t columns universe pk_columns (IdColumn context) ->
  NoDup (pydict.keys columns) -> "id" ∉ pydict.keys columns ->
  Forall (fun c => column_universe c = universe) (pydict.values columns) ->
  context_universe context = universe ->
  well_formed t.
Proof.
  intros (Hc & Hu & _ & Hs & Hi) Hnd Hid Hcols Hctx.
  split; unfold is_dict, columns_in_universe, schema_matches, keys.
  - by rewrite Hc.
  - by rewrite Hc.
  - by rewrite Hc, Hu.
  - by rewrite Hi, Hu.
  - rewrite Hs, Hc. unfold column_names, schema_from_columns.
    by rewrite (DictFacts.keys_map (fun nc => column_properties nc.2)).
Qed.

(** What [with_columns] does before its last call of [select]: the
    columns of [self], with the expressions given taking the place of the
    columns of their names. *)
Lemma with_columns_select self args kwargs named g :
  is_dict self -> "id" ∉ keys self -> columns_in_universe self ->
  smart_names args = Some named ->
  "self" ∉ pydict.keys kwargs ->
  NoDup (pydict.keys (named ++ kwargs)) ->
  (forall k, k ∈ pydict.keys (named ++ kwargs) -> k ∈ keys self) ->
  Forall (fun ne => Forall (fun d => column_universe d = _universe self)
                      (_dependencies ne.2)) (named ++ kwargs) ->
  exists other g1,
    frame g g1 /\
    NoDup (pydict.keys (_columns other)) /\
    (forall n, pydict.get n (_columns other) =
               (fun e => _eval self e None) <$> pydict.get n (named ++ kwargs)) /\
    with_columns self args kwargs g =
      select self []
        (map (fun nc =>
                (nc.1, default (ColumnReference self nc.2 nc.1)
                         (pydict.get nc.1
                            (map (fun nc => (nc.1, ColumnReference other nc.2 nc.1))
                               (_columns other)))))
           (_columns self)) g1.
Proof.
  intros Hd Hid Hcols Hn Hself Hnd Hsub Hdeps. unfold with_columns.
  rewrite keywords_pass by done.
  destruct (runs_returned _ g _
              (select_runs_named self args kwargs named g Hn Hself Hnd
                 ltac:(intros Hin; by apply Hid, Hsub) Hdeps))
    as (other & g1 & Hsel & Hf & Hoc & _).
  assert (Hok : keys other = pydict.keys (named ++ kwargs)).
  { unfold keys. rewrite Hoc.
    apply (DictFacts.keys_map (fun ne => _eval self ne.2 None)). }
  exists other, g1. split; [done|]. split; [by rewrite <- Hok in Hnd|]. split.
  { intros n. rewrite Hoc.
    by rewrite (DictFacts.get_map (fun _ e => _eval self e None)). }
  unfold bind at 1. rewrite Hsel.
  unfold bind at 1. rewrite (as_dict_pure self) by done.
  unfold bind at 1. rewrite (as_dict_pure other);
    [|unfold is_dict; by rewrite Hok|rewrite Hok; intros Hin; by apply Hid, Hsub].
  set (columns := map (fun nc => (nc.1, ColumnReference self nc.2 nc.1)) (_columns self)).
  set (other_items := map (fun nc => (nc.1, ColumnReference other nc.2 nc.1))
                          (_columns other)).
  assert (Hck : pydict.keys columns = keys self)
    by apply (DictFacts.keys_map (fun nc => ColumnReference self nc.2 nc.1)).
  assert (Hoik : pydict.keys other_items = pydict.keys (named ++ kwargs)).
  { rewrite <- Hok. apply (DictFacts.keys_map (fun nc => ColumnReference other nc.2 nc.1)). }
  rewrite DictFacts.update_present; [|by rewrite Hck|by rewrite Hoik|];
    [|intros k; rewrite Hoik, Hck; apply Hsub].
  unfold columns. by rewrite map_map.
Qed.

Lemma with_columns_runs_named self args kwargs named g :
  well_formed self -> "self" ∉ keys self ->
  smart_names args = Some named ->
  NoDup (pydict.keys (named ++ kwargs)) ->
  (forall k, k ∈ pydict.keys (named ++ kwargs) -> k ∈ keys self) ->
  Forall (fun ne => Forall (fun d => column_universe d = _universe self)
                      (_dependencies ne.2)) (named ++ kwargs) ->
  runs (with_columns self args kwargs) g
    (fun t =>
       well_formed t /\ keys t = keys self /\ _universe t = _universe self /\
       _pk_columns t = _pk_columns self /\
       _schema t = schema_from_columns (_columns t) /\
       forall n, dtype_of t n =
                 (fun c => from_option expression_dtype (column_dtype c)
                             (pydict.get n (named ++ kwargs)))
                   <$> pydict.get n (_columns self)).
Proof.
  intros [Hd Hid Hcols Hidc Hs] Hself Hn Hnd Hsub Hdeps.
  assert (Hkw : "self" ∉ pydict.keys kwargs).
  { intros Hin. apply Hself, Hsub. unfold pydict.keys in *.
    rewrite map_app, elem_of_app. by right. }
  destruct (with_columns_select self args kwargs named g
              Hd Hid Hcols Hn Hkw Hnd Hsub Hdeps)
    as (other & g1 & Hf & Hond & Hoget & Hrun).
  set (other_items := map (fun nc => (nc.1, ColumnReference other nc.2 nc.1))
                          (_columns other)) in *.
  assert (Hget : forall n, pydict.get n other_items =
            (fun e => ColumnReference other (_eval self e None) n)
              <$> pydict.get n (named ++ kwargs)).
  { intros n. unfold other_items.
    rewrite (DictFacts.get_map (fun n c => ColumnReference other c n)).
    rewrite Hoget. by destruct (pydict.get n (named ++ kwargs)). }
  unfold runs, table.wp. rewrite Hrun.
  cut (runs (select self []
               (map (fun nc => (nc.1, default (ColumnReference self nc.2 nc.1)
                                        (pydict.get nc.1 other_items)))
                  (_columns self))) g1
         (fun t =>
            well_formed t /\ keys t = keys self /\ _universe t = _universe self /\
            _pk_columns t = _pk_columns self /\
            _schema t = schema_from_columns (_columns t) /\
            forall n, dtype_of t n =
                      (fun c => from_option expression_dtype (column_dtype c)
                                  (pydict.get n (named ++ kwargs)))
                        <$> pydict.get n (_columns self))).
  { unfold runs, table.wp. destruct (select _ _ _ g1) as [[t|e] g2]; [|done].
    intros [Hf2 Ht]. split; [by eapply frame_trans|done]. }
  assert (Hkm : pydict.keys
                  (map (fun nc : string * Column =>
                          (nc.1, default (ColumnReference self nc.2 nc.1)
                                   (pydict.get nc.1 other_items)))
                     (_columns self)) = keys self).
  { apply (DictFacts.keys_map
             (fun nc => default (ColumnReference self nc.2 nc.1)
                          (pydict.get nc.1 other_items))). }
  eapply runs_mono.
  { apply select_runs.
    - by rewrite Hkm.
    - by rewrite Hkm.
    - by rewrite Hkm.
    - apply Forall_map. apply Forall_forall. intros [n c] Hin. simpl.
      rewrite Hget. destruct (pydict.get n (named ++ kwargs)) as [e|]; simpl.
      + by repeat constructor.
      + repeat constructor. unfold columns_in_universe in Hcols.
        rewrite Forall_forall in Hcols. apply Hcols.
        unfold pydict.values. apply list_elem_of_In, in_map_iff.
        exists (n, c). split; [done|]. by apply list_elem_of_In. }
  intros t Hb. rewrite map_map in Hb. simpl in Hb.
  pose proof Hb as (Hc & Hu & Hpk & Hsch & Hi).
  assert (Hkt : keys t = keys self).
  { unfold keys. rewrite Hc.
    apply (DictFacts.keys_map
             (fun nc => _eval self (default (ColumnReference self nc.2 nc.1)
                                      (pydict.get nc.1 other_items)) None)). }
  split; [|split; [done|split; [done|split; [done|split]]]].
  - eapply built_well_formed; [exact Hb| | | |done].
    + rewrite <- Hc. change (NoDup (keys t)). by rewrite Hkt.
    + rewrite <- Hc. change ("id" ∉ keys t). by rewrite Hkt.
    + unfold pydict.values. rewrite map_map. simpl.
      apply Forall_forall. intros c Hc'.
      apply list_elem_of_In, in_map_iff in Hc' as (nc & <- & _). done.
  - by rewrite Hsch, Hc.
  - intros n. unfold dtype_of. rewrite Hc.
    rewrite (DictFacts.get_map
               (fun n c => _eval self (default (ColumnReference self c n)
                                         (pydict.get n other_items)) None)).
    rewrite Hget. destruct (pydict.get n (_columns self)) as [c|]; [|done].
    simpl. by destruct (pydict.get n (named ++ kwargs)).
Qed.

Lemma with_columns_runs self kwargs g :
  well_formed self -> "self" ∉ keys self ->
  NoDup (pydict.keys kwargs) ->
  (forall k, k ∈ pydict.keys kwargs -> k ∈ keys self) ->
  Forall (fun ne => Forall (fun d => column_universe d = _universe self)
                      (_dependencies ne.2)) kwargs ->
  runs (with_columns self [] kwargs) g
    (fun t =>
       well_formed t /\ keys t = keys self /\ _universe t = _universe self /\
       _pk_columns t = _pk_columns self /\
       _schema t = schema_from_columns (_columns t) /\
       forall n, dtype_of t n =
                 (fun c => from_option expression_dtype (column_dtype c)
                             (pydict.get n kwargs)) <$> pydict.get n (_columns self)).
Proof. intros. by apply (with_columns_runs_named self [] kwargs []). Qed.

(** A table with a column named [self]: the last [select] of
    [with_columns], which is given every column as a keyword argument, is
    rejected. *)
Lemma with_columns_rejects self args kwargs named g :
  well_formed self -> "self" ∈ keys self ->
  smart_names args = Some named ->
  NoDup (pydict.keys (named ++ kwargs)) ->
  (forall k, k ∈ pydict.keys (named ++ kwargs) -> k ∈ keys self) ->
  Forall (fun ne => Forall (fun d => column_universe d = _universe self)
                      (_dependencies ne.2)) (named ++ kwargs) ->
  rejects (with_columns self args kwargs) g.
Proof.
  intros [Hd Hid Hcols Hidc Hs] Hself Hn Hnd Hsub Hdeps.
  destruct (decide ("self" ∈ pydict.keys kwargs)) as [Hkw|Hkw].
  { unfold with_columns. by apply keywords_rejects. }
  destruct (with_columns_select self args kwargs named g
              Hd Hid Hcols Hn Hkw Hnd Hsub Hdeps)
    as (other & g1 & _ & _ & _ & Hrun).
  unfold table.rejects. rewrite Hrun. unfold select. apply keywords_rejects.
  by rewrite (DictFacts.keys_map
                (fun nc => default (ColumnReference self nc.2 nc.1) _)).
Qed.

Lemma get_Some_in {V} (d : pydict.dict V) k v : pydict.get k d = Some v -> (k, v) ∈ d.
Proof.
  induction d as [|[k' v'] d IH]; simpl; [done|].
  destruct (decide (k' = k)) as [->|Hne]; intros Hg.
  - simplify_eq. apply list_elem_of_here.
  - apply list_elem_of_further. by apply IH.
Qed.

Lemma column_in_universe self n c :
  columns_in_universe self -> pydict.get n (_columns self) = Some c ->
  column_universe c = _universe self.
Proof.
  intros Hcols Hg. unfold columns_in_universe in Hcols.
  rewrite Forall_forall in Hcols. apply Hcols.
  unfold pydict.values. apply list_elem_of_In, in_map_iff.
  exists (n, c). split; [done|]. by apply list_elem_of_In, get_Some_in.
Qed.

(** The two loops of [update_types] and [cast_to_types], for names of
    columns: the call of [with_columns] they end with. *)
Lemma retype_with_columns (wrap : dt.DType -> ColumnExpression -> ColumnExpression)
    msg self (kwargs : pydict.dict dt.DType) (g : @ParseGraph S) :
  is_dict self -> "id" ∉ keys self ->
  NoDup (pydict.keys kwargs) ->
  (forall k, k ∈ pydict.keys kwargs -> k ∈ keys self) ->
  (for_each (fun name =>
       if negb (pydict.contains name (_columns self))
       then raise (ValueError msg) else ret tt)
     (pydict.keys kwargs) ;;;
   assignments <- for_each (fun kv =>
       r <- __getitem__ self (ByName kv.1) ;;
       ret (kv.1, wrap kv.2 (colref_expr r)))
     kwargs ;;
   with_columns self [] (pydict.of_items assignments)) g =
  with_columns self []
    (map (fun kv => (kv.1, wrap kv.2 (ColumnReference self (column_of self kv.1) kv.1)))
       kwargs) g.
Proof.
  intros Hd Hid Hnd Hsub.
  unfold bind at 1. rewrite (for_each_pure_id _ (fun _ => tt));
    [|intros name Hin; by rewrite DictFacts.contains_true by (by apply Hsub)].
  set (f := fun kv : string * dt.DType =>
              (kv.1, wrap kv.2 (ColumnReference self (column_of self kv.1) kv.1))).
  assert (Hkey : forall kv, kv ∈ kwargs -> kv.1 ∈ pydict.keys kwargs).
  { intros kv Hkv. unfold pydict.keys. apply list_elem_of_In, in_map_iff.
    exists kv. split; [done|]. by apply list_elem_of_In. }
  unfold bind at 1. rewrite (for_each_pure_id _ f).
  - rewrite DictFacts.of_items_id; [done|].
    by rewrite (DictFacts.keys_map
                  (fun kv => wrap kv.2 (ColumnReference self (column_of self kv.1) kv.1))).
  - intros kv Hkv. unfold bind.
    rewrite (getitem_name_pure self kv.1 (column_of self kv.1)); [done..|].
    apply get_Some_in. unfold column_of.
    destruct (DictFacts.get_is_Some (_columns self) kv.1) as [c Hc];
      [by apply Hsub, Hkey|]. by rewrite Hc.
Qed.

Lemma retype_deps (wrap : dt.DType -> ColumnExpression -> ColumnExpression)
    self (kwargs : pydict.dict dt.DType) :
  (forall ty e, _dependencies (wrap ty e) = _dependencies e) ->
  columns_in_universe self ->
  (forall k, k ∈ pydict.keys kwargs -> k ∈ keys self) ->
  Forall (fun ne : string * ColumnExpression =>
            Forall (fun d => column_universe d = _universe self) (_dependencies ne.2))
    (map (fun kv => (kv.1, wrap kv.2 (ColumnReference self (column_of self kv.1) kv.1)))
       kwargs).
Proof.
  intros Hdeps Hcols Hsub. apply Forall_map. apply Forall_forall. intros kv Hkv. simpl.
  rewrite Hdeps. simpl. repeat constructor.
  eapply column_in_universe; [done|]. unfold column_of.
  destruct (DictFacts.get_is_Some (_columns self) kv.1) as [c Hc]; [|by rewrite Hc].
  apply Hsub. unfold pydict.keys. apply list_elem_of_In, in_map_iff.
  exists kv. split; [done|]. by apply list_elem_of_In.
Qed.

Lemma retype_runs (wrap : dt.DType -> ColumnExpression -> ColumnExpression)
    msg self kwargs g :
  (forall ty e, expression_dtype (wrap ty e) = ty) ->
  (forall ty e, _dependencies (wrap ty e) = _dependencies e) ->
  well_formed self -> "self" ∉ keys self ->
  NoDup (pydict.keys kwargs) ->
  (forall k, k ∈ pydict.keys kwargs -> k ∈ keys self) ->
  runs (for_each (fun name =>
            if negb (pydict.contains name (_columns self))
            then raise (ValueError msg) else ret tt)
          (pydict.keys kwargs) ;;;
        assignments <- for_each (fun kv =>
            r <- __getitem__ self (ByName kv.1) ;;
            ret (kv.1, wrap kv.2 (colref_expr r)))
          kwargs ;;
        with_columns self [] (pydict.of_items assignments)) g
    (retyped self kwargs).
Proof.
  intros Hty Hdeps Hwf Hself Hnd Hsub. pose proof Hwf as [Hd Hid Hcols Hidc Hs].
  unfold runs, table.wp. rewrite (retype_with_columns wrap) by done.
  set (f := fun kv : string * dt.DType =>
              (kv.1, wrap kv.2 (ColumnReference self (column_of self kv.1) kv.1))).
  assert (Hfk : pydict.keys (map f kwargs) = pydict.keys kwargs).
  { apply (DictFacts.keys_map
             (fun kv => wrap kv.2 (ColumnReference self (column_of self kv.1) kv.1))). }
  change (runs (with_columns self [] (map f kwargs)) g (retyped self kwargs)).
  eapply runs_mono.
  { apply with_columns_runs; [done|done|by rewrite Hfk|by rewrite Hfk|].
    by apply retype_deps. }
  intros t (Hwft & Hk & Hu & Hpk & Hsch & Hdt).
  repeat (split; [done|]). intros n. rewrite Hdt.
  unfold f. rewrite (DictFacts.get_map
    (fun k ty => wrap ty (ColumnReference self (column_of self k) k))).
  destruct (pydict.get n (_columns self)) as [c|]; [|done]. simpl.
  destruct (pydict.get n kwargs) as [ty|]; [|done]. simpl. by rewrite Hty.
Qed.

Lemma retype_rejects (wrap : dt.DType -> ColumnExpression -> ColumnExpression)
    msg self kwargs g :
  (forall ty e, _dependencies (wrap ty e) = _dependencies e) ->
  well_formed self -> "self" ∈ keys self ->
  NoDup (pydict.keys kwargs) ->
  (forall k, k ∈ pydict.keys kwargs -> k ∈ keys self) ->
  rejects (for_each (fun name =>
            if negb (pydict.contains name (_columns self))
            then raise (ValueError msg) else ret tt)
          (pydict.keys kwargs) ;;;
        assignments <- for_each (fun kv =>
            r <- __getitem__ self (ByName kv.1) ;;
            ret (kv.1, wrap kv.2 (colref_expr r)))
          kwargs ;;
        with_columns self [] (pydict.of_items assignments)) g.
Proof.
  intros Hdeps Hwf Hself Hnd Hsub. pose proof Hwf as [Hd Hid Hcols Hidc Hs].
  unfold table.rejects. rewrite (retype_with_columns wrap) by done.
  set (f := fun kv : string * dt.DType =>
              (kv.1, wrap kv.2 (ColumnReference self (column_of self kv.1) kv.1))).
  assert (Hfk : pydict.keys (map f kwargs) = pydict.keys kwargs).
  { apply (DictFacts.keys_map
             (fun kv => wrap kv.2 (ColumnReference self (column_of self kv.1) kv.1))). }
  apply (with_columns_rejects self [] (map f kwargs) []);
    [done|done|done|simpl; by rewrite Hfk|simpl; by rewrite Hfk|
     simpl; by apply retype_deps].
Qed.

Lemma update_types_runs self kwargs g :
  well_formed self -> "self" ∉ keys self -> NoDup (pydict.keys kwargs) ->
  (forall k, k ∈ pydict.keys kwargs -> k ∈ keys self) ->
  runs (update_types self kwargs) g (retyped self kwargs).
Proof.
  intros Hwf Hself Hnd Hsub. unfold update_types.
  rewrite keywords_pass by (intros Hin; by apply Hself, Hsub).
  by apply (retype_runs declare_type).
Qed.

Lemma cast_to_types_runs self kwargs g :
  well_formed self -> "self" ∉ keys self -> NoDup (pydict.keys kwargs) ->
  (forall k, k ∈ pydict.keys kwargs -> k ∈ keys self) ->
  runs (cast_to_types self kwargs) g (retyped self kwargs).
Proof.
  intros Hwf Hself Hnd Hsub. unfold cast_to_types.
  rewrite keywords_pass by (intros Hin; by apply Hself, Hsub).
  by apply (retype_runs cast).
Qed.

Lemma update_types_rejects self kwargs g :
  well_formed self -> "self" ∈ keys self -> NoDup (pydict.keys kwargs) ->
  (forall k, k ∈ pydict.keys kwargs -> k ∈ keys self) ->
  rejects (update_types self kwargs) g.
Proof.
  intros Hwf Hself Hnd Hsub. unfold update_types.
  destruct (decide ("self" ∈ pydict.keys kwargs)) as [Hkw|Hkw];
    [by apply keywords_rejects|].
  rewrite keywords_pass by done. by apply (retype_rejects declare_type).
Qed.

Lemma cast_to_types_rejects self kwargs g :
  well_formed self -> "self" ∈ keys self -> NoDup (pydict.keys kwargs) ->
  (forall k, k ∈ pydict.keys kwargs -> k ∈ keys self) ->
  rejects (cast_to_types self kwargs) g.
Proof.
  intros Hwf Hself Hnd Hsub. unfold cast_to_types.
  destruct (decide ("self" ∈ pydict.keys kwargs)) as [Hkw|Hkw];
    [by apply keywords_rejects|].
  rewrite keywords_pass by done. by apply (retype_rejects cast).
Qed.

(** *** [filter] *)

Lemma wp_bind {A B} (m : M A) (k : A -> M B) g Q :
  wp m g (fun a g1 => wp (k a) g1 Q) -> wp (bind m k) g Q.
Proof. unfold table.wp, bind. by destruct (m g) as [[a|e] g1]. Qed.

Lemma wp_bind_pure {A B} (m : M A) (k : A -> M B) g a Q :
  m g = (Returned a, g) -> wp (k a) g Q -> wp (bind m k) g Q.
Proof. intros Hm Hk. unfold table.wp, bind in *. by rewrite Hm. Qed.

Lemma wp_mono {A} (m : M A) g (P Q : A -> ParseGraph -> Prop) :
  wp m g P -> (forall a g', P a g' -> Q a g') -> wp m g Q.
Proof. unfold table.wp. destruct (m g) as [[a|e] g1]; [|done]. auto. Qed.

Lemma wp_returned {A} (m : M A) g Q :
  wp m g Q -> exists a g', m g = (Returned a, g') /\ Q a g'.
Proof. unfold table.wp. destruct (m g) as [[a|e] g1]; [|done]. eauto. Qed.

Lemma wp_contextualized {A} name (body : M A) g (Q : A -> ParseGraph -> Prop) :
  (forall g0, frame g g0 -> wp body g0 (fun a g1 => forall g2, frame g1 g2 -> Q a g2)) ->
  wp (contextualized_operator name body) g Q.
Proof.
  intros Hb. unfold contextualized_operator.
  apply wp_bind. unfold table.wp at 1. simpl.
  apply wp_bind. eapply wp_mono; [apply Hb; by split|].
  intros a g1 HQ. apply wp_bind. unfold table.wp, modify, ret. simpl.
  apply HQ. by split.
Qed.

Lemma wp_solver_call {A} (c : S -> A * S) g (Q : A -> ParseGraph -> Prop) :
  Q (c (universe_solver g)).1 (with_solver (c (universe_solver g)).2 g) ->
  wp (solver_call c) g Q.
Proof. unfold table.wp, solver_call. by destruct (c (universe_solver g)). Qed.

Lemma wp_init columns universe pk_columns id_column g (Q : Table -> ParseGraph -> Prop) :
  (forall t g', built t columns universe pk_columns
                  (default (IdColumn (RowwiseContext universe)) id_column) ->
                frame g g' -> Q t g') ->
  wp (__init__ columns universe pk_columns None id_column) g Q.
Proof.
  intros HQ. unfold table.wp. simpl. apply HQ; [by repeat split|by split].
Qed.

Lemma wp_runs {A} (m : M A) g (P : A -> Prop) (Q : A -> ParseGraph -> Prop) :
  runs m g P -> (forall a g', frame g g' -> P a -> Q a g') -> wp m g Q.
Proof. intros Hr HQ. eapply wp_mono; [exact Hr|]. intros a g' [? ?]. auto. Qed.

Lemma wrap_columns_map self context columns :
  NoDup (pydict.keys columns) ->
  wrap_columns self context columns =
    map (fun nc => (nc.1, _wrap_column_in_context self context nc.2 nc.1)) columns.
Proof.
  intros Hnd. unfold wrap_columns. apply DictFacts.of_items_id.
  by rewrite (DictFacts.keys_map
                (fun nc => _wrap_column_in_context self context nc.2 nc.1)).
Qed.

Lemma wrapped_well_formed self context t pk_columns :
  is_dict self -> "id" ∉ keys self ->
  built t (wrap_columns self context (_columns self)) (context_universe context)
    pk_columns (IdColumn context) ->
  well_formed t /\ keys t = keys self /\
  forall n, dtype_of t n = dtype_of self n.
Proof.
  intros Hd Hid Hb. pose proof Hb as (Hc & _).
  rewrite wrap_columns_map in Hc by done.
  assert (Hk : keys t = keys self).
  { unfold keys. rewrite Hc.
    apply (DictFacts.keys_map
             (fun nc => _wrap_column_in_context self context nc.2 nc.1)). }
  split; [|split; [done|]].
  - eapply built_well_formed; [exact Hb| | | |done].
    + apply wrap_columns_NoDup.
    + rewrite wrap_columns_map by done.
      by rewrite (DictFacts.keys_map
                    (fun nc => _wrap_column_in_context self context nc.2 nc.1)).
    + apply wrap_columns_universe.
  - intros n. unfold dtype_of. rewrite Hc.
    rewrite (DictFacts.get_map (fun n c => _wrap_column_in_context self context c n)).
    by destruct (pydict.get n (_columns self)).
Qed.

Lemma filter_wp_ self e g (Q : Table -> ParseGraph -> Prop) :
  Forall (fun d => column_universe d = _universe self) (_dependencies e) ->
  (forall t g',
     built t
       (wrap_columns self
          (FilterContext (get_subset (universe_solver g) (_universe self)).1
             (_eval self e None) (_universe self))
          (_columns self))
       (get_subset (universe_solver g) (_universe self)).1 (_pk_columns self)
       (IdColumn (FilterContext (get_subset (universe_solver g) (_universe self)).1
                    (_eval self e None) (_universe self))) ->
     Q t g') ->
  wp (_filter self e) g Q.
Proof.
  intros Hdeps HQ. unfold _filter. apply wp_contextualized. intros g0 [Hs0 _].
  eapply wp_bind_pure; [by apply validate_expression_pure|].
  eapply wp_bind_pure.
  { simpl. by rewrite Pos.eqb_refl. }
  apply wp_bind. unfold subset. apply wp_solver_call. rewrite Hs0.
  unfold _table_with_context. apply wp_init. intros t g1 Hb _ g2 _.
  by apply HQ.
Qed.

(** C5, as the code has it.  Take a well-formed table [self] and its column
    [col] of name [name].  When no column of [self] is named [self], the
    call [self.filter(col is not None)] returns a table with the column
    names of [self] in which the column [name] has the type of [col]
    narrowed by [unoptionalize] and every other column the type it has in
    [self]; the schema of the result reports these types.  When a column
    of [self] is named [self], the call raises [TypeError]: the narrowing
    goes through [update_types] and [with_columns], which hand the columns
    of the table to [select] as keyword arguments. *)
Theorem filter_is_not_none_narrows self col name g :
  well_formed self ->
  pydict.get name (_columns self) = Some col ->
  ("self" ∉ keys self ->
   exists t g',
     filter self (IsNotNoneExpression (ColumnReference self col name)) g =
       (Returned t, g') /\
     keys t = keys self /\
     dtype_of t name = Some (dt.unoptionalize (column_dtype col)) /\
     (forall n, n <> name -> dtype_of t n = dtype_of self n) /\
     (forall n, schema_dtype (_schema t) n = dtype_of t n)) /\
  ("self" ∈ keys self ->
   exists msg g',
     filter self (IsNotNoneExpression (ColumnReference self col name)) g =
       (Raised (TypeError msg), g')).
Proof.
  intros Hwf Hcol. pose proof Hwf as [Hd Hid Hcols Hidc Hs].
  assert (Hdeps : Forall (fun d => column_universe d = _universe self)
                    (_dependencies (IsNotNoneExpression (ColumnReference self col name)))).
  { simpl. repeat constructor. by eapply column_in_universe. }
  assert (Hnd1 : forall ty : dt.DType, NoDup (pydict.keys [(name, ty)])).
  { intros ty. repeat constructor. by intros ?%elem_of_nil. }
  split.
  - intros Hself. apply wp_returned. unfold filter. simpl.
    apply wp_bind. apply filter_wp_; [done|].
    intros r g1 Hb. rewrite Pos.eqb_refl, Hcol.
    apply wrapped_well_formed in Hb as (Hwfr & Hkr & Hdr); [|done..].
    eapply wp_runs.
    { apply update_types_runs; [done|by rewrite Hkr|apply Hnd1|].
      intros k ->%list_elem_of_singleton. rewrite Hkr.
      by eapply DictFacts.get_Some_key. }
    intros t g2 _ (Hwft & Hkt & _ & _ & Hsch & Hdt).
    split; [congruence|]. split; [|split].
    + rewrite Hdt. specialize (Hdr name). unfold dtype_of in Hdr.
      rewrite Hcol in Hdr. simpl in *. rewrite decide_True by done.
      destruct (pydict.get name (_columns r)); by simplify_eq/=.
    + intros n Hne. rewrite Hdt. specialize (Hdr n). unfold dtype_of in *.
      simpl. rewrite decide_False by done. rewrite <- Hdr.
      by destruct (pydict.get n (_columns r)).
    + intros n. rewrite Hsch. unfold schema_dtype, schema_from_columns, dtype_of.
      rewrite (DictFacts.get_map (fun _ c => column_properties c)).
      destruct (pydict.get n (_columns t)) as [c|]; [|done]. simpl.
      by destruct c.
  - intros Hself.
    change (rejects (filter self (IsNotNoneExpression (ColumnReference self col name))) g).
    unfold filter. simpl.
    destruct (wp_returned _ g _
                (filter_wp_ self (IsNotNoneExpression (ColumnReference self col name)) g
                   (fun r _ => well_formed r /\ keys r = keys self) Hdeps
                   ltac:(intros r g1 Hb;
                         apply wrapped_well_formed in Hb as (? & ? & _); done)))
      as (r & g1 & Hfilter & Hwfr & Hkr).
    unfold table.rejects, bind. rewrite Hfilter, Pos.eqb_refl, Hcol.
    apply update_types_rejects; [done|by rewrite Hkr|apply Hnd1|].
    intros k ->%list_elem_of_singleton. rewrite Hkr.
    by eapply DictFacts.get_Some_key.
Qed.

(** *** [concat] *)

Lemma quiet_ret {A} (a : A) : quiet (ret a : M A).
Proof. intros g o g' Hr. unfold ret in Hr. simplify_eq. apply frame_refl. Qed.

Lemma quiet_raise {A} e : quiet (raise e : M A).
Proof. intros g o g' Hr. unfold raise in Hr. simplify_eq. apply frame_refl. Qed.

Lemma quiet_lift {A} (o : Outcome A) : quiet (lift o : M A).
Proof. intros g o' g' Hr. unfold lift in Hr. simplify_eq. apply frame_refl. Qed.

Lemma quiet_bind {A B} (m : M A) (k : A -> M B) :
  quiet m -> (forall a, quiet (k a)) -> quiet (bind m k).
Proof.
  intros Hm Hk g o g'. unfold bind.
  destruct (m g) as [[a|e] g1] eqn:Hmg.
  - intros Hr. eapply frame_trans; [by eapply Hm|by eapply Hk].
  - intros Hr. simplify_eq. by eapply Hm.
Qed.

Lemma quiet_for_each {A B} (f : A -> M B) xs :
  (forall x, quiet (f x)) -> quiet (for_each f xs).
Proof.
  intros Hf. induction xs as [|x xs IH]; simpl; [apply quiet_ret|].
  apply quiet_bind; [done|]. intros y. apply quiet_bind; [done|].
  intros ys. apply quiet_ret.
Qed.

Lemma quiet_contextualized {A} name (body : M A) :
  quiet body -> quiet (contextualized_operator name body).
Proof.
  intros Hb. unfold contextualized_operator.
  apply quiet_bind; [intros g o g' Hr; simplify_eq; by split|].
  intros node_id. apply quiet_bind; [done|]. intros a.
  apply quiet_bind; [|intros; apply quiet_ret].
  intros g o g' Hr. unfold modify in Hr. simplify_eq. by split.
Qed.

Lemma quiet_init columns universe pk_columns schema id_column :
  quiet (__init__ columns universe pk_columns schema id_column : M Table).
Proof. intros g o g' Hr. unfold __init__ in Hr. simplify_eq. by split. Qed.

Lemma quiet_keywords {V A} (kwargs : pydict.dict V) (call : M A) :
  quiet call -> quiet (keywords kwargs call).
Proof.
  intros Hc. unfold keywords. case_bool_decide; [apply quiet_raise|done].
Qed.

Ltac quiet_step :=
  lazymatch goal with
  | |- quiet (keywords _ _) => apply quiet_keywords
  | |- quiet (contextualized_operator _ _) => apply quiet_contextualized
  | |- quiet (raise _) => apply quiet_raise
  | |- quiet (ret _) => apply quiet_ret
  | |- quiet (lift _) => apply quiet_lift
  | |- quiet (bind _ _) => apply quiet_bind; [|intros ?]
  | |- quiet (for_each _ _) => apply quiet_for_each; intros ?
  | |- quiet (__init__ _ _ _ _ _) => apply quiet_init
  | |- quiet (let _ := _ in _) => cbv zeta
  | |- quiet (if ?b then _ else _) => destruct b
  | |- quiet (match ?x with _ => _ end) => destruct x
  end.

Lemma quiet_getitem self args : quiet (__getitem__ self args : M ColRef).
Proof. destruct args; simpl; unfold _get_colref_by_name; repeat quiet_step. Qed.

Lemma quiet_as_dict self : quiet (as_dict self : M _).
Proof. unfold as_dict. repeat quiet_step. apply quiet_getitem. Qed.

Lemma quiet_select self args kwargs : quiet (select self args kwargs : M Table).
Proof.
  unfold select, _validate_expression, _with_same_universe. repeat quiet_step.
Qed.

Lemma quiet_with_columns self args kwargs :
  quiet (with_columns self args kwargs : M Table).
Proof.
  unfold with_columns. repeat quiet_step;
    first [apply quiet_select|apply quiet_as_dict].
Qed.

Lemma quiet_cast_to_types self kwargs : quiet (cast_to_types self kwargs : M Table).
Proof.
  unfold cast_to_types. repeat quiet_step;
    first [apply quiet_getitem|apply quiet_with_columns].
Qed.

Lemma returns_select_universe self args kwargs :
  returns (select self args kwargs) (fun t => _universe t = _universe self).
Proof.
  unfold select. apply returns_keywords, returns_contextualized. repeat step.
  intros g t g' Hr. unfold _with_same_universe, __init__ in Hr. by simplify_eq.
Qed.

Lemma returns_with_columns_universe self args kwargs :
  returns (with_columns self args kwargs) (fun t => _universe t = _universe self).
Proof. unfold with_columns. repeat step. apply returns_select_universe. Qed.

Lemma returns_cast_to_types_universe self kwargs :
  returns (cast_to_types self kwargs) (fun t => _universe t = _universe self).
Proof. unfold cast_to_types. repeat step. apply returns_with_columns_universe. Qed.

Lemma framed_intro {A} (m : M A) g (Q : A -> Prop) :
  quiet m -> returns m Q -> framed m g Q.
Proof.
  intros Hq Hr. unfold table.framed. destruct (m g) as [[a|e] g'] eqn:Hm.
  - split; [by eapply Hq|by eapply Hr].
  - by eapply Hq.
Qed.

Lemma raises_bind {A B} (m : M A) (k : A -> M B) g (P : A -> Prop) E :
  framed m g P ->
  (forall g', frame g g' -> E g') ->
  (forall a g1, frame g g1 -> P a -> raises (k a) g1 E) ->
  raises (bind m k) g E.
Proof.
  unfold table.framed, raises, bind. destruct (m g) as [[a|e] g1].
  - intros [Hf HP] _ Hk. by apply Hk.
  - intros Hf HE _. by apply HE.
Qed.

Lemma raises_elim {A} (m : M A) g E :
  raises m g E -> exists e g', m g = (Raised e, g') /\ E g'.
Proof. unfold raises. destruct (m g) as [[a|e] g']; [done|eauto]. Qed.

Lemma Forall2_universes (others others' : list Table) :
  Forall2 (fun o o' => _universe o' = _universe o) others others' ->
  map _universe others' = map _universe others.
Proof. induction 1; simpl; congruence. Qed.

Ltac chain_frames :=
  intros;
  repeat (eapply frame_trans; [eassumption|]);
  first [eassumption|apply frame_refl].

Lemma concat_not_disjoint self others g :
  query_are_disjoint (universe_solver g) (map _universe (self :: others)) = false ->
  exists e g', concat self others g = (Raised e, g') /\
               warnings g' = warnings g /\ universe_solver g' = universe_solver g.
Proof.
  intros Hq.
  cut (raises (concat self others) g (frame g)).
  { intros (e & g' & Hr & Hs & Hw)%raises_elim. eauto. }
  unfold concat.
  eapply (raises_bind _ _ _ (fun _ => True)); [|chain_frames|].
  { apply framed_intro; [repeat quiet_step|by intros ? ? ? ?]. }
  intros _ g1 Hf1 _.
  eapply (raises_bind _ _ _ (fun _ => True)); [|chain_frames|].
  { apply framed_intro; [apply quiet_lift|by intros ? ? ? ?]. }
  intros schema g2 Hf2 _.
  eapply raises_bind; [|chain_frames|].
  { apply framed_intro;
      [apply quiet_cast_to_types|apply returns_cast_to_types_universe]. }
  intros self' g3 Hf3 Hu.
  eapply raises_bind; [|chain_frames|].
  { apply framed_intro.
    - apply quiet_for_each. intros o. apply quiet_cast_to_types.
    - apply (returns_for_each_rel _ (fun o o' => _universe o' = _universe o)).
      intros o _. apply returns_cast_to_types_universe. }
  intros others' g4 Hf4 Hus%Forall2_universes.
  assert (Hf : frame g g4) by chain_frames.
  unfold raises, _concat, contextualized_operator, bind, solver_query, gets.
  simpl. rewrite Hu, Hus. destruct Hf as [Hs Hw]. rewrite Hs.
  simpl in Hq. rewrite Hq. simpl. by split.
Qed.

Lemma for_each_succeeds {A B} (body : A -> M B) xs g :
  (forall x, x ∈ xs -> exists y, body x g = (Returned y, g)) ->
  exists ys, for_each body xs g = (Returned ys, g).
Proof.
  induction xs as [|x xs IH]; simpl; intros Hb; [by eexists|].
  destruct (Hb x) as [y Hy]; [apply list_elem_of_here|].
  destruct IH as [ys Hys]; [intros x' Hx'; apply Hb; by apply list_elem_of_further|].
  exists (y :: ys). unfold bind. by rewrite Hy, Hys.
Qed.

Lemma lookup_all_succeeds names (d : pydict.dict Column) (g : @ParseGraph S) :
  (forall n, n ∈ names -> n ∈ pydict.keys d) ->
  exists r, lookup_all names d g = (Returned r, g).
Proof.
  intros Hsub. unfold lookup_all, bind.
  destruct (for_each_succeeds
              (fun name => match pydict.get name d with
                           | Some column => ret (name, column)
                           | None => raise (KeyError name)
                           end : M _) names g) as [items Hitems].
  - intros n Hn. destruct (DictFacts.get_is_Some d n (Hsub n Hn)) as [c Hc].
    rewrite Hc. by eexists.
  - rewrite Hitems. by eexists.
Qed.

Lemma runs_for_each {A B} (f : A -> M B) (Q : A -> B -> Prop) xs g :
  (forall x g1, x ∈ xs -> frame g g1 -> runs (f x) g1 (Q x)) ->
  runs (for_each f xs) g (Forall2 Q xs).
Proof.
  revert g. induction xs as [|x xs IH]; simpl; intros g Hf.
  - by apply runs_ret.
  - eapply runs_bind; [apply Hf; [apply list_elem_of_here|apply frame_refl]|].
    intros y g1 Hf1 Hy. eapply runs_bind.
    + apply IH. intros x' g2 Hx' Hf2. apply Hf; [by apply list_elem_of_further|].
      by eapply frame_trans.
    + intros ys g2 _ Hys. apply runs_ret. by constructor.
Qed.

Lemma keys_equal_spec (a b : list string) :
  pydict.keys_equal a b = true <-> (forall k, k ∈ a <-> k ∈ b).
Proof.
  unfold pydict.keys_equal. rewrite andb_true_iff, !forallb_forall.
  split.
  - intros [Hab Hba] k. split; intros Hk.
    + apply list_elem_of_In, Hab, bool_decide_eq_true in Hk. done.
    + apply list_elem_of_In, Hba, bool_decide_eq_true in Hk. done.
  - intros Heq. split; intros k Hk%list_elem_of_In; apply bool_decide_eq_true;
      by apply Heq.
Qed.

Lemma comprehension_keys {A B} (f : A -> Outcome (A * B)) xs items :
  (forall x y, f x = Returned y -> y.1 = x) ->
  comprehension f xs = Returned items -> map fst items = xs.
Proof.
  intros Hf. revert items. induction xs as [|x xs IH]; simpl; intros items.
  - intros ?; by simplify_eq.
  - destruct (f x) as [y|e] eqn:Hy; simpl; [|done].
    destruct (comprehension f xs) as [ys|e]; simpl; [|done].
    intros ?; simplify_eq. simpl. f_equal; [by apply Hf|by apply IH].
Qed.

Lemma concat_schema_keys self others schema :
  is_dict self -> concat_schema self others = Returned schema ->
  pydict.keys schema = keys self.
Proof.
  intros Hd. unfold concat_schema.
  destruct (comprehension _ (keys self)) as [items|e] eqn:Hc; simpl; [|done].
  intros ?; simplify_eq. apply comprehension_keys in Hc.
  - rewrite DictFacts.of_items_id; [done|]. unfold pydict.keys. by rewrite Hc.
  - intros k y.
    destruct (comprehension _ others); simpl; [|done].
    destruct (schema_dtype_of self k); simpl; [|done].
    destruct (dt.reduce_types_lca _ _); simpl; [|done].
    intros ?; by simplify_eq.
Qed.

Lemma concat_disjoint self others schema g :
  well_formed self -> "self" ∉ keys self ->
  Forall well_formed others ->
  Forall (fun o => pydict.keys_equal (keys o) (keys self) = true) others ->
  concat_schema self others = Returned schema ->
  query_are_disjoint (universe_solver g) (map _universe (self :: others)) = true ->
  exists t g', concat self others g = (Returned t, g') /\
    _universe t = (get_union (universe_solver g) (map _universe (self :: others))).1 /\
    keys t = keys self /\
    warnings g' = warnings g.
Proof.
  intros Hwf Hself Hwfs Hkeys Hschema Hq. apply wp_returned.
  pose proof (concat_schema_keys self others schema (wf_dict _ Hwf) Hschema) as Hsk.
  unfold concat.
  eapply wp_bind_pure.
  { apply (for_each_pure_id _ (fun _ => tt)). intros o Ho.
    rewrite Forall_forall in Hkeys. by rewrite (Hkeys o Ho). }
  eapply wp_bind_pure; [by rewrite Hschema|].
  apply wp_bind. eapply wp_runs.
  { apply cast_to_types_runs; [done|done|rewrite Hsk; apply Hwf|by rewrite Hsk]. }
  intros self' g1 Hf1 (Hwf' & Hk' & Hu' & _).
  apply wp_bind. eapply wp_runs.
  { apply (runs_for_each _ (fun o o' => retyped o schema o')).
    intros o g2 Ho _. rewrite Forall_forall in Hwfs, Hkeys.
    apply cast_to_types_runs; [by apply Hwfs| |rewrite Hsk; apply Hwf|].
    - intros Hin. by apply Hself, (proj1 (keys_equal_spec _ _) (Hkeys o Ho) "self").
    - intros k Hk. rewrite Hsk in Hk.
      by apply (proj1 (keys_equal_spec _ _) (Hkeys o Ho) k). }
  intros others' g2 Hf2 Hothers.
  assert (Hf : frame g g2) by (by eapply frame_trans).
  assert (Hus : map _universe others' = map _universe others).
  { clear -Hothers. induction Hothers as [|???? (_ & _ & ? & _)]; simpl; congruence. }
  unfold _concat. apply wp_contextualized. intros g3 Hf3.
  assert (Hs3 : universe_solver g3 = universe_solver g).
  { destruct Hf as [? _], Hf3 as [? _]. congruence. }
  eapply wp_bind_pure.
  { unfold solver_query, gets. rewrite Hu', Hus, Hs3. simpl in Hq. by rewrite Hq. }
  simpl. apply wp_bind. apply wp_solver_call.
  destruct (for_each_succeeds
              (fun other => lookup_all (keys self') (_columns other) : M _) others'
              (with_solver (get_union (universe_solver g3)
                              (_universe self' :: map _universe others')).2 g3))
    as [updates Hupdates].
  { assert (Hall : Forall (fun o' => forall n, n ∈ keys self -> n ∈ keys o') others').
    { clear -Hothers Hkeys.
      induction Hothers as [|o o' os os' (_ & Hko & _) _ IH]; constructor.
      - intros n Hn. rewrite Hko. apply Forall_inv in Hkeys.
        by apply (proj1 (keys_equal_spec _ _) Hkeys n).
      - apply IH. by apply Forall_inv_tail in Hkeys. }
    intros o' Ho'. apply lookup_all_succeeds. intros n Hn.
    rewrite Forall_forall in Hall. apply (Hall o' Ho'). by rewrite <- Hk'. }
  eapply wp_bind_pure; [exact Hupdates|].
  apply wp_init. intros t g4 (Hc & Hu & _) [_ Hw4] g5 [_ Hw5].
  split; [|split].
  - rewrite Hu, Hu', Hus, Hs3. done.
  - unfold keys at 1. rewrite Hc, wrap_columns_map by apply Hwf'.
    rewrite <- Hk'. apply (DictFacts.keys_map (fun nc => _wrap_column_in_context _ _ nc.2 nc.1)).
  - rewrite Hw5, Hw4. simpl. destruct Hf3 as [_ ->]. by destruct Hf as [_ ->].
Qed.

(** *** [ix] *)

Lemma ix_key_column self expression optional arg context g key g1 :
  in_context expression arg context ->
  restrict_universe_eval_expression context expression g = (Returned key, g1) ->
  Forall (fun d => column_universe d = _universe context) (_dependencies key) ->
  exists tmp g2,
    frame g1 g2 /\ _universe tmp = _universe context /\
    ix self expression optional arg g =
      (let key_col := (tmp, _eval context key None, "tmp") in
       let key_dtype := expression_dtype key in
       if (optional && negb (dt.dtype_issubclass key_dtype (dt.Optional dt.POINTER)))
          || (negb optional && negb (dt.is_Pointer key_dtype))
       then raise ix_type_error
       else
         self_ <- (if optional && dt.is_Optional key_dtype
                   then hints <- lift (optional_typehints self) ;;
                        update_types self hints
                   else ret self) ;;
         result <- _ix self_ key_col optional ;;
         ret (IxTable result)) g2.
Proof.
  intros Hctx Hkey Hdeps.
  destruct (runs_returned _ g1 _
              (select_runs context [("tmp", key)] g1
                 ltac:(by intros [?|?%elem_of_nil]%elem_of_cons)
                 ltac:(by intros [?|?%elem_of_nil]%elem_of_cons)
                 ltac:(repeat constructor; by intros ?%elem_of_nil)
                 ltac:(by repeat constructor)))
    as (tmp & g2 & Hsel & Hf & Hc & Hu & _).
  exists tmp, g2. split; [done|]. split; [done|].
  assert (Hcol : _get_colref_by_name tmp "tmp" AttributeError g2 =
                 (Returned (tmp, _eval context key None, "tmp"), g2)).
  { unfold _get_colref_by_name. simpl in Hc. rewrite Hc. by simpl. }
  unfold table.ix.
  assert (Hresolved :
    (match arg with
     | Some c => Some c
     | None =>
         match collect_tables expression with
         | [] => Some CtxThis
         | first :: _ =>
             if forallb (fun tab => Pos.eqb (obj tab) (obj first))
                  (collect_tables expression)
             then Some (CtxTable first) else None
         end
     end) = Some (CtxTable context)).
  { destruct Hctx as [->|(-> & rest & Hrest & Hall)]; [done|].
    rewrite Hrest. simpl. by rewrite Pos.eqb_refl, Hall. }
  cbv zeta. rewrite Hresolved. unfold bind at 1. unfold ret at 1.
  unfold bind at 1. rewrite Hkey.
  unfold bind at 1. rewrite Hsel.
  unfold bind at 1. rewrite Hcol. done.
Qed.

Lemma ix_runs_ self key_expression optional (g : @ParseGraph S) :
  runs (_ix self key_expression optional) g
    (fun t =>
       built t
         (wrap_columns self
            (IxContext (_universe key_expression.1.1) (_universe self)
               key_expression.1.2 optional) (_columns self))
         (_universe key_expression.1.1) (_pk_columns self)
         (IdColumn (IxContext (_universe key_expression.1.1) (_universe self)
                      key_expression.1.2 optional))).
Proof.
  unfold _ix. apply runs_contextualized. intros g0 _. apply runs_init.
Qed.

Lemma comprehension_pure {A B} (f : A -> Outcome B) (h : A -> B) xs :
  (forall x, x ∈ xs -> f x = Returned (h x)) ->
  comprehension f xs = Returned (map h xs).
Proof.
  induction xs as [|x xs IH]; simpl; intros Hf; [done|].
  rewrite Hf by apply list_elem_of_here. simpl.
  rewrite IH; [done|]. intros x' Hx'. apply Hf. by apply list_elem_of_further.
Qed.

Lemma optional_typehints_returned self :
  is_dict self -> schema_matches self ->
  exists hints,
    optional_typehints self = Returned hints /\
    NoDup (pydict.keys hints) /\ pydict.keys hints = keys self /\
    forall n ty, schema_dtype (_schema self) n = Some ty ->
                 pydict.get n hints = Some (dt.Optional ty).
Proof.
  intros Hd Hs.
  set (h := fun n => (n, dt.Optional (default dt.NONE (schema_dtype (_schema self) n)))).
  assert (Hk : pydict.keys (map h (keys self)) = keys self).
  { unfold pydict.keys. rewrite map_map. apply map_id. }
  exists (map h (keys self)). split; [|split; [by rewrite Hk|split; [done|]]].
  - unfold optional_typehints.
    rewrite (comprehension_pure _ h).
    + simpl. by rewrite DictFacts.of_items_id by (by rewrite Hk).
    + intros n Hn. unfold schema_dtype_of, h.
      rewrite <- Hs in Hn. unfold column_names in Hn.
      destruct (DictFacts.get_is_Some _ _ Hn) as [p Hp].
      unfold schema_dtype. by rewrite Hp.
  - intros n ty Hty.
    assert (Hn : n ∈ keys self).
    { rewrite <- Hs. unfold schema_dtype in Hty.
      destruct (pydict.get n (_schema self)) eqn:Hg; [|done].
      by eapply DictFacts.get_Some_key. }
    clear Hk. induction (keys self) as [|k ks IH]; [by apply elem_of_nil in Hn|].
    simpl. destruct (decide (k = n)) as [->|Hne].
    + by rewrite Hty.
    + apply IH. apply elem_of_cons in Hn as [?|?]; [congruence|done].
Qed.

(** C1, as the code has it.  Take [self.ix(expression, optional=True)] in
    the context of a table, with [key] the desugared key expression.  The
    call raises [TypeError] when the type of [key] is not a subclass of
    [Optional(Pointer)].  A key of the non-optional type [Pointer] is
    accepted: the call returns the columns of [self] wrapped in an [Ix]
    context over the universe of the context table, and does not make their
    types optional.  A key of type [Optional(Pointer)] is accepted as well,
    and for a table [self] with no column named [self] the columns of the
    result have the optional of the types in the schema of [self]. *)
Theorem ix_optional_accepts_pointer self expression arg context g key g1 :
  in_context expression arg context ->
  restrict_universe_eval_expression context expression g = (Returned key, g1) ->
  Forall (fun d => column_universe d = _universe context) (_dependencies key) ->
  (dt.dtype_issubclass (expression_dtype key) (dt.Optional dt.POINTER) = false ->
   exists g', ix self expression true arg g = (Raised ix_type_error, g')) /\
  (expression_dtype key = dt.POINTER ->
   exists t g',
     ix self expression true arg g = (Returned (IxTable t), g') /\
     _universe t = _universe context /\
     _columns t =
       wrap_columns self
         (IxContext (_universe context) (_universe self) (_eval context key None) true)
         (_columns self)) /\
  (expression_dtype key = dt.Optional dt.POINTER -> well_formed self ->
   "self" ∉ keys self ->
   exists t g',
     ix self expression true arg g = (Returned (IxTable t), g') /\
     _universe t = _universe context /\
     keys t = keys self /\
     forall n ty, schema_dtype (_schema self) n = Some ty ->
                  dtype_of t n = Some (dt.Optional ty)).
Proof.
  intros Hctx Hkey Hdeps.
  destruct (ix_key_column self expression true arg context g key g1 Hctx Hkey Hdeps)
    as (tmp & g2 & _ & Hu & ->).
  split; [|split].
  - intros Hsub. cbv zeta. rewrite Hsub. simpl. by eexists.
  - intros Hptr. cbv zeta. rewrite Hptr.
    change ((true && negb (dt.dtype_issubclass dt.POINTER (dt.Optional dt.POINTER)))
            || (negb true && negb (dt.is_Pointer dt.POINTER))) with false.
    change (true && dt.is_Optional dt.POINTER) with false. cbv iota.
    destruct (runs_returned _ g2 _
                (ix_runs_ self (tmp, _eval context key None, "tmp") true g2))
      as (t & g3 & Hix & _ & Hc & Hut & _).
    exists t, g3. unfold bind at 1. unfold ret at 1. unfold bind at 1.
    rewrite Hix. split; [done|]. simpl in Hc, Hut. by rewrite Hc, Hut, Hu.
  - intros Hopt Hwf Hself. cbv zeta. rewrite Hopt.
    change ((true && negb (dt.dtype_issubclass (dt.Optional dt.POINTER)
                             (dt.Optional dt.POINTER)))
            || (negb true && negb (dt.is_Pointer (dt.Optional dt.POINTER))))
      with false.
    change (true && dt.is_Optional (dt.Optional dt.POINTER)) with true. cbv iota.
    destruct (optional_typehints_returned self (wf_dict _ Hwf) (wf_schema _ Hwf))
      as (hints & Hhints & Hnd & Hk & Hget).
    match goal with
    | |- exists t g', ?m g2 = _ /\ _ =>
        cut (wp m g2 (fun r _ =>
               exists t, r = IxTable t /\ _universe t = _universe context /\
                 keys t = keys self /\
                 forall n ty, schema_dtype (_schema self) n = Some ty ->
                              dtype_of t n = Some (dt.Optional ty)))
    end.
    { intros (r & g' & Hr & t & -> & HP)%wp_returned. eauto. }
    apply wp_bind.
    eapply wp_bind_pure; [by rewrite Hhints|].
    eapply wp_runs.
    { apply update_types_runs; [done|done|done|by rewrite Hk]. }
    intros self_ g3 _ (Hwf_ & Hk_ & _ & _ & _ & Hdt_).
    apply wp_bind. eapply wp_runs; [apply ix_runs_|].
    intros t g4 _ Hb. simpl in Hb.
    unfold table.wp, ret. exists t. split; [done|].
    pose proof Hb as (_ & Hut & _).
    apply wrapped_well_formed in Hb as (_ & Hkt & Hdt); [|apply Hwf_..].
    split; [congruence|]. split; [congruence|].
    intros n ty Hty. rewrite Hdt, Hdt_, (Hget n ty Hty).
    assert (Hn : n ∈ keys self).
    { rewrite <- (wf_schema _ Hwf). unfold schema_dtype in Hty.
      destruct (pydict.get n (_schema self)) eqn:Hg; [|done].
      by eapply DictFacts.get_Some_key. }
    by destruct (DictFacts.get_is_Some _ _ Hn) as [c ->].
Qed.

(** *** [update_rows] and [with_universe_of] *)

(** C4.  When [self] and [other] have the same key set and the solver
    proves the universe of [self] a subset of the universe of [other],
    [self.update_rows(other)] returns [other] itself and its only effect is
    the warning it appends: no type is merged, no operator node and no table
    object is created, the solver is left alone. *)
Theorem update_rows_returns_other self other g :
  pydict.keys_equal (keys other) (keys self) = true ->
  query_is_subset (universe_solver g) (_universe self) (_universe other) = true ->
  update_rows self other g =
    (Returned other,
     {| universe_solver := universe_solver g;
        node_id_sequence := node_id_sequence g;
        nodes := nodes g;
        objects := objects g;
        warnings := warnings g ++ [update_rows_warning] |}).
Proof.
  intros Hkeys Hsub. unfold update_rows. rewrite Hkeys. simpl.
  unfold bind, is_subset_of, solver_query, gets. by rewrite Hsub.
Qed.

Lemma copy_runs self (g : @ParseGraph S) :
  runs (copy self) g
    (fun t => built t (wrap_columns self (_context self) (_columns self))
                (_universe self) (_pk_columns self) (IdColumn (_context self))).
Proof. unfold copy. apply runs_contextualized. intros g0 _. apply runs_init. Qed.

Lemma unsafe_promise_universe_runs self other (g : @ParseGraph S) :
  runs (_unsafe_promise_universe self other) g
    (fun t =>
       built t
         (wrap_columns self
            (PromiseSameUniverseContext (_universe other) (_universe self))
            (_columns self))
         (_universe other) (_pk_columns self)
         (IdColumn (PromiseSameUniverseContext (_universe other) (_universe self)))).
Proof.
  unfold _unsafe_promise_universe. apply runs_contextualized. intros g0 _.
  apply runs_init.
Qed.

(** C2, as the code has it.  [self.with_universe_of(other)] compares the
    two universes as objects, not through the solver.  When they are the
    same universe, the call is [self.copy()], which returns the columns of
    [self] wrapped in its own rowwise context, over the same universe.
    Otherwise the call first promises the solver that the two universes are
    equal: if the promise is accepted, it returns the columns of [self]
    wrapped in a [PromiseSameUniverse] context that carries the universe of
    [other], in a table over that universe; if the solver raises, so does
    the call. *)
Theorem with_universe_of_compares_identity self other g :
  (_universe self = _universe other ->
   with_universe_of self other g = copy self g /\
   exists t g', copy self g = (Returned t, g') /\
     _universe t = _universe self /\
     _columns t = wrap_columns self (RowwiseContext (_universe self)) (_columns self) /\
     universe_solver g' = universe_solver g) /\
  (_universe self <> _universe other ->
   forall s',
     promise_are_equal (universe_solver g) (_universe self) (_universe other) =
       (Returned tt, s') ->
     exists t g', with_universe_of self other g = (Returned t, g') /\
       _universe t = _universe other /\
       _columns t =
         wrap_columns self
           (PromiseSameUniverseContext (_universe other) (_universe self))
           (_columns self) /\
       universe_solver g' = s') /\
  (_universe self <> _universe other ->
   forall e s',
     promise_are_equal (universe_solver g) (_universe self) (_universe other) =
       (Raised e, s') ->
     with_universe_of self other g = (Raised e, with_solver s' g)).
Proof.
  split; [|split].
  - intros Heq. unfold with_universe_of. rewrite (proj2 (Pos.eqb_eq _ _) Heq).
    split; [done|].
    destruct (runs_returned _ g _ (copy_runs self g))
      as (t & g' & Hr & [Hs _] & Hc & Hu & _).
    exists t, g'. split; [done|]. rewrite Hc, Hu. by repeat split.
  - intros Hne s' Hp. unfold with_universe_of.
    apply Pos.eqb_neq in Hne. rewrite Hne.
    unfold bind, universes_promise_are_equal, solver_promise. rewrite Hp.
    destruct (runs_returned _ _ _
                (unsafe_promise_universe_runs self other (with_solver s' g)))
      as (t & g' & Hr & [Hs _] & Hc & Hu & _).
    exists t, g'. split; [done|]. rewrite Hc, Hu. by repeat split.
  - intros Hne e s' Hp. unfold with_universe_of.
    apply Pos.eqb_neq in Hne. rewrite Hne.
    unfold bind, universes_promise_are_equal, solver_promise. by rewrite Hp.
Qed.

Lemma bind_returned_framed {A B} (m : M A) (k : A -> M B) g (P : A -> Prop) b g' :
  framed m g P -> bind m k g = (Returned b, g') ->
  exists a g1, frame g g1 /\ P a /\ k a g1 = (Returned b, g').
Proof.
  unfold table.framed, bind. destruct (m g) as [[a|e] g1]; [|done].
  intros [Hf HP] Hr. eauto.
Qed.

(** Whenever [concat] returns, its table is over the union the solver
    gives for the universes of the arguments, and no warning was issued. *)
Lemma concat_returned self others g t g' :
  concat self others g = (Returned t, g') ->
  _universe t = (get_union (universe_solver g) (map _universe (self :: others))).1 /\
  warnings g' = warnings g.
Proof.
  unfold concat. intros Hr.
  eapply (bind_returned_framed _ _ _ (fun _ => True)) in Hr
    as (_ & g1 & Hf1 & _ & Hr);
    [|apply framed_intro; [repeat quiet_step|by intros ? ? ? ?]].
  eapply (bind_returned_framed _ _ _ (fun _ => True)) in Hr
    as (schema & g2 & Hf2 & _ & Hr);
    [|apply framed_intro; [apply quiet_lift|by intros ? ? ? ?]].
  eapply bind_returned_framed in Hr as (self' & g3 & Hf3 & Hu & Hr);
    [|apply framed_intro;
      [apply quiet_cast_to_types|apply returns_cast_to_types_universe]].
  eapply (bind_returned_framed _ _ _
            (Forall2 (fun o o' => _universe o' = _universe o) others)) in Hr
    as (others' & g4 & Hf4 & Hus%Forall2_universes & Hr);
    [|apply framed_intro;
      [apply quiet_for_each; intros o; apply quiet_cast_to_types
      |apply (returns_for_each_rel _ (fun o o' => _universe o' = _universe o));
       intros o _; apply returns_cast_to_types_universe]].
  assert (Hf : frame g g4) by chain_frames. destruct Hf as [Hs Hw].
  unfold _concat, contextualized_operator, bind, solver_query, gets in Hr.
  simpl in Hr.
  destruct (query_are_disjoint (universe_solver g4)
              (_universe self' :: map _universe others')); simpl in Hr; [|done].
  unfold solver_call in Hr. simpl in Hr.
  destruct (get_union (universe_solver g4) (_universe self' :: map _universe others'))
    as [u s'] eqn:Hunion. simpl in Hr.
  match type of Hr with
  | context [for_each ?f ?l ?g0] => destruct (for_each f l g0) as [[updates|e] g5] eqn:Hup
  end; [|done].
  assert (Hw5 : warnings g5 = warnings g4).
  { assert (Hq : quiet (for_each (fun other => lookup_all (keys self') (_columns other) : M _)
                          others')).
    { apply quiet_for_each. intros o. unfold lookup_all. repeat quiet_step. }
    apply Hq in Hup as [_ Hw5]. by rewrite Hw5. }
  unfold modify, ret in Hr. simpl in Hr. simplify_eq. simpl.
  rewrite Hu, Hus, Hs in Hunion. simpl. rewrite Hunion. split; [done|].
  by rewrite Hw5, Hw.
Qed.

(** C3.  [concat] demands universes that the solver proves pairwise
    disjoint.  When the solver does not prove the universes of [self] and
    [others] disjoint, as for two arguments over one universe with no
    promise made, the call raises an error, and issues no warning.  When it
    does, a table that the call returns is over the solver's union of the
    argument universes; and the call does return such a table when the
    arguments are well-formed tables with the same key sets whose column
    types have a least common supertype and none of whose columns is named
    [self]. *)
Theorem concat_requires_disjoint_universes self others g :
  (query_are_disjoint (universe_solver g) (map _universe (self :: others)) = false ->
   exists e g', concat self others g = (Raised e, g') /\ warnings g' = warnings g) /\
  (query_are_disjoint (universe_solver g) (map _universe (self :: others)) = true ->
   (forall t g',
      concat self others g = (Returned t, g') ->
      _universe t =
        (get_union (universe_solver g) (map _universe (self :: others))).1 /\
      warnings g' = warnings g) /\
   (well_formed self -> "self" ∉ keys self ->
    Forall well_formed others ->
    Forall (fun o => pydict.keys_equal (keys o) (keys self) = true) others ->
    forall schema, concat_schema self others = Returned schema ->
    exists t g', concat self others g = (Returned t, g') /\
      _universe t =
        (get_union (universe_solver g) (map _universe (self :: others))).1 /\
      warnings g' = warnings g)).
Proof.
  split.
  - intros Hq. destruct (concat_not_disjoint self others g Hq)
      as (e & g' & Hr & Hw & _). eauto.
  - intros Hq. split; [apply concat_returned|].
    intros Hwf Hself Hwfs Hkeys schema Hschema.
    destruct (concat_disjoint self others schema g Hwf Hself Hwfs Hkeys Hschema Hq)
      as (t & g' & Hr & Hu & _ & Hw). eauto.
Qed.

(** *** Operators that act on the rows only *)

Lemma returns_wrapped_columns self context pk_columns id_column :
  is_dict self -> "id" ∉ keys self ->
  default (IdColumn (RowwiseContext (context_universe context))) id_column =
    IdColumn context ->
  returns (__init__ (wrap_columns self context (_columns self))
             (context_universe context) pk_columns None id_column)
    (fun t => well_formed t /\ same_columns self t).
Proof.
  intros Hd Hid Hidc g t g' Hr. unfold __init__ in Hr. simplify_eq.
  eapply (wrapped_well_formed self context _ pk_columns); [done..|].
  rewrite Hidc. by repeat split.
Qed.

Lemma returns_context_columns self context :
  is_dict self -> "id" ∉ keys self ->
  returns (_table_with_context self context)
    (fun t => well_formed t /\ same_columns self t).
Proof. intros. by apply returns_wrapped_columns. Qed.

Ltac wrapped :=
  repeat step;
  first [ by apply returns_context_columns
        | by apply (returns_wrapped_columns _ (RestrictContext _ _))
        | by apply (returns_wrapped_columns _ (RowwiseContext _))
        | by apply (returns_wrapped_columns _ (PromiseSameUniverseContext _ _))
        | by apply (returns_wrapped_columns _ (ReindexContext _ _)) ].

(** X12.  The operators that select, reindex or relabel rows keep the
    columns.  For a table with distinct column names, none of them [id]:
    whenever [difference], [intersect], [restrict], [copy],
    [with_universe_of], [having], [with_id], [with_id_from], [filter] by an
    expression that is not a test [col is not None], [_forget], [_freeze],
    [_buffer] or [_filter_out_results_of_forgetting] returns a table, it
    has the column names of [self], in their order, and every column has
    the type it has in [self]. *)
Theorem row_operators_keep_columns self :
  is_dict self -> "id" ∉ keys self ->
  (forall other, returns (difference self other) (same_columns self)) /\
  (forall tables, returns (intersect self tables) (same_columns self)) /\
  (forall other, returns (restrict self other) (same_columns self)) /\
  returns (copy self) (same_columns self) /\
  (forall other, returns (with_universe_of self other) (same_columns self)) /\
  (forall indexers, returns (having self indexers) (same_columns self)) /\
  (forall new_index, returns (with_id self new_index) (same_columns self)) /\
  (forall args, returns (with_id_from self args) (same_columns self)) /\
  (forall e, get_column_filtered_by_is_none e = None ->
             returns (filter self e) (same_columns self)) /\
  (forall threshold time mark,
     returns (_forget self threshold time mark) (same_columns self)) /\
  (forall threshold time, returns (_freeze self threshold time) (same_columns self)) /\
  (forall threshold time, returns (_buffer self threshold time) (same_columns self)) /\
  returns (_filter_out_results_of_forgetting self) (same_columns self).
Proof.
  intros Hd Hid.
  assert (Hweak : forall (m : M Table),
            returns m (fun t => well_formed t /\ same_columns self t) ->
            returns m (same_columns self)).
  { intros m Hm. eapply returns_weaken; [exact Hm|]. by intros t [_ ?]. }
  assert (Hhaving : forall indexer,
            returns (_having self indexer)
              (fun t => well_formed t /\ same_columns self t)).
  { intros indexer. unfold _having. wrapped. }
  assert (Hintersect : forall first tables,
            is_dict first -> "id" ∉ keys first ->
            returns (intersect first tables)
              (fun t => well_formed t /\ same_columns first t)).
  { intros first tables Hd1 Hid1. unfold intersect. wrapped. }
  assert (Hnew : forall new_index pk_columns,
            returns (_with_new_index self new_index pk_columns)
              (fun t => well_formed t /\ same_columns self t)).
  { intros new_index pk_columns. unfold _with_new_index. wrapped. }
  repeat apply conj.
  - intros other. apply Hweak. unfold difference. wrapped.
  - intros tables. apply Hweak. by apply Hintersect.
  - intros other. apply Hweak. unfold restrict. wrapped.
  - apply Hweak. unfold copy. wrapped.
  - intros other. apply Hweak. unfold with_universe_of, copy,
      _unsafe_promise_universe. wrapped.
  - intros indexers. unfold having.
    eapply returns_bind.
    { apply (returns_for_each _ (fun t => well_formed t /\ same_columns self t)).
      intros indexer _. apply Hhaving. }
    intros rets Hrets. destruct rets as [|first [|second rest]].
    + by apply returns_ret.
    + apply returns_ret. by apply Forall_inv in Hrets as [_ ?].
    + apply Forall_inv in Hrets as [Hwf [Hk Hdt]].
      eapply returns_weaken;
        [apply Hintersect; [apply Hwf|apply Hwf]|].
      intros t [_ [Hk' Hdt']]. split; [congruence|].
      intros n. by rewrite Hdt'.
  - intros new_index. apply Hweak. apply Hnew.
  - intros args. apply Hweak. unfold with_id_from. repeat step. apply Hnew.
  - intros e He. apply Hweak. unfold filter. rewrite He.
    step; [step|]. eapply returns_bind.
    { unfold _filter. wrapped. }
    intros ret_ Hret. by apply returns_ret.
  - intros threshold time mark. apply Hweak. unfold _forget. wrapped.
  - intros threshold time. apply Hweak. unfold _freeze. wrapped.
  - intros threshold time. apply Hweak. unfold _buffer. wrapped.
  - apply Hweak. unfold _filter_out_results_of_forgetting. wrapped.
Qed.

(** *** Projections: [self[[names]]] and [without] *)

Lemma for_each_raises {A B} (body : A -> M B) (f : A -> B) pre bad post e g :
  (forall x, x ∈ pre -> body x g = (Returned (f x), g)) ->
  body bad g = (Raised e, g) ->
  for_each body (pre ++ bad :: post) g = (Raised e, g).
Proof.
  intros Hpre Hbad. induction pre as [|x pre IH]; simpl.
  - unfold bind. by rewrite Hbad.
  - unfold bind in *. rewrite Hpre by apply list_elem_of_here.
    rewrite IH; [done|]. intros y Hy. apply Hpre. by apply list_elem_of_further.
Qed.

Lemma column_of_get self n :
  n ∈ keys self -> pydict.get n (_columns self) = Some (column_of self n).
Proof.
  intros Hn. unfold column_of.
  by destruct (DictFacts.get_is_Some (_columns self) n Hn) as [c ->].
Qed.

Lemma getitem_names_pure self names (g : @ParseGraph S) :
  is_dict self -> "id" ∉ keys self ->
  (forall n, n ∈ names -> n ∈ keys self) ->
  for_each (fun a => __getitem__ self a) (map ByName names) g =
    (Returned (map (fun n => (self, column_of self n, n)) names), g).
Proof.
  intros Hd Hid Hsub. apply for_each_pure. intros n Hn.
  apply getitem_name_pure; [done..|].
  apply get_Some_in, column_of_get, Hsub, Hn.
Qed.

Lemma getitem_missing self n (g : @ParseGraph S) :
  n ∉ keys self -> n <> "id" ->
  __getitem__ self (ByName n) g =
    (Raised (KeyError "Table has no column with name."), g).
Proof.
  intros Hn Hid. simpl. unfold _get_colref_by_name.
  rewrite decide_False by done. unfold pydict.contains.
  by rewrite bool_decide_false by done.
Qed.

Lemma smart_names_references (refs : list ColRef) :
  smart_names (map colref_expr refs) =
    Some (map (fun r => (r.2, colref_expr r)) refs).
Proof.
  unfold smart_names. induction refs as [|r refs IH]; simpl; [done|].
  by rewrite IH.
Qed.

(** Positional column references with distinct names, none of them [id],
    are selected under their own names. *)
Lemma select_references_runs self (refs : list ColRef) (g : @ParseGraph S) :
  NoDup (map snd refs) -> "id" ∉ map snd refs ->
  Forall (fun r => column_universe r.1.2 = _universe self) refs ->
  runs (select self (map colref_expr refs) []) g
    (fun t => built t (map (fun r => (r.2, _eval self (colref_expr r) None)) refs)
                (_universe self) (_pk_columns self) (IdColumn (_context self))).
Proof.
  intros Hnd Hid Hu.
  assert (Hk : pydict.keys (map (fun r : ColRef => (r.2, colref_expr r)) refs)
               = map snd refs).
  { unfold pydict.keys. by rewrite map_map. }
  rewrite <- Hk in Hnd, Hid.
  eapply runs_mono.
  { apply (select_runs_named self (map colref_expr refs) []
             (map (fun r => (r.2, colref_expr r)) refs)).
    - apply smart_names_references.
    - apply not_elem_of_nil.
    - by rewrite app_nil_r.
    - by rewrite app_nil_r.
    - rewrite app_nil_r. apply Forall_map. eapply Forall_impl; [exact Hu|].
      intros r Hr. simpl. by repeat constructor. }
  intros t Hb. by rewrite app_nil_r, map_map in Hb.
Qed.

(** X13.  [self[[names]]], for a well-formed table and distinct names of
    its columns, returns the named columns, in the order of [names], over
    the universe of [self] and with their types; the first name that is
    not a column raises [KeyError] before anything is built. *)
Theorem getitem_list_projects self names g :
  well_formed self ->
  (NoDup names -> (forall n, n ∈ names -> n ∈ keys self) ->
   exists t g',
     getitem_list self (map ByName names) g = (Returned t, g') /\
     keys t = names /\ _universe t = _universe self /\
     (forall n, n ∈ names -> dtype_of t n = dtype_of self n) /\
     frame g g') /\
  (forall pre bad post,
     names = pre ++ bad :: post ->
     (forall n, n ∈ pre -> n ∈ keys self) -> bad ∉ keys self -> bad <> "id" ->
     getitem_list self (map ByName names) g =
       (Raised (KeyError "Table has no column with name."), g)).
Proof.
  intros [Hd Hid Hcols Hidc Hs]. split.
  - intros Hnd Hsub.
    cut (runs (getitem_list self (map ByName names)) g
           (fun t => keys t = names /\ _universe t = _universe self /\
                     forall n, n ∈ names -> dtype_of t n = dtype_of self n)).
    { intros (t & g' & Hr & Hf & Hk & Hu & Hdt)%runs_returned.
      exists t, g'. by repeat (split; [done|]). }
    unfold getitem_list.
    eapply runs_bind_pure; [by apply getitem_names_pure|].
    pose (kwargs := map (fun n => (n, ColumnReference self (column_of self n) n))
                        names).
    assert (Hkk : pydict.keys kwargs = names).
    { unfold kwargs, pydict.keys. rewrite map_map. simpl. apply map_id. }
    assert (Hsnd : map snd (map (fun n => (self, column_of self n, n)) names) = names).
    { rewrite map_map. simpl. apply map_id. }
    eapply runs_mono.
    { apply select_references_runs.
      - by rewrite Hsnd.
      - rewrite Hsnd. intros Hin. by apply Hid, Hsub.
      - apply Forall_map. apply Forall_forall. intros n Hn. simpl.
        eapply column_in_universe; [done|].
        by apply column_of_get, Hsub. }
    intros t Hb.
    assert (Hmap : map (fun r : ColRef => (r.2, _eval self (colref_expr r) None))
                     (map (fun n => (self, column_of self n, n)) names) =
                   map (fun ne => (ne.1, _eval self ne.2 None)) kwargs).
    { unfold kwargs. by rewrite !map_map. }
    assert (Hb' : built t (map (fun ne => (ne.1, _eval self ne.2 None)) kwargs)
                    (_universe self) (_pk_columns self) (IdColumn (_context self)))
      by (rewrite <- Hmap; exact Hb).
    destruct Hb' as (Hc & Hu & _). split; [|split; [done|]].
    + unfold keys. rewrite Hc.
      by rewrite (DictFacts.keys_map (fun ne => _eval self ne.2 None)).
    + intros n Hn. unfold dtype_of. rewrite Hc.
      rewrite (DictFacts.get_map (fun _ e => _eval self e None)).
      rewrite column_of_get by by apply Hsub.
      unfold kwargs.
      rewrite (DictFacts.get_entry _ n (ColumnReference self (column_of self n) n)).
      * done.
      * fold kwargs. by rewrite Hkk.
      * apply list_elem_of_In, in_map_iff. exists n.
        split; [done|]. by apply list_elem_of_In.
  - intros pre bad post -> Hpre Hbad Hne. unfold getitem_list, bind.
    rewrite map_app. simpl.
    rewrite (for_each_raises _ (fun a => (self, column_of self (name_of a), name_of a))
               _ _ _ (KeyError "Table has no column with name.")); [done| |].
    + intros a Ha. apply list_elem_of_In, in_map_iff in Ha as (n & <- & Hn).
      apply getitem_name_pure; [done..|].
      apply get_Some_in, column_of_get, Hpre. by apply list_elem_of_In.
    + by apply getitem_missing.
Qed.

Lemma keys_without n (d : pydict.dict Column) :
  pydict.keys (base.filter (fun kv => kv.1 <> n) d) =
    base.filter (fun k => k <> n) (pydict.keys d).
Proof. exact (DictFacts.keys_filter (fun k => k <> n) d). Qed.

Lemma keys_kept (names : list string) (d : pydict.dict Column) :
  pydict.keys (base.filter (fun kv => kv.1 ∉ names) d) =
    base.filter (fun k => k ∉ names) (pydict.keys d).
Proof. exact (DictFacts.keys_filter (fun k => k ∉ names) d). Qed.

Lemma get_kept (names : list string) (d : pydict.dict Column) n :
  n ∉ names ->
  pydict.get n (base.filter (fun kv => kv.1 ∉ names) d) = pydict.get n d.
Proof.
  intros Hn.
  trans (if decide (n ∉ names) then pydict.get n d else None).
  - exact (DictFacts.get_filter (fun k => k ∉ names) d n).
  - by rewrite decide_True by done.
Qed.

Lemma pop_all_returns (names : list string) (d : pydict.dict Column) (g : @ParseGraph S) :
  NoDup (pydict.keys d) -> NoDup names ->
  (forall n, n ∈ names -> n ∈ pydict.keys d) ->
  pop_all names d g = (Returned (base.filter (fun kv => kv.1 ∉ names) d), g).
Proof.
  revert d. induction names as [|n names IH]; intros d Hd Hnd Hsub; simpl.
  - unfold ret. do 2 f_equal. symmetry. apply DictFacts.filter_all.
    intros kv _. apply not_elem_of_nil.
  - apply NoDup_cons in Hnd as [Hn Hnd].
    rewrite DictFacts.pop_present; [|done|apply Hsub, list_elem_of_here].
    rewrite IH.
    + do 2 f_equal. apply DictFacts.filter_filter_in.
      intros [k c] _. simpl. rewrite not_elem_of_cons. split; intros [? ?]; done.
    + rewrite keys_without. by apply NoDup_filter.
    + done.
    + intros k Hk. rewrite keys_without.
      apply list_elem_of_filter. split; [|apply Hsub; by apply list_elem_of_further].
      intros ->. done.
Qed.

Lemma pop_all_raises pre bad post (d : pydict.dict Column) (g : @ParseGraph S) :
  NoDup (pydict.keys d) -> NoDup pre ->
  (forall n, n ∈ pre -> n ∈ pydict.keys d) ->
  bad ∉ pydict.keys d \/ bad ∈ pre ->
  pop_all (pre ++ bad :: post) d g = (Raised (KeyError bad), g).
Proof.
  revert d. induction pre as [|n pre IH]; intros d Hd Hnd Hsub Hbad; simpl.
  - destruct Hbad as [Hbad|Hbad]; [|by apply elem_of_nil in Hbad].
    by rewrite DictFacts.pop_absent.
  - apply NoDup_cons in Hnd as [Hn Hnd].
    rewrite DictFacts.pop_present; [|done|apply Hsub, list_elem_of_here].
    apply IH.
    + rewrite keys_without. by apply NoDup_filter.
    + done.
    + intros k Hk. rewrite keys_without.
      apply list_elem_of_filter. split; [|apply Hsub; by apply list_elem_of_further].
      intros ->. done.
    + rewrite keys_without.
      rewrite list_elem_of_filter.
      destruct (decide (bad = n)) as [->|Hne]; [left; by intros [? _]|].
      destruct Hbad as [Hbad|Hbad]; [left; by intros [_ ?]|].
      apply elem_of_cons in Hbad as [?|?]; [done|by right].
Qed.

(** X14.  [without], for distinct names of columns, drops the named
    columns and keeps the others, in their order and with their types, over
    the universe of [self]; the first name that is not a column, or that
    was given before, raises [KeyError] with that name. *)
Theorem without_drops_columns self names g :
  is_dict self ->
  (NoDup names -> (forall n, n ∈ names -> n ∈ keys self) ->
   exists t g',
     without self (map ByName names) g = (Returned t, g') /\
     keys t = base.filter (fun k => k ∉ names) (keys self) /\
     _universe t = _universe self /\
     (forall n, n ∉ names -> dtype_of t n = dtype_of self n) /\
     frame g g') /\
  (forall pre bad post,
     names = pre ++ bad :: post -> NoDup pre ->
     (forall n, n ∈ pre -> n ∈ keys self) -> bad ∉ keys self \/ bad ∈ pre ->
     exists g', without self (map ByName names) g = (Raised (KeyError bad), g') /\
                frame g g').
Proof.
  intros Hd.
  assert (Hnames : forall l, map name_of (map ByName l) = l).
  { intros l. rewrite map_map. simpl. apply map_id. }
  split.
  - intros Hnd Hsub.
    cut (runs (without self (map ByName names)) g
           (fun t => keys t = base.filter (fun k => k ∉ names) (keys self) /\
                     _universe t = _universe self /\
                     forall n, n ∉ names -> dtype_of t n = dtype_of self n)).
    { intros (t & g' & Hr & Hf & Hk & Hu & Hdt)%runs_returned.
      exists t, g'. by repeat (split; [done|]). }
    unfold without. apply runs_contextualized. intros g0 _. rewrite Hnames.
    eapply runs_bind_pure; [by apply pop_all_returns|].
    set (kept := base.filter (fun kv => kv.1 ∉ names) (_columns self)).
    assert (Hkk : pydict.keys kept = base.filter (fun k => k ∉ names) (keys self)).
    { apply keys_kept. }
    assert (Hkd : NoDup (pydict.keys kept)).
    { rewrite Hkk. by apply NoDup_filter. }
    unfold _with_same_universe.
    rewrite (DictFacts.of_items_id (wrap_columns self (_context self) kept))
      by apply wrap_columns_NoDup.
    eapply runs_mono; [apply runs_init|].
    intros t (Hc & Hu & _). rewrite wrap_columns_map in Hc by done.
    split; [|split; [done|]].
    + unfold keys at 1. rewrite Hc.
      by rewrite (DictFacts.keys_map
                    (fun nc => _wrap_column_in_context self (_context self) nc.2 nc.1)).
    + intros n Hn. unfold dtype_of. rewrite Hc.
      rewrite (DictFacts.get_map
                 (fun n c => _wrap_column_in_context self (_context self) c n)).
      unfold kept. rewrite get_kept by done.
      by destruct (pydict.get n (_columns self)).
  - intros pre bad post -> Hnd Hpre Hbad.
    unfold without, contextualized_operator, bind. simpl. rewrite Hnames.
    rewrite pop_all_raises by done. eexists. split; [done|]. by split.
Qed.

(** *** [__add__] *)

Lemma iter_pure self (g : @ParseGraph S) :
  is_dict self -> "id" ∉ keys self ->
  __iter__ self g =
    (Returned (map (fun nc => (self, nc.2, nc.1)) (_columns self)), g).
Proof.
  intros Hd Hid. unfold __iter__, keys, pydict.keys.
  apply (for_each_pure _ fst (fun nc => (self, nc.2, nc.1))).
  intros [n c] Hin. by apply getitem_name_pure.
Qed.

(** X15.  [self + other] raises [ValueError] unless the solver proves the
    two universes equal, and leaves the graph as it is.  For well-formed
    tables over one universe that have no column name in common it returns
    the columns of [self] followed by the columns of [other], over that
    universe and with their types. *)
Theorem add_merges_columns self other g :
  (query_are_equal (universe_solver g) (_universe self) (_universe other) = false ->
   __add__ self other g =
     (Raised (ValueError
        "Universes of all arguments of Table.__add__() have to be equal."), g)) /\
  (query_are_equal (universe_solver g) (_universe self) (_universe other) = true ->
   well_formed self -> well_formed other -> _universe other = _universe self ->
   (forall k, k ∈ keys other -> k ∉ keys self) ->
   exists t g',
     __add__ self other g = (Returned t, g') /\
     keys t = keys self ++ keys other /\
     _universe t = _universe self /\
     (forall n, n ∈ keys self -> dtype_of t n = dtype_of self n) /\
     (forall n, n ∈ keys other -> dtype_of t n = dtype_of other n) /\
     frame g g').
Proof.
  split.
  - intros Hq. unfold __add__, bind, solver_query, gets. by rewrite Hq.
  - intros Hq [Hd Hid Hcols _ _] [Hdo Hido Hcolso _ _] Hu Hdisj.
    set (refs := fun tbl : Table => map (fun nc => (tbl, nc.2, nc.1)) (_columns tbl)).
    set (named := fun tbl : Table =>
           map (fun nc => (nc.1, _eval self (ColumnReference tbl nc.2 nc.1) None))
               (_columns tbl)).
    assert (Hkn : forall tbl, pydict.keys (named tbl) = keys tbl).
    { intros tbl.
      apply (DictFacts.keys_map
               (fun nc => _eval self (ColumnReference tbl nc.2 nc.1) None)). }
    assert (Hsnd : map snd (refs self ++ refs other) = keys self ++ keys other).
    { unfold refs, keys, pydict.keys. by rewrite map_app, !map_map. }
    assert (Hrun : __add__ self other g =
                   select self (map colref_expr (refs self ++ refs other)) [] g).
    { unfold __add__, bind, solver_query, gets. rewrite Hq. simpl.
      by rewrite (iter_pure self), (iter_pure other) by done. }
    cut (runs (select self (map colref_expr (refs self ++ refs other)) []) g
           (fun t => _columns t = named self ++ named other /\
                     _universe t = _universe self)).
    { intros (t & g' & Hr & Hf & Hc & Hut)%runs_returned.
      exists t, g'. rewrite Hrun. split; [done|].
      assert (Hdt : forall n, dtype_of t n =
                match dtype_of self n with
                | Some ty => Some ty
                | None => dtype_of other n
                end).
      { intros n. unfold dtype_of. rewrite Hc, DictFacts.get_app. unfold named.
        rewrite !(DictFacts.get_map
                    (fun n c => _eval self (ColumnReference _ c n) None)).
        destruct (pydict.get n (_columns self)) as [c|]; [done|]. simpl.
        by destruct (pydict.get n (_columns other)). }
      split; [|split; [done|split; [|split; [|done]]]].
      - unfold keys at 1. rewrite Hc. unfold pydict.keys. rewrite map_app.
        fold (pydict.keys (named self)) (pydict.keys (named other)).
        by rewrite !Hkn.
      - intros n Hn. rewrite Hdt. unfold dtype_of.
        by destruct (DictFacts.get_is_Some _ _ Hn) as [c ->].
      - intros n Hn. rewrite Hdt. unfold dtype_of at 1.
        by rewrite (DictFacts.get_None (_columns self) n) by by apply Hdisj. }
    eapply runs_mono.
    { apply select_references_runs.
      - rewrite Hsnd. apply NoDup_app. split; [done|]. split; [|done].
        intros k Hk Hko. by apply (Hdisj k).
      - rewrite Hsnd. rewrite elem_of_app. by intros [?|?].
      - unfold refs. apply Forall_app. split; apply Forall_map, Forall_forall;
          intros [n c] Hin; simpl.
        + unfold columns_in_universe in Hcols. rewrite Forall_forall in Hcols.
          apply Hcols. apply list_elem_of_In, in_map_iff. exists (n, c).
          split; [done|]. by apply list_elem_of_In.
        + rewrite <- Hu.
          unfold columns_in_universe in Hcolso. rewrite Forall_forall in Hcolso.
          apply Hcolso. apply list_elem_of_In, in_map_iff. exists (n, c).
          split; [done|]. by apply list_elem_of_In. }
    intros t (Hc & Hut & _). split; [|done].
    rewrite Hc. unfold refs, named. by rewrite map_app, !map_map.
Qed.

(** *** [update_cells] *)

Lemma getitem_ref_pure self n c (g : @ParseGraph S) :
  is_dict self -> "id" ∉ keys self -> (n, c) ∈ _columns self ->
  __getitem__ self (ByRef (self, c, n)) g = (Returned (self, c, n), g).
Proof.
  intros Hd Hid Hin. unfold __getitem__. simpl. rewrite Pos.eqb_refl. simpl.
  by apply (getitem_name_pure self n c).
Qed.

(** What [update_cells] does for a table [other] over the universe of
    [self]: it warns and calls [with_columns] with the columns of
    [other]. *)
Lemma update_cells_with_columns self other (g : @ParseGraph S) :
  is_dict other -> "id" ∉ keys other ->
  (forall k, k ∈ keys other -> k ∈ keys self) ->
  _universe self = _universe other ->
  update_cells self other g =
    with_columns self
      (map colref_expr (map (fun nc => (other, nc.2, nc.1)) (_columns other))) []
      (warn "Key sets of self and other in update_cells are the same. Using with_columns instead of update_cells." g).2.
Proof.
  intros Hdo Hido Hsub Hu. unfold update_cells.
  assert (Hall : forallb (fun k => pydict.contains k (_columns self)) (keys other)
                 = true).
  { apply forallb_forall. intros k Hk. apply DictFacts.contains_true.
    by apply Hsub, list_elem_of_In. }
  rewrite Hall. simpl. rewrite Hu, Pos.eqb_refl.
  unfold bind at 1. simpl.
  unfold bind at 1. rewrite (iter_pure other) by done.
  unfold bind at 1.
  rewrite (for_each_pure_id _ (fun r : ColRef => r)); [by rewrite map_id|].
  intros r Hr'. apply list_elem_of_In, in_map_iff in Hr' as ([n c] & <- & Hin).
  apply getitem_ref_pure; [done..|]. by apply list_elem_of_In.
Qed.

(** X16.  [self.update_cells(other)] raises [ValueError] when [other] has
    a column that [self] has not, before anything else happens.  When the
    columns of [other] are columns of [self] and the two tables are over
    one universe, it warns once and calls [with_columns].  For a table
    [self] with no column named [self] it returns what [with_columns]
    returns: the column names of [self], over its universe, with the types
    of [other] for the columns that [other] has.  For a table [self] with
    a column named [self] it raises [TypeError]. *)
Theorem update_cells_checks_columns self other g :
  ((exists k, k ∈ keys other /\ k ∉ keys self) ->
   update_cells self other g =
     (Raised (ValueError
        "Columns of the argument in Table.update_cells() not present in the updated table."),
      g)) /\
  (well_formed self -> well_formed other ->
   (forall k, k ∈ keys other -> k ∈ keys self) ->
   _universe self = _universe other ->
   ("self" ∉ keys self ->
    exists t g',
      update_cells self other g = (Returned t, g') /\
      warnings g' = warnings g ++
        ["Key sets of self and other in update_cells are the same. Using with_columns instead of update_cells."] /\
      universe_solver g' = universe_solver g /\
      keys t = keys self /\ _universe t = _universe self /\
      forall n, dtype_of t n =
                match dtype_of other n with
                | Some ty => Some ty
                | None => dtype_of self n
                end) /\
   ("self" ∈ keys self ->
    exists msg g', update_cells self other g = (Raised (TypeError msg), g'))).
Proof.
  split.
  - intros (k & Hk & Hnk). unfold update_cells.
    assert (Hall : forallb (fun k => pydict.contains k (_columns self)) (keys other)
                   = false).
    { apply not_true_is_false. intros Hall. rewrite forallb_forall in Hall.
      specialize (Hall k (proj1 (list_elem_of_In _ _) Hk)).
      unfold pydict.contains in Hall. by apply bool_decide_eq_true in Hall. }
    by rewrite Hall.
  - intros Hwf Hwfo Hsub Hu. pose proof Hwf as [Hd Hid Hcols _ _].
    pose proof Hwfo as [Hdo Hido Hcolso _ _].
    rewrite update_cells_with_columns by done.
    set (msg := "Key sets of self and other in update_cells are the same. Using with_columns instead of update_cells.").
    set (g1 := (warn msg g).2).
    set (refs := map (fun nc : string * Column => (other, nc.2, nc.1)) (_columns other)).
    set (kwargs := map (fun nc => (nc.1, ColumnReference other nc.2 nc.1))
                       (_columns other)).
    assert (Hnamed : smart_names (map colref_expr refs) = Some kwargs).
    { rewrite smart_names_references. unfold refs, kwargs. by rewrite map_map. }
    assert (Hkk : pydict.keys (kwargs ++ []) = keys other).
    { rewrite app_nil_r.
      apply (DictFacts.keys_map (fun nc => ColumnReference other nc.2 nc.1)). }
    assert (Hdeps : Forall (fun ne : string * ColumnExpression =>
                      Forall (fun d => column_universe d = _universe self)
                        (_dependencies ne.2)) (kwargs ++ [])).
    { rewrite app_nil_r. apply Forall_map. apply Forall_forall. intros [n c] Hin. simpl.
      repeat constructor. rewrite Hu.
      unfold columns_in_universe in Hcolso. rewrite Forall_forall in Hcolso.
      apply Hcolso. apply list_elem_of_In, in_map_iff. exists (n, c).
      split; [done|]. by apply list_elem_of_In. }
    split.
    + intros Hself.
      destruct (runs_returned _ g1 _
                  (with_columns_runs_named self (map colref_expr refs) [] kwargs g1
                     Hwf Hself Hnamed ltac:(by rewrite Hkk)
                     ltac:(by intros k; rewrite Hkk; apply Hsub) Hdeps))
        as (t & g' & Hr & [Hs Hw] & _ & Hk & Hut & _ & _ & Hdt).
      exists t, g'. split; [exact Hr|].
      split; [by rewrite Hw|]. split; [by rewrite Hs|]. split; [done|].
      split; [done|].
      intros n. rewrite Hdt, app_nil_r. unfold kwargs, dtype_of.
      rewrite (DictFacts.get_map (fun n c => ColumnReference other c n)).
      destruct (pydict.get n (_columns other)) as [c|] eqn:Hc; simpl; [|done].
      assert (Hn : n ∈ keys self) by (by eapply Hsub, DictFacts.get_Some_key).
      by destruct (DictFacts.get_is_Some _ _ Hn) as [c' ->].
    + intros Hself.
      apply (with_columns_rejects self (map colref_expr refs) [] kwargs g1
               Hwf Hself Hnamed); [by rewrite Hkk| |done].
      intros k. rewrite Hkk. apply Hsub.
Qed.

(** *** [with_id], [with_id_from] and [filter] *)

Lemma validate_expression_raises self e (g : @ParseGraph S) :
  ~ Forall (fun d => column_universe d = _universe self) (_dependencies e) ->
  _validate_expression self e g =
    (Raised (ValueError
       "You cannot use this reference in this context. Its universe is different than the universe of the table the method was called on."),
     g).
Proof.
  intros Hd. unfold _validate_expression, bind.
  induction (_dependencies e) as [|d ds IH]; [by destruct Hd|].
  simpl. unfold bind.
  destruct (Pos.eqb_spec (_universe self) (column_universe d)) as [Heq|Hne];
    simpl; [|done].
  assert (Hn : ~ Forall (fun d => column_universe d = _universe self) ds).
  { intros Hall. apply Hd. by constructor. }
  specialize (IH Hn).
  by destruct (for_each _ ds g) as [[ys|e'] g1]; simplify_eq.
Qed.

(** X17.  [self.with_id(new_index)] raises [ValueError] for a column of
    another universe, and [TypeError] for a column of the universe of
    [self] that is not of type [Pointer]; neither changes the solver or
    the warnings.
    Otherwise it returns the columns of [self], wrapped in a [Reindex]
    context, over a universe that the solver hands out for this call, with
    no primary-key columns. *)
Theorem with_id_requires_pointer self (new_index : ColRef) g :
  (column_universe new_index.1.2 <> _universe self ->
   exists e g', with_id self new_index g = (Raised e, g') /\
     e = ValueError
       "You cannot use this reference in this context. Its universe is different than the universe of the table the method was called on." /\
     frame g g') /\
  (column_universe new_index.1.2 = _universe self ->
   column_dtype new_index.1.2 <> dt.POINTER ->
   exists e g', with_id self new_index g = (Raised e, g') /\
     e = TypeError "Pathway supports reindexing Tables with Pointer type only." /\
     frame g g') /\
  (column_universe new_index.1.2 = _universe self ->
   column_dtype new_index.1.2 = dt.POINTER ->
   exists t g',
     with_id self new_index g = (Returned t, g') /\
     _universe t = (new_universe (universe_solver g)).1 /\
     universe_solver g' = (new_universe (universe_solver g)).2 /\
     _columns t =
       wrap_columns self
         (ReindexContext (new_universe (universe_solver g)).1
            (_eval self (colref_expr new_index) None))
         (_columns self) /\
     _pk_columns t = []).
Proof.
  destruct new_index as [[tbl c] n]. simpl. split; [|split].
  - intros Hne. unfold with_id, _with_new_index, contextualized_operator, bind.
    simpl. rewrite validate_expression_raises.
    + eexists _, _. split; [done|]. by split.
    + simpl. intros Hall. by apply Forall_inv in Hall.
  - intros Hu Hty. unfold with_id, _with_new_index, contextualized_operator, bind.
    simpl. rewrite validate_expression_pure by (simpl; by repeat constructor).
    unfold eval_type. simpl.
    assert (Hp : dt.is_Pointer (column_dtype c) = false)
      by (by destruct (column_dtype c)).
    rewrite Hp. simpl. eexists _, _. split; [done|]. by split.
  - intros Hu Hty. unfold with_id, _with_new_index, contextualized_operator, bind.
    simpl. rewrite validate_expression_pure by (simpl; by repeat constructor).
    unfold eval_type. simpl. rewrite Hty. simpl. rewrite Pos.eqb_refl. simpl.
    unfold Universe_, solver_call. simpl.
    destruct (new_universe (universe_solver g)) as [u s] eqn:Hnew. simpl.
    eexists _, _. split; [done|]. by repeat split.
Qed.

(** X18.  [self.filter(e)] raises [TypeError] when [e] is not boolean,
    before anything is built.  For a boolean [e] over the universe of [self] that
    is not a test [col is not None], it returns the columns of [self]
    wrapped in a [Filter] context, over the subset universe that the solver
    hands out for this call. *)
Theorem filter_requires_bool self e g :
  (expression_dtype e <> dt.BOOL ->
   filter self e g =
     (Raised (TypeError "Filter argument of Table.filter() has to be bool."), g)) /\
  (expression_dtype e = dt.BOOL ->
   Forall (fun d => column_universe d = _universe self) (_dependencies e) ->
   get_column_filtered_by_is_none e = None ->
   exists t g',
     filter self e g = (Returned t, g') /\
     _universe t = (get_subset (universe_solver g) (_universe self)).1 /\
     universe_solver g' = (get_subset (universe_solver g) (_universe self)).2 /\
     _columns t =
       wrap_columns self
         (FilterContext (get_subset (universe_solver g) (_universe self)).1
            (_eval self e None) (_universe self))
         (_columns self) /\
     warnings g' = warnings g).
Proof.
  split.
  - intros Hty. unfold filter, eval_type.
    by rewrite bool_decide_false by done.
  - intros Hty Hdeps Hnone. unfold filter, eval_type.
    rewrite bool_decide_true by done. simpl. rewrite Hnone.
    unfold _filter, contextualized_operator, bind. simpl.
    rewrite validate_expression_pure by done. simpl. rewrite Pos.eqb_refl. simpl.
    unfold subset, solver_call. simpl.
    destruct (get_subset (universe_solver g) (_universe self)) as [u s] eqn:Hsub.
    simpl. eexists _, _. split; [done|]. by repeat split.
Qed.

(** *** [cast_to_types] and [update_types] *)

(** X19.  [cast_to_types] and [update_types] raise [TypeError] for the
    keyword [self], and [ValueError] for a name that is not a column,
    before anything is built.  For names of columns of a well-formed table
    with no column named [self] they return a well-formed table over the
    same universe with the same column names, in which the named columns
    have the types given and the others the types they had.  For names of
    columns of a well-formed table with a column named [self] they raise
    [TypeError]. *)
Theorem cast_to_types_retypes self kwargs g :
  ("self" ∈ pydict.keys kwargs ->
   (exists msg g', cast_to_types self kwargs g = (Raised (TypeError msg), g')) /\
   (exists msg g', update_types self kwargs g = (Raised (TypeError msg), g'))) /\
  (forall pre bad post,
     "self" ∉ pydict.keys kwargs ->
     pydict.keys kwargs = pre ++ bad :: post ->
     (forall k, k ∈ pre -> k ∈ keys self) -> bad ∉ keys self ->
     cast_to_types self kwargs g =
       (Raised (ValueError
          "Table.cast_to_types() argument name has to be an existing table column name."),
        g) /\
     update_types self kwargs g =
       (Raised (ValueError
          "Table.update_types() argument name has to be an existing table column name."),
        g)) /\
  (well_formed self -> NoDup (pydict.keys kwargs) ->
   (forall k, k ∈ pydict.keys kwargs -> k ∈ keys self) ->
   ("self" ∉ keys self ->
    (exists t g', cast_to_types self kwargs g = (Returned t, g') /\
                  retyped self kwargs t /\ frame g g') /\
    (exists t g', update_types self kwargs g = (Returned t, g') /\
                  retyped self kwargs t /\ frame g g')) /\
   ("self" ∈ keys self ->
    (exists msg g', cast_to_types self kwargs g = (Raised (TypeError msg), g')) /\
    (exists msg g', update_types self kwargs g = (Raised (TypeError msg), g')))).
Proof.
  split; [|split].
  - intros Hkw. split.
    + unfold cast_to_types. by apply keywords_rejects.
    + unfold update_types. by apply keywords_rejects.
  - intros pre bad post Hkw Hk Hpre Hbad.
    assert (Hcheck : forall msg,
      for_each (fun name =>
          if negb (pydict.contains name (_columns self))
          then raise (ValueError msg) else ret tt : M unit)
        (pydict.keys kwargs) g = (Raised (ValueError msg), g)).
    { intros msg. rewrite Hk. apply (for_each_raises _ (fun _ => tt)).
      - intros k Hin. by rewrite DictFacts.contains_true by by apply Hpre.
      - unfold pydict.contains. by rewrite bool_decide_false by done. }
    split.
    + unfold cast_to_types. rewrite keywords_pass by done.
      unfold bind. by rewrite Hcheck.
    + unfold update_types. rewrite keywords_pass by done.
      unfold bind. by rewrite Hcheck.
  - intros Hwf Hnd Hsub. split; intros Hself; split.
    + destruct (runs_returned _ g _
                  (cast_to_types_runs self kwargs g Hwf Hself Hnd Hsub))
        as (t & g' & Hr & Hf & Hret). eauto.
    + destruct (runs_returned _ g _
                  (update_types_runs self kwargs g Hwf Hself Hnd Hsub))
        as (t & g' & Hr & Hf & Hret). eauto.
    + by apply cast_to_types_rejects.
    + by apply update_types_rejects.
Qed.

(** *** [with_prefix] *)

Lemma pop_all_everything (d : pydict.dict Column) (g : @ParseGraph S) :
  NoDup (pydict.keys d) -> pop_all (pydict.keys d) d g = (Returned [], g).
Proof.
  intros Hd. rewrite pop_all_returns by done. do 2 f_equal.
  induction d as [|[k c] d IH]; [done|].
  rewrite (filter_cons_False _ (k, c)).
  - apply NoDup_cons in Hd as [Hk Hd].
    trans (base.filter (fun kv : string * Column => kv.1 ∉ pydict.keys d) d);
      [|by apply IH].
    apply DictFacts.filter_iff_in.
    intros [k' c'] Hin. simpl. rewrite not_elem_of_cons. split; [by intros [_ ?]|].
    intros Hn. exfalso. apply Hn. apply list_elem_of_In, in_map_iff.
    exists (k', c'). split; [done|]. by apply list_elem_of_In.
  - simpl. intros Hn. apply Hn. apply list_elem_of_here.
Qed.

(** [with_prefix] hands every column to [rename_columns] as a keyword
    argument, under its prefixed name. *)
Lemma with_prefix_rename_columns self prefix (g : @ParseGraph S) :
  is_dict self -> "id" ∉ keys self ->
  with_prefix self prefix g =
    rename_columns self
      (map (fun nc => (String.append prefix nc.1, ByRef (self, nc.2, nc.1)))
         (_columns self)) g.
Proof.
  intros Hd Hid.
  pose proof (DictFacts.NoDup_prefixed prefix _ Hd) as Hndp.
  unfold with_prefix, rename_by_dict.
  unfold keys at 1, pydict.keys. rewrite map_map.
  unfold bind at 1.
  rewrite (for_each_pure _ (fun nc => (ByName nc.1, String.append prefix nc.1))
             (fun nc => (String.append prefix nc.1, ByRef (self, nc.2, nc.1)))).
  - by rewrite DictFacts.of_items_id
      by (by rewrite (DictFacts.keys_prefixed prefix (fun nc => ByRef (self, nc.2, nc.1)))).
  - intros [n c] Hin. unfold bind. simpl fst.
    by rewrite (getitem_name_pure self n c).
Qed.

(** X20.  [with_prefix] renames every column of a table with distinct
    column names, none of them [id].  When no prefixed name is [self] or
    [id], it returns a table that has the prefixed names in the order of
    the columns of [self], over the universe of [self], and the column of
    a prefixed name has the type of the column it renames.  When a
    prefixed name is [self], it raises [TypeError]. *)
Theorem with_prefix_renames_every_column self prefix g :
  is_dict self -> "id" ∉ keys self ->
  ((forall n, n ∈ keys self ->
      String.append prefix n <> "self" /\ String.append prefix n <> "id") ->
   exists t g',
     with_prefix self prefix g = (Returned t, g') /\
     keys t = map (String.append prefix) (keys self) /\
     _universe t = _universe self /\
     (forall n, dtype_of t (String.append prefix n) = dtype_of self n) /\
     frame g g') /\
  ((exists n, n ∈ keys self /\ String.append prefix n = "self") ->
   exists msg g', with_prefix self prefix g = (Raised (TypeError msg), g')).
Proof.
  intros Hd Hid.
  pose proof (DictFacts.NoDup_prefixed prefix _ Hd) as Hndp.
  assert (Hkeys : pydict.keys
                    (map (fun nc : string * Column =>
                            (String.append prefix nc.1, ByRef (self, nc.2, nc.1)))
                       (_columns self)) = map (String.append prefix) (keys self)).
  { apply (DictFacts.keys_prefixed prefix (fun nc => ByRef (self, nc.2, nc.1))). }
  rewrite with_prefix_rename_columns by done. split.
  - intros Hnames.
  cut (runs (rename_columns self
               (map (fun nc => (String.append prefix nc.1, ByRef (self, nc.2, nc.1)))
                  (_columns self))) g
         (fun t => keys t = map (String.append prefix) (keys self) /\
                   _universe t = _universe self /\
                   forall n, dtype_of t (String.append prefix n) = dtype_of self n)).
  { intros (t & g' & Hr & Hf & Hk & Hu & Hdt)%runs_returned.
    exists t, g'. by repeat (split; [done|]). }
  unfold rename_columns. rewrite keywords_pass.
  2:{ rewrite Hkeys. intros Hin. apply list_elem_of_In, in_map_iff in Hin as (n & Hn & Hin).
      apply list_elem_of_In in Hin. by destruct (Hnames n Hin). }
  apply runs_contextualized. intros g0 _.
  eapply runs_bind_pure.
  { rewrite <- (map_id (map _ (_columns self))). rewrite map_map.
    apply (for_each_pure _ _ (fun nc => (String.append prefix nc.1, nc.1))).
    intros [n c] Hin. simpl.
    rewrite DictFacts.contains_true; [done|].
    apply list_elem_of_In, in_map_iff. exists (n, c).
    split; [done|]. by apply list_elem_of_In. }
  rewrite DictFacts.of_items_id
    by (by rewrite (DictFacts.keys_prefixed prefix (fun nc => nc.1))).
  set (mapping := map (fun nc : string * Column => (String.append prefix nc.1, nc.1))
                      (_columns self)).
  assert (Hvals : pydict.values mapping = pydict.keys (_columns self)).
  { apply (DictFacts.values_map_keys (fun nc => String.append prefix nc.1)
             (fun nc => nc.1)). }
  rewrite Hvals. eapply runs_bind_pure; [by apply pop_all_everything|].
  unfold lookup_renamed.
  eapply runs_bind_pure.
  { unfold bind. unfold mapping. rewrite <- (map_id (map _ (_columns self))).
    rewrite map_map.
    rewrite (for_each_pure _ _ (fun nc => (String.append prefix nc.1, nc.2))).
    - done.
    - intros [n c] Hin. simpl. by rewrite (DictFacts.get_entry _ n c). }
  set (added := map (fun nc : string * Column => (String.append prefix nc.1, nc.2))
                    (_columns self)).
  assert (Hka : pydict.keys added = map (String.append prefix) (keys self)).
  { apply (DictFacts.keys_prefixed prefix (fun nc => nc.2)). }
  rewrite (DictFacts.of_items_id added) by (by rewrite Hka).
  change (pydict.update [] added) with (pydict.of_items added).
  rewrite (DictFacts.of_items_id added) by (by rewrite Hka).
  unfold _with_same_universe.
  set (wrapped := map (fun nc : string * Column =>
                         (nc.1, _wrap_column_in_context self (_context self) nc.2
                                  (default nc.1 (pydict.get nc.1 mapping))))
                      added).
  assert (Hkw : pydict.keys wrapped = map (String.append prefix) (keys self)).
  { unfold wrapped.
    rewrite (DictFacts.keys_map
               (fun nc => _wrap_column_in_context self (_context self) nc.2
                            (default nc.1 (pydict.get nc.1 mapping)))).
    exact Hka. }
  rewrite (DictFacts.of_items_id wrapped) by (by rewrite Hkw).
  rewrite (DictFacts.of_items_id wrapped) by (by rewrite Hkw).
  eapply runs_mono; [apply runs_init|].
  intros t (Hc & Hu & _). split; [|split; [done|]].
  + unfold keys at 1. by rewrite Hc, Hkw.
  + intros n. unfold dtype_of. rewrite Hc. unfold wrapped, added.
    rewrite map_map. simpl.
    rewrite (DictFacts.get_prefixed prefix
               (fun nc => _wrap_column_in_context self (_context self) nc.2
                            (default (String.append prefix nc.1)
                               (pydict.get (String.append prefix nc.1) mapping)))).
    by destruct (pydict.get n (_columns self)).
  - intros (n & Hn & Heq). unfold rename_columns. apply keywords_rejects.
    rewrite Hkeys, <- Heq. apply list_elem_of_In, in_map. by apply list_elem_of_In.
Qed.
End Operators.

(** *** The example tables *)

Lemma pets_from_schema :
  _from_schema example.pets_schema example.graph0 =
    (Returned example.pets, example.graph1).
Proof. reflexivity. Qed.

Lemma more_pets_from_schema :
  _from_schema example.pets_schema example.graph1 =
    (Returned example.more_pets, example.graph2).
Proof. reflexivity. Qed.

Lemma pets_names_NoDup : NoDup ["owner"; "pet"].
Proof. compute_done. Qed.

Lemma pets_names_no_id : "id" ∉ ["owner"; "pet"].
Proof. compute_done. Qed.

Lemma pets_names_no_self : "self" ∉ ["owner"; "pet"].
Proof. compute_done. Qed.

Lemma pets_well_formed : well_formed example.pets.
Proof.
  split; [apply pets_names_NoDup|apply pets_names_no_id| |reflexivity..].
  by repeat constructor.
Qed.

Lemma notes_from_schema :
  _from_schema example.notes_schema example.graph0 =
    (Returned example.notes, example.graph_notes).
Proof. reflexivity. Qed.

Lemma notes_well_formed : well_formed example.notes.
Proof.
  split; [compute_done|compute_done| |reflexivity..].
  by repeat constructor.
Qed.

Lemma more_pets_well_formed : well_formed example.more_pets.
Proof.
  split; [apply pets_names_NoDup|apply pets_names_no_id| |reflexivity..].
  by repeat constructor.
Qed.

(** Scenario S6 of the spec on the solver above: after
    [promise_are_equal(U1, U2)] and [promise_are_pairwise_disjoint(U2, U3)],
    [U1] and [U3] are disjoint, and promising them equal raises. *)
Lemma solver_scenario :
  let s1 := (solver.promise_equal solver.initial 1%positive 2%positive).2 in
  let s2 := (solver.promise_pairwise_disjoint s1 [2; 3]%positive).2 in
  solver.are_disjoint s2 [1; 3]%positive = true /\
  (solver.promise_equal s2 1%positive 3%positive).1 =
    Raised (ValueError "universes known to be disjoint cannot be equal").
Proof. split; reflexivity. Qed.

(** C1, counterexample to the claim as stated.  The key [more_pets.id] has
    the non-optional type [Pointer], and [pets.ix(more_pets.id,
    optional=True)] raises no [TypeError]: it returns a table. *)
Lemma ix_optional_pointer_key_no_type_error :
  expression_dtype example.more_pets_id = dt.POINTER /\
  ~ (exists msg g',
       table.ix example.keep_expression example.pets example.more_pets_id true None
         example.graph2 = (Raised (TypeError msg), g')).
Proof.
  split; [reflexivity|]. intros (msg & g' & Hr). vm_compute in Hr. discriminate Hr.
Qed.

(** The witness: [pets.ix(more_pets.id, optional=True)]. *)
Lemma ix_optional_accepts_pointer_witness :
  exists t g',
    table.ix example.keep_expression example.pets example.more_pets_id true None
      example.graph2 = (Returned (IxTable t), g') /\
    _universe t = 2%positive /\
    _columns t =
      wrap_columns example.pets
        (IxContext 2%positive 1%positive
           (_eval example.more_pets example.more_pets_id None) true)
        (_columns example.pets).
Proof.
  refine (proj1 (proj2 (ix_optional_accepts_pointer example.keep_expression
                          example.pets example.more_pets_id None example.more_pets
                          example.graph2 example.more_pets_id example.graph2
                          _ eq_refl _)) eq_refl).
  - right. split; [reflexivity|]. exists []. split; reflexivity.
  - repeat constructor.
Defined.

(** C2, counterexample to the claim as stated.  After
    [more_pets.with_universe_of(pets)] the solver proves the universes of
    the two tables equal; a second [more_pets.with_universe_of(pets)] still
    does not return the copy of [more_pets]. *)
Lemma with_universe_of_known_equal_is_no_copy :
  query_are_equal (universe_solver example.graph_equal)
    (_universe example.more_pets) (_universe example.pets) = true /\
  (with_universe_of example.more_pets example.pets example.graph_equal).1 <>
    (copy example.more_pets example.graph_equal).1.
Proof. split; [reflexivity|]. vm_compute. discriminate. Qed.

(** The witness: the first [more_pets.with_universe_of(pets)]. *)
Lemma with_universe_of_compares_identity_witness :
  exists t g',
    with_universe_of example.more_pets example.pets example.graph2 = (Returned t, g') /\
    _universe t = 1%positive /\
    _columns t =
      wrap_columns example.more_pets
        (PromiseSameUniverseContext 1%positive 2%positive)
        (_columns example.more_pets) /\
    universe_solver g' = universe_solver example.graph_equal.
Proof.
  refine (proj1 (proj2 (with_universe_of_compares_identity example.more_pets
                          example.pets example.graph2)) _ _ eq_refl).
  discriminate.
Defined.

(** The witness: [pets.concat(pets)] raises, and [pets.concat(more_pets)]
    after the promise that the two are disjoint returns a table over the
    union, the fresh universe 3. *)
Lemma concat_requires_disjoint_universes_witness :
  (exists e g',
     concat example.pets [example.pets] example.graph1 = (Raised e, g') /\
     warnings g' = []) /\
  (exists t g',
     concat example.pets [example.more_pets] example.graph_disjoint =
       (Returned t, g') /\
     _universe t = 3%positive /\
     warnings g' = []).
Proof.
  split.
  - exact (proj1 (concat_requires_disjoint_universes example.pets [example.pets]
                    example.graph1) eq_refl).
  - refine (proj2 (proj2 (concat_requires_disjoint_universes example.pets
                            [example.more_pets] example.graph_disjoint)
                     eq_refl)
              pets_well_formed pets_names_no_self _ _
              [("owner", dt.STR); ("pet", dt.Optional dt.STR)] eq_refl).
    + constructor; [apply more_pets_well_formed|constructor].
    + constructor; [reflexivity|constructor].
Defined.

(** The witness: the solver knows the universe of [more_pets] equal to, so a
    subset of, the universe of [pets]; [more_pets.update_rows(pets)] warns
    and returns [pets]. *)
Lemma update_rows_returns_other_witness :
  update_rows example.more_pets example.pets example.graph_equal =
    (Returned example.pets,
     {| universe_solver := universe_solver example.graph_equal;
        node_id_sequence := 1;
        nodes := [(0%nat, "_unsafe_promise_universe")];
        objects := 4%positive;
        warnings := [update_rows_warning] |}).
Proof.
  exact (update_rows_returns_other example.more_pets example.pets
           example.graph_equal eq_refl eq_refl).
Defined.

(** C5, a table with a column named [self].  The table [notes] has the
    columns [self] and [note]; [notes.filter(notes.note is not None)]
    raises [TypeError] and returns no table. *)
Lemma filter_on_self_column_raises :
  (filter example.notes example.note_is_not_none example.graph_notes).1 =
    Raised (TypeError "got multiple values for argument 'self'").
Proof. reflexivity. Qed.

(** The witness: [pets.filter(pets.pet is not None)] narrows the column
    [pet] from [Optional(str)] to [str], and
    [notes.filter(notes.note is not None)] raises [TypeError]. *)
Lemma filter_is_not_none_narrows_witness :
  (exists t g',
     filter example.pets example.pet_is_not_none example.graph1 = (Returned t, g') /\
     keys t = ["owner"; "pet"] /\
     dtype_of t "pet" = Some dt.STR /\
     (forall n, n <> "pet" -> dtype_of t n = dtype_of example.pets n) /\
     (forall n, schema_dtype (_schema t) n = dtype_of t n)) /\
  (exists msg g',
     filter example.notes example.note_is_not_none example.graph_notes =
       (Raised (TypeError msg), g')).
Proof.
  split.
  - exact (proj1 (filter_is_not_none_narrows example.pets example.pet_column "pet"
                    example.graph1 pets_well_formed eq_refl)
                 pets_names_no_self).
  - refine (proj2 (filter_is_not_none_narrows example.notes example.note_column "note"
                     example.graph_notes notes_well_formed eq_refl) _).
    apply list_elem_of_here.
Defined.

(** The witness: [pets.groupby(pets.owner).reduce(pets.owner,
    pets=count())], for the table [pets] built from its schema, returns a
    table with the columns [owner] and [pets] that keeps the two
    invariants. *)
Lemma produced_tables_keep_invariants_witness :
  groupby example.same_column example.pets [example.pets_owner] None None false
    example.graph1 = (Returned example.pets_by_owner, example.graph1) /\
  exists t g',
    GroupedTable_reduce example.pets_by_owner [example.pets_owner]
      [("pets", example.count)] example.graph1 = (Returned t, g') /\
    keys t = ["owner"; "pets"] /\
    column_names (_schema t) = keys t /\
    Forall (fun c => column_universe c = _universe t) (pydict.values (_columns t)).
Proof.
  assert (Hgroupby :
    groupby example.same_column example.pets [example.pets_owner] None None false
      example.graph1 = (Returned example.pets_by_owner, example.graph1))
    by reflexivity.
  split; [exact Hgroupby|].
  destruct (GroupedTable_reduce example.pets_by_owner [example.pets_owner]
              [("pets", example.count)] example.graph1) as [[t|e] g'] eqn:Hrun;
    [|discriminate Hrun].
  exists t, g'. split; [reflexivity|]. split.
  { pose proof Hrun as Hkeys. vm_compute in Hkeys.
    injection Hkeys as <- _. reflexivity. }
  apply (produced_tables_keep_invariants example.keep_expression
           example.element_dtype example.same_column).
  exact (produced_groupby_reduce example.keep_expression example.element_dtype
           example.same_column example.pets [example.pets_owner] None None false
           example.graph1 example.pets_by_owner example.graph1
           [example.pets_owner] [("pets", example.count)] example.graph1 t g'
           (produced_from_schema example.keep_expression example.element_dtype
              example.same_column example.pets_schema example.graph0 example.pets
              example.graph1 pets_names_NoDup pets_from_schema)
           Hgroupby Hrun).
Defined.

(** The witness: [pets.copy()] and [pets.restrict(more_pets)] after
    [more_pets.with_universe_of(pets)] return tables with the columns of
    [pets]. *)
Lemma row_operators_keep_columns_witness :
  (exists t g',
     copy example.pets example.graph1 = (Returned t, g') /\
     same_columns example.pets t) /\
  (exists t g',
     restrict example.pets example.more_pets example.graph_equal = (Returned t, g') /\
     same_columns example.pets t).
Proof.
  destruct (row_operators_keep_columns example.pets pets_names_NoDup
              pets_names_no_id) as (_ & _ & Hrestrict & Hcopy & _).
  split.
  - destruct (copy example.pets example.graph1) as [[t|e] g'] eqn:Hrun;
      [|discriminate Hrun].
    exists t, g'. split; [reflexivity|]. exact (Hcopy _ _ _ Hrun).
  - destruct (restrict example.pets example.more_pets example.graph_equal)
      as [[t|e] g'] eqn:Hrun; [|discriminate Hrun].
    exists t, g'. split; [reflexivity|]. exact (Hrestrict _ _ _ _ Hrun).
Defined.

(** The witness: [pets[["pet"]]] keeps the column [pet], and
    [pets[["pet", "age"]]] raises [KeyError]. *)
Lemma getitem_list_projects_witness :
  (exists t g',
     getitem_list example.pets [ByName "pet"] example.graph1 = (Returned t, g') /\
     keys t = ["pet"] /\ _universe t = 1%positive /\
     dtype_of t "pet" = Some (dt.Optional dt.STR)) /\
  getitem_list example.pets [ByName "pet"; ByName "age"] example.graph1 =
    (Raised (KeyError "Table has no column with name."), example.graph1).
Proof.
  split.
  - destruct (proj1 (getitem_list_projects example.pets ["pet"] example.graph1
                       pets_well_formed))
      as (t & g' & Hrun & Hkeys & Hu & Hty & _).
    + compute_done.
    + intros n ->%list_elem_of_singleton. compute_done.
    + exists t, g'. split; [exact Hrun|]. split; [exact Hkeys|].
      split; [exact Hu|]. rewrite Hty; [reflexivity|]. apply list_elem_of_here.
  - apply (proj2 (getitem_list_projects example.pets ["pet"; "age"] example.graph1
                    pets_well_formed) ["pet"] "age" []); [reflexivity| |compute_done..].
    intros n ->%list_elem_of_singleton. compute_done.
Defined.

(** The witness: [pets.without("owner")] keeps the column [pet], and
    [pets.without("owner", "owner")] raises [KeyError]. *)
Lemma without_drops_columns_witness :
  (exists t g',
     without example.pets [ByName "owner"] example.graph1 = (Returned t, g') /\
     keys t = ["pet"] /\ dtype_of t "pet" = Some (dt.Optional dt.STR)) /\
  (exists g',
     without example.pets [ByName "owner"; ByName "owner"] example.graph1 =
       (Raised (KeyError "owner"), g')).
Proof.
  split.
  - destruct (proj1 (without_drops_columns example.pets ["owner"] example.graph1
                       pets_names_NoDup))
      as (t & g' & Hrun & Hkeys & _ & Hty & _).
    + compute_done.
    + intros n ->%list_elem_of_singleton. compute_done.
    + exists t, g'. split; [exact Hrun|]. split; [exact Hkeys|].
      rewrite Hty; [reflexivity|compute_done].
  - destruct (proj2 (without_drops_columns example.pets ["owner"; "owner"]
                       example.graph1 pets_names_NoDup) ["owner"] "owner" [])
      as (g' & Hrun & _); [reflexivity|compute_done| |right; compute_done|].
    + intros n ->%list_elem_of_singleton. compute_done.
    + by exists g'.
Defined.

(** The witness: [pets.with_prefix("my_")] returns the renamed columns,
    and [notes.with_prefix("")], which renames the column [self] to
    itself, raises [TypeError]. *)
Lemma with_prefix_renames_every_column_witness :
  (exists t g',
     with_prefix example.pets "my_" example.graph1 = (Returned t, g') /\
     keys t = ["my_owner"; "my_pet"] /\
     dtype_of t "my_pet" = Some (dt.Optional dt.STR)) /\
  (exists msg g',
     with_prefix example.notes "" example.graph_notes = (Raised (TypeError msg), g')).
Proof.
  split.
  - destruct (proj1 (with_prefix_renames_every_column example.pets "my_"
                       example.graph1 pets_names_NoDup pets_names_no_id))
      as (t & g' & Hrun & Hkeys & _ & Hty & _).
    + intros n Hn. repeat (apply elem_of_cons in Hn as [->|Hn]; [split; discriminate|]).
      by apply elem_of_nil in Hn.
    + exists t, g'. split; [exact Hrun|]. split; [exact Hkeys|].
      exact (Hty "pet").
  - apply (proj2 (with_prefix_renames_every_column example.notes ""
                    example.graph_notes (wf_dict _ notes_well_formed)
                    (wf_no_id _ notes_well_formed))).
    exists "self". split; [apply list_elem_of_here|reflexivity].
Defined.
End TableFacts.

(** ** The stream checkers of the tests *)

Module KeyCheckFacts.
Import utils utils.CheckKeyConsistent.
Section KeyEntries.
Context {Pointer : Type} `{Countable Pointer}.
Context {Row : Type} `{EqDecision Row}.
Context (sorted : list (@DiffEntry Pointer Row) -> list (@DiffEntry Pointer Row)).

#[local] Abbreviation DiffEntry := (@DiffEntry Pointer Row).
#[local] Abbreviation Change := (@Change Pointer Row).
#[local] Abbreviation State := (gmap Pointer (list DiffEntry)).

(** [__init__] files every entry under its key, in the order of the sorted
    list. *)
Lemma group_lookup (entries : list DiffEntry) (state : State) k :
  deque k
    (fold_left
       (fun state entry =>
          <[key entry := default [] (state !! key entry) ++ [entry]]> state)
       entries state) =
  deque k state ++ entries_of k entries.
Proof.
  revert state. induction entries as [|e entries IH]; intros state; simpl.
  - by rewrite app_nil_r.
  - rewrite IH. unfold entries_of. unfold deque.
    destruct (decide (key e = k)) as [<-|Hne].
    + rewrite lookup_insert_eq, filter_cons_True by done. simpl.
      by rewrite <- app_assoc.
    + rewrite lookup_insert_ne, filter_cons_False by done. done.
Qed.

Lemma init_deque (state_list : list DiffEntry) k :
  deque k (__init__ sorted state_list) =
  entries_of k (sorted state_list).
Proof.
  unfold __init__. cbv zeta. rewrite group_lookup. unfold deque.
  by rewrite lookup_empty.
Qed.

(** What the loop of [__call__] does when it returns: it drops the
    entries that do not match the change, and the first that does. *)
Lemma consume_returns key row is_addition entry q (state state' : State) :
  consume key row is_addition entry q state = (Ok tt, state') ->
  exists skipped m rest,
    entry :: q = skipped ++ m :: rest /\
    entry_update m = (is_addition, row) /\
    Forall (fun e => entry_update e <> (is_addition, row)) skipped /\
    deque key state' = rest /\
    forall k, k <> key -> state' !! k = state !! k.
Proof.
  revert entry state. induction q as [|entry' q IH]; intros entry state; simpl.
  - case_bool_decide as Hm; [|discriminate].
    intros ?; simplify_eq. exists [], entry, []. unfold deque.
    rewrite lookup_delete_eq. repeat split; try done.
    intros k Hk. by rewrite lookup_delete_ne, lookup_insert_ne.
  - case_bool_decide as Hm.
    + intros ?; simplify_eq. exists [], entry, (entry' :: q). unfold deque.
      rewrite lookup_insert_eq. repeat split; try done.
      intros k Hk. by rewrite lookup_insert_ne.
    + intros (skipped & m & rest & Heq & Hmatch & Hskip & Hq & Hother)%IH.
      exists (entry :: skipped), m, rest. rewrite Heq.
      repeat split; try done.
      * constructor; [congruence|done].
      * intros k Hk. rewrite Hother by done. by rewrite lookup_insert_ne.
Qed.

Lemma call_returns key row time is_addition (state state' : State) :
  __call__ key row time is_addition state = (Ok tt, state') ->
  exists skipped m rest,
    deque key state = skipped ++ m :: rest /\
    entry_update m = (is_addition, row) /\
    Forall (fun e => entry_update e <> (is_addition, row)) skipped /\
    deque key state' = rest /\
    forall k, k <> key -> state' !! k = state !! k.
Proof.
  unfold __call__, deque at 1.
  destruct (state !! key) as [[|entry q]|] eqn:Hk; try discriminate.
  simpl. apply consume_returns.
Qed.

Lemma last_cons_app {A} (x : A) l1 l2 :
  last l1 = last l2 -> l1 <> [] -> last (x :: l1) = last l2.
Proof. intros <- Hne. destruct l1; [done|]. by rewrite last_cons_cons. Qed.

Lemma subscribe_returns changes (state state' : State) :
  subscribe changes state = (Ok tt, state') ->
  state' = ∅ /\
  forall k,
    map change_update (changes_of k changes)
      `sublist_of` map entry_update (deque k state) /\
    last (map change_update (changes_of k changes)) =
      last (map entry_update (deque k state)).
Proof.
  revert state. induction changes as [|c changes IH]; intros state; simpl.
  - unfold on_end. case_bool_decide as Hsize; [|discriminate].
    intros ?; simplify_eq. apply map_size_empty_iff in Hsize as ->.
    split; [done|]. intros k. unfold deque. rewrite lookup_empty. by split.
  - destruct (__call__ _ _ _ _ state) as [[[]|e] state1] eqn:Hcall;
      [|discriminate].
    intros [-> Hrest]%IH. split; [done|]. intros k.
    apply call_returns in Hcall
      as (skipped & m & rest & Hq & Hm & Hskip & Hq1 & Hother).
    destruct (Hrest k) as [Hsub Hlast]. unfold changes_of.
    destruct (decide (change_key c = k)) as [<-|Hne].
    + rewrite filter_cons_True by done. rewrite Hq. rewrite Hq1 in Hsub, Hlast.
      rewrite !List.map_app. cbn [map]. rewrite Hm.
      change (change_update c) with
        (change_is_addition c, change_row c).
      split.
      * apply sublist_inserts_l. by apply sublist_skip.
      * rewrite last_app_cons, !last_cons. unfold changes_of in Hlast.
        by rewrite Hlast.
    + rewrite filter_cons_False by done.
      unfold deque in *. by rewrite <- (Hother k) by done.
Qed.

(** X21.  The check of [assert_key_entries_in_stream_consistent] is
    sound: when the callback built from the expected entries is called for
    every change of a stream, in order, and then [on_end], and nothing
    raises, for every key the changes of that key, read as
    [(is_addition, row)], are a subsequence of the expected entries of
    that key in sorted order, and the last change is the last expected
    entry; a key without expected entries has no change. *)
Theorem key_entries_check_is_sound (expected : list DiffEntry)
    (changes : list Change) state' :
  assert_key_entries_in_stream_consistent sorted expected changes =
    (Ok tt, state') ->
  forall k,
    map change_update (changes_of k changes)
      `sublist_of`
      map entry_update (entries_of k (sorted expected)) /\
    last (map change_update (changes_of k changes)) =
      last (map entry_update (entries_of k (sorted expected))) /\
    (entries_of k (sorted expected) = [] -> changes_of k changes = []).
Proof.
  unfold assert_key_entries_in_stream_consistent.
  intros [_ Hall]%subscribe_returns k.
  destruct (Hall k) as [Hsub Hlast]. rewrite init_deque in Hsub, Hlast.
  split; [done|]. split; [done|]. intros Hnil. rewrite Hnil in Hsub.
  apply sublist_nil_r, fmap_nil_inv in Hsub. done.
Qed.
Lemma group_no_empty_deque (entries : list DiffEntry) (state : State) :
  no_empty_deque state ->
  no_empty_deque
    (fold_left
       (fun state entry =>
          <[key entry := default [] (state !! key entry) ++ [entry]]> state)
       entries state).
Proof.
  revert state. induction entries as [|e entries IH]; intros state Hne; simpl.
  - done.
  - apply IH. intros k q. destruct (decide (key e = k)) as [<-|Hk].
    + rewrite lookup_insert_eq. intros ?; simplify_eq.
      by destruct (default [] _).
    + rewrite lookup_insert_ne by done. apply Hne.
Qed.

Lemma consume_skips key row is_addition skipped m rest entry q (state : State) :
  entry :: q = skipped ++ m :: rest ->
  entry_update m = (is_addition, row) ->
  Forall (fun e => entry_update e <> (is_addition, row)) skipped ->
  consume key row is_addition entry q state =
    (Ok tt,
     match rest with
     | [] => delete key state
     | _ :: _ => <[key := rest]> state
     end).
Proof.
  revert entry q state.
  induction skipped as [|e skipped IH]; intros entry q state Heq Hm Hskip.
  - simpl in Heq. simplify_eq. destruct rest as [|e' rest]; simpl.
    + rewrite bool_decide_true by done. by rewrite delete_insert_eq.
    + by rewrite bool_decide_true by done.
  - simpl in Heq. simplify_eq. apply Forall_cons in Hskip as [He Hskip].
    destruct skipped as [|e' skipped]; simpl.
    + rewrite bool_decide_false by done.
      rewrite (IH m rest _ eq_refl Hm Hskip).
      destruct rest; [by rewrite delete_insert_eq|by rewrite insert_insert_eq].
    + rewrite bool_decide_false by done.
      rewrite (IH e' (skipped ++ m :: rest) _ eq_refl Hm Hskip).
      destruct rest; [by rewrite delete_insert_eq|by rewrite insert_insert_eq].
Qed.

Lemma subscribe_passes changes (state : State) :
  no_empty_deque state ->
  (forall k, NoDup (map entry_update (deque k state))) ->
  (forall k,
     map change_update (changes_of k changes)
       `sublist_of` map entry_update (deque k state) /\
     last (map change_update (changes_of k changes)) =
       last (map entry_update (deque k state))) ->
  subscribe changes state = (Ok tt, ∅).
Proof.
  revert state. induction changes as [|c changes IH]; intros state Hne Hnd Hall.
  - simpl. assert (state = ∅) as ->.
    { apply map_empty. intros k. destruct (state !! k) as [q|] eqn:Hk; [|done].
      destruct (Hall k) as [_ Hlast]. unfold deque in Hlast. rewrite Hk in Hlast.
      simpl in Hlast. symmetry in Hlast. apply last_None in Hlast.
      destruct q; [|done]. by destruct (Hne k [] Hk). }
    unfold on_end. by rewrite bool_decide_true by apply map_size_empty.
  - set (k0 := change_key c).
    destruct (Hall k0) as [Hsub Hlast]. unfold changes_of in Hsub, Hlast.
    rewrite filter_cons_True in Hsub, Hlast by done. cbn [map] in Hsub, Hlast.
    apply sublist_cons_l in Hsub as (Q1 & Q2 & HQ & Hsub).
    change (map entry_update (deque k0 state))
      with (entry_update <$> deque k0 state) in HQ.
    apply fmap_app_inv in HQ as (skipped & q2 & HQ1 & HQ2 & Hq).
    symmetry in HQ2. apply fmap_cons_inv in HQ2 as (m & rest & Hm & Hrest & ->).
    rewrite Hq in Hlast. rewrite List.map_app in Hlast. cbn [map] in Hlast.
    rewrite last_app_cons, !last_cons in Hlast.
    specialize (Hnd k0) as Hnd0. rewrite Hq in Hnd0.
    rewrite List.map_app in Hnd0. cbn [map] in Hnd0.
    apply NoDup_app in Hnd0 as (_ & Hdisj & Hnd2).
    apply NoDup_cons in Hnd2 as [Hnotin Hnd2].
    assert (Hskip : Forall (fun e => entry_update e <>
                      (change_is_addition c, change_row c)) skipped).
    { apply Forall_forall. intros e He Heq.
      apply (Hdisj (entry_update e)).
      - by apply (list_elem_of_fmap_2 entry_update).
      - rewrite Heq. rewrite <- Hm. apply elem_of_cons. by left. }
    simpl. unfold __call__. fold k0. unfold deque in Hq.
    destruct (state !! k0) as [[|entry q]|] eqn:Hk0; simpl in Hq;
      [by destruct skipped|..|by destruct skipped].
    rewrite (consume_skips k0 _ _ skipped m rest entry q state Hq
               (eq_sym Hm) Hskip).
    set (state1 := match rest with
                   | [] => delete k0 state
                   | _ :: _ => <[k0 := rest]> state
                   end).
    assert (Hd0 : deque k0 state1 = rest).
    { unfold deque, state1. destruct rest.
      - by rewrite lookup_delete_eq.
      - by rewrite lookup_insert_eq. }
    assert (Hother : forall k, k <> k0 -> state1 !! k = state !! k).
    { intros k Hk. unfold state1. destruct rest.
      - by rewrite lookup_delete_ne.
      - by rewrite lookup_insert_ne. }
    apply IH.
    + intros k q'. destruct (decide (k = k0)) as [->|Hk].
      * unfold state1. destruct rest.
        -- by rewrite lookup_delete_eq.
        -- rewrite lookup_insert_eq. intros ?; by simplify_eq.
      * rewrite Hother by done. apply Hne.
    + intros k. destruct (decide (k = k0)) as [->|Hk].
      * by rewrite Hd0.
      * unfold deque. rewrite Hother by done. apply Hnd.
    + intros k. destruct (decide (k = k0)) as [->|Hk].
      * rewrite Hd0. change (map entry_update rest) with
          (entry_update <$> rest). rewrite <- Hrest.
        split; [exact Hsub|].
        fold (changes_of k0 changes) in Hlast, Hsub.
        change (map entry_update rest) with
          (entry_update <$> rest) in Hlast. rewrite <- Hrest in Hlast.
        destruct (last (map change_update (changes_of k0 changes)))
          as [x|] eqn:Hl.
        -- destruct (last Q2) as [y|] eqn:HQ2; [done|].
           apply last_None in HQ2. rewrite HQ2 in Hsub.
           apply sublist_nil_r in Hsub.
           by rewrite Hsub in Hl.
        -- destruct (last Q2) as [y|] eqn:HQ2; [|done].
           exfalso. apply Hnotin. simplify_eq.
           rewrite <- Hm. by eapply last_Some_elem_of.
      * destruct (Hall k) as [Hs Hl]. unfold changes_of in Hs, Hl.
        rewrite filter_cons_False in Hs, Hl by done.
        unfold deque. rewrite Hother by done. by split.
Qed.

(** X22.  When the expected updates of every key are pairwise distinct,
    the check of [assert_key_entries_in_stream_consistent] is exact: it
    passes, leaving no expected entry, exactly when for every key the
    changes of that key are a subsequence of its expected entries in sorted
    order and the last change is the last expected entry. *)
Theorem key_entries_check_is_exact (expected : list DiffEntry)
    (changes : list Change) :
  (forall k, NoDup (map entry_update
                      (entries_of k (sorted expected)))) ->
  (assert_key_entries_in_stream_consistent sorted expected changes =
     (Ok tt, ∅)) <->
  (forall k,
     map change_update (changes_of k changes)
       `sublist_of`
       map entry_update (entries_of k (sorted expected)) /\
     last (map change_update (changes_of k changes)) =
       last (map entry_update (entries_of k (sorted expected)))).
Proof.
  intros Hnd. unfold assert_key_entries_in_stream_consistent. split.
  - intros [_ Hall]%subscribe_returns k. specialize (Hall k).
    by rewrite init_deque in Hall.
  - intros Hall. apply subscribe_passes.
    + apply group_no_empty_deque. intros k q. by rewrite lookup_empty.
    + intros k. rewrite init_deque. apply Hnd.
    + intros k. rewrite init_deque. apply Hall.
Qed.

(** Entries whose updates are pairwise distinct are so for every key. *)
Lemma entries_of_NoDup (entries : list DiffEntry) k :
  NoDup (map entry_update entries) ->
  NoDup (map entry_update (entries_of k entries)).
Proof.
  intros Hnd. eapply sublist_NoDup; [exact Hnd|].
  apply fmap_sublist. unfold entries_of. apply sublist_filter.
Qed.
End KeyEntries.

(** The witness: key 1 is expected to get the row [a] and then the row [b]
    instead; the stream that brings the three changes passes, and its
    changes are the expected ones. *)
Lemma key_entries_check_is_sound_witness :
  assert_key_entries_in_stream_consistent example.sorted example.expected_entries
    example.stream = (Ok tt, ∅) /\
  map change_update (changes_of 1%positive example.stream)
    `sublist_of`
    map entry_update
      (entries_of 1%positive (example.sorted example.expected_entries)) /\
  last (map change_update (changes_of 1%positive example.stream)) =
    Some (true, "b").
Proof.
  assert (Hrun : assert_key_entries_in_stream_consistent example.sorted
                   example.expected_entries example.stream = (Ok tt, ∅))
    by reflexivity.
  split; [exact Hrun|].
  destruct (key_entries_check_is_sound example.sorted example.expected_entries
              example.stream ∅ Hrun 1%positive) as (Hsub & Hlast & _).
  split; [exact Hsub|reflexivity].
Defined.

Lemma expected_entries_distinct :
  NoDup (map entry_update (example.sorted example.expected_entries)).
Proof. compute_done. Qed.

(** The witness: the stream that brings only the insertion of [b] passes
    too, and a stream passes exactly when the condition holds. *)
Lemma key_entries_check_is_exact_witness :
  let short := [mkChange 1%positive "b" 12%Z true] in
  assert_key_entries_in_stream_consistent example.sorted example.expected_entries
    short = (Ok tt, ∅) /\
  (assert_key_entries_in_stream_consistent example.sorted example.expected_entries
     short = (Ok tt, ∅) <->
   forall k,
     map change_update (changes_of k short)
       `sublist_of`
       map entry_update
         (entries_of k (example.sorted example.expected_entries)) /\
     last (map change_update (changes_of k short)) =
       last (map entry_update
               (entries_of k (example.sorted example.expected_entries)))).
Proof.
  split; [reflexivity|].
  apply (key_entries_check_is_exact example.sorted example.expected_entries).
  intros k. apply entries_of_NoDup, expected_entries_distinct.
Defined.
End KeyCheckFacts.

Module ValuesCheckFacts.
Import utils utils.CheckValuesConsistent.
Section Values.
Context {Pointer : Type} `{Countable Pointer}.
Context {Value : Type}.
Context {Hashable : Type} `{Countable Hashable}.
Context (make_value_hashable : Value -> Hashable).

#[local] Abbreviation Counter := (gmap (list Hashable) Z).
#[local] Abbreviation CapturedTable := (gmap Pointer (list Value)).
#[local] Abbreviation Data := (gmap Pointer (@Entry Hashable _ _)).
#[local] Abbreviation make_row_hashable := (make_row_hashable make_value_hashable).
#[local] Abbreviation on_end := (@on_end Pointer _ _ Value Hashable _ _ make_value_hashable).
#[local] Abbreviation __call__ := (@__call__ Pointer _ _ Value Hashable _ _ make_value_hashable).

(** *** Counters *)

Lemma count_insert (c : Counter) x y z :
  count (<[x := z]> c) y = if decide (x = y) then z else count c y.
Proof.
  unfold count. destruct (decide (x = y)) as [->|Hne].
  - by rewrite lookup_insert_eq.
  - by rewrite lookup_insert_ne.
Qed.

Lemma count_fold (l : list (list Hashable)) (c : Counter) x :
  count (fold_left (fun c x => <[x := (count c x + 1)%Z]> c) l c) x =
  (count c x + Z.of_nat (occurrences l x))%Z.
Proof.
  revert c. induction l as [|y l IH]; intros c; simpl.
  - lia.
  - rewrite IH, count_insert. unfold occurrences in *. simpl.
    destruct (decide (y = x)) as [->|Hne].
    + destruct (decide_rel eq x x); [lia|done].
    + destruct (decide_rel eq y x); [done|lia].
Qed.

Lemma count_Counter_of (l : list (list Hashable)) x : count (Counter_of l) x = Z.of_nat (occurrences l x).
Proof. unfold Counter_of. rewrite count_fold. unfold count. by rewrite lookup_empty. Qed.

Lemma Counter_eq_spec (a b : Counter) :
  Counter_eq a b = true <-> forall x, count a x = count b x.
Proof.
  unfold Counter_eq. rewrite bool_decide_eq_true. split.
  - intros Hall x. destruct (decide (x ∈ dom a ∪ dom b)) as [Hin|Hout].
    + by apply Hall.
    + apply not_elem_of_union in Hout as [Ha Hb].
      apply not_elem_of_dom in Ha, Hb. unfold count. by rewrite Ha, Hb.
  - intros Hall x _. apply Hall.
Qed.

Lemma Counter_eq_Permutation (l1 l2 : list (list Hashable)) :
  Counter_eq (Counter_of l1) (Counter_of l2) = true <-> l1 ≡ₚ l2.
Proof.
  rewrite Counter_eq_spec. rewrite (Permutation_count_occ (decide_rel (=))).
  split; intros Hall x; specialize (Hall x).
  - rewrite !count_Counter_of in Hall. unfold occurrences in Hall. lia.
  - rewrite !count_Counter_of. unfold occurrences. lia.
Qed.

(** X23.  Comparing two captured tables without their index accepts
    them exactly when their rows, made hashable, are the same up to order,
    repetitions counted, whatever the keys of the rows are; it raises
    [AssertionError] otherwise. *)
Theorem tables_equal_wo_index_iff_rows_permuted (t0 t1 : CapturedTable) :
  (assert_equal_tables_wo_index make_value_hashable t0 t1 = Ok tt <->
   map make_row_hashable (table_values t0)
     ≡ₚ map make_row_hashable (table_values t1)) /\
  (assert_equal_tables_wo_index make_value_hashable t0 t1 = Err AssertionError <->
   ~ map make_row_hashable (table_values t0)
       ≡ₚ map make_row_hashable (table_values t1)).
Proof.
  unfold assert_equal_tables_wo_index. rewrite <- Counter_eq_Permutation.
  destruct (Counter_eq _ _); split; split; try congruence; try done.
Qed.

(** *** Entries *)

Lemma map_to_list_one (c : Counter) x z :
  map_to_list c = [(x, z)] -> c = {[x := z]}.
Proof.
  intros Hl. rewrite <- (list_to_map_to_list c), Hl. simpl.
  by rewrite insert_empty.
Qed.

Lemma empty_spec (e : @Entry Hashable _ _) :
  empty e = true <-> values e = ∅.
Proof.
  unfold empty. rewrite bool_decide_eq_true. apply map_size_empty_iff.
Qed.

(** [get_element] of an entry that is not empty returns [h] exactly when
    the entry holds [h] once and nothing else, and raises [AssertionError]
    otherwise. *)
Lemma get_element_spec (e : @Entry Hashable _ _) :
  empty e = false ->
  (forall h, get_element e = Ok h <-> values e = {[h := 1%Z]}) /\
  ((forall h, values e <> {[h := 1%Z]}) -> get_element e = Err AssertionError).
Proof.
  intros Hne.
  assert (Hnil : map_to_list (values e) <> []).
  { intros Hnil%map_to_list_empty_iff. apply empty_spec in Hnil. congruence. }
  unfold get_element, validate.
  destruct (map_to_list (values e)) as [|[x z] [|p l]] eqn:Hl; [done|..].
  - apply map_to_list_one in Hl. case_bool_decide as Hz.
    + subst z. split.
      * intros h. split; [intros ?; by simplify_eq|].
        rewrite Hl. intros Heq. f_equal.
        assert (Hx : ({[x := 1%Z]} : Counter) !! h = Some 1%Z)
          by (rewrite Heq; apply lookup_singleton_eq).
        apply lookup_singleton_Some in Hx as [? _]. done.
      * intros Hall. by destruct (Hall x).
    + split; [|done]. intros h. split; [done|]. rewrite Hl. intros Heq.
      assert (Hx : ({[x := z]} : Counter) !! h = Some 1%Z)
        by (rewrite Heq; apply lookup_singleton_eq).
      apply lookup_singleton_Some in Hx as [_ ?]. done.
  - split; [|done]. intros h. split; [done|]. intros Heq.
    rewrite Heq, map_to_list_singleton in Hl. discriminate.
Qed.

Lemma elements_spec (items : list (Pointer * @Entry Hashable _ _)) :
  (forall result,
     elements items = Ok result <->
     Forall2 (fun ke h => values ke.2 = {[h := 1%Z]}) (live items) result) /\
  ((forall result, elements items <> Ok result) ->
   elements items = Err AssertionError).
Proof.
  unfold live. induction items as [|[k e] items [IH IHerr]]; simpl.
  - split; [|intros Hno; by destruct (Hno [])].
    intros result. split; [intros ?; simplify_eq; constructor|].
    by intros ->%Forall2_nil_inv_l.
  - destruct (empty e) eqn:He.
    + rewrite filter_cons_False by (simpl; congruence). by split.
    + rewrite filter_cons_True by done.
      destruct (get_element_spec e He) as [Hok Herr].
      destruct (get_element e) as [h|ex] eqn:Hget.
      * assert (Hh : values e = {[h := 1%Z]}) by by apply Hok.
        destruct (elements items) as [others|ex] eqn:Hrest.
        -- split; [|intros Hno; by destruct (Hno (h :: others))].
           intros result. split.
           ++ intros ?; simplify_eq. constructor; [done|]. by apply IH.
           ++ intros Hall. apply Forall2_cons_inv_l in Hall
                as (h' & others' & Hh' & Hall & ->).
              simpl in Hh'. apply IH in Hall. simplify_eq. f_equal. f_equal.
              assert (Hx : ({[h := 1%Z]} : Counter) !! h' = Some 1%Z)
                by (rewrite <- Hh, Hh'; apply lookup_singleton_eq).
              apply lookup_singleton_Some in Hx as [? _]. done.
        -- split.
           ++ intros result. split; [done|]. intros Hall.
              apply Forall2_cons_inv_l in Hall as (h' & others' & _ & Hall & ->).
              apply IH in Hall. discriminate.
           ++ intros _. rewrite IHerr; [done|]. intros result. congruence.
      * assert (Hnone : forall h, values e <> {[h := 1%Z]}).
        { intros h Hh. apply Hok in Hh. congruence. }
        specialize (Herr Hnone). simplify_eq. split; [|done].
        intros result. split; [done|]. intros Hall.
        apply Forall2_cons_inv_l in Hall as (h' & others' & Hh' & _ & _).
        by destruct (Hnone h').
Qed.

(** When [on_end] passes, and what it raises when it does not. *)
Lemma on_end_spec (expected : list (list Value)) (data : Data) :
  (on_end expected data = Ok tt <->
   exists result,
     Forall2 (fun ke h => values ke.2 = {[h := 1%Z]})
             (live (map_to_list data)) result /\
     result ≡ₚ map make_row_hashable expected) /\
  (on_end expected data <> Ok tt -> on_end expected data = Err AssertionError).
Proof.
  unfold CheckValuesConsistent.on_end.
  destruct (elements_spec (map_to_list data)) as [Hok Herr].
  destruct (elements (map_to_list data)) as [result|e] eqn:Hel.
  - split.
    + split.
      * destruct (Counter_eq _ _) eqn:Heq; [|discriminate].
        intros _. exists result. split; [by apply Hok|].
        by apply Counter_eq_Permutation.
      * intros (result' & Hall & Hperm). apply Hok in Hall. simplify_eq.
        apply Counter_eq_Permutation in Hperm. by rewrite Hperm.
    + by destruct (Counter_eq _ _).
  - assert (e = AssertionError) as ->.
    { assert (He : Err e = (Err AssertionError : Result (list (list Hashable))))
        by (apply Herr; intros; congruence).
      congruence. }
    split; [|done].
    split; [done|]. intros (result & Hall & _). apply Hok in Hall. discriminate.
Qed.

(** X24.  [on_end] passes exactly when every key that holds something
    holds one row, once, and these rows are the expected rows up to order;
    otherwise it raises [AssertionError]. *)
Theorem values_check_passes_iff (expected : list (list Value)) (data : Data) :
  (on_end expected data = Ok tt <->
   exists result,
     Forall2 (fun ke h => values ke.2 = {[h := 1%Z]})
             (live (map_to_list data)) result /\
     result ≡ₚ map make_row_hashable expected) /\
  (on_end expected data <> Ok tt -> on_end expected data = Err AssertionError).
Proof. apply on_end_spec. Qed.

(** *** The order of a retraction and its insertion *)

Lemma Forall2_Permutation_l {A B} (P : A -> B -> Prop) l1 l2 k :
  l1 ≡ₚ l2 -> Forall2 P l1 k -> exists k', k ≡ₚ k' /\ Forall2 P l2 k'.
Proof.
  intros Hperm. revert k.
  induction Hperm as [|x l1 l2 _ IH|x y l|l1 l2 l3 _ IH1 _ IH2]; intros k Hall.
  - exists k. by split.
  - apply Forall2_cons_inv_l in Hall as (z & k1 & Hz & Hall & ->).
    destruct (IH _ Hall) as (k' & Hk & Hall'). exists (z :: k'). split.
    + by constructor.
    + by constructor.
  - apply Forall2_cons_inv_l in Hall as (z1 & k1 & Hz1 & Hall & ->).
    apply Forall2_cons_inv_l in Hall as (z2 & k2 & Hz2 & Hall & ->).
    exists (z2 :: z1 :: k2). split; [apply perm_swap|by repeat constructor].
  - destruct (IH1 _ Hall) as (k1 & Hk1 & Hall1).
    destruct (IH2 _ Hall1) as (k2 & Hk2 & Hall2).
    exists k2. split; [by etrans|done].
Qed.

(** The condition under which [on_end] passes depends on the entries that
    hold something, up to their order. *)
Lemma on_end_live (expected : list (list Value)) (data data' : Data) :
  live (map_to_list data) ≡ₚ live (map_to_list data') ->
  on_end expected data = on_end expected data'.
Proof.
  intros Hperm.
  assert (Hiff : on_end expected data = Ok tt <-> on_end expected data' = Ok tt).
  { rewrite !(proj1 (on_end_spec _ _)). split.
    - intros (result & Hall & Hres).
      destruct (Forall2_Permutation_l _ _ _ _ Hperm Hall) as (k' & Hk & Hall').
      exists k'. split; [done|]. by rewrite <- Hk.
    - intros (result & Hall & Hres). symmetry in Hperm.
      destruct (Forall2_Permutation_l _ _ _ _ Hperm Hall) as (k' & Hk & Hall').
      exists k'. split; [done|]. by rewrite <- Hk. }
  destruct (on_end expected data) as [[]|e] eqn:Hd.
  - symmetry. by apply Hiff.
  - assert (Hno : on_end expected data <> Ok tt) by congruence.
    apply (proj2 (on_end_spec _ _)) in Hno as He.
    rewrite Hd in He. rewrite He. symmetry.
    apply (proj2 (on_end_spec _ _)). intros Hok.
    apply Hiff in Hok. congruence.
Qed.

(** X25.  For a key that holds nothing yet, an insertion followed by the
    retraction of the same row leaves nothing that [on_end] sees; the
    retraction followed by the insertion leaves the row with count zero,
    and [on_end] raises [AssertionError] whatever is expected. *)
Theorem retraction_before_insertion_is_rejected
    key row time (expected : list (list Value)) (data : Data) :
  data !! key = None ->
  (exists d1 d2,
     __call__ key row time true data = (Ok tt, d1) /\
     __call__ key row time false d1 = (Ok tt, d2) /\
     on_end expected d2 = on_end expected data) /\
  (exists d1 d2,
     __call__ key row time false data = (Ok tt, d1) /\
     __call__ key row time true d1 = (Ok tt, d2) /\
     on_end expected d2 = Err AssertionError).
Proof.
  intros Hkey.
  set (h := make_row_hashable row).
  set (lm := if bool_decide (0 < time)%Z then time else 0%Z).
  assert (Hlm : bool_decide (lm < time)%Z = false).
  { apply bool_decide_eq_false. unfold lm. case_bool_decide; lia. }
  assert (Hif : forall b : bool,
            (if b then Ok tt else Ok tt) = (Ok tt : Result unit)) by by intros [].
  split.
  - exists (<[key := mkEntry lm {[h := 1%Z]}]> data),
           (<[key := mkEntry lm ∅]> data).
    split; [|split].
    + unfold CheckValuesConsistent.__call__. rewrite Hkey. cbn.
      fold lm. change (validate _) with (Ok tt : Result unit).
      rewrite Hif. fold h. unfold count. rewrite lookup_empty. cbn.
      by rewrite insert_insert_eq, insert_empty.
    + unfold CheckValuesConsistent.__call__. rewrite lookup_insert_eq. cbn.
      rewrite Hlm. rewrite !insert_insert_eq. fold h. unfold count.
      rewrite !lookup_insert_eq, !lookup_singleton_eq. cbn.
      by rewrite insert_singleton_eq, delete_singleton_eq.
    + apply on_end_live. unfold live.
      rewrite (map_to_list_insert _ _ _ Hkey).
      by rewrite filter_cons_False by (simpl; by intros ?).
  - exists (<[key := mkEntry lm {[h := (-1)%Z]}]> data),
           (<[key := mkEntry lm {[h := 0%Z]}]> data).
    split; [|split].
    + unfold CheckValuesConsistent.__call__. rewrite Hkey. cbn.
      fold lm. change (validate _) with (Ok tt : Result unit).
      rewrite Hif. fold h. unfold count. rewrite lookup_empty. cbn.
      rewrite lookup_insert_eq. cbn. by rewrite insert_insert_eq, insert_empty.
    + unfold CheckValuesConsistent.__call__. rewrite lookup_insert_eq. cbn.
      rewrite Hlm. rewrite !insert_insert_eq. fold h. unfold count.
      rewrite lookup_singleton_eq. cbn. by rewrite insert_singleton_eq.
    + apply (proj2 (on_end_spec _ _)).
      intros (result & Hall & _)%(proj1 (on_end_spec _ _)).
      assert (Hin : (key, mkEntry lm ({[h := 0%Z]} : Counter))
                      ∈ live (map_to_list (<[key := mkEntry lm {[h := 0%Z]}]> data))).
      { apply list_elem_of_filter. split.
        - apply bool_decide_eq_false. simpl. by rewrite map_size_singleton.
        - apply elem_of_map_to_list. apply lookup_insert_eq. }
      apply list_elem_of_lookup_1 in Hin as [i Hi].
      destruct (Forall2_lookup_l _ _ _ _ _ Hall Hi) as (h' & _ & Hh'). simpl in Hh'.
      assert (Hx : ({[h' := 1%Z]} : Counter) !! h = Some 0%Z)
        by (rewrite <- Hh'; apply lookup_singleton_eq).
      apply lookup_singleton_Some in Hx as [_ ?]. done.
Qed.
End Values.

(** The witness: key 1 holds nothing, and the row [5] is inserted and
    retracted at time 3, in the two orders; nothing is expected. *)
Lemma retraction_before_insertion_is_rejected_witness :
  let call := @__call__ positive _ _ Z Z _ _ (fun v => v) 1%positive [5%Z] 3%Z in
  let on_end := @on_end positive _ _ Z Z _ _ (fun v => v) [] in
  (exists d1 d2,
     call true ∅ = (Ok tt, d1) /\ call false d1 = (Ok tt, d2) /\
     on_end d2 = on_end ∅) /\
  (exists d1 d2,
     call false ∅ = (Ok tt, d1) /\ call true d1 = (Ok tt, d2) /\
     on_end d2 = Err AssertionError).
Proof.
  exact (retraction_before_insertion_is_rejected (fun v : Z => v)
           1%positive [5%Z] 3%Z [] ∅ eq_refl).
Defined.
End ValuesCheckFacts.
